(** * Baitoru scraper: a shallow embedding of [fetch_info_baitoru.py] and
    [baitoru_scraper.py], and the properties of their fetch, extraction, crawl
    and export code.

    Python [str] values are sequences of Unicode code points; they are
    modelled as [list N].  Python sets are [gset]s, the registry [dict] is an
    insertion-ordered association list, and the effects of the program
    (HTTP requests, sleeps, console output, raised exceptions) are threaded
    through a small state-and-exception monad over an event trace. *)

From Stdlib Require Import ZArith NArith List String Ascii Lia.
From stdpp Require Import base option list gmap sets.

Local Open Scope Z_scope.

(** ** Python strings *)

Definition pychar := N.
Definition pystr := list N.

(** An ASCII literal of the source as a [pystr]. *)
Definition py (s : string) : pystr :=
  List.map N_of_ascii (list_ascii_of_string s).

(** Truthiness of a [str] ([if s:]). *)
Definition truthy (s : pystr) : bool :=
  match s with [] => false | _ => true end.

(** Truthiness of an [Optional[str]]. *)
Definition otruthy (o : option pystr) : bool :=
  match o with Some s => truthy s | None => false end.

Definition pystr_eqb (a b : pystr) : bool := bool_decide (a = b).

Fixpoint starts_with (p s : pystr) : bool :=
  match p, s with
  | [], _ => true
  | c :: p', d :: s' => (c =? d)%N && starts_with p' s'
  | _ :: _, [] => false
  end.

(** [needle in s] on strings. *)
Fixpoint contains (needle s : pystr) : bool :=
  starts_with needle s ||
  match s with
  | [] => false
  | _ :: t => contains needle t
  end.

(** [s.lower()], as far as the test [s.lower().startswith("javascript:")]
    needs it: only the ASCII capitals lower onto the characters of that
    prefix. *)
Definition ascii_lower (c : pychar) : pychar :=
  if ((65 <=? c) && (c <=? 90))%N then (c + 32)%N else c.
Definition lower (s : pystr) : pystr := List.map ascii_lower s.

(** ** Regular expressions

    A backtracking matcher for the fragment of Python's [re] the program
    uses: character classes, concatenation, ordered alternation, a greedy
    [+] over a character class, and capturing groups.  [search] scans the
    start positions from left to right, as [Pattern.search] does. *)
Module Re.

Inductive re :=
| Eps
| Chr (cls : pychar -> bool)
| Cat (r1 r2 : re)
| Alt (r1 r2 : re)
| Plus (cls : pychar -> bool)
| Group (r : re).

Section Matcher.
Context {R : Type}.

(** Greedy [cls*]: take a character when possible, give it back when the
    continuation fails. *)
Fixpoint star (cls : pychar -> bool) (s : pystr) (k : pystr -> option R)
    : option R :=
  match s with
  | c :: t =>
      if cls c
      then match star cls t k with
           | Some x => Some x
           | None => k s
           end
      else k s
  | [] => k []
  end.

(** [run r s caps k]: match [r] at the head of [s]; [caps] holds the groups
    closed so far and [k] matches what follows.  The patterns of the program
    have one group each, so groups are numbered as they close. *)
Fixpoint run (r : re) (s : pystr) (caps : list pystr)
    (k : pystr -> list pystr -> option R) : option R :=
  match r with
  | Eps => k s caps
  | Chr cls =>
      match s with
      | c :: t => if cls c then k t caps else None
      | [] => None
      end
  | Cat r1 r2 => run r1 s caps (fun s' caps' => run r2 s' caps' k)
  | Alt r1 r2 =>
      match run r1 s caps k with
      | Some x => Some x
      | None => run r2 s caps k
      end
  | Plus cls =>
      match s with
      | c :: t => if cls c then star cls t (fun s' => k s' caps) else None
      | [] => None
      end
  | Group r1 =>
      run r1 s caps
        (fun s' caps' => k s' (caps' ++ [take (length s - length s') s]))
  end.

End Matcher.

(** The words a pattern matches, without regard to priority. *)
Inductive matches : re -> pystr -> Prop :=
| matches_eps : matches Eps []
| matches_chr cls c : cls c = true -> matches (Chr cls) [c]
| matches_cat r1 r2 w1 w2 :
    matches r1 w1 -> matches r2 w2 -> matches (Cat r1 r2) (w1 ++ w2)
| matches_alt_l r1 r2 w : matches r1 w -> matches (Alt r1 r2) w
| matches_alt_r r1 r2 w : matches r2 w -> matches (Alt r1 r2) w
| matches_plus cls w :
    w <> [] -> Forall (fun c => cls c = true) w -> matches (Plus cls) w
| matches_group r w : matches r w -> matches (Group r) w.

(** A match object: the matched text ([group(0)]) and the groups. *)
Record Match := { group0 : pystr; groups : list pystr }.

(** [m.group(1)]. *)
Definition group1 (m : Match) : pystr := List.nth 0 (groups m) [].

(** [Pattern.match]: a match anchored at the start of [s]. *)
Definition match_here (r : re) (s : pystr) : option Match :=
  run r s []
    (fun s' caps =>
       Some {| group0 := take (length s - length s') s; groups := caps |}).

(** [Pattern.search]: the leftmost match. *)
Fixpoint search (r : re) (s : pystr) : option Match :=
  match match_here r s with
  | Some m => Some m
  | None =>
      match s with
      | [] => None
      | _ :: t => search r t
      end
  end.

(** *** Character classes *)

Definition in_range (lo hi c : N) : bool := ((lo <=? c) && (c <=? hi))%N.

(** [.] without DOTALL: anything but a line feed. *)
Definition dot (c : pychar) : bool := negb (c =? 10)%N.

(** [[0-9]]. *)
Definition ascii_digit (c : pychar) : bool := in_range 48 57 c.

(** The first code point of each run of ten decimal digits of Unicode 14
    (general category Nd), and the one longer run of mathematical digits. *)
Definition decimal_runs : list N :=
  [48; 1632; 1776; 1984; 2406; 2534; 2662; 2790; 2918; 3046; 3174; 3302;
   3430; 3558; 3664; 3792; 3872; 4160; 4240; 6112; 6160; 6470; 6608; 6784;
   6800; 6992; 7088; 7232; 7248; 42528; 43216; 43264; 43472; 43504; 43600;
   44016; 65296; 66720; 68912; 69734; 69872; 69942; 70096; 70384; 70736;
   70864; 71248; 71360; 71472; 71904; 72016; 72784; 73040; 73120; 92768;
   92864; 93008; 123200; 123632; 125264; 130032]%N.

(** [\d] on [str] patterns: any Unicode decimal digit. *)
Definition digit (c : pychar) : bool :=
  existsb (fun lo => in_range lo (lo + 9) c) decimal_runs
  || in_range 120782 120831 c.

(** A literal character under IGNORECASE, for a pattern character [p] that
    is an ASCII letter other than k, or is not a letter: the two ASCII cases,
    and the characters Unicode folds onto [i] and [s]. *)
Definition icase (p c : pychar) : bool :=
  ((c =? p)
   || (in_range 65 90 p && (c =? p + 32))
   || (in_range 97 122 p && (c =? p - 32))
   || (((p =? 105) || (p =? 73)) && ((c =? 304) || (c =? 305)))
   || (((p =? 115) || (p =? 83)) && (c =? 383)))%N.

(** A literal string, case-sensitive. *)
Fixpoint lit (s : pystr) : re :=
  match s with
  | [] => Eps
  | c :: t => Cat (Chr (N.eqb c)) (lit t)
  end.

(** A literal string under IGNORECASE. *)
Fixpoint lit_i (s : pystr) : re :=
  match s with
  | [] => Eps
  | c :: t => Cat (Chr (icase c)) (lit_i t)
  end.

End Re.

Local Set Warnings "-register-all".

(** ** The parse tree of BeautifulSoup

    A tag has a name, attributes and contents; text is a [NavigableString].
    Attribute values are kept as written; the attributes bs4 treats as
    multi-valued ([class], [rel]) are split on whitespace where it matches
    them. *)
Module Soup.

Inductive node :=
| Tag (name : pystr) (attrs : list (pystr * pystr)) (contents : list node)
| NavigableString (s : pystr).

(** [tag.get(key)]. *)
Fixpoint get (key : pystr) (attrs : list (pystr * pystr)) : option pystr :=
  match attrs with
  | [] => None
  | (k, v) :: rest => if pystr_eqb k key then Some v else get key rest
  end.

Definition attrs_of (n : node) : list (pystr * pystr) :=
  match n with Tag _ a _ => a | NavigableString _ => [] end.

Definition name_is (nm : pystr) (n : node) : bool :=
  match n with Tag x _ _ => pystr_eqb x nm | NavigableString _ => false end.

(** [tag.descendants]: the nodes below a node, in document order. *)
Fixpoint descendants (n : node) : list node :=
  match n with
  | Tag _ _ cs => List.flat_map (fun c => c :: descendants c) cs
  | NavigableString _ => []
  end.

(** [str.isspace] on one character. *)
Definition isspace (c : pychar) : bool :=
  (Re.in_range 9 13 c || Re.in_range 28 32 c || (c =? 133) || (c =? 160)
   || (c =? 5760) || Re.in_range 8192 8202 c || (c =? 8232) || (c =? 8233)
   || (c =? 8239) || (c =? 8287) || (c =? 12288))%N.

(** The whitespace-separated tokens of an attribute value. *)
Fixpoint tokens_from (cur : pystr) (s : pystr) : list pystr :=
  match s with
  | [] => match cur with [] => [] | _ => [rev cur] end
  | c :: t =>
      if isspace c
      then match cur with
           | [] => tokens_from [] t
           | _ => rev cur :: tokens_from [] t
           end
      else tokens_from (c :: cur) t
  end.
Definition tokens (s : pystr) : list pystr := tokens_from [] s.

(** Does the multi-valued attribute [key] of [n] hold the token [v]? *)
Definition has_token (key v : pystr) (n : node) : bool :=
  match get key (attrs_of n) with
  | Some s => existsb (pystr_eqb v) (tokens s) || pystr_eqb s v
  | None => false
  end.

(** [tag.string]: the single string inside a tag, if there is exactly one. *)
Fixpoint string_of (n : node) : option pystr :=
  match n with
  | NavigableString s => Some s
  | Tag _ _ [c] => string_of c
  | Tag _ _ _ => None
  end.

(** The [string=lambda s: s and text in s] filter. *)
Definition string_contains (txt : pystr) (n : node) : bool :=
  match string_of n with
  | Some s => truthy s && contains txt s
  | None => false
  end.

(** The [<a>] tags with an [href] attribute ([name="a", href=True]). *)
Definition is_a_href (n : node) : bool :=
  name_is (py "a") n && bool_decide (is_Some (get (py "href") (attrs_of n))).

(** [a["href"]] for such a tag. *)
Definition href (n : node) : pystr :=
  default [] (get (py "href") (attrs_of n)).

(** The same tree with every [href] of an [<a>] tag rewritten by [f]. *)
Definition map_attr (key : pystr) (f : pystr -> pystr)
    (attrs : list (pystr * pystr)) : list (pystr * pystr) :=
  List.map (fun kv => if pystr_eqb kv.1 key then (kv.1, f kv.2) else kv) attrs.

Fixpoint map_href (f : pystr -> pystr) (n : node) : node :=
  match n with
  | Tag nm attrs cs =>
      Tag nm
        (if pystr_eqb nm (py "a") then map_attr (py "href") f attrs else attrs)
        (List.map (map_href f) cs)
  | NavigableString s => NavigableString s
  end.

(** [soup.find_all("a", href=True)]. *)
Definition find_all_a_href (soup : node) : list node :=
  List.filter is_a_href (descendants soup).

(** [tag.find("a", href=True)]. *)
Definition find_a_href (n : node) : option node :=
  head (find_all_a_href n).

(** [soup.select("ul.ul01 li.li01")]: the [li.li01] elements that have a
    [ul.ul01] ancestor, in document order.  [inside] tells whether such an
    ancestor has been passed. *)
Definition is_ul01 (n : node) : bool :=
  name_is (py "ul") n && has_token (py "class") (py "ul01") n.
Definition is_li01 (n : node) : bool :=
  name_is (py "li") n && has_token (py "class") (py "li01") n.

Fixpoint select_rows_in (inside : bool) (n : node) : list node :=
  match n with
  | Tag _ _ cs =>
      (if inside && is_li01 n then [n] else [])
      ++ List.flat_map (select_rows_in (inside || is_ul01 n)) cs
  | NavigableString _ => []
  end.

Definition select_rows (soup : node) : list node :=
  match soup with
  | Tag _ _ cs => List.flat_map (select_rows_in false) cs
  | NavigableString _ => []
  end.

(** The strings below a tag, in document order ([tag._all_strings()]). *)
Definition all_strings (n : node) : list pystr :=
  omap (fun d => match d with
                 | NavigableString s => Some s
                 | Tag _ _ _ => None
                 end)
    (descendants n).

(** [tag.get_text()]: the strings below the tag, joined. *)
Definition get_text (n : node) : pystr := concat (all_strings n).

(** A node with the way up from it: the siblings that follow it
    ([next_siblings]) and its ancestors, the nearest first, each with the
    siblings that follow that ancestor. *)
Record place := {
  at_node : node;
  next_siblings : list node;
  parents : list (node * list node);
}.

(** The node [n] and the nodes below it, in document order, each with its
    way up; [above] is the way up from [n] and [after] its next siblings. *)
Fixpoint places_from (above : list (node * list node)) (n : node)
    (after : list node) : list place :=
  {| at_node := n; next_siblings := after; parents := above |}
  :: match n with
     | Tag _ _ cs =>
         (fix children (cs : list node) : list place :=
            match cs with
            | [] => []
            | c :: rest =>
                places_from ((n, after) :: above) c rest ++ children rest
            end) cs
     | NavigableString _ => []
     end.

(** The descendants of [soup] with their ways up. *)
Definition places (soup : node) : list place := tail (places_from [] soup []).

(** [tag.find_parent(name)]: the nearest ancestor with that name. *)
Fixpoint find_parent_in (nm : pystr) (above : list (node * list node))
    : option place :=
  match above with
  | [] => None
  | (n, after) :: up =>
      if name_is nm n
      then Some {| at_node := n; next_siblings := after; parents := up |}
      else find_parent_in nm up
  end.
Definition find_parent (nm : pystr) (p : place) : option place :=
  find_parent_in nm (parents p).

(** [tag.find_next_sibling(name)]: the first following sibling with that
    name. *)
Definition find_next_sibling (nm : pystr) (p : place) : option node :=
  List.find (name_is nm) (next_siblings p).

(** [tag.contents] *)
Definition contents (n : node) : list node :=
  match n with Tag _ _ cs => cs | NavigableString _ => [] end.

(** [child] is a child of [parent], and [after] are the children that follow
    it. *)
Definition linked (child : node) (after : list node) (parent : node) : Prop :=
  exists before, contents parent = before ++ child :: after.

(** A way up that is one of the tree below [root]: every step goes from a
    child to its parent, and the last step reaches [root]. *)
Fixpoint chain (root n : node) (after : list node)
    (above : list (node * list node)) : Prop :=
  match above with
  | [] => n = root /\ after = []
  | (parent, parent_after) :: up =>
      linked n after parent /\ chain root parent parent_after up
  end.

End Soup.

(** ** Effects: events, exceptions, and the monad *)

(** The subclasses of [requests.RequestException] the code distinguishes.
    [HTTPError] is what [Response.raise_for_status] raises; the others stand
    for the failures of the transport. *)
Inductive RequestException :=
| ConnectionError
| Timeout
| HTTPError (status : Z)
| OtherRequestException (tag : nat).

Inductive exn :=
| ExRequest (e : RequestException)
| ValueError          (* raised by urllib.parse on a malformed netloc *)
| TypeError           (* [raise None] *)
| ParserRejectedMarkup.
                      (* raised by BeautifulSoup when the parser gives up *)

(** What the program prints, kept structured instead of formatted. *)
Inductive log_msg :=
| WarnStatus (status : Z) (url : pystr)
| WarnError (e : RequestException) (url : pystr) (try : Z)
| ErrorFailed (url : pystr) (last_exc : option RequestException)
| WarnRetry (e : RequestException) (retry max_retries : Z)
| InfoAlreadyVisited (url : pystr)
| InfoListingPage (listing_count : Z) (url : pystr)
| InfoListingNewIds (n : nat)
| InfoListingJobLinks (n : nat)
| WarnMaxJobPages
| InfoJobPage (url : pystr)
| InfoJobNewIds (n : nat) (url : pystr)
| WarnRowsEmpty
| InfoScraping (url : pystr)
| ErrorScrape (url : pystr) (exc : exn)
| ResultCollected (n : nat)
| ResultSaved (n : nat) (out_path : pystr).

Inductive event :=
| EvGet (url : pystr)            (* one HTTP GET *)
| EvSleep (secs : Z)             (* time.sleep of a retry backoff *)
| EvPause                        (* time.sleep(random.uniform(..)) *)
| EvPrint (m : log_msg)
| EvWriteCsv (filepath : pystr) (table : list (list pystr)).
                                 (* EvWriteCsv: a CSV file written, header first *)

(** The trace of a run, newest event first. *)
Definition World := list event.

Inductive res (A : Type) :=
| Ok (a : A)
| Raise (e : exn).
Arguments Ok {A} a.
Arguments Raise {A} e.

Definition M (A : Type) : Type := World -> res A * World.

Definition ret {A} (a : A) : M A := fun w => (Ok a, w).
Definition raise {A} (e : exn) : M A := fun w => (Raise e, w).
Definition bind {A B} (m : M A) (k : A -> M B) : M B :=
  fun w => match m w with
           | (Ok a, w') => k a w'
           | (Raise e, w') => (Raise e, w')
           end.
Definition emit (e : event) : M unit := fun w => (Ok tt, e :: w).
Definition print (m : log_msg) : M unit := emit (EvPrint m).
Definition sleep (secs : Z) : M unit := emit (EvSleep secs).
Definition pause : M unit := emit EvPause.
(** Lifting a pure computation that may raise. *)
Definition lift {A} (r : res A) : M A := fun w => (r, w).

#[export] Instance res_ret : MRet res := @Ok.
#[export] Instance res_bind : MBind res := fun A B k r =>
  match r with Ok a => k a | Raise e => Raise e end.
#[export] Instance res_fmap : FMap res := fun A B f r =>
  match r with Ok a => Ok (f a) | Raise e => Raise e end.
#[export] Instance M_ret : MRet M := @ret.
#[export] Instance M_bind : MBind M := fun A B k m => bind m k.

(** Observations on a trace. *)
Definition is_get (e : event) : bool :=
  match e with EvGet _ => true | _ => false end.
Definition gets (w : World) : nat := length (List.filter is_get w).
Definition slept_of (e : event) : Z :=
  match e with EvSleep s => s | _ => 0 end.
Definition slept (w : World) : Z :=
  List.fold_right (fun e acc => slept_of e + acc) 0 w.

(** [1 + 2 + ... + k] *)
Fixpoint sum_upto (k : nat) : Z :=
  match k with
  | O => 0
  | S k' => sum_upto k' + Z.of_nat (S k')
  end.

(** ** The network *)

(** A response as the code reads it: the status code, [resp.text] under the
    encoding announced by the server, and [resp.text] once [resp.encoding]
    has been set to [resp.apparent_encoding]. *)
Record Response := {
  status_code : Z;
  text : pystr;
  text_apparent : pystr;
}.

Inductive get_outcome :=
| Responded (r : Response)
| Failed (e : RequestException).

(** The network is any function from the number of requests made so far and
    the URL to the outcome of the next GET. *)
Class Network := http : nat -> pystr -> get_outcome.

Definition http_get `{Network} (url : pystr) : M get_outcome :=
  fun w => (Ok (http (gets w) url), EvGet url :: w).

(** [Response.raise_for_status]: 4xx and 5xx raise [HTTPError]. *)
Definition raise_for_status (r : Response) : option RequestException :=
  if (400 <=? status_code r) && (status_code r <? 600)
  then Some (HTTPError (status_code r)) else None.

(** ** urllib.parse and the HTML parser

    The program consumes [urljoin], [urlparse] and the HTML parser as library
    functions.  They are an interface here: the properties below hold
    for every implementation.  Both URL functions can raise [ValueError]. *)
Record ParseResult := {
  scheme : pystr;
  netloc : pystr;
  path : pystr;
  params : pystr;
  query : pystr;
  fragment : pystr;
}.

Class Urllib := {
  urljoin : pystr -> pystr -> res pystr;
  urlparse : pystr -> res ParseResult;
}.

(** [BeautifulSoup(html, "lxml")]. *)
Class HtmlParser := lxml : pystr -> Soup.node.

(** *** A model of urllib.parse

    [urlsplit], [urlparse], [urlunparse] and [urljoin] of CPython 3.11 on
    [str] arguments, used to run the program on concrete pages.  The two
    validations of a netloc that need the [ipaddress] and [unicodedata]
    modules are the parameter [netloc_valid]; it is consulted only for a
    netloc with both square brackets or with a non-ASCII character. *)
Module UrllibModel.

Definition chr (c : ascii) : pychar := N_of_ascii c.

Definition mem (c : pychar) (s : pystr) : bool := existsb (N.eqb c) s.

(** [s.split(c, 1)] for a [c] known to occur: the text before and after the
    first [c]; both parts of [s.partition(c)] otherwise. *)
Fixpoint split1 (c : pychar) (s : pystr) : pystr * pystr :=
  match s with
  | [] => ([], [])
  | d :: t => if (d =? c)%N then ([], t)
              else let '(a, b) := split1 c t in (d :: a, b)
  end.

(** [s.split(c)] *)
Fixpoint split_from (c : pychar) (cur : pystr) (s : pystr) : list pystr :=
  match s with
  | [] => [rev cur]
  | d :: t => if (d =? c)%N then rev cur :: split_from c [] t
              else split_from c (d :: cur) t
  end.
Definition split (c : pychar) (s : pystr) : list pystr := split_from c [] s.

(** [sep.join(parts)] *)
Fixpoint join (sep : pystr) (parts : list pystr) : pystr :=
  match parts with
  | [] => []
  | [x] => x
  | x :: rest => x ++ sep ++ join sep rest
  end.

Definition uses_relative : list pystr :=
  List.map py ["" ; "ftp"; "http"; "gopher"; "nntp"; "imap"; "wais"; "file";
               "https"; "shttp"; "mms"; "prospero"; "rtsp"; "rtspu"; "sftp";
               "svn"; "svn+ssh"; "ws"; "wss"]%string.

Definition uses_netloc : list pystr :=
  List.map py ["" ; "ftp"; "http"; "gopher"; "nntp"; "telnet"; "imap"; "wais";
               "file"; "mms"; "https"; "shttp"; "snews"; "prospero"; "rtsp";
               "rtspu"; "rsync"; "svn"; "svn+ssh"; "sftp"; "nfs"; "git";
               "git+ssh"; "ws"; "wss"]%string.

Definition uses_params : list pystr :=
  List.map py ["" ; "ftp"; "hdl"; "prospero"; "http"; "imap"; "https";
               "shttp"; "rtsp"; "rtspu"; "sip"; "sips"; "mms"; "sftp";
               "tel"]%string.

Definition is_in (s : pystr) (l : list pystr) : bool := existsb (pystr_eqb s) l.

(** The characters valid in a scheme name. *)
Definition scheme_char (c : pychar) : bool :=
  Re.in_range 97 122 c || Re.in_range 65 90 c || Re.in_range 48 57 c
  || (c =? 43)%N || (c =? 45)%N || (c =? 46)%N.

Definition ascii_alpha (c : pychar) : bool :=
  Re.in_range 97 122 c || Re.in_range 65 90 c.

(** C0 control or space, stripped from the ends. *)
Definition c0_or_space (c : pychar) : bool := (c <=? 32)%N.
Fixpoint lstrip_c0 (s : pystr) : pystr :=
  match s with
  | c :: t => if c0_or_space c then lstrip_c0 t else s
  | [] => []
  end.
Definition strip_c0 (s : pystr) : pystr := rev (lstrip_c0 (rev (lstrip_c0 s))).

(** Tab, line feed and carriage return are removed everywhere. *)
Definition remove_unsafe (s : pystr) : pystr :=
  List.filter (fun c => negb ((c =? 9) || (c =? 10) || (c =? 13))%N) s.

(** [_splitnetloc(url, 2)]: the netloc ends at the first of [/], [?], [#]. *)
Fixpoint splitnetloc (s : pystr) : pystr * pystr :=
  match s with
  | [] => ([], [])
  | c :: t =>
      if ((c =? 47) || (c =? 63) || (c =? 35))%N then ([], s)
      else let '(a, b) := splitnetloc t in (c :: a, b)
  end.

(** [?] and [#], the characters that start the query and the fragment of
    a URL; a text is bare when it has neither. *)
Definition mark (c : pychar) : bool := ((c =? 63) || (c =? 35))%N.
Definition bare (s : pystr) : Prop := Forall (fun c => mark c = false) s.

Section Model.
Variable netloc_valid : pystr -> bool.

Definition all_ascii (s : pystr) : bool := forallb (fun c => c <? 128)%N s.

(** (scheme, netloc, path, query, fragment) *)
Definition urlsplit (url0 scheme0 : pystr)
    : res (pystr * pystr * pystr * pystr * pystr) :=
  let url := remove_unsafe (lstrip_c0 url0) in
  let scheme := remove_unsafe (strip_c0 scheme0) in
  let '(scheme, url) :=
    match url with
    | c :: _ =>
        if mem (chr ":") url && ascii_alpha c
        then let '(pre, post) := split1 (chr ":") url in
             if forallb scheme_char pre then (lower pre, post)
             else (scheme, url)
        else (scheme, url)
    | [] => (scheme, url)
    end in
  let '(netloc, url) :=
    if starts_with (py "//") url then splitnetloc (drop 2 url)
    else ([], url) in
  let lb := mem (chr "[") netloc in
  let rb := mem (chr "]") netloc in
  if (lb && negb rb) || (rb && negb lb) then Raise ValueError
  else if lb && rb && negb (netloc_valid netloc) then Raise ValueError
  else
    let '(url, fragment) :=
      if mem (chr "#") url then split1 (chr "#") url else (url, []) in
    let '(url, query) :=
      if mem (chr "?") url then split1 (chr "?") url else (url, []) in
    if truthy netloc && negb (all_ascii netloc) && negb (netloc_valid netloc)
    then Raise ValueError
    else Ok (scheme, netloc, url, query, fragment).

(** [_splitparams]: the parameters follow the first [;] of the last path
    segment. *)
Definition splitparams (url : pystr) : pystr * pystr :=
  if mem (chr "/") url then
    let segs := split (chr "/") url in
    let last_seg := List.last segs [] in
    let front := take (length url - length last_seg) url in
    if mem (chr ";") last_seg
    then let '(a, b) := split1 (chr ";") last_seg in (front ++ a, b)
    else (url, [])
  else split1 (chr ";") url.

Definition urlparse_with (url scheme0 : pystr) : res ParseResult :=
  '(scheme, netloc, url, query, fragment) ← urlsplit url scheme0;
  let '(url, params) :=
    if is_in scheme uses_params && mem (chr ";") url then splitparams url
    else (url, []) in
  Ok {| scheme := scheme; netloc := netloc; path := url; params := params;
        query := query; fragment := fragment |}.

Definition urlparse (url : pystr) : res ParseResult := urlparse_with url [].

Definition urlunsplit (scheme netloc url query fragment : pystr) : pystr :=
  let url :=
    if truthy netloc
       || (truthy scheme && is_in scheme uses_netloc
           && negb (starts_with (py "//") url))
    then py "//" ++ netloc
         ++ (if truthy url && negb (starts_with (py "/") url)
             then py "/" ++ url else url)
    else url in
  let url := if truthy scheme then scheme ++ py ":" ++ url else url in
  let url := if truthy query then url ++ py "?" ++ query else url in
  if truthy fragment then url ++ py "#" ++ fragment else url.

Definition urlunparse (p : ParseResult) : pystr :=
  let url := if truthy (params p) then path p ++ py ";" ++ params p
             else path p in
  urlunsplit (scheme p) (netloc p) url (query p) (fragment p).

(** The loop of [urljoin] that resolves the dot segments. *)
Fixpoint resolve (segments : list pystr) (resolved : list pystr)
    : list pystr :=
  match segments with
  | [] => resolved
  | seg :: rest =>
      if pystr_eqb seg (py "..") then resolve rest (removelast resolved)
      else if pystr_eqb seg (py ".") then resolve rest resolved
      else resolve rest (resolved ++ [seg])
  end.

(** [segments[1:-1] = filter(None, segments[1:-1])] *)
Definition drop_inner_empties (segments : list pystr) : list pystr :=
  match segments with
  | a :: (_ :: _) as rest =>
      a :: List.filter truthy (removelast rest) ++ [List.last rest []]
  | _ => segments
  end.

Definition urljoin (base url : pystr) : res pystr :=
  if negb (truthy base) then Ok url
  else if negb (truthy url) then Ok base
  else
    b ← urlparse_with base [];
    u ← urlparse_with url (scheme b);
    if negb (pystr_eqb (scheme u) (scheme b))
       || negb (is_in (scheme u) uses_relative)
    then Ok url
    else if is_in (scheme u) uses_netloc && truthy (netloc u)
    then Ok (urlunparse u)
    else
      let netloc' := if is_in (scheme u) uses_netloc then netloc b
                     else netloc u in
      if negb (truthy (path u)) && negb (truthy (params u)) then
        Ok (urlunparse
              {| scheme := scheme u; netloc := netloc'; path := path b;
                 params := params b;
                 query := if truthy (query u) then query u else query b;
                 fragment := fragment u |})
      else
        let base_parts := split (chr "/") (path b) in
        let base_parts :=
          if truthy (List.last base_parts []) then removelast base_parts
          else base_parts in
        let segments :=
          if starts_with (py "/") (path u) then split (chr "/") (path u)
          else drop_inner_empties (base_parts ++ split (chr "/") (path u)) in
        let resolved := resolve segments [] in
        let last_seg := List.last segments [] in
        let resolved :=
          if pystr_eqb last_seg (py ".") || pystr_eqb last_seg (py "..")
          then resolved ++ [[]] else resolved in
        let joined := join (py "/") resolved in
        Ok (urlunparse
              {| scheme := scheme u; netloc := netloc';
                 path := if truthy joined then joined else py "/";
                 params := params u; query := query u;
                 fragment := fragment u |}).

End Model.

(** The model with every bracketed or non-ASCII netloc accepted. *)
#[export] Instance cpython : Urllib :=
  Build_Urllib (urljoin (fun _ => true)) (urlparse (fun _ => true)).

End UrllibModel.

(** An attempt of the profile fetcher counts as failed when the GET raised
    or when [raise_for_status] raised on its response. *)
Definition attempt_error (o : get_outcome) : option RequestException :=
  match o with
  | Failed e => Some e
  | Responded r => raise_for_status r
  end.

(** ** Built-in functions of Python the program calls *)
Module Builtins.

(** [Py_UNICODE_TODECIMAL]: the value of a decimal digit. *)
Definition decimal_value (c : pychar) : option N :=
  match List.find (fun lo => Re.in_range lo (lo + 9) c) Re.decimal_runs with
  | Some lo => Some (c - lo)%N
  | None =>
      if Re.in_range 120782 120831 c then Some ((c - 120782) mod 10)%N
      else None
  end.

(** The first step of [int(s)] on a [str]: digits become ASCII digits and
    whitespace a blank; the text ends with a question mark at the first
    other character that is not ASCII. *)
Fixpoint to_ascii (s : pystr) : pystr :=
  match s with
  | [] => []
  | c :: t =>
      if (c <? 127)%N then c :: to_ascii t
      else if Soup.isspace c then 32%N :: to_ascii t
      else match decimal_value c with
           | Some d => (48 + d)%N :: to_ascii t
           | None => [63%N]
           end
  end.

(** [Py_ISSPACE], the whitespace of the C locale. *)
Definition c_isspace (c : pychar) : bool :=
  (Re.in_range 9 13 c || (c =? 32))%N.

Fixpoint skip_spaces (s : pystr) : pystr :=
  match s with
  | c :: t => if c_isspace c then skip_spaces t else s
  | [] => []
  end.

(** The scan of [PyLong_FromString] over digits and single underscores:
    the digits read, the most significant first, and the text after them;
    [None] when two underscores meet or an underscore ends the run. *)
Fixpoint scan (prev_underscore : bool) (s : pystr) (digits : list Z)
    : option (list Z * pystr) :=
  match s with
  | c :: t =>
      if Re.ascii_digit c then scan false t (digits ++ [Z.of_N c - 48])
      else if (c =? 95)%N then
        if prev_underscore then None else scan true t digits
      else if prev_underscore then None else Some (digits, s)
  | [] => if prev_underscore then None else Some (digits, [])
  end.

(** [sys.get_int_max_str_digits()], as CPython 3.11 sets it. *)
Definition max_str_digits : nat := 4300.

Definition decimal (digits : list Z) : Z :=
  List.fold_left (fun a d => 10 * a + d) digits 0.

(** [int(s)] for a [str]: optional whitespace, a sign, decimal digits with
    single underscores between them, optional whitespace.  Every failure is
    a [ValueError], as is a literal of more than [max_str_digits] digits. *)
Definition int (s : pystr) : res Z :=
  let s1 := skip_spaces (to_ascii s) in
  let '(sign, s2) :=
    match s1 with
    | c :: t => if (c =? 43)%N then (1, t)
                else if (c =? 45)%N then (-1, t) else (1, s1)
    | [] => (1, s1)
    end in
  if starts_with [95%N] s2 then Raise ValueError
  else
    match scan false s2 [] with
    | None => Raise ValueError
    | Some (digits, rest) =>
        if (max_str_digits <? length digits)%nat then Raise ValueError
        else if bool_decide (digits = []) then Raise ValueError
        else if truthy (skip_spaces rest) then Raise ValueError
        else Ok (sign * decimal digits)
    end.

(** The keys [sorted] computes before it sorts; a key that raises ends the
    call. *)
Fixpoint decorate {A} (key : A -> res Z) (l : list A) : res (list (Z * A)) :=
  match l with
  | [] => Ok []
  | x :: t =>
      k ← key x;
      rest ← decorate key t;
      Ok ((k, x) :: rest)
  end.

(** The place of an item among items sorted already that followed it in the
    input: before the first one whose key is not smaller. *)
Fixpoint insert_by_key {A} (kx : Z * A) (l : list (Z * A)) : list (Z * A) :=
  match l with
  | [] => [kx]
  | ky :: t => if kx.1 <=? ky.1 then kx :: l else ky :: insert_by_key kx t
  end.

(** [sorted(l, key=key)]: the stable sort by an integer key. *)
Definition sorted {A} (key : A -> res Z) (l : list A) : res (list A) :=
  decorated ← decorate key l;
  Ok (List.map snd (List.fold_right insert_by_key [] decorated)).

(** [s.replace(old, new)] for a non-empty [old]: the occurrences are taken
    from left to right and do not overlap; [skip] characters of an
    occurrence are still to be passed. *)
Fixpoint replace_from (old new : pystr) (skip : nat) (s : pystr) : pystr :=
  match s with
  | [] => []
  | c :: t =>
      match skip with
      | S k => replace_from old new k t
      | O =>
          if starts_with old s
          then new ++ replace_from old new (length old - 1) t
          else c :: replace_from old new 0 t
      end
  end.

(** [s.replace(old, new)]; an empty [old] matches before every character
    and at the end. *)
Definition replace (s old new : pystr) : pystr :=
  match old with
  | [] => new ++ List.flat_map (fun c => c :: new) s
  | _ => replace_from old new 0 s
  end.

End Builtins.

(** ** The csv module

    [csv.writer] and [csv.reader] of CPython 3.11 with the default dialect,
    [excel]: the delimiter is the comma, a field is quoted only when it has to
    be, a quote inside a quoted field is doubled, there is no escape
    character, and the writer ends a record with CR LF.  A file is its text:
    both scripts open their CSV files with [newline=""], so the text is
    written as it is, and it is read in lines that end after LF and after a CR
    that no LF follows. *)
Module Csv.

Definition DELIMITER : pychar := 44%N.
Definition QUOTECHAR : pychar := 34%N.
Definition CR : pychar := 13%N.
Definition LF : pychar := 10%N.

(** *** The writer *)

(** The characters that make the writer quote a field: the delimiter, the
    quote, and the characters of the line terminator. *)
Definition special (c : pychar) : bool :=
  ((c =? DELIMITER) || (c =? QUOTECHAR) || (c =? CR) || (c =? LF))%N.

(** The characters of a field as they are copied into the record: a quote
    is written twice. *)
Fixpoint doubled (field : pystr) : pystr :=
  match field with
  | [] => []
  | c :: rest =>
      if (c =? QUOTECHAR)%N then QUOTECHAR :: c :: doubled rest
      else c :: doubled rest
  end.

Definition write_field (field : pystr) : pystr :=
  if existsb special field then QUOTECHAR :: doubled field ++ [QUOTECHAR]
  else doubled field.

(** [writer.writerow(row)]: the fields joined by the delimiter; a record
    that has a field and would be empty is written as a quoted empty field;
    then the line terminator. *)
Definition writerow (row : list pystr) : pystr :=
  let record := UrllibModel.join [DELIMITER] (List.map write_field row) in
  match row, record with
  | _ :: _, [] => [QUOTECHAR; QUOTECHAR]
  | _, _ => record
  end ++ [CR; LF].

(** The text of a file written row by row. *)
Definition text (table : list (list pystr)) : pystr :=
  concat (List.map writerow table).

(** *** The reader *)

Inductive state :=
| START_RECORD
| START_FIELD
| IN_FIELD
| IN_QUOTED_FIELD
| QUOTE_IN_QUOTED_FIELD
| EAT_CRNL.

(** What the reader is fed: the characters of a line, and then the end of
    the line. *)
Inductive input :=
| Char (c : pychar)
| EOL.

(** The two messages of [_csv.Error] this dialect can lead to. *)
Inductive error :=
| FieldLargerThanLimit
| NewLineInUnquotedField.

Record reader := {
  mode : state;
  field : pystr;
  fields : list pystr;
}.

(** [parse_reset] *)
Definition reset : reader :=
  {| mode := START_RECORD; field := []; fields := [] |}.

Definition set_mode (next : state) (r : reader) : reader :=
  {| mode := next; field := field r; fields := fields r |}.

(** [parse_add_char], followed by the change of state. *)
Definition parse_add_char (field_limit : nat) (c : pychar) (next : state)
    (r : reader) : error + reader :=
  if (field_limit <=? length (field r))%nat then inl FieldLargerThanLimit
  else inr {| mode := next; field := field r ++ [c]; fields := fields r |}.

(** [parse_save_field], followed by the change of state. *)
Definition parse_save_field (next : state) (r : reader) : reader :=
  {| mode := next; field := []; fields := fields r ++ [field r] |}.

Definition is_newline (c : pychar) : bool := ((c =? LF) || (c =? CR))%N.

(** The case [START_FIELD] of [parse_process_char], which the case
    [START_RECORD] falls through to. *)
Definition start_field (field_limit : nat) (r : reader) (c : input)
    : error + reader :=
  match c with
  | EOL => inr (parse_save_field START_RECORD r)
  | Char c =>
      if is_newline c then inr (parse_save_field EAT_CRNL r)
      else if (c =? QUOTECHAR)%N then inr (set_mode IN_QUOTED_FIELD r)
      else if (c =? DELIMITER)%N then inr (parse_save_field START_FIELD r)
      else parse_add_char field_limit c IN_FIELD r
  end.

Definition parse_process_char (field_limit : nat) (r : reader) (c : input)
    : error + reader :=
  match mode r with
  | START_RECORD =>
      match c with
      | EOL => inr r
      | Char c' =>
          if is_newline c' then inr (set_mode EAT_CRNL r)
          else start_field field_limit r c
      end
  | START_FIELD => start_field field_limit r c
  | IN_FIELD =>
      match c with
      | EOL => inr (parse_save_field START_RECORD r)
      | Char c' =>
          if is_newline c' then inr (parse_save_field EAT_CRNL r)
          else if (c' =? DELIMITER)%N then inr (parse_save_field START_FIELD r)
          else parse_add_char field_limit c' IN_FIELD r
      end
  | IN_QUOTED_FIELD =>
      match c with
      | EOL => inr r
      | Char c' =>
          if (c' =? QUOTECHAR)%N then inr (set_mode QUOTE_IN_QUOTED_FIELD r)
          else parse_add_char field_limit c' IN_QUOTED_FIELD r
      end
  | QUOTE_IN_QUOTED_FIELD =>
      match c with
      | EOL => inr (parse_save_field START_RECORD r)
      | Char c' =>
          if (c' =? QUOTECHAR)%N
          then parse_add_char field_limit c' IN_QUOTED_FIELD r
          else if (c' =? DELIMITER)%N then inr (parse_save_field START_FIELD r)
          else if is_newline c' then inr (parse_save_field EAT_CRNL r)
          else parse_add_char field_limit c' IN_FIELD r
      end
  | EAT_CRNL =>
      match c with
      | EOL => inr (set_mode START_RECORD r)
      | Char c' => if is_newline c' then inr r else inl NewLineInUnquotedField
      end
  end.

(** The record [row] and then the records [rest], when reading those did
    not fail. *)
Definition followed_by (row : list pystr)
    (rest : error + list (list pystr)) : error + list (list pystr) :=
  match rest with
  | inl e => inl e
  | inr records => inr (row :: records)
  end.

(** A line of the file ends after [c] when [c] is LF, or CR with no LF
    after it. *)
Definition ends_line (c : pychar) (rest : pystr) : bool :=
  ((c =? LF)
   || (c =? CR) && negb match rest with c' :: _ => c' =? LF | [] => false end)%N.

(** The records the reader yields from the text [s], when it is in the state
    [r]; [in_line] says that the line at hand has characters.  After the end
    of a line the record is complete when the state is [START_RECORD]; at the
    end of the file a record that is open in a quoted field, or has
    characters in its field, is closed. *)
Fixpoint read_from (field_limit : nat) (r : reader) (in_line : bool)
    (s : pystr) : error + list (list pystr) :=
  match s with
  | [] =>
      match (if in_line then parse_process_char field_limit r EOL else inr r) with
      | inl e => inl e
      | inr r1 =>
          match mode r1 with
          | START_RECORD => inr (if in_line then [fields r1] else [])
          | IN_QUOTED_FIELD => inr [fields (parse_save_field START_RECORD r1)]
          | _ =>
              if bool_decide (field r1 = []) then inr []
              else inr [fields (parse_save_field START_RECORD r1)]
          end
      end
  | c :: rest =>
      match parse_process_char field_limit r (Char c) with
      | inl e => inl e
      | inr r1 =>
          if ends_line c rest then
            match parse_process_char field_limit r1 EOL with
            | inl e => inl e
            | inr r2 =>
                match mode r2 with
                | START_RECORD =>
                    followed_by (fields r2) (read_from field_limit reset false rest)
                | _ => read_from field_limit r2 false rest
                end
            end
          else read_from field_limit r1 true rest
      end
  end.

(** [list(csv.reader(f))] for a file [f] with the text [s]. *)
Definition reader_rows (field_limit : nat) (s : pystr)
    : error + list (list pystr) :=
  read_from field_limit reset false s.

(** [csv.field_size_limit()] as the module sets it. *)
Definition FIELD_SIZE_LIMIT : nat := Z.to_nat 131072.

End Csv.


(** [datetime.now().isoformat(timespec="seconds")]: the clock is read
    without a trace; what it shows may depend on what has happened. *)
Class Clock := isoformat_now : World -> pystr.

Definition now `{Clock} : M pystr := fun w => (Ok (isoformat_now w), w).

(** ** fetch_info_baitoru.py: the fetcher *)
Module FetchInfo.

Definition MAX_RETRIES : Z := 3.
(** [BASE_BACKOFF_SEC = 3.0]; the products [3.0 * (i + 1)] are exact, so
    seconds are integers here. *)
Definition BASE_BACKOFF_SEC : Z := 3.

Section Fetch.
Context `{Network}.

(** The body of [for i in range(MAX_RETRIES)], from iteration [i] with [n]
    iterations left, followed by the code after the loop. *)
Fixpoint fetch_html_from (url : pystr) (n : nat) (i : Z)
    (last_exc : option RequestException) : M (option pystr) :=
  match n with
  | O =>
      print (ErrorFailed url last_exc);;
      ret None
  | S n' =>
      o ← http_get url;
      match o with
      | Responded resp =>
          if status_code resp =? 200 then ret (Some (text_apparent resp))
          else print (WarnStatus (status_code resp) url);; ret None
      | Failed e =>
          print (WarnError e url (i + 1));;
          sleep (BASE_BACKOFF_SEC * (i + 1));;
          fetch_html_from url n' (i + 1) (Some e)
      end
  end.

Definition fetch_html (url : pystr) : M (option pystr) :=
  fetch_html_from url (Z.to_nat MAX_RETRIES) 0 None.

End Fetch.

(** *** Link extraction *)

Definition BASE_DOMAIN : pystr := py "www.baitoru.com".

(** [re.compile(r"/cjlist(\d+)/", re.IGNORECASE)] *)
Definition CJLIST_RE : Re.re :=
  Re.Cat (Re.lit_i (py "/cjlist"))
    (Re.Cat (Re.Group (Re.Plus Re.digit)) (Re.lit_i (py "/"))).

(** [re.compile(r"/job[0-9]+|/jobview/|/detail/", re.IGNORECASE)] *)
Definition JOB_DETAIL_RE : Re.re :=
  Re.Alt (Re.Cat (Re.lit_i (py "/job")) (Re.Plus Re.ascii_digit))
    (Re.Alt (Re.lit_i (py "/jobview/")) (Re.lit_i (py "/detail/"))).

(** Scheme and host of the site, which an absolute [href] has in front of
    the site-relative one. *)
Definition site_origins : list pystr :=
  [py "https://" ++ BASE_DOMAIN; py "http://" ++ BASE_DOMAIN].

(** [m.group(1)] of [CJLIST_RE.search(s)], when it matches. *)
Definition cjlist_id (s : pystr) : option pystr :=
  Re.group1 <$> Re.search CJLIST_RE s.

Section Extract.
Context `{Urllib} `{HtmlParser}.

(** The body of the loop of [extract_cjlist_ids_from_html]: the identifier
    one [href] contributes, if any. *)
Definition href_id (href : pystr) : option pystr :=
  match cjlist_id href with
  | Some cid => Some cid
  | None =>
      match urlparse href with
      | Raise _ => None                       (* except Exception: continue *)
      | Ok parsed => cjlist_id (path parsed)
      end
  end.

Definition extract_cjlist_ids_from_html (html : pystr) : gset pystr :=
  let soup := lxml html in
  list_to_set (omap (fun a => href_id (Soup.href a)) (Soup.find_all_a_href soup)).

(** The loop of [extract_job_links_from_listing_html] over the selected
    rows. *)
Fixpoint job_links_from (base_url : pystr) (rows : list Soup.node)
    (links : gset pystr) : res (gset pystr) :=
  match rows with
  | [] => Ok links
  | li :: rest =>
      match Soup.find_a_href li with
      | None => job_links_from base_url rest links
      | Some a =>
          abs_url ← urljoin base_url (Soup.href a);
          parsed ← urlparse abs_url;
          if truthy (netloc parsed) && negb (pystr_eqb (netloc parsed) BASE_DOMAIN)
          then job_links_from base_url rest links
          else if negb (bool_decide (is_Some (Re.search JOB_DETAIL_RE (path parsed))))
          then job_links_from base_url rest links
          else job_links_from base_url rest (links ∪ {[abs_url]})
      end
  end.

Definition extract_job_links_from_listing_html (html base_url : pystr)
    : res (gset pystr) :=
  let soup := lxml html in
  job_links_from base_url (Soup.select_rows soup) ∅.

(** この会社の情報をもっと見る *)
Definition MORE_ABOUT_COMPANY : pystr :=
  [12371; 12398; 20250; 31038; 12398; 24773; 22577; 12434; 12418; 12387;
   12392; 35211; 12427]%N.

Definition extract_company_url_from_job_html (html job_url : pystr)
    : res (option pystr) :=
  let soup := lxml html in
  match head (List.filter
                (fun a => Soup.is_a_href a
                          && Soup.string_contains MORE_ABOUT_COMPANY a)
                (Soup.descendants soup)) with
  | None => Ok None
  | Some a =>
      abs_url ← urljoin job_url (Soup.href a);
      parsed ← urlparse abs_url;
      company_url ← urljoin (scheme parsed ++ py "://" ++ netloc parsed)
                            (path parsed);
      Ok (Some company_url)
  end.

(** [href.strip()] *)
Fixpoint lstrip (s : pystr) : pystr :=
  match s with
  | c :: t => if Soup.isspace c then lstrip t else s
  | [] => []
  end.
Definition strip (s : pystr) : pystr := rev (lstrip (rev (lstrip s))).

Definition is_valid_href (href : pystr) : bool :=
  truthy href && negb (starts_with (py "javascript:") (lower (strip href))).

(** 次へ, 次のページ, 次>, Next, › *)
Definition candidates : list pystr :=
  [ [27425; 12408]; [27425; 12398; 12506; 12540; 12472]; [27425; 62];
    [78; 101; 120; 116]; [8250] ]%N.

(** [a.get("href", "")] *)
Definition href_or_empty (a : Soup.node) : pystr :=
  default [] (Soup.get (py "href") (Soup.attrs_of a)).

(** [soup.find("a", ...)] with a filter on the tag. *)
Definition find_a (f : Soup.node -> bool) (soup : Soup.node)
    : option Soup.node :=
  head (List.filter (fun a => Soup.name_is (py "a") a && f a)
          (Soup.descendants soup)).

Fixpoint next_by_text (soup : Soup.node) (base_url : pystr)
    (texts : list pystr) : res (option pystr) :=
  match texts with
  | [] => Ok None
  | txt :: rest =>
      match find_a (Soup.string_contains txt) soup with
      | Some a =>
          if is_valid_href (href_or_empty a)
          then Some <$> urljoin base_url (Soup.href a)
          else next_by_text soup base_url rest
      | None => next_by_text soup base_url rest
      end
  end.

Definition find_next_page_url (html base_url : pystr) : res (option pystr) :=
  let soup := lxml html in
  match find_a (Soup.has_token (py "rel") (py "next")) soup with
  | Some a =>
      if is_valid_href (href_or_empty a)
      then Some <$> urljoin base_url (Soup.href a)
      else next_by_text soup base_url candidates
  | None => next_by_text soup base_url candidates
  end.

End Extract.

(** *** The crawl *)

(** One entry of the registry: the dict with the four keys [company_id],
    [company_url], [source_job_url], [source_listing_url]. *)
Record info := {
  company_id : pystr;
  company_url : pystr;
  source_job_url : pystr;
  source_listing_url : pystr;
}.

(** [company_infos]: a dict keeps its keys in insertion order, and an
    assignment to a key that is present keeps its position. *)
Definition dict := list (pystr * info).

Fixpoint dict_get (k : pystr) (d : dict) : option info :=
  match d with
  | [] => None
  | (k', v) :: rest => if pystr_eqb k' k then Some v else dict_get k rest
  end.

Fixpoint dict_set (k : pystr) (v : info) (d : dict) : dict :=
  match d with
  | [] => [(k, v)]
  | (k', v') :: rest =>
      if pystr_eqb k' k then (k, v) :: rest else (k', v') :: dict_set k v rest
  end.

Definition dict_has (k : pystr) (d : dict) : bool :=
  bool_decide (is_Some (dict_get k d)).

Definition values (d : dict) : list info := List.map snd d.

(** The local variables of [crawl_baitoru_company_ids] that outlive one
    iteration. *)
Record crawl_state := {
  company_infos : dict;
  visited_listing_urls : gset pystr;
  visited_job_urls : gset pystr;
  listing_count : Z;
}.

(** f"https://{BASE_DOMAIN}/cjlist{cid}/" *)
Definition cjlist_url (cid : pystr) : pystr :=
  py "https://" ++ BASE_DOMAIN ++ py "/cjlist" ++ cid ++ py "/".

(** [[cid for cid in ids if cid not in company_infos]] *)
Definition new_ids (ids : gset pystr) (d : dict) : list pystr :=
  List.filter (fun cid => negb (dict_has cid d)) (elements ids).

(** The registration loop [for cid in new_ids: company_infos[cid] = {...}]. *)
Definition register (cids : list pystr) (job_url listing_url : pystr)
    (d : dict) : dict :=
  List.fold_left
    (fun d cid =>
       dict_set cid {| company_id := cid;
                       company_url := cjlist_url cid;
                       source_job_url := job_url;
                       source_listing_url := listing_url |} d)
    cids d.

(** The [setdefault] and the three updates of the entry it returns. *)
Definition merge (cid company_url' job_url current_listing_url : pystr)
    (d : dict) : dict :=
  let d1 :=
    match dict_get cid d with
    | Some _ => d
    | None =>
        dict_set cid {| company_id := cid;
                        company_url := company_url';
                        source_job_url := job_url;
                        source_listing_url := current_listing_url |} d
    end in
  match dict_get cid d1 with
  | None => d1
  | Some i =>
      let i1 := {| company_id := company_id i;
                   company_url := company_url';
                   source_job_url := source_job_url i;
                   source_listing_url := source_listing_url i |} in
      let i2 := if truthy (source_job_url i1) then i1
                else {| company_id := company_id i1;
                        company_url := company_url i1;
                        source_job_url := job_url;
                        source_listing_url := source_listing_url i1 |} in
      let i3 := if truthy (source_listing_url i2) then i2
                else {| company_id := company_id i2;
                        company_url := company_url i2;
                        source_job_url := source_job_url i2;
                        source_listing_url := current_listing_url |} in
      dict_set cid i3 d1
  end.

(** An identifier: a non-empty string of decimal digits. *)
Definition is_id (cid : pystr) : Prop :=
  cid <> [] /\ Forall (fun c => Re.digit c = true) cid.

(** Every key is an identifier and is the [company_id] of its entry. *)
Definition keyed_by_ids (d : dict) : Prop :=
  Forall (fun kv => is_id kv.1 /\ company_id kv.2 = kv.1) d.

(** [i'] is a later state of the entry [i]: same identifier, and each
    provenance field that was non-empty is unchanged. *)
Definition kept (i i' : info) : Prop :=
  company_id i' = company_id i
  /\ (truthy (source_job_url i) = true -> source_job_url i' = source_job_url i)
  /\ (truthy (source_listing_url i) = true ->
      source_listing_url i' = source_listing_url i).

(** Every entry of [d] is still in [d'], with its provenance kept. *)
Definition provenance_kept (d d' : dict) : Prop :=
  forall cid i, dict_get cid d = Some i ->
                exists i', dict_get cid d' = Some i' /\ kept i i'.

(** The pages a trace shows: the URLs of the [listing page] and [job page]
    lines, which precede each fetch of such a page. *)
Definition listing_page_of (e : event) : option pystr :=
  match e with EvPrint (InfoListingPage _ u) => Some u | _ => None end.
Definition job_page_of (e : event) : option pystr :=
  match e with EvPrint (InfoJobPage u) => Some u | _ => None end.
Definition listing_pages (w : World) : list pystr := omap listing_page_of w.
Definition job_pages (w : World) : list pystr := omap job_page_of w.

(** The URLs of the GETs of a trace. *)
Definition got_of (e : event) : option pystr :=
  match e with EvGet u => Some u | _ => None end.
Definition got (w : World) : list pystr := omap got_of w.

(** Every GET of a piece of trace is for a page it shows, and there are at
    most three GETs per page shown: in all, and for each URL, which is
    requested at most three times for each time it is shown as a page. *)
Definition requests_accounted (evs : World) : Prop :=
  (forall u, u ∈ got evs -> u ∈ listing_pages evs \/ u ∈ job_pages evs)
  /\ (length (got evs)
      <= 3 * (length (listing_pages evs) + length (job_pages evs)))%nat
  /\ (forall u,
        (length (List.filter (pystr_eqb u) (got evs))
         <= 3 * (length (List.filter (pystr_eqb u) (listing_pages evs))
                 + length (List.filter (pystr_eqb u) (job_pages evs))))%nat).

(** A computation whose requests are accounted for, whatever it returns. *)
Definition accounted {A} (m : M A) : Prop :=
  forall w r w', m w = (r, w') ->
                 exists evs, w' = evs ++ w /\ requests_accounted evs.

Inductive ctl := Continue | Break.

(** What the job loop may do to the state while the trace grows by [evs]:
    it adds the job pages shown to [visited_job_urls], keeps the provenance of
    every entry, and keeps the keys identifiers. *)
Definition jobs_step (evs : World) (st st' : crawl_state) : Prop :=
  visited_listing_urls st' = visited_listing_urls st
  /\ listing_count st' = listing_count st
  /\ (forall x, x ∈ visited_job_urls st'
                <-> x ∈ visited_job_urls st \/ x ∈ job_pages evs)
  /\ provenance_kept (company_infos st) (company_infos st')
  /\ (keyed_by_ids (company_infos st) -> keyed_by_ids (company_infos st')).

(** The job pages a piece of trace shows are new, distinct, and within the
    bound on [visited_job_urls]. *)
Definition jobs_bounded (max_job_pages : Z) (evs : World) (st : crawl_state)
    : Prop :=
  NoDup (job_pages evs)
  /\ (forall x, x ∈ job_pages evs -> x ∉ visited_job_urls st)
  /\ (job_pages evs = []
      \/ Z.of_nat (size (visited_job_urls st))
         + Z.of_nat (length (job_pages evs)) <= max_job_pages).

(** What the crawl may do to the state while the trace grows by [evs]: the
    pages shown are the ones added to the visited sets, [listing_count] counts
    the listing pages, and the registry keeps provenance and keys. *)
Definition crawl_step (evs : World) (st st' : crawl_state) : Prop :=
  listing_count st' = listing_count st + Z.of_nat (length (listing_pages evs))
  /\ (forall x, x ∈ visited_listing_urls st'
                <-> x ∈ visited_listing_urls st \/ x ∈ listing_pages evs)
  /\ (forall x, x ∈ visited_job_urls st'
                <-> x ∈ visited_job_urls st \/ x ∈ job_pages evs)
  /\ provenance_kept (company_infos st) (company_infos st')
  /\ (keyed_by_ids (company_infos st) -> keyed_by_ids (company_infos st')).

(** The listing pages a piece of trace shows are new, distinct, and within
    the bound on [listing_count]. *)
Definition listings_bounded (max_listing_pages : Z) (evs : World)
    (st : crawl_state) : Prop :=
  NoDup (listing_pages evs)
  /\ (forall x, x ∈ listing_pages evs -> x ∉ visited_listing_urls st)
  /\ (listing_pages evs = []
      \/ listing_count st + Z.of_nat (length (listing_pages evs))
         <= max_listing_pages).

(** How the [while] loop was left. *)
Inductive loop_exit :=
| NoNextPage          (* [listing_url] is None or empty *)
| PageBound           (* [listing_count < max_listing_pages] is false *)
| AlreadyVisited      (* the [break] after the visited test *)
| ListingFetchFailed  (* the [break] after [fetch_html] *)
| OutOfFuel.          (* the model ran out of iterations; never happens *)

Section Crawl.
Context `{Network} `{Urllib} `{HtmlParser}.

(** The body of [for job_url in job_links]. *)
Definition job_body (max_job_pages : Z) (current_listing_url job_url : pystr)
    (st : crawl_state) : M (ctl * crawl_state) :=
  if Z.of_nat (size (visited_job_urls st)) >=? max_job_pages then
    print WarnMaxJobPages;;
    mret (Break, st)
  else if bool_decide (job_url ∈ visited_job_urls st) then
    mret (Continue, st)
  else
    let visited := visited_job_urls st ∪ {[job_url]} in
    print (InfoJobPage job_url);;
    job_html ← fetch_html job_url;
    let st1 := {| company_infos := company_infos st;
                  visited_listing_urls := visited_listing_urls st;
                  visited_job_urls := visited;
                  listing_count := listing_count st |} in
    match job_html with
    | None => mret (Continue, st1)
    | Some job_html =>
        if negb (truthy job_html) then mret (Continue, st1)
        else
          let ids_on_job := extract_cjlist_ids_from_html job_html in
          let new_ids_job := new_ids ids_on_job (company_infos st) in
          (if bool_decide (new_ids_job = []) then mret tt
           else print (InfoJobNewIds (length new_ids_job) job_url));;
          let d1 := register new_ids_job job_url current_listing_url
                      (company_infos st) in
          company_url ← lift (extract_company_url_from_job_html job_html job_url);
          d2 ← (if otruthy company_url then
                  parsed ← lift (urlparse (default [] company_url));
                  match cjlist_id (path parsed) with
                  | Some cid =>
                      mret (merge cid (default [] company_url) job_url
                              current_listing_url d1)
                  | None => mret d1
                  end
                else mret d1);
          pause;;
          mret (Continue,
                {| company_infos := d2;
                   visited_listing_urls := visited_listing_urls st;
                   visited_job_urls := visited;
                   listing_count := listing_count st |})
    end.

Fixpoint job_loop (max_job_pages : Z) (current_listing_url : pystr)
    (job_links : list pystr) (st : crawl_state) : M crawl_state :=
  match job_links with
  | [] => mret st
  | job_url :: rest =>
      r ← job_body max_job_pages current_listing_url job_url st;
      match r with
      | (Break, st') => mret st'
      | (Continue, st') => job_loop max_job_pages current_listing_url rest st'
      end
  end.

(** One iteration of the [while] loop: either a [break], or the value
    [next_url] assigned to [listing_url] at its end. *)
Definition listing_body (max_job_pages : Z) (current_listing_url : pystr)
    (st : crawl_state) : M ((loop_exit + option pystr) * crawl_state) :=
  if bool_decide (current_listing_url ∈ visited_listing_urls st) then
    print (InfoAlreadyVisited current_listing_url);;
    mret (inl AlreadyVisited, st)
  else
    let st1 := {| company_infos := company_infos st;
                  visited_listing_urls :=
                    visited_listing_urls st ∪ {[current_listing_url]};
                  visited_job_urls := visited_job_urls st;
                  listing_count := listing_count st + 1 |} in
    print (InfoListingPage (listing_count st1) current_listing_url);;
    html ← fetch_html current_listing_url;
    match html with
    | None => mret (inl ListingFetchFailed, st1)
    | Some html =>
        if negb (truthy html) then mret (inl ListingFetchFailed, st1)
        else
          let ids_on_listing := extract_cjlist_ids_from_html html in
          let new_ids_listing := new_ids ids_on_listing (company_infos st1) in
          (if bool_decide (new_ids_listing = []) then mret tt
           else print (InfoListingNewIds (length new_ids_listing)));;
          let d1 := register new_ids_listing [] current_listing_url
                      (company_infos st1) in
          job_links ← lift (extract_job_links_from_listing_html html
                              current_listing_url);
          print (InfoListingJobLinks (size job_links));;
          next_url ← lift (find_next_page_url html current_listing_url);
          st2 ← job_loop max_job_pages current_listing_url (elements job_links)
                  {| company_infos := d1;
                     visited_listing_urls := visited_listing_urls st1;
                     visited_job_urls := visited_job_urls st1;
                     listing_count := listing_count st1 |};
          pause;;
          mret (inr next_url, st2)
    end.

(** [while listing_url and listing_count < max_listing_pages: ...].  The
    recursion is on [fuel]; the loop test is the one of the source. *)
Fixpoint crawl_loop (fuel : nat) (max_listing_pages max_job_pages : Z)
    (listing_url : option pystr) (st : crawl_state)
    : M (loop_exit * crawl_state) :=
  if negb (otruthy listing_url) then mret (NoNextPage, st)
  else if negb (listing_count st <? max_listing_pages) then mret (PageBound, st)
  else
    match fuel with
    | O => mret (OutOfFuel, st)
    | S fuel' =>
        r ← listing_body max_job_pages (default [] listing_url) st;
        match r with
        | (inl why, st') => mret (why, st')
        | (inr next_url, st') =>
            crawl_loop fuel' max_listing_pages max_job_pages next_url st'
        end
    end.

Definition initial_state : crawl_state :=
  {| company_infos := [];
     visited_listing_urls := ∅;
     visited_job_urls := ∅;
     listing_count := 0 |}.

(** The run of the loop from the seed; each iteration adds one to
    [listing_count], so [max_listing_pages] iterations are enough. *)
Definition crawl_run (start_listing_url : pystr)
    (max_listing_pages max_job_pages : Z) : M (loop_exit * crawl_state) :=
  crawl_loop (Z.to_nat max_listing_pages) max_listing_pages max_job_pages
    (Some start_listing_url) initial_state.

(** [crawl_baitoru_company_ids(start_listing_url, max_listing_pages,
    max_job_pages, sleep_min, sleep_max)].  The two sleep bounds only feed
    [random.uniform]; the pauses are the [EvPause] events. *)
Definition crawl_baitoru_company_ids (start_listing_url : pystr)
    (max_listing_pages max_job_pages : Z) : M (list info) :=
  r ← crawl_run start_listing_url max_listing_pages max_job_pages;
  mret (values (company_infos r.2)).

(** What holds when the loop is left for the reason [why], after the events
    [evs] (newest first), in the state [st'] and with the whole trace [w']:
    [seed] is the value of [listing_url] the loop started with. *)
Definition exit_justified (max_listing_pages : Z) (why : loop_exit)
    (seed : option pystr) (evs : World) (st' : crawl_state) (w' : World)
    : Prop :=
  match why with
  | NoNextPage =>
      (otruthy seed = false /\ evs = [])
      \/ (exists u html next w1 w2,
            head (listing_pages evs) = Some u
            /\ fetch_html u w1 = (Ok (Some html), w2)
            /\ find_next_page_url html u = Ok next
            /\ otruthy next = false)
  | PageBound => max_listing_pages <= listing_count st'
  | AlreadyVisited =>
      exists u rest,
        w' = EvPrint (InfoAlreadyVisited u) :: rest
        /\ u ∈ visited_listing_urls st'
  | ListingFetchFailed =>
      exists u w1 o,
        head (listing_pages evs) = Some u
        /\ fetch_html u w1 = (Ok o, w')
        /\ otruthy o = false
  | OutOfFuel => False
  end.

End Crawl.

(** A computation whose job-page lines are all for URLs that satisfy [P]. *)
Definition shows {A} (P : pystr -> Prop) (m : M A) : Prop :=
  forall w r w', m w = (r, w') ->
                 exists evs, w' = evs ++ w /\ Forall P (job_pages evs).



Section Pages.
Context `{Network} `{Urllib} `{HtmlParser}.

(** [j] is one of the job links extracted from the listing page [l], as the
    page was fetched at some moment. *)
Definition job_link_of (l j : pystr) : Prop :=
  exists html links w1 w2,
    fetch_html l w1 = (Ok (Some html), w2)
    /\ extract_job_links_from_listing_html html l = Ok links
    /\ j ∈ links.

(** [u] is the next-page link of the listing page [prev], as the page was
    fetched at some moment. *)
Definition next_page_of (prev u : pystr) : Prop :=
  exists html w1 w2,
    fetch_html prev w1 = (Ok (Some html), w2)
    /\ find_next_page_url html prev = Ok (Some u).

End Pages.

(** What makes an anchor a candidate for the next-page link: [rel=next], or
    a string that holds one of the five texts. *)
Definition marks_next (a : Soup.node) : Prop :=
  Soup.has_token (py "rel") (py "next") a = true
  \/ exists t, t ∈ candidates /\ Soup.string_contains t a = true.

(** The entry [merge] leaves under its key, from the entry it found or
    created there. *)
Definition merged (u job_url listing_url : pystr) (i : info) : info :=
  {| company_id := company_id i;
     company_url := u;
     source_job_url :=
       if truthy (source_job_url i) then source_job_url i else job_url;
     source_listing_url :=
       if truthy (source_listing_url i) then source_listing_url i
       else listing_url |}.

(** The URL of an entry names the identifier of the entry: it is the
    canonical URL, or its path holds the identifier. *)
Definition url_names_id `{Urllib} (i : info) : Prop :=
  company_url i = cjlist_url (company_id i)
  \/ exists parsed,
       urlparse (company_url i) = Ok parsed
       /\ cjlist_id (path parsed) = Some (company_id i).

(** A registry with distinct keys, each the identifier of its entry, whose
    entries come from listing pages of [L] and job pages of [J]. *)
Definition sourced `{Urllib} (L J : gset pystr) (d : dict) : Prop :=
  NoDup (List.map fst d)
  /\ Forall (fun kv => company_id kv.2 = kv.1
                       /\ truthy (source_listing_url kv.2) = true
                       /\ source_listing_url kv.2 ∈ L
                       /\ (source_job_url kv.2 = [] \/ source_job_url kv.2 ∈ J)
                       /\ url_names_id kv.2) d.

Definition sourced_state `{Urllib} (st : crawl_state) : Prop :=
  sourced (visited_listing_urls st) (visited_job_urls st) (company_infos st).

(** *** The canonical URLs and the CSV file *)

(** [build_company_urls_from_infos(company_infos)]: the records sorted by
    [int(x['company_id'])], each turned into its canonical URL. *)
Definition build_company_urls_from_infos (company_infos : list info)
    : res (list pystr) :=
  infos ← Builtins.sorted (fun x => Builtins.int (company_id x)) company_infos;
  Ok (List.map (fun info => cjlist_url (company_id info)) infos).

(** The integer key of a record, when [int] accepts its identifier. *)
Definition id_key (i : info) : option Z :=
  match Builtins.int (company_id i) with
  | Ok z => Some z
  | Raise _ => None
  end.

(** Integer keys in ascending order. *)
Fixpoint ascending (keys : list Z) : Prop :=
  match keys with
  | [] => True
  | k :: rest => Forall (fun k' => k <= k') rest /\ ascending rest
  end.

Definition START_URL : pystr := py "https://www.baitoru.com/kanto/jlist/".
Definition OUT_PATH : pystr := py "company_urls.csv".

(** The header row of [company_urls.csv], and the row of one record. *)
Definition CSV_HEADER : list pystr :=
  [py "company_id"; py "job_url"; py "company_url"; py "collected_at";
   py "source_listing_url"].
Definition csv_row (collected_at : pystr) (i : info) : list pystr :=
  [company_id i; source_job_url i; company_url i; collected_at;
   source_listing_url i].

Section Main.
Context `{Network} `{Urllib} `{HtmlParser} `{Clock}.

(** The [__main__] block: the crawl from the Kanto listing with at most 3
    listing pages and 50 job pages, then the CSV file. *)
Definition main : M unit :=
  company_infos ← crawl_baitoru_company_ids START_URL 3 50;
  print (ResultCollected (length company_infos));;
  collected_at ← now;
  emit (EvWriteCsv OUT_PATH
          (CSV_HEADER :: List.map (csv_row collected_at) company_infos));;
  print (ResultSaved (length company_infos) OUT_PATH).

End Main.
End FetchInfo.

(** ** baitoru_scraper.py: the fetcher *)
Module Scraper.

Definition MAX_RETRIES : Z := 3.
Definition BASE_BACKOFF_SEC : Z := 3.

Section Fetch.
Context `{Network}.

(** The [except requests.RequestException as exc] handler and the rest of
    the loop. *)
Fixpoint fetch_html_from (url : pystr) (max_retries : Z) (n : nat) (i : Z)
    (last_exc : option RequestException) : M pystr :=
  match n with
  | O =>
      match last_exc with
      | Some e => raise (ExRequest e)
      | None => raise TypeError
      end
  | S n' =>
      o ← http_get url;
      let handler (exc : RequestException) :=
        (if i <? max_retries - 1
         then print (WarnRetry exc (i + 1) max_retries);;
              sleep (BASE_BACKOFF_SEC * (i + 1))
         else ret tt);;
        fetch_html_from url max_retries n' (i + 1) (Some exc) in
      match o with
      | Responded resp =>
          match raise_for_status resp with
          | Some exc => handler exc
          | None => ret (text resp)
          end
      | Failed exc => handler exc
      end
  end.

Definition fetch_html_retries (url : pystr) (max_retries : Z) : M pystr :=
  fetch_html_from url max_retries (Z.to_nat max_retries) 0 None.

(** [fetch_html(url)] with the default [max_retries=MAX_RETRIES]. *)
Definition fetch_html (url : pystr) : M pystr :=
  fetch_html_retries url MAX_RETRIES.

End Fetch.

(** *** The prefecture of an address *)

(** 北海道, 東京都, 京都府, 大阪府 and 県 *)
Definition HOKKAIDO : pystr := [21271; 28023; 36947]%N.
Definition TOKYO_TO : pystr := [26481; 20140; 37117]%N.
Definition KYOTO_FU : pystr := [20140; 37117; 24220]%N.
Definition OSAKA_FU : pystr := [22823; 38442; 24220]%N.
Definition KEN : pychar := 30476%N.

(** [re.compile(r"(北海道|東京都|京都府|大阪府|..県)")] *)
Definition PREF_PATTERN : Re.re :=
  Re.Group
    (Re.Alt (Re.lit HOKKAIDO)
       (Re.Alt (Re.lit TOKYO_TO)
          (Re.Alt (Re.lit KYOTO_FU)
             (Re.Alt (Re.lit OSAKA_FU)
                (Re.Cat (Re.Chr Re.dot)
                   (Re.Cat (Re.Chr Re.dot) (Re.Chr (N.eqb KEN)))))))).

Definition extract_prefecture (address_text : option pystr) : option pystr :=
  if negb (otruthy address_text) then None
  else
    match Re.search PREF_PATTERN (default [] address_text) with
    | Some m => Some (Re.group1 m)
    | None => None
    end.

(** 神奈川県横浜市西区, an address in Kanagawa prefecture, and the name of
    the prefecture, 神奈川県. *)
Definition KANAGAWA_ADDRESS : pystr :=
  [31070; 22856; 24029; 30476; 27178; 27996; 24066; 35199; 21306]%N.
Definition KANAGAWA_KEN : pystr := [31070; 22856; 24029; 30476]%N.

(** *** The export *)

(** 取得日時, 取得URL, 名称, 電話番号, 都道府県, 住所, 業種, 法人番号, 代表者,
    資本金, 売上, 従業員数, 設立日, 事業内容, HP *)
Definition FIELDS : list pystr :=
  [ [21462; 24471; 26085; 26178]; [21462; 24471; 85; 82; 76]; [21517; 31216];
    [38651; 35441; 30058; 21495]; [37117; 36947; 24220; 30476];
    [20303; 25152]; [26989; 31278]; [27861; 20154; 30058; 21495];
    [20195; 34920; 32773]; [36039; 26412; 37329]; [22770; 19978];
    [24467; 26989; 21729; 25968]; [35373; 31435; 26085];
    [20107; 26989; 20869; 23481]; [72; 80] ]%N.

(** A value of a scraped row: [None] or a string. *)
Inductive pyval :=
| PyNone
| PyStr (s : pystr).

(** A row: a dict from field names to values. *)
Definition row := list (pystr * pyval).

(** [row.get(field)] *)
Fixpoint row_get (field : pystr) (r : row) : option pyval :=
  match r with
  | [] => None
  | (k, v) :: rest => if pystr_eqb k field then Some v else row_get field rest
  end.

(** [row.get(field, "") if row.get(field) is not None else ""] *)
Definition safe_value (r : row) (field : pystr) : pystr :=
  match row_get field r with
  | Some (PyStr s) => s
  | Some PyNone => []
  | None => []
  end.

(** The cells [DictWriter.writerow(safe_row)] writes, in the order of
    [fieldnames]. *)
Definition safe_row (r : row) : list pystr := List.map (safe_value r) FIELDS.

(** [save_to_csv(rows, filepath)]: the file is the table handed to the
    [csv.DictWriter], the header first. *)
Definition save_to_csv (rows : list row) (filepath : pystr) : M unit :=
  match rows with
  | [] => print WarnRowsEmpty
  | _ => emit (EvWriteCsv filepath (FIELDS :: List.map safe_row rows))
  end.

(** *** The fields of a profile page *)

(** [BeautifulSoup(html, "html.parser")].  The parser of the standard
    library gives up on some markup (a marked section it does not know, such
    as [<![foo]>]); BeautifulSoup then raises [ParserRejectedMarkup]. *)
Class HtmlDotParser := html_parser : pystr -> res Soup.node.

(** [tag.select_one(selector)] of soupsieve: the first element the selector
    matches, if any; it raises on a selector it cannot parse. *)
Class Soupsieve := select_one : Soup.node -> pystr -> res (option Soup.node).

(** [SELECTORS]: the selectors tried for each field. *)
Definition SELECTORS : list (pystr * list pystr) := [(py "name", [py "h1"])].

(** [d.get(key, [])] *)
Fixpoint selectors_for (key : pystr) (d : list (pystr * list pystr))
    : list pystr :=
  match d with
  | [] => []
  | (k, v) :: rest => if pystr_eqb k key then v else selectors_for key rest
  end.

(** The strings [get_text] joins when [strip=True]: each one stripped, the
    empty ones left out. *)
Definition stripped_strings (n : Soup.node) : list pystr :=
  List.filter truthy (List.map FetchInfo.strip (Soup.all_strings n)).

(** [tag.get_text(separator=separator, strip=True)] *)
Definition get_text_strip (separator : pystr) (n : Soup.node) : pystr :=
  UrllibModel.join separator (stripped_strings n).

Section Selectors.
Context `{Soupsieve}.

(** The loop of [safe_get_text_from_selectors]. *)
Fixpoint first_text (soup : Soup.node) (selectors : list pystr)
    : option pystr :=
  match selectors with
  | [] => None
  | selector :: rest =>
      match select_one soup selector with
      | Raise _ => first_text soup rest          (* except Exception: continue *)
      | Ok None => first_text soup rest
      | Ok (Some el) =>
          let text := get_text_strip [] el in
          if truthy text then Some text else first_text soup rest
      end
  end.

Definition safe_get_text_from_selectors (soup : Soup.node)
    (selectors : list pystr) : option pystr :=
  match selectors with
  | [] => None
  | _ => first_text soup selectors
  end.

End Selectors.

(** The double quote. *)
Definition QUOTE : pychar := 34%N.

(** A greedy star over a class: one or more characters, or else none. *)
Definition many (cls : pychar -> bool) : Re.re := Re.Alt (Re.Plus cls) Re.Eps.

(** The pattern of [parse_analytics_data_from_head]: the key [prop61] in
    double quotes, a colon with any whitespace on both sides, and a value in
    double quotes, which the one group captures: any run of characters other
    than the double quote.  The whitespace class of a [str] pattern is the
    whitespace of [str.isspace]. *)
Definition PROP61_RE : Re.re :=
  Re.Cat (Re.lit ([QUOTE] ++ py "prop61" ++ [QUOTE]))
    (Re.Cat (many Soup.isspace)
       (Re.Cat (Re.Chr (N.eqb 58))
          (Re.Cat (many Soup.isspace)
             (Re.Cat (Re.Chr (N.eqb QUOTE))
                (Re.Cat (Re.Group (many (fun c => negb (c =? QUOTE)%N)))
                   (Re.Chr (N.eqb QUOTE))))))).

Definition VAR_ANALYTICS_DATA : pystr := py "var analyticsData".
Definition PROP61 : pystr := py "prop61".

(** The loop of [parse_analytics_data_from_head] over the [<script>] tags;
    the result is the dict, empty or with the one key [prop61]. *)
Fixpoint analytics_from (scripts : list Soup.node) : list (pystr * pystr) :=
  match scripts with
  | [] => []
  | script :: rest =>
      let text := Soup.get_text script in
      if negb (truthy text) then analytics_from rest
      else if negb (contains VAR_ANALYTICS_DATA text) then analytics_from rest
      else
        match Re.search PROP61_RE text with
        | Some m => [(PROP61, FetchInfo.strip (Re.group1 m))]
        | None => []
        end
  end.

Definition parse_analytics_data_from_head (soup : Soup.node)
    : list (pystr * pystr) :=
  analytics_from (List.filter (Soup.name_is (py "script")) (Soup.descendants soup)).

(** [get_value_by_label(soup, label, prefer_link)]: the first [<span>] whose
    string holds the label, its nearest [<dt>] ancestor, the next [<dd>]
    sibling of that, and the link or the text of the [<dd>]. *)
Definition get_value_by_label (soup : Soup.node) (label : pystr)
    (prefer_link : bool) : option pystr :=
  match head (List.filter
                (fun p => Soup.name_is (py "span") (Soup.at_node p)
                          && Soup.string_contains label (Soup.at_node p))
                (Soup.places soup)) with
  | None => None
  | Some span =>
      match Soup.find_parent (py "dt") span with
      | None => None
      | Some dt =>
          match Soup.find_next_sibling (py "dd") dt with
          | None => None
          | Some dd =>
              let text := get_text_strip (py " ") dd in
              let text_or_none := if truthy text then Some text else None in
              if prefer_link then
                match Soup.find_a_href dd with
                | Some a =>
                    if truthy (Soup.href a)
                    then Some (FetchInfo.strip (Soup.href a))
                    else text_or_none
                | None => text_or_none
                end
              else text_or_none
          end
      end
  end.

(** のバイト/アルバイト/パートの求人情報, the tail of the page title that is cut
    from the name. *)
Definition JOBS_SUFFIX : pystr :=
  [12398; 12496; 12452; 12488; 47; 12450; 12523; 12496; 12452; 12488; 47;
   12497; 12540; 12488; 12398; 27714; 20154; 24773; 22577]%N.

(** The labels 所在地, 設立年, 資本金, 代表者名, 従業員数, 事業内容. *)
Definition LABEL_ADDRESS : pystr := [25152; 22312; 22320]%N.
Definition LABEL_FOUNDED : pystr := [35373; 31435; 24180]%N.
Definition LABEL_CAPITAL : pystr := [36039; 26412; 37329]%N.
Definition LABEL_REPRESENTATIVE : pystr := [20195; 34920; 32773; 21517]%N.
Definition LABEL_EMPLOYEES : pystr := [24467; 26989; 21729; 25968]%N.
Definition LABEL_BUSINESS : pystr := [20107; 26989; 20869; 23481]%N.

(** The keys of a row: 取得日時, 取得URL, 名称, 住所, 都道府県, 設立日, 資本金,
    代表者, 従業員数, 事業内容, HP, 電話番号, 業種, 法人番号, 売上. *)
Definition KEY_TIME : pystr := [21462; 24471; 26085; 26178]%N.
Definition KEY_URL : pystr := [21462; 24471; 85; 82; 76]%N.
Definition KEY_NAME : pystr := [21517; 31216]%N.
Definition KEY_ADDRESS : pystr := [20303; 25152]%N.
Definition KEY_PREFECTURE : pystr := [37117; 36947; 24220; 30476]%N.
Definition KEY_FOUNDED : pystr := [35373; 31435; 26085]%N.
Definition KEY_CAPITAL : pystr := [36039; 26412; 37329]%N.
Definition KEY_REPRESENTATIVE : pystr := [20195; 34920; 32773]%N.
Definition KEY_EMPLOYEES : pystr := [24467; 26989; 21729; 25968]%N.
Definition KEY_BUSINESS : pystr := [20107; 26989; 20869; 23481]%N.
Definition KEY_HP : pystr := [72; 80]%N.
Definition KEY_PHONE : pystr := [38651; 35441; 30058; 21495]%N.
Definition KEY_INDUSTRY : pystr := [26989; 31278]%N.
Definition KEY_CORPORATE_NUMBER : pystr := [27861; 20154; 30058; 21495]%N.
Definition KEY_SALES : pystr := [22770; 19978]%N.

(** A value that is [None] or a string. *)
Definition of_option (o : option pystr) : pyval :=
  match o with Some s => PyStr s | None => PyNone end.

(** [try: m except Exception as exc: handler(exc)] *)
Definition try_except {A} (m : M A) (handler : exn -> M A) : M A :=
  fun w => match m w with
           | (Ok a, w') => (Ok a, w')
           | (Raise exc, w') => handler exc w'
           end.

(** [try: m finally: final] *)
Definition try_finally {A} (m : M A) (final : M unit) : M A :=
  fun w => match m w with
           | (r, w') =>
               match final w' with
               | (Ok _, w'') => (r, w'')
               | (Raise e, w'') => (Raise e, w'')
               end
           end.

(** What [PREF_PATTERN] takes for a prefecture: one of the four names, or
    two characters other than a line feed and 県. *)
Definition prefecture_like (p : pystr) : Prop :=
  p ∈ [HOKKAIDO; TOKYO_TO; KYOTO_FU; OSAKA_FU]
  \/ exists a b, p = [a; b; KEN] /\ a <> 10%N /\ b <> 10%N.

Definition prefecture_likeb (a b c : pychar) : bool :=
  ((21271 =? a) && (28023 =? b) && (36947 =? c)
   || (26481 =? a) && (20140 =? b) && (37117 =? c)
   || (20140 =? a) && (37117 =? b) && (24220 =? c)
   || (22823 =? a) && (38442 =? b) && (24220 =? c)
   || Re.dot a && Re.dot b && (KEN =? c))%N.

(** No whitespace at either end. *)
Definition trimmed (s : pystr) : Prop :=
  match s with [] => True | c :: _ => Soup.isspace c = false end
  /\ match rev s with [] => True | c :: _ => Soup.isspace c = false end.

Section Scrape.
Context `{Network} `{HtmlDotParser} `{Soupsieve} `{Clock}.

(** [scrape_company_page(url)]; the row holds the keys in the order in which
    they are assigned. *)
Definition scrape_company_page (url : pystr) : M row :=
  html ← fetch_html url;
  soup ← lift (html_parser html);
  collected_at ← now;
  let analytics := parse_analytics_data_from_head soup in
  let raw_name := Soup.get PROP61 analytics in
  let name :=
    if otruthy raw_name
    then PyStr (Builtins.replace (default [] raw_name) JOBS_SUFFIX [])
    else of_option (safe_get_text_from_selectors soup
                      (selectors_for (py "name") SELECTORS)) in
  let address := get_value_by_label soup LABEL_ADDRESS false in
  mret [ (KEY_TIME, PyStr collected_at);
         (KEY_URL, PyStr url);
         (KEY_NAME, name);
         (KEY_ADDRESS, of_option address);
         (KEY_PREFECTURE, of_option (extract_prefecture address));
         (KEY_FOUNDED, of_option (get_value_by_label soup LABEL_FOUNDED false));
         (KEY_CAPITAL, of_option (get_value_by_label soup LABEL_CAPITAL false));
         (KEY_REPRESENTATIVE,
          of_option (get_value_by_label soup LABEL_REPRESENTATIVE false));
         (KEY_EMPLOYEES, of_option (get_value_by_label soup LABEL_EMPLOYEES false));
         (KEY_BUSINESS, of_option (get_value_by_label soup LABEL_BUSINESS false));
         (KEY_HP, of_option (get_value_by_label soup (py "URL") true));
         (KEY_PHONE, PyNone);
         (KEY_INDUSTRY, PyNone);
         (KEY_CORPORATE_NUMBER, PyNone);
         (KEY_SALES, PyNone) ].

(** The loop of [scrape_many_company_pages] from the rows gathered so far;
    the sleep of [sleep_sec] seconds in the [finally] clause is a pause. *)
Fixpoint scrape_many_from (urls : list pystr) (results : list row)
    : M (list row) :=
  match urls with
  | [] => mret results
  | url :: rest =>
      results' ←
        try_finally
          (try_except
             (print (InfoScraping url);;
              row ← scrape_company_page url;
              mret (results ++ [row]))
             (fun exc => print (ErrorScrape url exc);; mret results))
          pause;
      scrape_many_from rest results'
  end.

(** [scrape_many_company_pages(urls)] with the default [sleep_sec=1.5]. *)
Definition scrape_many_company_pages (urls : list pystr) : M (list row) :=
  scrape_many_from urls [].

(** The URLs [__main__] reads from the rows of [company_urls.csv], each row
    the dict [csv.DictReader] yields: the non-empty [company_url] cells. *)
Definition company_urls_of (reader : list (list (pystr * pystr)))
    : list pystr :=
  omap (fun row =>
          match Soup.get (py "company_url") row with
          | Some url => if truthy url then Some url else None
          | None => None
          end)
    reader.

(** The [__main__] block, from the rows read. *)
Definition main (reader : list (list (pystr * pystr))) : M unit :=
  results ← scrape_many_company_pages (company_urls_of reader);
  save_to_csv results (py "company_data.csv").

End Scrape.

(** Observations on the trace of a batch: the pauses between pages, the
    URLs reported as failed (newest first), and the files written. *)
Definition is_pause (e : event) : bool :=
  match e with EvPause => true | _ => false end.
Definition failed_of (e : event) : option pystr :=
  match e with EvPrint (ErrorScrape u _) => Some u | _ => None end.
Definition is_write (e : event) : bool :=
  match e with EvWriteCsv _ _ => true | _ => false end.
Definition pauses (w : World) : nat := length (List.filter is_pause w).
Definition failures (w : World) : list pystr := omap failed_of w.

(** The events of a fetch: none of the above. *)
Definition quiet (evs : World) : Prop :=
  Forall (fun e => is_pause e = false /\ failed_of e = None
                   /\ is_write e = false) evs.

(** The URL a row was scraped from. *)
Definition row_url (r : row) : option pystr :=
  match row_get KEY_URL r with Some (PyStr u) => Some u | _ => None end.

(** A page that gives a row when the server answers its URL in the same
    way at every request: the answer passes [raise_for_status] and the
    parser accepts its text. *)
Definition fetchable `{Network} `{HtmlDotParser} (url : pystr) : bool :=
  match http 0%nat url with
  | Responded resp =>
      match raise_for_status resp, html_parser (text resp) with
      | None, Ok _ => true
      | _, _ => false
      end
  | Failed _ => false
  end.

(** A server whose answer for each of the URLs does not change from one
    request to the next. *)
Definition steady `{Network} (urls : list pystr) : Prop :=
  forall u n, u ∈ urls -> http n u = http 0%nat u.

End Scraper.

(** ** Concrete pages and networks

    Small environments on which the program is run below: a site of one
    listing page and one job page, networks that fail in a fixed way, and the
    model of urllib.parse. *)
Module Run.

Definition elt (name : string) (attrs : list (string * pystr))
    (contents : list Soup.node) : Soup.node :=
  Soup.Tag (py name) (List.map (fun kv => (py kv.1, kv.2)) attrs) contents.
Definition txt (s : pystr) : Soup.node := Soup.NavigableString s.
Definition document (contents : list Soup.node) : Soup.node :=
  Soup.Tag (py "[document]") [] contents.

Definition listing_url : pystr := py "https://www.baitoru.com/kanto/jlist/".
Definition job_url : pystr := py "https://www.baitoru.com/kanto/job123/".

(** A listing page: two employer links, one in each form, one listing row
    with a job link, and no next-page link. *)
Definition listing_doc : Soup.node :=
  document
    [elt "html" []
       [elt "body" []
          [elt "a" [("href", py "/cjlist111/")] [txt (py "A")];
           elt "a" [("href", py "https://www.baitoru.com/cjlist222/")]
             [txt (py "B")];
           elt "ul" [("class", py "ul01")]
             [elt "li" [("class", py "li01 first")]
                [elt "h3" []
                   [elt "a" [("href", py "/kanto/job123/")]
                      [txt (py "job")]]]]]]]%string.

(** A job page with the link to the employer. *)
Definition job_doc : Soup.node :=
  document
    [elt "html" []
       [elt "body" []
          [elt "a" [("href", py "/cjlist333/#comp")]
             [txt FetchInfo.MORE_ABOUT_COMPANY]]]]%string.

(** The listing page with its site-relative employer link made absolute. *)
Definition absolute (href : pystr) : pystr :=
  if bool_decide (is_Some (FetchInfo.cjlist_id href))
     && starts_with (py "/") href
  then (py "https://" ++ FetchInfo.BASE_DOMAIN) ++ href else href.

(** A listing row whose link has a scheme of its own and no host. *)
Definition hostless_doc : Soup.node :=
  document
    [elt "ul" [("class", py "ul01")]
       [elt "li" [("class", py "li01")]
          [elt "a" [("href", py "file:///job1/")] [txt (py "x")]]]]%string.

(** The pages are served and parsed by name: the text [L] is the listing
    page, [J] the job page, [A] the listing page with absolute links, [H] the
    page with the host-less link. *)
Definition parse (html : pystr) : Soup.node :=
  if pystr_eqb html (py "L") then listing_doc
  else if pystr_eqb html (py "J") then job_doc
  else if pystr_eqb html (py "A") then Soup.map_href absolute listing_doc
  else if pystr_eqb html (py "H") then hostless_doc
  else document [].

Definition parser : HtmlParser := parse.

Definition ok (body : string) : Response :=
  {| status_code := 200; text := py body; text_apparent := py body |}.
Definition not_found : Response :=
  {| status_code := 404; text := []; text_apparent := [] |}.

(** The site: the two pages, and 404 for everything else. *)
Definition site : Network :=
  fun _ url =>
    if pystr_eqb url listing_url then Responded (ok "L")
    else if pystr_eqb url job_url then Responded (ok "J")
    else Responded not_found.

(** A server that answers 404 to every request. *)
Definition always_404 : Network := fun _ _ => Responded not_found.

(** A network on which every request fails to connect. *)
Definition always_down : Network := fun _ _ => Failed ConnectionError.

(** Two timeouts, then the page. *)
Definition two_timeouts : Network :=
  fun n _ => if (n <? 2)%nat then Failed Timeout else Responded (ok "L").

(** A registry with one entry that has its provenance. *)
Definition entry_111 : FetchInfo.info :=
  {| FetchInfo.company_id := py "111";
     FetchInfo.company_url := FetchInfo.cjlist_url (py "111");
     FetchInfo.source_job_url := job_url;
     FetchInfo.source_listing_url := listing_url |}.
Definition registry_111 : FetchInfo.dict := [(py "111", entry_111)].

(** A listing page whose [rel=next] link runs a script, and whose link with
    the text 次へ leads to the second page. *)
Definition next_doc : Soup.node :=
  document
    [elt "a" [("rel", py "next"); ("href", py " JavaScript:void(0)")]
       [txt (py ">")];
     elt "a" [("href", py "/kanto/jlist/page2/")]
       [txt [27425; 12408]%N]]%string.
Definition next_parser : HtmlParser := fun _ => next_doc.

(** The profile page of an employer: the analytics script in the head, a
    heading, and the list of labelled values, with 千葉県千葉市 for 所在地 and a
    link for URL. *)
Definition profile_script : pystr :=
  py "var analyticsData = {" ++ [34%N] ++ py "prop61" ++ [34%N] ++ py " : "
  ++ [34%N] ++ py "ACME" ++ Scraper.JOBS_SUFFIX ++ [34%N] ++ py "};".
Definition CHIBA_ADDRESS : pystr := [21315; 33865; 30476; 21315; 33865; 24066]%N.
Definition padded_address : pystr := 32%N :: CHIBA_ADDRESS ++ [32%N].
Definition profile_doc : Soup.node :=
  document
    [elt "html" []
       [elt "head" [] [elt "script" [] [txt profile_script]];
        elt "body" []
          [elt "h1" [] [txt (py "ACME Inc")];
           elt "dl" []
             [elt "dt" [] [elt "span" [] [txt Scraper.LABEL_ADDRESS]];
              txt (py " ");
              elt "dd" [] [elt "p" [] [txt padded_address]];
              elt "dt" [] [elt "span" [] [txt (py "URL")]];
              elt "dd" []
                [elt "a" [("href", py " https://acme.example/ ")]
                   [txt (py "site")]]]]]]%string.
Definition profile_url : pystr := py "https://www.baitoru.com/cjlist111/".
Definition profile_parser : Scraper.HtmlDotParser := fun _ => Ok profile_doc.

(** [select_one] for a selector that is a tag name: the first such tag. *)
Definition select_first_tag : Scraper.Soupsieve :=
  fun soup selector =>
    match selector with
    | [] => Raise ValueError
    | _ => Ok (head (List.filter (Soup.name_is selector) (Soup.descendants soup)))
    end.

Definition clock : Clock := fun _ => py "2024-01-01T00:00:00".

(** A server that has the profile page and nothing else. *)
Definition profile_site : Network :=
  fun _ url =>
    if pystr_eqb url profile_url then Responded (ok "P") else Responded not_found.

(** A list of labelled values whose link for URL has a blank href. *)
Definition blank_link_doc : Soup.node :=
  document
    [elt "dl" []
       [elt "dt" [] [elt "span" [] [txt (py "URL")]];
        elt "dd" [] [elt "a" [("href", py "  ")] [txt (py "home")]]]]%string.



(** The text [<![foo]>], a marked section that html.parser does not know,
    and a parser that rejects it. *)
Definition REJECTED_MARKUP : pystr := py "<![foo]>".
Definition strict_parser : Scraper.HtmlDotParser :=
  fun html =>
    if pystr_eqb html REJECTED_MARKUP then Raise ParserRejectedMarkup
    else Ok profile_doc.

(** A server with the profile page and a page of that markup. *)
Definition broken_url : pystr := py "https://www.baitoru.com/cjlist222/".
Definition mixed_site : Network :=
  fun _ url =>
    if pystr_eqb url profile_url then Responded (ok "P")
    else if pystr_eqb url broken_url then Responded (ok "<![foo]>")
    else Responded not_found.


(** The crawl of the site from its listing page, and the records it
    returns. *)
Definition site_crawl : res (list FetchInfo.info) * World :=
  @FetchInfo.crawl_baitoru_company_ids site UrllibModel.cpython parser
    listing_url 3 50 [].
Definition site_records : list FetchInfo.info :=
  match site_crawl.1 with Ok infos => infos | Raise _ => [] end.

End Run.

(** * Properties *)

Arguments py : simpl never.
Arguments FetchInfo.BASE_DOMAIN : simpl never.
Arguments FetchInfo.CJLIST_RE : simpl never.
Arguments FetchInfo.JOB_DETAIL_RE : simpl never.

Ltac mstep :=
  unfold mbind, M_bind, mret, M_ret, bind, ret, raise, print, sleep, pause,
    emit, http_get, lift in *; cbn [fst snd] in *.

(** ** The models on the examples of the source *)

(** The identifier of the docstring of [crawl_baitoru_company_ids], found in
    either form of the link, whatever the case of the letters. *)
Example cjlist_id_relative :
  FetchInfo.cjlist_id (py "/cjlist25189/") = Some (py "25189").
Proof. vm_compute. reflexivity. Qed.

Example cjlist_id_absolute :
  FetchInfo.cjlist_id (py "https://www.baitoru.com/CJLIST25189/#comp")
  = Some (py "25189").
Proof. vm_compute. reflexivity. Qed.

(** The pattern needs the slash in front and a digit: a link relative to the
    page, or one without a number, gives nothing. *)
Example cjlist_id_needs_slash :
  FetchInfo.cjlist_id (py "cjlist25189/") = None
  /\ FetchInfo.cjlist_id (py "/cjlist/") = None.
Proof. split; vm_compute; reflexivity. Qed.

(** Nor does the second pass find it: the path of a link relative to the
    page still lacks the slash. *)
Example href_id_page_relative :
  @FetchInfo.href_id UrllibModel.cpython (py "cjlist25189/") = None.
Proof. vm_compute. reflexivity. Qed.

(** [/cjlist576894/#comp] of the comment in
    [extract_company_url_from_job_html], resolved and parsed. *)
Example urljoin_company_link :
  UrllibModel.urljoin (fun _ => true) Run.job_url (py "/cjlist576894/#comp")
  = Ok (py "https://www.baitoru.com/cjlist576894/#comp")
  /\ path <$> UrllibModel.urlparse (fun _ => true)
                (py "https://www.baitoru.com/cjlist576894/#comp")
     = Ok (py "/cjlist576894/").
Proof. split; vm_compute; reflexivity. Qed.

(** A protocol-relative link keeps its own host; a netloc with an unmatched
    bracket is refused. *)
Example urljoin_protocol_relative :
  UrllibModel.urljoin (fun _ => true) Run.listing_url (py "//example.com/job1")
  = Ok (py "https://example.com/job1")
  /\ UrllibModel.urljoin (fun _ => true) Run.listing_url (py "//[") = Raise ValueError.
Proof. split; vm_compute; reflexivity. Qed.

(** 千葉県千葉市 gives 千葉県, 東京都港区 gives 東京都. *)
Example extract_prefecture_chiba :
  Scraper.extract_prefecture
    (Some [21315; 33865; 30476; 21315; 33865; 24066]%N)
  = Some [21315; 33865; 30476]%N
  /\ Scraper.extract_prefecture (Some (Scraper.TOKYO_TO ++ [28207; 21306]%N))
     = Some Scraper.TOKYO_TO.
Proof. split; vm_compute; reflexivity. Qed.

Example job_detail_paths :
  is_Some (Re.search FetchInfo.JOB_DETAIL_RE (py "/kanto/jlist/tokyo/job150291933/"))
  /\ Re.search FetchInfo.JOB_DETAIL_RE (py "/kanto/jlist/") = None.
Proof. split; [vm_compute; eauto|vm_compute; reflexivity]. Qed.

(** ** The two fetchers *)

Section FetchFacts.
Context `{Network}.

Lemma gets_get url w : gets (EvGet url :: w) = S (gets w).
Proof. reflexivity. Qed.

Lemma gets_other e w : is_get e = false -> gets (e :: w) = gets w.
Proof. unfold gets; simpl; intros ->; reflexivity. Qed.

(** The listing/job fetcher, failing [k] times and then answered 200. *)
Lemma fetch_info_retry url r (k : nat) :
  forall (n : nat) (i : Z) last w,
    (k < n)%nat ->
    (forall j, (j < k)%nat -> exists e, http (gets w + j)%nat url = Failed e) ->
    http (gets w + k)%nat url = Responded r ->
    status_code r = 200 ->
    exists w',
      FetchInfo.fetch_html_from url n i last w = (Ok (Some (text_apparent r)), w')
      /\ gets w' = (gets w + k + 1)%nat
      /\ slept w' = slept w + FetchInfo.BASE_BACKOFF_SEC * (Z.of_nat k * i + sum_upto k).
Proof.
  induction k as [|k IH]; intros n i last w Hn Hfail Hok Hst.
  - destruct n as [|n]; [lia|].
    rewrite Nat.add_0_r in Hok. simpl. mstep. rewrite Hok, Hst. simpl.
    eexists; split; [reflexivity|]. rewrite gets_get. simpl. split; lia.
  - destruct n as [|n]; [lia|].
    destruct (Hfail 0%nat) as [e He]; [lia|]. rewrite Nat.add_0_r in He.
    simpl. mstep. rewrite He.
    destruct (IH n (i + 1) (Some e)
      (EvSleep (FetchInfo.BASE_BACKOFF_SEC * (i + 1))
         :: EvPrint (WarnError e url (i + 1)) :: EvGet url :: w))
      as (w' & Hrun & Hg & Hs).
    + lia.
    + intros j Hj. rewrite !gets_other, gets_get by reflexivity.
      destruct (Hfail (S j)) as [e' He']; [lia|]. exists e'.
      rewrite <- He'. f_equal. lia.
    + rewrite !gets_other, gets_get by reflexivity. rewrite <- Hok. f_equal. lia.
    + assumption.
    + exists w'. split; [exact Hrun|].
      rewrite !gets_other, gets_get in Hg by reflexivity.
      split; [lia|]. rewrite Hs. unfold FetchInfo.BASE_BACKOFF_SEC. simpl slept.
      change (sum_upto (S k)) with (sum_upto k + Z.of_nat (S k)). lia.
Qed.

(** The profile fetcher in the same situation; a sleep follows each failure
    because [i < max_retries - 1] holds for every failure before a success. *)
Lemma scraper_retry url r mx (k : nat) :
  forall (n : nat) (i : Z) last w,
    (k < n)%nat -> i + Z.of_nat k < mx ->
    (forall j, (j < k)%nat -> exists e, http (gets w + j)%nat url = Failed e) ->
    http (gets w + k)%nat url = Responded r ->
    raise_for_status r = None ->
    exists w',
      Scraper.fetch_html_from url mx n i last w = (Ok (text r), w')
      /\ gets w' = (gets w + k + 1)%nat
      /\ slept w' = slept w + Scraper.BASE_BACKOFF_SEC * (Z.of_nat k * i + sum_upto k).
Proof.
  induction k as [|k IH]; intros n i last w Hn Hi Hfail Hok Hst.
  - destruct n as [|n]; [lia|].
    rewrite Nat.add_0_r in Hok. simpl. mstep. rewrite Hok, Hst.
    eexists; split; [reflexivity|]. rewrite gets_get. simpl. split; lia.
  - destruct n as [|n]; [lia|].
    destruct (Hfail 0%nat) as [e He]; [lia|]. rewrite Nat.add_0_r in He.
    simpl. mstep. rewrite He.
    assert (Hlt : (i <? mx - 1) = true) by (apply Z.ltb_lt; lia).
    rewrite Hlt. cbn [fst snd].
    destruct (IH n (i + 1) (Some e)
      (EvSleep (Scraper.BASE_BACKOFF_SEC * (i + 1))
         :: EvPrint (WarnRetry e (i + 1) mx) :: EvGet url :: w))
      as (w' & Hrun & Hg & Hs).
    + lia.
    + lia.
    + intros j Hj. rewrite !gets_other, gets_get by reflexivity.
      destruct (Hfail (S j)) as [e' He']; [lia|]. exists e'.
      rewrite <- He'. f_equal. lia.
    + rewrite !gets_other, gets_get by reflexivity. rewrite <- Hok. f_equal. lia.
    + assumption.
    + exists w'. split; [exact Hrun|].
      rewrite !gets_other, gets_get in Hg by reflexivity.
      split; [lia|]. rewrite Hs. unfold Scraper.BASE_BACKOFF_SEC. simpl slept.
      change (sum_upto (S k)) with (sum_upto k + Z.of_nat (S k)). lia.
Qed.

Lemma raise_for_status_200 r : status_code r = 200 -> raise_for_status r = None.
Proof. unfold raise_for_status. intros ->. reflexivity. Qed.

(** C4. When the GET fails at the transport level on the first [k < 3]
    calls and is answered 200 on call [k + 1], both [fetch_html] functions
    return the body after exactly [k + 1] GETs, and the backoff sleeps sum
    to [BASE_BACKOFF_SEC * (1 + 2 + ... + k)]. *)
Theorem fetch_html_succeeds_after_k_failures url r (k : nat) w :
  (k < 3)%nat ->
  (forall j, (j < k)%nat -> exists e, http (gets w + j)%nat url = Failed e) ->
  http (gets w + k)%nat url = Responded r ->
  status_code r = 200 ->
  (exists w',
     FetchInfo.fetch_html url w = (Ok (Some (text_apparent r)), w')
     /\ gets w' = (gets w + (k + 1))%nat
     /\ slept w' - slept w = FetchInfo.BASE_BACKOFF_SEC * sum_upto k)
  /\
  (exists w',
     Scraper.fetch_html url w = (Ok (text r), w')
     /\ gets w' = (gets w + (k + 1))%nat
     /\ slept w' - slept w = Scraper.BASE_BACKOFF_SEC * sum_upto k).
Proof.
  intros Hk Hfail Hok Hst.
  assert (Hn : (k < Z.to_nat 3)%nat) by lia.
  assert (Hmx : 0 + Z.of_nat k < 3) by lia.
  split.
  - destruct (fetch_info_retry url r k _ 0 None w Hn Hfail Hok Hst)
      as (w' & Hrun & Hg & Hs).
    exists w'. split; [exact Hrun|]. split; lia.
  - destruct (scraper_retry url r 3 k _ 0 None w Hn Hmx Hfail Hok
                (raise_for_status_200 r Hst))
      as (w' & Hrun & Hg & Hs).
    exists w'. split; [exact Hrun|]. split; lia.
Qed.

End FetchFacts.

(** ** Regular expressions: what a match of the program's patterns holds *)

Section ReFacts.
Context {R : Type}.

Lemma run_cat r1 r2 s caps (k : pystr -> list pystr -> option R) :
  Re.run (Re.Cat r1 r2) s caps k
  = Re.run r1 s caps (fun s' caps' => Re.run r2 s' caps' k).
Proof. reflexivity. Qed.

(** A literal consumes input and leaves the groups alone. *)
Lemma run_lit_i_inv p :
  forall s caps (k : pystr -> list pystr -> option R) x,
    Re.run (Re.lit_i p) s caps k = Some x ->
    exists s', k s' caps = Some x.
Proof.
  induction p as [|c p IH]; intros s caps k x Hrun; simpl in Hrun.
  - eauto.
  - destruct s as [|d s]; [discriminate|].
    destruct (Re.icase c d); [|discriminate]. eauto.
Qed.

(** Whatever greedy [cls*] consumed is in the class. *)
Lemma star_inv cls :
  forall s (k : pystr -> option R) x,
    Re.star cls s k = Some x ->
    exists ds rest, s = ds ++ rest /\ Forall (fun c => cls c = true) ds
                    /\ k rest = Some x.
Proof.
  induction s as [|c t IH]; intros k x Hrun; simpl in Hrun.
  - exists [], []. auto.
  - destruct (cls c) eqn:Hc.
    + destruct (Re.star cls t k) as [y|] eqn:Hstar.
      * injection Hrun as ->.
        destruct (IH k x Hstar) as (ds & rest & -> & Hds & Hk).
        exists (c :: ds), rest. auto.
      * exists [], (c :: t). auto.
    + exists [], (c :: t). auto.
Qed.

(** The group [(cls+)] captures a non-empty run of characters of the
    class. *)
Lemma run_group_plus_inv cls s caps (k : pystr -> list pystr -> option R) x :
  Re.run (Re.Group (Re.Plus cls)) s caps k = Some x ->
  exists g rest, s = g ++ rest /\ g <> [] /\ Forall (fun c => cls c = true) g
                 /\ k rest (caps ++ [g]) = Some x.
Proof.
  simpl. destruct s as [|c t]; [discriminate|].
  destruct (cls c) eqn:Hc; [|discriminate].
  intros Hrun. apply star_inv in Hrun as (ds & rest & -> & Hds & Hk).
  exists (c :: ds), rest. repeat split; auto.
  rewrite <- Hk. repeat f_equal.
  change (c :: ds ++ rest) with ((c :: ds) ++ rest).
  rewrite length_app.
  replace (length (c :: ds) + length rest - length rest)%nat
    with (length (c :: ds)) by lia.
  rewrite take_app_length. reflexivity.
Qed.

(** The matcher only accepts words of the pattern. *)
Lemma run_sound r :
  forall s caps (k : pystr -> list pystr -> option R) x,
    Re.run r s caps k = Some x ->
    exists w s' caps', s = w ++ s' /\ Re.matches r w /\ k s' caps' = Some x.
Proof.
  induction r as [|cls|r1 IH1 r2 IH2|r1 IH1 r2 IH2|cls|r IH];
    intros s caps k x Hrun.
  - exists [], s, caps. split; [reflexivity|]. split; [constructor|exact Hrun].
  - simpl in Hrun. destruct s as [|c t]; [discriminate|].
    destruct (cls c) eqn:Hc; [|discriminate].
    exists [c], t, caps. split; [reflexivity|]. split; [constructor; exact Hc|exact Hrun].
  - rewrite run_cat in Hrun.
    apply IH1 in Hrun as (w1 & s1 & caps1 & -> & Hm1 & Hrun).
    apply IH2 in Hrun as (w2 & s2 & caps2 & -> & Hm2 & Hk).
    exists (w1 ++ w2), s2, caps2. rewrite <- app_assoc.
    split; [reflexivity|]. split; [constructor; assumption|exact Hk].
  - simpl in Hrun. destruct (Re.run r1 s caps k) as [y|] eqn:H1.
    + injection Hrun as ->.
      apply IH1 in H1 as (w & s' & caps' & -> & Hm & Hk).
      exists w, s', caps'. split; [reflexivity|].
      split; [apply Re.matches_alt_l; exact Hm|exact Hk].
    + apply IH2 in Hrun as (w & s' & caps' & -> & Hm & Hk).
      exists w, s', caps'. split; [reflexivity|].
      split; [apply Re.matches_alt_r; exact Hm|exact Hk].
  - simpl in Hrun. destruct s as [|c t]; [discriminate|].
    destruct (cls c) eqn:Hc; [|discriminate].
    apply star_inv in Hrun as (ds & rest & -> & Hds & Hk).
    exists (c :: ds), rest, caps. split; [reflexivity|].
    split; [|exact Hk]. constructor; [discriminate|]. constructor; assumption.
  - simpl in Hrun.
    apply IH in Hrun as (w & s' & caps' & -> & Hm & Hk).
    exists w, s', (caps' ++ [take (length (w ++ s') - length s') (w ++ s')]).
    split; [reflexivity|]. split; [constructor; exact Hm|exact Hk].
Qed.

End ReFacts.

Lemma take_consumed {A} (pre rest : list A) :
  take (length (pre ++ rest) - length rest) (pre ++ rest) = pre.
Proof.
  rewrite length_app.
  replace (length pre + length rest - length rest)%nat with (length pre) by lia.
  apply take_app_length.
Qed.

(** What [search] returns is a word of the pattern inside the string. *)
Lemma search_sound r s m :
  Re.search r s = Some m ->
  exists before after,
    s = before ++ Re.group0 m ++ after /\ Re.matches r (Re.group0 m).
Proof.
  assert (Hhere : forall t m', Re.match_here r t = Some m' ->
            exists after, t = Re.group0 m' ++ after /\ Re.matches r (Re.group0 m')).
  { intros t m' Hm. unfold Re.match_here in Hm.
    apply run_sound in Hm as (w & s' & caps' & -> & Hw & Hm).
    injection Hm as <-. cbn [Re.group0]. rewrite take_consumed. eauto. }
  induction s as [|c t IH]; simpl; intros Hs.
  - destruct (Re.match_here r []) as [m'|] eqn:Hm; [|discriminate].
    injection Hs as ->. apply Hhere in Hm as (after & Heq & Hw).
    exists [], after. auto.
  - destruct (Re.match_here r (c :: t)) as [m'|] eqn:Hm.
    + injection Hs as ->. apply Hhere in Hm as (after & Heq & Hw).
      exists [], after. auto.
    + apply IH in Hs as (before & after & -> & Hw).
      exists (c :: before), after. auto.
Qed.

(** An identifier: a non-empty string of decimal digits. *)
Lemma cjlist_id_digits s cid :
  FetchInfo.cjlist_id s = Some cid ->
  cid <> [] /\ Forall (fun c => Re.digit c = true) cid.
Proof.
  unfold FetchInfo.cjlist_id. intros Hid.
  destruct (Re.search FetchInfo.CJLIST_RE s) as [m|] eqn:Hs; [|discriminate].
  injection Hid as <-. revert Hs.
  induction s as [|c t IH]; simpl; intros Hs.
  - destruct (Re.match_here FetchInfo.CJLIST_RE []) eqn:Hm; discriminate.
  - destruct (Re.match_here FetchInfo.CJLIST_RE (c :: t)) as [m'|] eqn:Hm;
      [|auto].
    injection Hs as ->. clear IH.
    unfold Re.match_here, FetchInfo.CJLIST_RE in Hm.
    rewrite run_cat in Hm.
    apply run_lit_i_inv in Hm as (s1 & Hm).
    rewrite run_cat in Hm.
    apply run_group_plus_inv in Hm as (g & rest & -> & Hne & Hdig & Hm).
    apply run_lit_i_inv in Hm as (s2 & Hm).
    injection Hm as <-. auto.
Qed.

Lemma search_skip r c t :
  Re.match_here r (c :: t) = None -> Re.search r (c :: t) = Re.search r t.
Proof. intros Hm. simpl. rewrite Hm. reflexivity. Qed.

Lemma cjlist_not_at_1 c t :
  Re.icase 47%N c = false -> Re.match_here FetchInfo.CJLIST_RE (c :: t) = None.
Proof.
  intros Hc. unfold Re.match_here, FetchInfo.CJLIST_RE.
  change (py "/cjlist") with [47; 99; 106; 108; 105; 115; 116]%N.
  cbn [Re.lit_i Re.run]. rewrite Hc. reflexivity.
Qed.

Lemma cjlist_not_at_2 c d t :
  Re.icase 99%N d = false ->
  Re.match_here FetchInfo.CJLIST_RE (c :: d :: t) = None.
Proof.
  intros Hd. unfold Re.match_here, FetchInfo.CJLIST_RE.
  change (py "/cjlist") with [47; 99; 106; 108; 105; 115; 116]%N.
  cbn [Re.lit_i Re.run]. rewrite Hd. destruct (Re.icase 47%N c); reflexivity.
Qed.

(** No match of [CJLIST_RE] starts inside the scheme and host of the site,
    so the search of an absolute [href] is the search of its site-relative
    part. *)
Lemma cjlist_search_origin o s :
  o ∈ FetchInfo.site_origins ->
  Re.search FetchInfo.CJLIST_RE (o ++ s) = Re.search FetchInfo.CJLIST_RE s.
Proof.
  unfold FetchInfo.site_origins. rewrite !elem_of_cons, elem_of_nil.
  intros [-> | [-> | []]];
    match goal with
    | |- context [?o ++ s] =>
        let o' := eval vm_compute in o in change o with o'
    end;
    cbn [app];
    repeat (rewrite search_skip
              by first [ apply cjlist_not_at_1; reflexivity
                       | apply cjlist_not_at_2; reflexivity ]);
    reflexivity.
Qed.

(** ** The parse tree *)

(** Induction on a tree with the hypothesis for every child. *)
Lemma node_forall_ind (P : Soup.node -> Prop) :
  (forall nm attrs cs, Forall P cs -> P (Soup.Tag nm attrs cs)) ->
  (forall s, P (Soup.NavigableString s)) ->
  forall n, P n.
Proof.
  intros Htag Hstr. fix IH 1. intros [nm attrs cs | s].
  - apply Htag. induction cs as [|c cs IHcs]; constructor; [apply IH | exact IHcs].
  - apply Hstr.
Qed.

Lemma descendants_tag nm attrs cs x :
  x ∈ Soup.descendants (Soup.Tag nm attrs cs)
  <-> exists c, c ∈ cs /\ (x = c \/ x ∈ Soup.descendants c).
Proof.
  simpl. rewrite list_elem_of_In, in_flat_map. split.
  - intros (c & Hc & Hx). exists c. rewrite list_elem_of_In. split; [exact Hc|].
    destruct Hx as [<- | Hx]; [left; reflexivity | right].
    apply list_elem_of_In. exact Hx.
  - intros (c & Hc & Hx). exists c. rewrite <- list_elem_of_In. split; [exact Hc|].
    destruct Hx as [-> | Hx]; [left; reflexivity | right].
    apply list_elem_of_In. exact Hx.
Qed.

(** Below a descendant is below. *)
Lemma descendants_trans n :
  forall x y, x ∈ Soup.descendants n -> y ∈ Soup.descendants x ->
              y ∈ Soup.descendants n.
Proof.
  induction n as [nm attrs cs IH | s] using node_forall_ind; intros x y Hx Hy.
  - apply descendants_tag in Hx as (c & Hc & Hx).
    apply descendants_tag. exists c. split; [exact Hc|]. right.
    destruct Hx as [-> | Hx]; [exact Hy|].
    rewrite Forall_forall in IH. exact (IH c Hc x y Hx Hy).
  - simpl in Hx. inversion Hx.
Qed.






Lemma find_all_a_href_spec soup a :
  a ∈ Soup.find_all_a_href soup
  <-> a ∈ Soup.descendants soup /\ Soup.is_a_href a = true.
Proof.
  unfold Soup.find_all_a_href. rewrite !list_elem_of_In, filter_In. reflexivity.
Qed.

Lemma find_a_href_spec n a :
  Soup.find_a_href n = Some a ->
  a ∈ Soup.descendants n /\ Soup.is_a_href a = true.
Proof.
  unfold Soup.find_a_href. intros Hh. apply find_all_a_href_spec.
  destruct (Soup.find_all_a_href n) as [|x l]; [discriminate|].
  injection Hh as ->. left.
Qed.

(** A selected row is an [li.li01] below a [ul.ul01]. *)
Lemma select_rows_in_sound n :
  forall inside li,
    li ∈ Soup.select_rows_in inside n ->
    Soup.is_li01 li = true
    /\ (li = n \/ li ∈ Soup.descendants n)
    /\ (inside = true
        \/ exists ul, (ul = n \/ ul ∈ Soup.descendants n)
                      /\ Soup.is_ul01 ul = true
                      /\ li ∈ Soup.descendants ul).
Proof.
  induction n as [nm attrs cs IH | s] using node_forall_ind;
    intros inside li Hli; [|inversion Hli].
  cbn [Soup.select_rows_in] in Hli. apply elem_of_app in Hli as [Hli | Hli].
  - destruct (inside && Soup.is_li01 (Soup.Tag nm attrs cs)) eqn:E;
      [|inversion Hli].
    apply list_elem_of_singleton in Hli as ->.
    apply andb_true_iff in E as [-> E]. auto.
  - apply list_elem_of_In, in_flat_map in Hli as (c & Hc & Hli).
    apply list_elem_of_In in Hc, Hli.
    rewrite Forall_forall in IH.
    destruct (IH c Hc _ _ Hli) as (Hli01 & Hbelow & Hul).
    assert (Hdesc : li ∈ Soup.descendants (Soup.Tag nm attrs cs)).
    { apply descendants_tag. exists c. auto. }
    split; [exact Hli01|]. split; [right; exact Hdesc|].
    destruct Hul as [Hin | (ul & Hul & Hisul & Hliul)].
    + apply orb_true_iff in Hin as [-> | Hisul]; [left; reflexivity|].
      right. exists (Soup.Tag nm attrs cs). auto.
    + right. exists ul. split; [|auto]. right.
      apply descendants_tag. exists c. auto.
Qed.

Lemma select_rows_sound soup li :
  li ∈ Soup.select_rows soup ->
  Soup.is_li01 li = true
  /\ li ∈ Soup.descendants soup
  /\ exists ul, ul ∈ Soup.descendants soup /\ Soup.is_ul01 ul = true
                /\ li ∈ Soup.descendants ul.
Proof.
  destruct soup as [nm attrs cs | s]; [|intros Hli; inversion Hli].
  unfold Soup.select_rows. intros Hli.
  apply list_elem_of_In, in_flat_map in Hli as (c & Hc & Hli).
  apply list_elem_of_In in Hc, Hli.
  destruct (select_rows_in_sound c _ _ Hli) as (Hli01 & Hbelow & Hul).
  split; [exact Hli01|]. split.
  - apply descendants_tag. exists c. auto.
  - destruct Hul as [Hf | (ul & Hul & Hisul & Hliul)]; [discriminate|].
    exists ul. split; [|auto]. apply descendants_tag. exists c. auto.
Qed.

(** ** Link extraction *)

Section ExtractFacts.
Context `{Urllib} `{HtmlParser}.



(** The invariant of the loop of [extract_job_links_from_listing_html]. *)
Lemma job_links_from_sound base_url rows :
  forall links0 links u,
    FetchInfo.job_links_from base_url rows links0 = Ok links ->
    u ∈ links ->
    u ∈ links0
    \/ exists li a parsed,
         li ∈ rows /\ Soup.find_a_href li = Some a
         /\ urljoin base_url (Soup.href a) = Ok u
         /\ urlparse u = Ok parsed
         /\ (netloc parsed = [] \/ netloc parsed = FetchInfo.BASE_DOMAIN)
         /\ is_Some (Re.search FetchInfo.JOB_DETAIL_RE (path parsed)).
Proof.
  induction rows as [|li rows IH]; intros links0 links u Hrun Hu.
  - injection Hrun as <-. left. exact Hu.
  - cbn [FetchInfo.job_links_from] in Hrun.
    assert (Hrest : forall l0,
      FetchInfo.job_links_from base_url rows l0 = Ok links ->
      u ∈ l0
      \/ exists li' a parsed,
           li' ∈ li :: rows /\ Soup.find_a_href li' = Some a
           /\ urljoin base_url (Soup.href a) = Ok u
           /\ urlparse u = Ok parsed
           /\ (netloc parsed = [] \/ netloc parsed = FetchInfo.BASE_DOMAIN)
           /\ is_Some (Re.search FetchInfo.JOB_DETAIL_RE (path parsed))).
    { intros l0 Hl0. destruct (IH l0 links u Hl0 Hu)
        as [Hin | (li' & a & parsed & Hli' & Hrest)]; [left; exact Hin|].
      right. exists li', a, parsed. split; [right; exact Hli'|exact Hrest]. }
    destruct (Soup.find_a_href li) as [a|] eqn:Ha; [|auto].
    destruct (urljoin base_url (Soup.href a)) as [abs_url|e] eqn:Hjoin;
      [|discriminate]. cbn [mbind res_bind] in Hrun.
    destruct (urlparse abs_url) as [parsed|e] eqn:Hparse; [|discriminate].
    cbn [mbind res_bind] in Hrun.
    destruct (truthy (netloc parsed)
              && negb (pystr_eqb (netloc parsed) FetchInfo.BASE_DOMAIN)) eqn:Hhost;
      [auto|].
    destruct (negb (bool_decide (is_Some
                (Re.search FetchInfo.JOB_DETAIL_RE (path parsed))))) eqn:Hpath;
      [auto|].
    destruct (Hrest _ Hrun) as [Hin | Hex]; [|right; exact Hex].
    apply elem_of_union in Hin as [Hin | Hin]; [left; exact Hin|].
    apply elem_of_singleton in Hin as ->.
    right. exists li, a, parsed. split; [left|]. split; [exact Ha|].
    split; [exact Hjoin|]. split; [exact Hparse|]. split.
    + apply andb_false_iff in Hhost as [Hempty | Heq].
      * left. destruct (netloc parsed); [reflexivity|discriminate].
      * right. apply negb_false_iff in Heq. unfold pystr_eqb in Heq.
        apply bool_decide_eq_true in Heq. exact Heq.
    + apply negb_false_iff, bool_decide_eq_true in Hpath. exact Hpath.
Qed.

(** C5, amended. Every URL [extract_job_links_from_listing_html] returns
    comes from the first [<a href>] inside an [li.li01] below a [ul.ul01], is
    that href resolved against the base URL, has a path the job-detail pattern
    matches, and has a network location that is either empty or exactly
    [www.baitoru.com]. *)
Theorem job_links_scoped_pinned_filtered (html base_url : pystr)
    (links : gset pystr) (u : pystr) :
  FetchInfo.extract_job_links_from_listing_html html base_url = Ok links ->
  u ∈ links ->
  exists ul li a parsed,
    ul ∈ Soup.descendants (lxml html) /\ Soup.is_ul01 ul = true
    /\ li ∈ Soup.descendants ul /\ Soup.is_li01 li = true
    /\ Soup.find_a_href li = Some a
    /\ a ∈ Soup.descendants li /\ Soup.is_a_href a = true
    /\ urljoin base_url (Soup.href a) = Ok u
    /\ urlparse u = Ok parsed
    /\ (netloc parsed = [] \/ netloc parsed = FetchInfo.BASE_DOMAIN)
    /\ is_Some (Re.search FetchInfo.JOB_DETAIL_RE (path parsed)).
Proof.
  unfold FetchInfo.extract_job_links_from_listing_html. intros Hrun Hu.
  destruct (job_links_from_sound _ _ _ _ _ Hrun Hu)
    as [Hin | (li & a & parsed & Hli & Ha & Hjoin & Hparse & Hhost & Hpath)].
  - apply elem_of_empty in Hin. contradiction.
  - destruct (select_rows_sound _ _ Hli) as (Hli01 & _ & ul & Hul & Hisul & Hliul).
    destruct (find_a_href_spec _ _ Ha) as [Hdesc Hisa].
    exists ul, li, a, parsed. auto 14.
Qed.

End ExtractFacts.

(** ** The registry *)

Lemma pystr_eqb_true a b : pystr_eqb a b = true <-> a = b.
Proof. unfold pystr_eqb. apply bool_decide_eq_true. Qed.

Lemma pystr_eqb_false a b : pystr_eqb a b = false <-> a <> b.
Proof. unfold pystr_eqb. apply bool_decide_eq_false. Qed.

Lemma dict_get_set_eq k v d :
  FetchInfo.dict_get k (FetchInfo.dict_set k v d) = Some v.
Proof.
  induction d as [|[k' v'] d IH]; simpl.
  - replace (pystr_eqb k k) with true by (symmetry; apply pystr_eqb_true; reflexivity).
    reflexivity.
  - destruct (pystr_eqb k' k) eqn:E; simpl.
    + replace (pystr_eqb k k) with true
        by (symmetry; apply pystr_eqb_true; reflexivity).
      reflexivity.
    + rewrite E. exact IH.
Qed.

Lemma dict_get_set_ne k k' v d :
  k <> k' ->
  FetchInfo.dict_get k' (FetchInfo.dict_set k v d) = FetchInfo.dict_get k' d.
Proof.
  intros Hne. induction d as [|[k0 v0] d IH]; simpl.
  - apply pystr_eqb_false in Hne. rewrite Hne. reflexivity.
  - destruct (pystr_eqb k0 k) eqn:E; simpl.
    + apply pystr_eqb_true in E as ->.
      apply pystr_eqb_false in Hne. rewrite Hne. reflexivity.
    + destruct (pystr_eqb k0 k'); [reflexivity|exact IH].
Qed.

Lemma dict_has_false k d :
  FetchInfo.dict_has k d = false <-> FetchInfo.dict_get k d = None.
Proof.
  unfold FetchInfo.dict_has. rewrite bool_decide_eq_false.
  destruct (FetchInfo.dict_get k d); split; intros Hx;
    try discriminate; try reflexivity.
  - exfalso. apply Hx. eauto.
  - intros [? ?]. discriminate.
Qed.

Lemma keyed_by_ids_set k v d :
  FetchInfo.is_id k -> FetchInfo.company_id v = k ->
  FetchInfo.keyed_by_ids d ->
  FetchInfo.keyed_by_ids (FetchInfo.dict_set k v d).
Proof.
  intros Hk Hv. unfold FetchInfo.keyed_by_ids.
  induction d as [|[k' v'] d IH]; intros Hd; simpl.
  - constructor; [split; assumption|constructor].
  - apply Forall_cons in Hd as [Hhd Htl].
    destruct (pystr_eqb k' k); constructor; auto.
Qed.

Lemma keyed_by_ids_get k i d :
  FetchInfo.keyed_by_ids d -> FetchInfo.dict_get k d = Some i ->
  FetchInfo.is_id k /\ FetchInfo.company_id i = k.
Proof.
  unfold FetchInfo.keyed_by_ids. induction d as [|[k' v'] d IH];
    intros Hd Hget; simpl in Hget; [discriminate|].
  apply Forall_cons in Hd as [Hhd Htl].
  destruct (pystr_eqb k' k) eqn:E; [|auto].
  apply pystr_eqb_true in E as ->. injection Hget as ->. exact Hhd.
Qed.

Lemma kept_refl i : FetchInfo.kept i i.
Proof. unfold FetchInfo.kept. auto. Qed.

Lemma kept_trans i1 i2 i3 :
  FetchInfo.kept i1 i2 -> FetchInfo.kept i2 i3 -> FetchInfo.kept i1 i3.
Proof.
  unfold FetchInfo.kept. intros (Hc & Hj & Hl) (Hc' & Hj' & Hl').
  split; [congruence|]. split; intros Ht.
  - rewrite <- (Hj Ht). apply Hj'. rewrite (Hj Ht). exact Ht.
  - rewrite <- (Hl Ht). apply Hl'. rewrite (Hl Ht). exact Ht.
Qed.

Lemma provenance_kept_refl d : FetchInfo.provenance_kept d d.
Proof. intros cid i Hget. exists i. split; [exact Hget|apply kept_refl]. Qed.

Lemma provenance_kept_trans d1 d2 d3 :
  FetchInfo.provenance_kept d1 d2 -> FetchInfo.provenance_kept d2 d3 ->
  FetchInfo.provenance_kept d1 d3.
Proof.
  intros H12 H23 cid i Hget.
  destruct (H12 cid i Hget) as (i2 & Hget2 & Hk2).
  destruct (H23 cid i2 Hget2) as (i3 & Hget3 & Hk3).
  exists i3. split; [exact Hget3|]. eapply kept_trans; eassumption.
Qed.

(** Registration leaves every other key alone. *)
Lemma register_get_other cids job_url listing_url :
  forall d k, k ∉ cids ->
    FetchInfo.dict_get k (FetchInfo.register cids job_url listing_url d)
    = FetchInfo.dict_get k d.
Proof.
  unfold FetchInfo.register.
  induction cids as [|c cids IH]; intros d k Hk; [reflexivity|].
  simpl. rewrite IH by (intros Hin; apply Hk; right; exact Hin).
  apply dict_get_set_ne. intros ->. apply Hk. left.
Qed.

Lemma new_ids_spec ids d cid :
  cid ∈ FetchInfo.new_ids ids d <-> cid ∈ ids /\ FetchInfo.dict_get cid d = None.
Proof.
  unfold FetchInfo.new_ids. rewrite list_elem_of_In, filter_In.
  rewrite <- list_elem_of_In, elem_of_elements, negb_true_iff, dict_has_false.
  reflexivity.
Qed.

(** Registering the unseen identifiers of a page changes no entry that is
    already there. *)
Lemma register_new_keeps ids job_url listing_url d :
  FetchInfo.provenance_kept d
    (FetchInfo.register (FetchInfo.new_ids ids d) job_url listing_url d).
Proof.
  intros cid i Hget. exists i. split; [|apply kept_refl].
  rewrite register_get_other; [exact Hget|].
  intros Hin. apply new_ids_spec in Hin as [_ Hnone]. congruence.
Qed.

Lemma register_keyed cids job_url listing_url :
  forall d, Forall FetchInfo.is_id cids -> FetchInfo.keyed_by_ids d ->
    FetchInfo.keyed_by_ids (FetchInfo.register cids job_url listing_url d).
Proof.
  unfold FetchInfo.register.
  induction cids as [|c cids IH]; intros d Hids Hd; [exact Hd|].
  apply Forall_cons in Hids as [Hc Hids]. simpl. apply IH; [assumption|].
  apply keyed_by_ids_set; auto.
Qed.

(** What [merge] leaves under the key it merges into. *)
Lemma merge_get_present cid u job_url listing_url d i :
  FetchInfo.dict_get cid d = Some i ->
  FetchInfo.dict_get cid (FetchInfo.merge cid u job_url listing_url d)
  = Some {| FetchInfo.company_id := FetchInfo.company_id i;
            FetchInfo.company_url := u;
            FetchInfo.source_job_url :=
              if truthy (FetchInfo.source_job_url i)
              then FetchInfo.source_job_url i else job_url;
            FetchInfo.source_listing_url :=
              if truthy (FetchInfo.source_listing_url i)
              then FetchInfo.source_listing_url i else listing_url |}.
Proof.
  intros Hget. unfold FetchInfo.merge. rewrite Hget. cbn zeta. rewrite Hget.
  rewrite dict_get_set_eq. cbn [FetchInfo.source_job_url FetchInfo.source_listing_url
    FetchInfo.company_id FetchInfo.company_url].
  destruct (truthy (FetchInfo.source_job_url i));
    cbn [FetchInfo.source_job_url FetchInfo.source_listing_url
         FetchInfo.company_id FetchInfo.company_url];
    destruct (truthy (FetchInfo.source_listing_url i)); reflexivity.
Qed.

Lemma merge_get_absent cid u job_url listing_url d :
  FetchInfo.dict_get cid d = None ->
  exists i', FetchInfo.dict_get cid (FetchInfo.merge cid u job_url listing_url d)
             = Some i'
             /\ FetchInfo.company_id i' = cid /\ FetchInfo.company_url i' = u.
Proof.
  intros Hget. unfold FetchInfo.merge. rewrite Hget. cbn zeta.
  rewrite dict_get_set_eq, dict_get_set_eq.
  cbn [FetchInfo.source_job_url FetchInfo.source_listing_url
       FetchInfo.company_id FetchInfo.company_url].
  eexists. split; [reflexivity|].
  destruct (truthy job_url);
    cbn [FetchInfo.source_job_url FetchInfo.source_listing_url
         FetchInfo.company_id FetchInfo.company_url];
    destruct (truthy listing_url); auto.
Qed.

Lemma merge_get_other cid k u job_url listing_url d :
  cid <> k ->
  FetchInfo.dict_get k (FetchInfo.merge cid u job_url listing_url d)
  = FetchInfo.dict_get k d.
Proof.
  intros Hne. unfold FetchInfo.merge.
  destruct (FetchInfo.dict_get cid d) as [i|] eqn:Hget; cbn zeta.
  - rewrite Hget. apply dict_get_set_ne. exact Hne.
  - rewrite dict_get_set_eq. rewrite !dict_get_set_ne by exact Hne. reflexivity.
Qed.

Lemma merge_keeps cid u job_url listing_url d :
  FetchInfo.provenance_kept d (FetchInfo.merge cid u job_url listing_url d).
Proof.
  intros k i Hget. destruct (decide (cid = k)) as [->|Hne].
  - rewrite (merge_get_present _ _ _ _ _ _ Hget). eexists. split; [reflexivity|].
    unfold FetchInfo.kept. cbn. split; [reflexivity|].
    split; intros ->; reflexivity.
  - exists i. rewrite merge_get_other by exact Hne. split; [exact Hget|apply kept_refl].
Qed.

Lemma merge_keyed cid u job_url listing_url d :
  FetchInfo.is_id cid -> FetchInfo.keyed_by_ids d ->
  FetchInfo.keyed_by_ids (FetchInfo.merge cid u job_url listing_url d).
Proof.
  intros Hid Hd. unfold FetchInfo.merge.
  destruct (FetchInfo.dict_get cid d) as [i|] eqn:Hget; cbn zeta.
  - rewrite Hget. destruct (keyed_by_ids_get _ _ _ Hd Hget) as [_ Hc].
    apply keyed_by_ids_set; [exact Hid| |exact Hd].
    destruct (truthy (FetchInfo.source_job_url _)); cbn;
      destruct (truthy _); cbn; exact Hc.
  - rewrite dict_get_set_eq.
    apply keyed_by_ids_set; [exact Hid| |].
    + destruct (truthy (FetchInfo.source_job_url _)); cbn;
        destruct (truthy _); cbn; reflexivity.
    + apply keyed_by_ids_set; auto.
Qed.

(** ** The crawl *)

Section CrawlFacts.
Context `{Network} `{Urllib} `{HtmlParser}.

Lemma listing_pages_app w1 w2 :
  FetchInfo.listing_pages (w1 ++ w2)
  = FetchInfo.listing_pages w1 ++ FetchInfo.listing_pages w2.
Proof. apply omap_app. Qed.

Lemma job_pages_app w1 w2 :
  FetchInfo.job_pages (w1 ++ w2) = FetchInfo.job_pages w1 ++ FetchInfo.job_pages w2.
Proof. apply omap_app. Qed.

(** A fetch returns, and shows no page line of its own. *)
Lemma fetch_info_quiet url :
  forall (n : nat) (i : Z) last w,
    exists o evs,
      FetchInfo.fetch_html_from url n i last w = (Ok o, evs ++ w)
      /\ FetchInfo.listing_pages evs = [] /\ FetchInfo.job_pages evs = [].
Proof.
  induction n as [|n IH]; intros i last w.
  - simpl. mstep. exists None, [EvPrint (ErrorFailed url last)]. auto.
  - simpl. mstep. destruct (http (gets w) url) as [r|e].
    + destruct (status_code r =? 200); cbn [fst snd].
      * exists (Some (text_apparent r)), [EvGet url]. auto.
      * exists None, [EvPrint (WarnStatus (status_code r) url); EvGet url]. auto.
    + cbn [fst snd].
      destruct (IH (i + 1) (Some e)
        (EvSleep (FetchInfo.BASE_BACKOFF_SEC * (i + 1))
           :: EvPrint (WarnError e url (i + 1)) :: EvGet url :: w))
        as (o & evs & Hrun & Hl & Hj).
      exists o, (evs ++ [EvSleep (FetchInfo.BASE_BACKOFF_SEC * (i + 1));
                         EvPrint (WarnError e url (i + 1)); EvGet url]).
      rewrite <- app_assoc. split; [exact Hrun|].
      rewrite listing_pages_app, job_pages_app, Hl, Hj. auto.
Qed.

Lemma fetch_html_quiet url w :
  exists o evs,
    FetchInfo.fetch_html url w = (Ok o, evs ++ w)
    /\ FetchInfo.listing_pages evs = [] /\ FetchInfo.job_pages evs = [].
Proof. apply fetch_info_quiet. Qed.

Lemma href_id_is_id href cid :
  FetchInfo.href_id href = Some cid -> FetchInfo.is_id cid.
Proof.
  unfold FetchInfo.href_id, FetchInfo.is_id. intros Hid.
  destruct (FetchInfo.cjlist_id href) as [c|] eqn:Hdirect.
  - injection Hid as <-. eapply cjlist_id_digits; eassumption.
  - destruct (urlparse href) as [parsed|e]; [|discriminate].
    eapply cjlist_id_digits; eassumption.
Qed.

Lemma extracted_ids_are_ids html cid :
  cid ∈ FetchInfo.extract_cjlist_ids_from_html html -> FetchInfo.is_id cid.
Proof.
  unfold FetchInfo.extract_cjlist_ids_from_html. cbn zeta.
  rewrite elem_of_list_to_set, list_elem_of_omap.
  intros (a & _ & Hid). eapply href_id_is_id; eassumption.
Qed.

Lemma new_ids_are_ids html d :
  Forall FetchInfo.is_id
    (FetchInfo.new_ids (FetchInfo.extract_cjlist_ids_from_html html) d).
Proof.
  apply Forall_forall. intros cid Hin. apply new_ids_spec in Hin as [Hin _].
  eapply extracted_ids_are_ids; eassumption.
Qed.

Lemma bind_inv {A B} (m : M A) (k : A -> M B) w r w' :
  (m ≫= k) w = (r, w') ->
  (exists a w1, m w = (Ok a, w1) /\ k a w1 = (r, w'))
  \/ (exists e, m w = (Raise e, w') /\ r = Raise e).
Proof.
  unfold mbind, M_bind, bind. destruct (m w) as [[a|e] w1]; intros Hrun.
  - left. eauto.
  - right. injection Hrun as <- <-. eauto.
Qed.

Lemma jobs_step_refl st : FetchInfo.jobs_step [] st st.
Proof.
  unfold FetchInfo.jobs_step. repeat split; auto.
  - intros [Hx | Hx]; [exact Hx|inversion Hx].
  - apply provenance_kept_refl.
Qed.

(** One iteration of the job loop. *)
Lemma job_body_spec mj cur u st w r w' :
  FetchInfo.job_body mj cur u st w = (r, w') ->
  exists evs,
    w' = evs ++ w /\ FetchInfo.listing_pages evs = []
    /\ (FetchInfo.job_pages evs = []
        \/ (FetchInfo.job_pages evs = [u]
            /\ (u ∉ FetchInfo.visited_job_urls st)
            /\ Z.of_nat (size (FetchInfo.visited_job_urls st)) < mj))
    /\ forall c st', r = Ok (c, st') -> FetchInfo.jobs_step evs st st'.
Proof.
  unfold FetchInfo.job_body. intros Hrun.
  destruct (Z.of_nat (size (FetchInfo.visited_job_urls st)) >=? mj) eqn:Hmax.
  { mstep. injection Hrun as <- <-. exists [EvPrint WarnMaxJobPages].
    split; [reflexivity|]. split; [reflexivity|]. split; [left; reflexivity|].
    intros c st' [= <- <-]. apply jobs_step_refl. }
  destruct (bool_decide (u ∈ FetchInfo.visited_job_urls st)) eqn:Hvis.
  { mstep. injection Hrun as <- <-. exists [].
    split; [reflexivity|]. split; [reflexivity|]. split; [left; reflexivity|].
    intros c st' [= <- <-]. apply jobs_step_refl. }
  apply bool_decide_eq_false in Hvis.
  assert (Hlt : Z.of_nat (size (FetchInfo.visited_job_urls st)) < mj).
  { rewrite Z.geb_leb in Hmax. apply Z.leb_gt in Hmax. exact Hmax. }
  apply bind_inv in Hrun as [([] & w1 & Hp & Hrun) | (e & Hp & _)];
    [|discriminate Hp].
  unfold print, emit in Hp. injection Hp as <-.
  destruct (fetch_html_quiet u (EvPrint (InfoJobPage u) :: w))
    as (o & evs & Hf & Hl & Hj).
  apply bind_inv in Hrun as [(o' & w2 & Hf' & Hrun) | (e & Hf' & _)];
    [|rewrite Hf in Hf'; discriminate Hf'].
  rewrite Hf in Hf'. injection Hf' as <- <-.
  set (st1 := {| FetchInfo.company_infos := FetchInfo.company_infos st;
                 FetchInfo.visited_listing_urls := FetchInfo.visited_listing_urls st;
                 FetchInfo.visited_job_urls := FetchInfo.visited_job_urls st ∪ {[u]};
                 FetchInfo.listing_count := FetchInfo.listing_count st |}) in *.
  assert (Hpages : forall evs',
            FetchInfo.listing_pages evs' = [] -> FetchInfo.job_pages evs' = [] ->
            FetchInfo.listing_pages (evs' ++ evs ++ [EvPrint (InfoJobPage u)]) = []
            /\ FetchInfo.job_pages (evs' ++ evs ++ [EvPrint (InfoJobPage u)]) = [u]).
  { intros evs' Hl' Hj'. rewrite !listing_pages_app, !job_pages_app, Hl, Hj, Hl', Hj'.
    auto. }
  assert (Hst1 : forall evs' d,
            FetchInfo.job_pages (evs' ++ evs ++ [EvPrint (InfoJobPage u)]) = [u] ->
            FetchInfo.provenance_kept (FetchInfo.company_infos st) d ->
            (FetchInfo.keyed_by_ids (FetchInfo.company_infos st) ->
             FetchInfo.keyed_by_ids d) ->
            FetchInfo.jobs_step (evs' ++ evs ++ [EvPrint (InfoJobPage u)]) st
              {| FetchInfo.company_infos := d;
                 FetchInfo.visited_listing_urls := FetchInfo.visited_listing_urls st;
                 FetchInfo.visited_job_urls := FetchInfo.visited_job_urls st ∪ {[u]};
                 FetchInfo.listing_count := FetchInfo.listing_count st |}).
  { intros evs' d Hjp Hprov Hkeyed. unfold FetchInfo.jobs_step. cbn.
    rewrite Hjp. repeat split; auto.
    - intros Hx. apply elem_of_union in Hx as [Hx | Hx]; [left; exact Hx|].
      right. apply elem_of_singleton in Hx as ->. left.
    - intros [Hx | Hx]; apply elem_of_union; [left; exact Hx|right].
      apply list_elem_of_singleton in Hx as ->. apply elem_of_singleton. reflexivity. }
  assert (Hquiet : forall evs',
            FetchInfo.listing_pages evs' = [] -> FetchInfo.job_pages evs' = [] ->
            forall d,
              FetchInfo.provenance_kept (FetchInfo.company_infos st) d ->
              (FetchInfo.keyed_by_ids (FetchInfo.company_infos st) ->
               FetchInfo.keyed_by_ids d) ->
              exists evs0,
                evs' ++ evs ++ EvPrint (InfoJobPage u) :: w = evs0 ++ w
                /\ FetchInfo.listing_pages evs0 = []
                /\ (FetchInfo.job_pages evs0 = []
                    \/ FetchInfo.job_pages evs0 = [u]
                       /\ (u ∉ FetchInfo.visited_job_urls st)
                       /\ Z.of_nat (size (FetchInfo.visited_job_urls st)) < mj)
                /\ forall c st',
                     Ok (FetchInfo.Continue,
                         {| FetchInfo.company_infos := d;
                            FetchInfo.visited_listing_urls :=
                              FetchInfo.visited_listing_urls st;
                            FetchInfo.visited_job_urls :=
                              FetchInfo.visited_job_urls st ∪ {[u]};
                            FetchInfo.listing_count := FetchInfo.listing_count st |})
                     = Ok (c, st') ->
                     FetchInfo.jobs_step evs0 st st').
  { intros evs' Hl' Hj' d Hprov Hkeyed.
    destruct (Hpages evs' Hl' Hj') as [Hlp Hjp].
    exists (evs' ++ evs ++ [EvPrint (InfoJobPage u)]).
    split; [rewrite <- !app_assoc; reflexivity|]. split; [exact Hlp|].
    split; [right; auto|]. intros c st' [= <- <-]. apply Hst1; assumption. }
  assert (Hfail : forall evs' (e : exn),
            FetchInfo.listing_pages evs' = [] -> FetchInfo.job_pages evs' = [] ->
            exists evs0,
              evs' ++ evs ++ EvPrint (InfoJobPage u) :: w = evs0 ++ w
              /\ FetchInfo.listing_pages evs0 = []
              /\ (FetchInfo.job_pages evs0 = []
                  \/ FetchInfo.job_pages evs0 = [u]
                     /\ (u ∉ FetchInfo.visited_job_urls st)
                     /\ Z.of_nat (size (FetchInfo.visited_job_urls st)) < mj)
              /\ forall c st',
                   @Raise (FetchInfo.ctl * FetchInfo.crawl_state) e = Ok (c, st') ->
                   FetchInfo.jobs_step evs0 st st').
  { intros evs' e Hl' Hj'. destruct (Hpages evs' Hl' Hj') as [Hlp Hjp].
    exists (evs' ++ evs ++ [EvPrint (InfoJobPage u)]).
    split; [rewrite <- !app_assoc; reflexivity|]. split; [exact Hlp|].
    split; [right; auto|]. intros c st' [=]. }
  destruct o as [job_html|].
  2:{ mstep. injection Hrun as <- <-.
      apply (Hquiet [] eq_refl eq_refl); [apply provenance_kept_refl|auto]. }
  destruct (truthy job_html) eqn:Hhtml; cbn [negb] in Hrun.
  2:{ mstep. injection Hrun as <- <-.
      apply (Hquiet [] eq_refl eq_refl); [apply provenance_kept_refl|auto]. }
  set (ids := FetchInfo.new_ids (FetchInfo.extract_cjlist_ids_from_html job_html)
                (FetchInfo.company_infos st)) in *.
  set (d1 := FetchInfo.register ids u cur (FetchInfo.company_infos st)) in *.
  assert (Hd1 : FetchInfo.provenance_kept (FetchInfo.company_infos st) d1)
    by apply register_new_keeps.
  assert (Hk1 : FetchInfo.keyed_by_ids (FetchInfo.company_infos st) ->
                FetchInfo.keyed_by_ids d1).
  { intros Hk. apply register_keyed; [apply new_ids_are_ids|exact Hk]. }
  apply bind_inv in Hrun as [([] & w3 & Hp & Hrun) | (e & Hp & _)].
  2:{ destruct (bool_decide (ids = [])); discriminate Hp. }
  assert (Hw3 : exists evs3, w3 = evs3 ++ evs ++ EvPrint (InfoJobPage u) :: w
                 /\ FetchInfo.listing_pages evs3 = []
                 /\ FetchInfo.job_pages evs3 = []).
  { destruct (bool_decide (ids = [])); mstep; injection Hp as <-.
    - exists []. auto.
    - exists [EvPrint (InfoJobNewIds (length ids) u)]. auto. }
  destruct Hw3 as (evs3 & -> & Hl3 & Hj3). clear Hp.
  apply bind_inv in Hrun as [(company_url & w4 & Hp & Hrun) | (e & Hp & ->)].
  2:{ unfold lift in Hp. injection Hp as _ <-. apply Hfail; assumption. }
  unfold lift in Hp. injection Hp as Hcu <-.
  apply bind_inv in Hrun as [(d2 & w5 & Hp & Hrun) | (e & Hp & ->)].
  2:{ destruct (otruthy company_url); [|discriminate Hp].
      apply bind_inv in Hp as [(parsed & w6 & Hp & Hp') | (e' & Hp & _)].
      - destruct (FetchInfo.cjlist_id (path parsed)); discriminate Hp'.
      - unfold lift in Hp. injection Hp as _ <-. apply Hfail; assumption. }
  assert (Hd2 : w5 = evs3 ++ evs ++ EvPrint (InfoJobPage u) :: w
                /\ FetchInfo.provenance_kept (FetchInfo.company_infos st) d2
                /\ (FetchInfo.keyed_by_ids (FetchInfo.company_infos st) ->
                    FetchInfo.keyed_by_ids d2)).
  { destruct (otruthy company_url).
    - apply bind_inv in Hp as [(parsed & w6 & Hp & Hp') | (e' & Hp & [=])].
      unfold lift in Hp. injection Hp as Hparse <-.
      destruct (FetchInfo.cjlist_id (path parsed)) as [cid|] eqn:Hcid;
        mstep; injection Hp' as <- <-.
      + split; [reflexivity|]. split.
        * eapply provenance_kept_trans; [exact Hd1|apply merge_keeps].
        * intros Hk. apply merge_keyed; [|auto].
          eapply cjlist_id_digits. exact Hcid.
      + auto.
    - mstep. injection Hp as <- <-. auto. }
  destruct Hd2 as (-> & Hprov2 & Hkeyed2). clear Hp.
  mstep. injection Hrun as <- <-.
  apply (Hquiet (EvPause :: evs3)); auto.
Qed.

Lemma jobs_step_crawl_step evs st st' :
  FetchInfo.listing_pages evs = [] ->
  FetchInfo.jobs_step evs st st' -> FetchInfo.crawl_step evs st st'.
Proof.
  intros Hl (Hvl & Hc & Hvj & Hp & Hk). unfold FetchInfo.crawl_step.
  rewrite Hl, Hvl, Hc. cbn. split; [lia|]. split; [|auto].
  intros x. split; [auto|]. intros [Hx | Hx]; [exact Hx|inversion Hx].
Qed.

Lemma crawl_step_refl st : FetchInfo.crawl_step [] st st.
Proof. apply jobs_step_crawl_step; [reflexivity|apply jobs_step_refl]. Qed.

Lemma crawl_step_trans evs1 evs2 st st1 st2 :
  FetchInfo.crawl_step evs1 st st1 -> FetchInfo.crawl_step evs2 st1 st2 ->
  FetchInfo.crawl_step (evs2 ++ evs1) st st2.
Proof.
  intros (Hc1 & Hl1 & Hj1 & Hp1 & Hk1) (Hc2 & Hl2 & Hj2 & Hp2 & Hk2).
  unfold FetchInfo.crawl_step.
  rewrite listing_pages_app, job_pages_app, length_app. split; [lia|].
  split; [|split; [|split]].
  - intros x. rewrite Hl2, Hl1, elem_of_app. tauto.
  - intros x. rewrite Hj2, Hj1, elem_of_app. tauto.
  - eapply provenance_kept_trans; eassumption.
  - auto.
Qed.

(** Adding fresh, distinct elements to a set adds their number to its
    size. *)
Lemma size_extended (A B : gset pystr) (l : list pystr) :
  NoDup l -> (forall x, x ∈ l -> x ∉ A) ->
  (forall x, x ∈ B <-> x ∈ A \/ x ∈ l) ->
  size B = (size A + length l)%nat.
Proof.
  intros Hnd Hfresh HB.
  assert (HBeq : B = A ∪ list_to_set l).
  { apply set_eq. intros x. rewrite HB, elem_of_union, elem_of_list_to_set.
    reflexivity. }
  rewrite HBeq, size_union.
  - rewrite size_list_to_set by exact Hnd. reflexivity.
  - intros x HxA Hxl. apply elem_of_list_to_set in Hxl. exact (Hfresh x Hxl HxA).
Qed.

Lemma jobs_bounded_nil mj st : FetchInfo.jobs_bounded mj [] st.
Proof.
  unfold FetchInfo.jobs_bounded. cbn. split; [constructor|].
  split; [intros x Hx; inversion Hx|left; reflexivity].
Qed.

Lemma jobs_bounded_app mj evs1 evs2 st st1 :
  FetchInfo.jobs_bounded mj evs1 st ->
  (forall x, x ∈ FetchInfo.visited_job_urls st1
             <-> x ∈ FetchInfo.visited_job_urls st \/ x ∈ FetchInfo.job_pages evs1) ->
  FetchInfo.jobs_bounded mj evs2 st1 ->
  FetchInfo.jobs_bounded mj (evs2 ++ evs1) st.
Proof.
  intros (Hnd1 & Hf1 & Hb1) Hv (Hnd2 & Hf2 & Hb2).
  unfold FetchInfo.jobs_bounded. rewrite job_pages_app.
  assert (Hsize : size (FetchInfo.visited_job_urls st1)
                  = (size (FetchInfo.visited_job_urls st)
                     + length (FetchInfo.job_pages evs1))%nat)
    by (apply size_extended; assumption).
  split; [|split].
  - apply NoDup_app. split; [exact Hnd2|]. split; [|exact Hnd1].
    intros x Hx2 Hx1. apply (Hf2 x Hx2). apply Hv. right. exact Hx1.
  - intros x Hx HxA. apply elem_of_app in Hx as [Hx | Hx].
    + apply (Hf2 x Hx). apply Hv. left. exact HxA.
    + exact (Hf1 x Hx HxA).
  - destruct Hb2 as [-> | Hb2].
    + destruct Hb1 as [-> | Hb1]; [left; reflexivity|right].
      rewrite app_nil_l. exact Hb1.
    + right. rewrite length_app. lia.
Qed.

Lemma listings_bounded_nil mx st : FetchInfo.listings_bounded mx [] st.
Proof.
  unfold FetchInfo.listings_bounded. cbn. split; [constructor|].
  split; [intros x Hx; inversion Hx|left; reflexivity].
Qed.

Lemma listings_bounded_app mx evs1 evs2 st st1 :
  FetchInfo.listings_bounded mx evs1 st ->
  FetchInfo.crawl_step evs1 st st1 ->
  FetchInfo.listings_bounded mx evs2 st1 ->
  FetchInfo.listings_bounded mx (evs2 ++ evs1) st.
Proof.
  intros (Hnd1 & Hf1 & Hb1) (Hc & Hv & _) (Hnd2 & Hf2 & Hb2).
  unfold FetchInfo.listings_bounded. rewrite listing_pages_app.
  split; [|split].
  - apply NoDup_app. split; [exact Hnd2|]. split; [|exact Hnd1].
    intros x Hx2 Hx1. apply (Hf2 x Hx2). apply Hv. right. exact Hx1.
  - intros x Hx HxA. apply elem_of_app in Hx as [Hx | Hx].
    + apply (Hf2 x Hx). apply Hv. left. exact HxA.
    + exact (Hf1 x Hx HxA).
  - destruct Hb2 as [-> | Hb2].
    + destruct Hb1 as [-> | Hb1]; [left; reflexivity|right].
      rewrite app_nil_l. exact Hb1.
    + right. rewrite length_app. lia.
Qed.

Lemma jobs_step_trans evs1 evs2 st st1 st2 :
  FetchInfo.jobs_step evs1 st st1 -> FetchInfo.jobs_step evs2 st1 st2 ->
  FetchInfo.jobs_step (evs2 ++ evs1) st st2.
Proof.
  intros (Hl1 & Hc1 & Hj1 & Hp1 & Hk1) (Hl2 & Hc2 & Hj2 & Hp2 & Hk2).
  unfold FetchInfo.jobs_step. rewrite job_pages_app.
  split; [congruence|]. split; [congruence|]. split; [|split].
  - intros x. rewrite Hj2, Hj1, elem_of_app. tauto.
  - eapply provenance_kept_trans; eassumption.
  - auto.
Qed.

(** The job loop over the links of one listing page. *)
Lemma job_loop_spec mj cur jobs :
  forall st w r w',
    FetchInfo.job_loop mj cur jobs st w = (r, w') ->
    exists evs,
      w' = evs ++ w /\ FetchInfo.listing_pages evs = []
      /\ FetchInfo.jobs_bounded mj evs st
      /\ forall st', r = Ok st' -> FetchInfo.jobs_step evs st st'.
Proof.
  induction jobs as [|u jobs IH]; intros st w r w' Hrun.
  - cbn in Hrun. mstep. injection Hrun as <- <-. exists [].
    split; [reflexivity|]. split; [reflexivity|].
    split; [apply jobs_bounded_nil|]. intros st' [= <-]. apply jobs_step_refl.
  - cbn [FetchInfo.job_loop] in Hrun.
    apply bind_inv in Hrun as [([c st1] & w1 & Hbody & Hrun) | (e & Hbody & ->)];
      apply job_body_spec in Hbody as (evs1 & -> & Hl1 & Hj1 & Hst1).
    + specialize (Hst1 c st1 eq_refl).
      assert (Hb1 : FetchInfo.jobs_bounded mj evs1 st).
      { destruct Hj1 as [Hj1 | (Hj1 & Hfresh & Hlt)];
          unfold FetchInfo.jobs_bounded; rewrite Hj1.
        - split; [constructor|]. split; [intros x Hx; inversion Hx|auto].
        - split; [apply NoDup_singleton|]. split.
          + intros x Hx. apply list_elem_of_singleton in Hx as ->. exact Hfresh.
          + right. cbn. lia. }
      destruct c.
      * apply IH in Hrun as (evs2 & -> & Hl2 & Hb2 & Hst2).
        exists (evs2 ++ evs1). rewrite <- app_assoc.
        split; [reflexivity|]. split; [rewrite listing_pages_app, Hl1, Hl2; reflexivity|].
        split.
        -- eapply jobs_bounded_app; [exact Hb1| |exact Hb2].
           destruct Hst1 as (_ & _ & Hv & _). exact Hv.
        -- intros st' ->. eapply jobs_step_trans; [exact Hst1|]. apply Hst2.
           reflexivity.
      * mstep. injection Hrun as <- <-. exists evs1.
        split; [reflexivity|]. split; [exact Hl1|]. split; [exact Hb1|].
        intros st' [= <-]. exact Hst1.
    + exists evs1. split; [reflexivity|]. split; [exact Hl1|]. split.
      * destruct Hj1 as [Hj1 | (Hj1 & Hfresh & Hlt)];
          unfold FetchInfo.jobs_bounded; rewrite Hj1.
        -- split; [constructor|]. split; [intros x Hx; inversion Hx|auto].
        -- split; [apply NoDup_singleton|]. split.
           ++ intros x Hx. apply list_elem_of_singleton in Hx as ->. exact Hfresh.
           ++ right. cbn. lia.
      * intros st' [=].
Qed.

Lemma jobs_bounded_ext mj evs evs' st st' :
  FetchInfo.job_pages evs' = FetchInfo.job_pages evs ->
  FetchInfo.visited_job_urls st' = FetchInfo.visited_job_urls st ->
  FetchInfo.jobs_bounded mj evs st -> FetchInfo.jobs_bounded mj evs' st'.
Proof. unfold FetchInfo.jobs_bounded. intros -> ->. auto. Qed.

(** One iteration of the [while] loop. *)
Lemma listing_body_spec mj url st w r w' :
  FetchInfo.listing_body mj url st w = (r, w') ->
  exists evs,
    w' = evs ++ w
    /\ (FetchInfo.listing_pages evs = []
        \/ (FetchInfo.listing_pages evs = [url]
            /\ url ∉ FetchInfo.visited_listing_urls st))
    /\ FetchInfo.jobs_bounded mj evs st
    /\ forall x st',
         r = Ok (x, st') ->
         FetchInfo.crawl_step evs st st'
         /\ match x with
            | inl why =>
                (why = FetchInfo.AlreadyVisited
                 /\ evs = [EvPrint (InfoAlreadyVisited url)]
                 /\ url ∈ FetchInfo.visited_listing_urls st)
                \/ (why = FetchInfo.ListingFetchFailed
                    /\ FetchInfo.listing_pages evs = [url]
                    /\ exists w1 o,
                         FetchInfo.fetch_html url w1 = (Ok o, w')
                         /\ otruthy o = false)
            | inr next =>
                FetchInfo.listing_pages evs = [url]
                /\ exists html w1 w2,
                     FetchInfo.fetch_html url w1 = (Ok (Some html), w2)
                     /\ FetchInfo.find_next_page_url html url = Ok next
            end.
Proof.
  unfold FetchInfo.listing_body. intros Hrun.
  destruct (bool_decide (url ∈ FetchInfo.visited_listing_urls st)) eqn:Hvis.
  { apply bool_decide_eq_true in Hvis. mstep. injection Hrun as <- <-.
    exists [EvPrint (InfoAlreadyVisited url)].
    split; [reflexivity|]. split; [left; reflexivity|].
    split; [apply jobs_bounded_nil|]. intros x st' [= <- <-].
    split; [|left; auto].
    apply jobs_step_crawl_step; [reflexivity|].
    destruct (jobs_step_refl st) as (? & ? & ? & ? & ?).
    unfold FetchInfo.jobs_step. auto. }
  apply bool_decide_eq_false in Hvis.
  set (st1 := {| FetchInfo.company_infos := FetchInfo.company_infos st;
                 FetchInfo.visited_listing_urls :=
                   FetchInfo.visited_listing_urls st ∪ {[url]};
                 FetchInfo.visited_job_urls := FetchInfo.visited_job_urls st;
                 FetchInfo.listing_count := FetchInfo.listing_count st + 1 |}) in *.
  apply bind_inv in Hrun as [([] & w1 & Hp & Hrun) | (e & Hp & _)];
    [|discriminate Hp].
  unfold print, emit in Hp. injection Hp as <-.
  set (p0 := EvPrint (InfoListingPage (FetchInfo.listing_count st + 1) url)) in *.
  destruct (fetch_html_quiet url (p0 :: w)) as (o & evs & Hf & Hl & Hj).
  apply bind_inv in Hrun as [(o' & w2 & Hf' & Hrun) | (e & Hf' & _)];
    [|rewrite Hf in Hf'; discriminate Hf'].
  rewrite Hf in Hf'. injection Hf' as <- <-.
  (* the trace so far and any quiet extension of it *)
  assert (Hpages : forall evs',
            FetchInfo.listing_pages evs' = [] ->
            FetchInfo.listing_pages (evs' ++ evs ++ [p0]) = [url]
            /\ FetchInfo.job_pages (evs' ++ evs ++ [p0]) = FetchInfo.job_pages evs').
  { intros evs' Hl'. rewrite !listing_pages_app, !job_pages_app, Hl, Hj, Hl'.
    cbn. rewrite app_nil_r. auto. }
  assert (Hstep1 : forall evs' d,
            FetchInfo.listing_pages evs' = [] -> FetchInfo.job_pages evs' = [] ->
            FetchInfo.provenance_kept (FetchInfo.company_infos st) d ->
            (FetchInfo.keyed_by_ids (FetchInfo.company_infos st) ->
             FetchInfo.keyed_by_ids d) ->
            FetchInfo.crawl_step (evs' ++ evs ++ [p0]) st
              {| FetchInfo.company_infos := d;
                 FetchInfo.visited_listing_urls :=
                   FetchInfo.visited_listing_urls st ∪ {[url]};
                 FetchInfo.visited_job_urls := FetchInfo.visited_job_urls st;
                 FetchInfo.listing_count := FetchInfo.listing_count st + 1 |}).
  { intros evs' d Hl' Hj' Hprov Hkeyed.
    destruct (Hpages evs' Hl') as [Hlp Hjp].
    unfold FetchInfo.crawl_step. rewrite Hlp, Hjp, Hj'. cbn.
    split; [lia|]. split; [|split; [|auto]].
    - intros x. rewrite elem_of_union, elem_of_singleton, list_elem_of_singleton.
      reflexivity.
    - intros x. split; [auto|]. intros [Hx | Hx]; [exact Hx|inversion Hx]. }
  assert (Hraise : forall evs' (e : exn),
            FetchInfo.listing_pages evs' = [] ->
            FetchInfo.jobs_bounded mj evs' st ->
            exists evs0,
              evs' ++ evs ++ p0 :: w = evs0 ++ w
              /\ (FetchInfo.listing_pages evs0 = []
                  \/ FetchInfo.listing_pages evs0 = [url]
                     /\ url ∉ FetchInfo.visited_listing_urls st)
              /\ FetchInfo.jobs_bounded mj evs0 st
              /\ forall x st',
                   @Raise ((FetchInfo.loop_exit + option pystr)
                           * FetchInfo.crawl_state) e = Ok (x, st') ->
                   FetchInfo.crawl_step evs0 st st'
                   /\ match x with
                      | inl why =>
                          (why = FetchInfo.AlreadyVisited
                           /\ evs0 = [EvPrint (InfoAlreadyVisited url)]
                           /\ url ∈ FetchInfo.visited_listing_urls st)
                          \/ (why = FetchInfo.ListingFetchFailed
                              /\ FetchInfo.listing_pages evs0 = [url]
                              /\ exists w1 o,
                                   FetchInfo.fetch_html url w1
                                   = (Ok o, evs' ++ evs ++ p0 :: w)
                                   /\ otruthy o = false)
                      | inr next =>
                          FetchInfo.listing_pages evs0 = [url]
                          /\ exists html w1 w2,
                               FetchInfo.fetch_html url w1 = (Ok (Some html), w2)
                               /\ FetchInfo.find_next_page_url html url = Ok next
                      end).
  { intros evs' e Hl' Hb'. destruct (Hpages evs' Hl') as [Hlp Hjp].
    exists (evs' ++ evs ++ [p0]). split; [rewrite <- !app_assoc; reflexivity|].
    split; [right; auto|]. split; [|intros x st' [=]].
    eapply jobs_bounded_ext; [exact Hjp|reflexivity|exact Hb']. }
  assert (Hfailed : forall o0,
            FetchInfo.fetch_html url (p0 :: w) = (Ok o0, evs ++ p0 :: w) ->
            otruthy o0 = false ->
            exists evs0,
              evs ++ p0 :: w = evs0 ++ w
              /\ (FetchInfo.listing_pages evs0 = []
                  \/ FetchInfo.listing_pages evs0 = [url]
                     /\ url ∉ FetchInfo.visited_listing_urls st)
              /\ FetchInfo.jobs_bounded mj evs0 st
              /\ forall x st',
                   Ok (@inl _ (option pystr) FetchInfo.ListingFetchFailed, st1)
                   = Ok (x, st') ->
                   FetchInfo.crawl_step evs0 st st'
                   /\ match x with
                      | inl why =>
                          (why = FetchInfo.AlreadyVisited
                           /\ evs0 = [EvPrint (InfoAlreadyVisited url)]
                           /\ url ∈ FetchInfo.visited_listing_urls st)
                          \/ (why = FetchInfo.ListingFetchFailed
                              /\ FetchInfo.listing_pages evs0 = [url]
                              /\ exists w1 o,
                                   FetchInfo.fetch_html url w1
                                   = (Ok o, evs ++ p0 :: w)
                                   /\ otruthy o = false)
                      | inr next =>
                          FetchInfo.listing_pages evs0 = [url]
                          /\ exists html w1 w2,
                               FetchInfo.fetch_html url w1 = (Ok (Some html), w2)
                               /\ FetchInfo.find_next_page_url html url = Ok next
                      end).
  { intros o0 Hf0 Ho0. destruct (Hpages [] eq_refl) as [Hlp Hjp].
    exists (evs ++ [p0]). split; [rewrite <- !app_assoc; reflexivity|].
    split; [right; auto|]. split.
    - eapply jobs_bounded_ext; [exact Hjp|reflexivity|apply jobs_bounded_nil].
    - intros x st' [= <- <-]. split.
      + apply (Hstep1 [] _ eq_refl eq_refl); [apply provenance_kept_refl|auto].
      + right. split; [reflexivity|]. split; [exact Hlp|]. eauto. }
  destruct o as [html|].
  2:{ mstep. injection Hrun as <- <-. apply (Hfailed None Hf eq_refl). }
  destruct (truthy html) eqn:Hhtml; cbn [negb] in Hrun.
  2:{ mstep. injection Hrun as <- <-. apply (Hfailed (Some html) Hf).
      cbn. exact Hhtml. }
  set (ids := FetchInfo.new_ids (FetchInfo.extract_cjlist_ids_from_html html)
                (FetchInfo.company_infos st1)) in *.
  set (d1 := FetchInfo.register ids [] url (FetchInfo.company_infos st1)) in *.
  assert (Hd1 : FetchInfo.provenance_kept (FetchInfo.company_infos st) d1)
    by apply register_new_keeps.
  assert (Hk1 : FetchInfo.keyed_by_ids (FetchInfo.company_infos st) ->
                FetchInfo.keyed_by_ids d1).
  { intros Hk. apply register_keyed; [apply new_ids_are_ids|exact Hk]. }
  apply bind_inv in Hrun as [([] & w3 & Hp & Hrun) | (e & Hp & _)].
  2:{ destruct (bool_decide (ids = [])); discriminate Hp. }
  assert (Hw3 : exists evs3, w3 = evs3 ++ evs ++ p0 :: w
                 /\ FetchInfo.listing_pages evs3 = []
                 /\ FetchInfo.job_pages evs3 = []).
  { destruct (bool_decide (ids = [])); mstep; injection Hp as <-.
    - exists []. auto.
    - exists [EvPrint (InfoListingNewIds (length ids))]. auto. }
  destruct Hw3 as (evs3 & -> & Hl3 & Hj3). clear Hp.
  assert (Hb3 : FetchInfo.jobs_bounded mj evs3 st).
  { eapply jobs_bounded_ext; [|reflexivity|apply (jobs_bounded_nil mj st)].
    exact Hj3. }
  apply bind_inv in Hrun as [(job_links & w4 & Hp & Hrun) | (e & Hp & ->)].
  2:{ unfold lift in Hp. injection Hp as _ <-. apply Hraise; assumption. }
  unfold lift in Hp. injection Hp as Hlinks <-.
  apply bind_inv in Hrun as [([] & w5 & Hp & Hrun) | (e & Hp & _)];
    [|discriminate Hp].
  unfold print, emit in Hp. injection Hp as <-.
  set (p1 := EvPrint (InfoListingJobLinks (size job_links))) in *.
  assert (Hb4 : FetchInfo.jobs_bounded mj (p1 :: evs3) st).
  { eapply jobs_bounded_ext; [|reflexivity|apply (jobs_bounded_nil mj st)].
    cbn. exact Hj3. }
  apply bind_inv in Hrun as [(next_url & w6 & Hp & Hrun) | (e & Hp & ->)].
  2:{ unfold lift in Hp. injection Hp as _ <-.
      apply (Hraise (p1 :: evs3)); [cbn; exact Hl3|exact Hb4]. }
  unfold lift in Hp. injection Hp as Hnext <-.
  set (stJ := {| FetchInfo.company_infos := d1;
                 FetchInfo.visited_listing_urls := FetchInfo.visited_listing_urls st1;
                 FetchInfo.visited_job_urls := FetchInfo.visited_job_urls st1;
                 FetchInfo.listing_count := FetchInfo.listing_count st1 |}) in *.
  apply bind_inv in Hrun as [(st2 & w7 & Hloop & Hrun) | (e & Hloop & ->)];
    apply job_loop_spec in Hloop as (evsJ & -> & HlJ & HbJ & HstJ).
  2:{ replace (evsJ ++ p1 :: evs3 ++ evs ++ p0 :: w)
        with ((evsJ ++ p1 :: evs3) ++ evs ++ p0 :: w)
        by (rewrite <- app_assoc; reflexivity).
      apply Hraise.
      - rewrite listing_pages_app, HlJ.
        change (FetchInfo.listing_pages (p1 :: evs3))
          with (FetchInfo.listing_pages evs3). rewrite Hl3. reflexivity.
      - eapply jobs_bounded_ext; [|reflexivity|exact HbJ].
        rewrite job_pages_app.
        change (FetchInfo.job_pages (p1 :: evs3)) with (FetchInfo.job_pages evs3).
        rewrite Hj3, app_nil_r. reflexivity. }
  specialize (HstJ st2 eq_refl).
  mstep. injection Hrun as <- <-.
  assert (HlA : FetchInfo.listing_pages (EvPause :: evsJ ++ p1 :: evs3) = []).
  { change (FetchInfo.listing_pages (EvPause :: evsJ ++ p1 :: evs3))
      with (FetchInfo.listing_pages (evsJ ++ p1 :: evs3)).
    rewrite listing_pages_app, HlJ.
    change (FetchInfo.listing_pages (p1 :: evs3))
      with (FetchInfo.listing_pages evs3). rewrite Hl3. reflexivity. }
  assert (HjA : FetchInfo.job_pages (EvPause :: evsJ ++ p1 :: evs3)
                = FetchInfo.job_pages evsJ).
  { change (FetchInfo.job_pages (EvPause :: evsJ ++ p1 :: evs3))
      with (FetchInfo.job_pages (evsJ ++ p1 :: evs3)).
    rewrite job_pages_app.
    change (FetchInfo.job_pages (p1 :: evs3)) with (FetchInfo.job_pages evs3).
    rewrite Hj3, app_nil_r. reflexivity. }
  destruct (Hpages _ HlA) as [Hlp Hjp].
  exists ((EvPause :: evsJ ++ p1 :: evs3) ++ evs ++ [p0]).
  split; [cbn; rewrite <- !app_assoc; reflexivity|].
  split; [right; auto|]. split.
  { eapply jobs_bounded_ext; [|reflexivity|exact HbJ]. rewrite Hjp. exact HjA. }
  intros x st' [= <- <-]. split; [|split; [exact Hlp|eauto]].
  destruct HstJ as (HvlJ & HcJ & HvjJ & HpJ & HkJ).
  unfold FetchInfo.crawl_step. rewrite Hlp, Hjp, HjA, HvlJ, HcJ. cbn.
  split; [lia|]. split; [|split; [|split]].
  - intros x. rewrite elem_of_union, elem_of_singleton, list_elem_of_singleton.
    reflexivity.
  - exact HvjJ.
  - eapply provenance_kept_trans; [exact Hd1|exact HpJ].
  - auto.
Qed.

Lemma head_app_some {A} (l1 l2 : list A) x :
  head l1 = Some x -> head (l1 ++ l2) = Some x.
Proof. destruct l1; [discriminate|]. auto. Qed.

(** The [while] loop. *)
Lemma crawl_loop_spec mx mj :
  forall fuel url st w r w',
    FetchInfo.crawl_loop fuel mx mj url st w = (r, w') ->
    exists evs,
      w' = evs ++ w
      /\ FetchInfo.listings_bounded mx evs st
      /\ FetchInfo.jobs_bounded mj evs st
      /\ forall why st',
           r = Ok (why, st') ->
           FetchInfo.crawl_step evs st st'
           /\ ((Z.to_nat (mx - FetchInfo.listing_count st) <= fuel)%nat ->
               FetchInfo.exit_justified mx why url evs st' w').
Proof.
  induction fuel as [|fuel IH]; intros url st w r w' Hrun;
    cbn [FetchInfo.crawl_loop] in Hrun;
    (destruct (otruthy url) eqn:Hurl; cbn [negb] in Hrun;
     [|mstep; injection Hrun as <- <-; exists [];
       split; [reflexivity|]; split; [apply listings_bounded_nil|];
       split; [apply jobs_bounded_nil|]; intros why st' [= <- <-];
       split; [apply crawl_step_refl|]; intros _; left; auto]);
    (destruct (FetchInfo.listing_count st <? mx) eqn:Hcount; cbn [negb] in Hrun;
     [apply Z.ltb_lt in Hcount
     |apply Z.ltb_ge in Hcount; mstep; injection Hrun as <- <-; exists [];
      split; [reflexivity|]; split; [apply listings_bounded_nil|];
      split; [apply jobs_bounded_nil|]; intros why st' [= <- <-];
      split; [apply crawl_step_refl|]; intros _; exact Hcount]).
  - mstep. injection Hrun as <- <-. exists [].
    split; [reflexivity|]. split; [apply listings_bounded_nil|].
    split; [apply jobs_bounded_nil|]. intros why st' [= <- <-].
    split; [apply crawl_step_refl|]. intros Hfuel. cbn. lia.
  - destruct url as [url|]; [|discriminate]. cbn [default] in Hrun.
    apply bind_inv in Hrun as [([x st1] & w1 & Hbody & Hrun) | (e & Hbody & ->)];
      apply listing_body_spec in Hbody as (evs1 & -> & Hl1 & Hb1 & Hst1).
    2:{ exists evs1. split; [reflexivity|]. split; [|split; [exact Hb1|]].
        - unfold FetchInfo.listings_bounded.
          destruct Hl1 as [-> | [-> Hfresh]].
          + split; [constructor|]. split; [intros x Hx; inversion Hx|auto].
          + split; [apply NoDup_singleton|]. split.
            * intros x Hx. apply list_elem_of_singleton in Hx as ->. exact Hfresh.
            * right. cbn. lia.
        - intros why st' [=]. }
    destruct (Hst1 x st1 eq_refl) as [Hstep1 Hexit1]. clear Hst1.
    assert (Hlb1 : FetchInfo.listings_bounded mx evs1 st).
    { unfold FetchInfo.listings_bounded.
      destruct Hl1 as [-> | [-> Hfresh]].
      - split; [constructor|]. split; [intros y Hy; inversion Hy|auto].
      - split; [apply NoDup_singleton|]. split.
        + intros y Hy. apply list_elem_of_singleton in Hy as ->. exact Hfresh.
        + right. cbn. lia. }
    destruct x as [why1 | next].
    + mstep. injection Hrun as <- <-. exists evs1.
      split; [reflexivity|]. split; [exact Hlb1|]. split; [exact Hb1|].
      intros why st' [= <- <-]. split; [exact Hstep1|]. intros _.
      destruct Hexit1 as [(-> & -> & Hvis) | (-> & Hlp & w0 & o & Hf & Ho)].
      * cbn. exists url, w. split; [reflexivity|].
        destruct Hstep1 as (_ & Hv & _). apply Hv. left. exact Hvis.
      * cbn. exists url, w0, o. rewrite Hlp. auto.
    + destruct Hexit1 as (Hlp & html & wa & wb & Hf & Hnext).
      apply IH in Hrun as (evs2 & -> & Hlb2 & Hb2 & Hst2).
      exists (evs2 ++ evs1). rewrite <- app_assoc. split; [reflexivity|].
      split; [eapply listings_bounded_app; eassumption|].
      split.
      { eapply jobs_bounded_app; [exact Hb1| |exact Hb2].
        destruct Hstep1 as (_ & _ & Hv & _). exact Hv. }
      intros why st' ->. destruct (Hst2 why st' eq_refl) as [Hstep2 Hexit2].
      split; [eapply crawl_step_trans; eassumption|].
      intros Hfuel.
      assert (Hfuel2 : (Z.to_nat (mx - FetchInfo.listing_count st1) <= fuel)%nat).
      { destruct Hstep1 as (Hc & _). rewrite Hc, Hlp. cbn. lia. }
      specialize (Hexit2 Hfuel2).
      destruct why; unfold FetchInfo.exit_justified in Hexit2 |- *;
        rewrite ?listing_pages_app.
      * destruct Hexit2 as [[Hfalsy ->] | (u & html' & next' & wa' & wb' & Hh & Hrest)].
        -- right. exists url, html, next, wa, wb. rewrite app_nil_l, Hlp. auto.
        -- right. exists u, html', next', wa', wb'.
           split; [apply head_app_some; exact Hh|exact Hrest].
      * exact Hexit2.
      * destruct Hexit2 as (u & rest & Hw & Hu). exists u, rest. auto.
      * destruct Hexit2 as (u & w0 & o & Hh & Hf' & Ho). exists u, w0, o.
        split; [apply head_app_some; exact Hh|]. auto.
      * exact Hexit2.
Qed.

(** *** The requests of a run *)

Lemma got_app w1 w2 : FetchInfo.got (w1 ++ w2) = FetchInfo.got w1 ++ FetchInfo.got w2.
Proof. apply omap_app. Qed.

Lemma requests_accounted_nil : FetchInfo.requests_accounted [].
Proof.
  split; [intros u Hu; inversion Hu|]. split; [cbn; lia|]. intros u. cbn. lia.
Qed.

Lemma requests_accounted_app evs1 evs2 :
  FetchInfo.requests_accounted evs1 -> FetchInfo.requests_accounted evs2 ->
  FetchInfo.requests_accounted (evs2 ++ evs1).
Proof.
  intros (Hin1 & Hlen1 & Hper1) (Hin2 & Hlen2 & Hper2).
  unfold FetchInfo.requests_accounted.
  rewrite got_app, listing_pages_app, job_pages_app, !length_app.
  split; [|split; [lia|]].
  - intros u Hu. rewrite !elem_of_app. apply elem_of_app in Hu as [Hu | Hu].
    + destruct (Hin2 u Hu); auto.
    + destruct (Hin1 u Hu); auto.
  - intros u. specialize (Hper1 u). specialize (Hper2 u).
    rewrite !List.filter_app, !length_app. lia.
Qed.

Lemma requests_accounted_silent e :
  FetchInfo.got_of e = None -> FetchInfo.requests_accounted [e].
Proof.
  intros He. unfold FetchInfo.requests_accounted, FetchInfo.got. cbn.
  rewrite He. cbn. split; [intros u Hu; inversion Hu|].
  split; [lia|]. intros u. lia.
Qed.

(** The requests for [u] among requests that are all for [url]. *)
Lemma requests_for u url l :
  Forall (eq url) l ->
  length (List.filter (pystr_eqb u) l)
  = if pystr_eqb u url then length l else 0%nat.
Proof.
  induction 1 as [|x l <- _ IH]; cbn [List.filter length].
  - destruct (pystr_eqb u url); reflexivity.
  - destruct (pystr_eqb u url); cbn [length]; rewrite IH; reflexivity.
Qed.

(** The GETs of a fetch are for its URL, and at most [n]. *)
Lemma fetch_info_gets url :
  forall (n : nat) (i : Z) last w,
    exists o evs,
      FetchInfo.fetch_html_from url n i last w = (Ok o, evs ++ w)
      /\ FetchInfo.listing_pages evs = [] /\ FetchInfo.job_pages evs = []
      /\ (forall u, u ∈ FetchInfo.got evs -> u = url)
      /\ (length (FetchInfo.got evs) <= n)%nat.
Proof.
  induction n as [|n IH]; intros i last w.
  - simpl. mstep. exists None, [EvPrint (ErrorFailed url last)].
    repeat split; auto. intros u Hu. inversion Hu.
  - simpl. mstep. destruct (http (gets w) url) as [r|e].
    + destruct (status_code r =? 200); cbn [fst snd].
      * exists (Some (text_apparent r)), [EvGet url].
        repeat split; auto; [|cbn; lia].
        intros u Hu. apply list_elem_of_singleton in Hu. exact Hu.
      * exists None, [EvPrint (WarnStatus (status_code r) url); EvGet url].
        repeat split; auto; [|cbn; lia].
        intros u Hu. apply list_elem_of_singleton in Hu. exact Hu.
    + cbn [fst snd].
      destruct (IH (i + 1) (Some e)
        (EvSleep (FetchInfo.BASE_BACKOFF_SEC * (i + 1))
           :: EvPrint (WarnError e url (i + 1)) :: EvGet url :: w))
        as (o & evs & Hrun & Hl & Hj & Hin & Hlen).
      exists o, (evs ++ [EvSleep (FetchInfo.BASE_BACKOFF_SEC * (i + 1));
                         EvPrint (WarnError e url (i + 1)); EvGet url]).
      rewrite <- app_assoc. split; [exact Hrun|].
      rewrite listing_pages_app, job_pages_app, got_app, Hl, Hj, length_app.
      split; [reflexivity|]. split; [reflexivity|]. split; [|cbn; lia].
      intros u Hu. apply elem_of_app in Hu as [Hu | Hu]; [auto|].
      apply list_elem_of_singleton in Hu. exact Hu.
Qed.

Lemma accounted_ret {A} (a : A) : FetchInfo.accounted (mret a).
Proof.
  intros w r w' Hrun. mstep. injection Hrun as <- <-.
  exists []. split; [reflexivity|apply requests_accounted_nil].
Qed.

Lemma accounted_print m : FetchInfo.accounted (print m).
Proof.
  intros w r w' Hrun. mstep. injection Hrun as <- <-.
  exists [EvPrint m]. split; [reflexivity|].
  apply requests_accounted_silent. reflexivity.
Qed.

Lemma accounted_pause : FetchInfo.accounted pause.
Proof.
  intros w r w' Hrun. mstep. injection Hrun as <- <-.
  exists [EvPause]. split; [reflexivity|].
  apply requests_accounted_silent. reflexivity.
Qed.

Lemma accounted_lift {A} (x : res A) : FetchInfo.accounted (lift x).
Proof.
  intros w r w' Hrun. unfold lift in Hrun. injection Hrun as <- <-.
  exists []. split; [reflexivity|apply requests_accounted_nil].
Qed.

Lemma accounted_bind {A B} (m : M A) (k : A -> M B) :
  FetchInfo.accounted m -> (forall a, FetchInfo.accounted (k a)) ->
  FetchInfo.accounted (m ≫= k).
Proof.
  intros Hm Hk w r w' Hrun.
  apply bind_inv in Hrun as [(a & w1 & Hrun1 & Hrun2) | (e & Hrun1 & ->)].
  - apply Hm in Hrun1 as (evs1 & -> & Hacc1).
    apply Hk in Hrun2 as (evs2 & -> & Hacc2).
    exists (evs2 ++ evs1). rewrite <- app_assoc. split; [reflexivity|].
    apply requests_accounted_app; assumption.
  - apply Hm in Hrun1 as (evs1 & -> & Hacc1). eauto.
Qed.

(** A page line followed by the fetch of that page. *)
Lemma accounted_fetch {A} msg url (k : option pystr -> M A) :
  FetchInfo.listing_page_of (EvPrint msg) = Some url
  \/ FetchInfo.job_page_of (EvPrint msg) = Some url ->
  (forall o, FetchInfo.accounted (k o)) ->
  FetchInfo.accounted (print msg ≫= fun _ => FetchInfo.fetch_html url ≫= k).
Proof.
  intros Hpage Hk w r w' Hrun.
  apply bind_inv in Hrun as [([] & w1 & Hp & Hrun) | (e & Hp & _)];
    [|discriminate Hp].
  unfold print, emit in Hp. injection Hp as <-.
  destruct (fetch_info_gets url (Z.to_nat FetchInfo.MAX_RETRIES) 0 None
              (EvPrint msg :: w)) as (o & evs & Hf & Hl & Hj & Hin & Hlen).
  fold (FetchInfo.fetch_html url (EvPrint msg :: w)) in Hf.
  apply bind_inv in Hrun as [(o' & w2 & Hf' & Hrun) | (e & Hf' & _)];
    [|rewrite Hf in Hf'; discriminate Hf'].
  rewrite Hf in Hf'. injection Hf' as <- <-.
  apply Hk in Hrun as (evs2 & -> & Hacc2).
  exists (evs2 ++ evs ++ [EvPrint msg]). rewrite <- !app_assoc.
  split; [reflexivity|]. apply requests_accounted_app; [|exact Hacc2].
  unfold FetchInfo.requests_accounted.
  rewrite got_app, listing_pages_app, job_pages_app, Hl, Hj, !length_app.
  assert (Hlen3 : (length (FetchInfo.got evs) <= 3)%nat)
    by (unfold FetchInfo.MAX_RETRIES in Hlen; lia).
  assert (Hone : (1 <= length (FetchInfo.listing_pages [EvPrint msg])
                       + length (FetchInfo.job_pages [EvPrint msg]))%nat).
  { unfold FetchInfo.listing_pages, FetchInfo.job_pages. cbn [omap list_omap].
    destruct Hpage as [-> | ->]; cbn; lia. }
  split; [|split].
  - intros u Hu. rewrite app_nil_r in Hu. apply Hin in Hu as ->.
    unfold FetchInfo.listing_pages, FetchInfo.job_pages. cbn [omap list_omap app].
    destruct Hpage as [-> | ->]; [left|right]; left.
  - change (FetchInfo.got [EvPrint msg]) with (@nil pystr).
    cbn [length app] in *. lia.
  - intros u. change (FetchInfo.got [EvPrint msg]) with (@nil pystr).
    rewrite app_nil_r.
    assert (Hall : Forall (eq url) (FetchInfo.got evs)).
    { apply Forall_forall. intros x Hx. symmetry. apply Hin, Hx. }
    rewrite (requests_for u url _ Hall).
    unfold FetchInfo.listing_pages, FetchInfo.job_pages.
    cbn [omap list_omap app].
    destruct Hpage as [-> | ->]; cbn [List.filter];
      destruct (pystr_eqb u url); cbn [length]; lia.
Qed.

Lemma accounted_job_body mj cur u st :
  FetchInfo.accounted (FetchInfo.job_body mj cur u st).
Proof.
  unfold FetchInfo.job_body.
  destruct (_ >=? _); [apply accounted_bind; [apply accounted_print|]; intros;
                       apply accounted_ret|].
  destruct (bool_decide _); [apply accounted_ret|].
  apply accounted_fetch; [right; reflexivity|].
  intros [job_html|]; [|apply accounted_ret].
  destruct (negb (truthy job_html)); [apply accounted_ret|].
  apply accounted_bind.
  { destruct (bool_decide _); [apply accounted_ret|apply accounted_print]. }
  intros _. apply accounted_bind; [apply accounted_lift|]. intros company_url.
  apply accounted_bind.
  { destruct (otruthy company_url); [|apply accounted_ret].
    apply accounted_bind; [apply accounted_lift|]. intros parsed.
    destruct (FetchInfo.cjlist_id (path parsed)); apply accounted_ret. }
  intros d2. apply accounted_bind; [apply accounted_pause|]. intros _.
  apply accounted_ret.
Qed.

Lemma accounted_job_loop mj cur jobs :
  forall st, FetchInfo.accounted (FetchInfo.job_loop mj cur jobs st).
Proof.
  induction jobs as [|u jobs IH]; intros st; cbn [FetchInfo.job_loop].
  - apply accounted_ret.
  - apply accounted_bind; [apply accounted_job_body|].
    intros [[] st']; [apply IH|apply accounted_ret].
Qed.

Lemma accounted_listing_body mj url st :
  FetchInfo.accounted (FetchInfo.listing_body mj url st).
Proof.
  unfold FetchInfo.listing_body.
  destruct (bool_decide _);
    [apply accounted_bind; [apply accounted_print|]; intros; apply accounted_ret|].
  apply accounted_fetch; [left; reflexivity|].
  intros [html|]; [|apply accounted_ret].
  destruct (negb (truthy html)); [apply accounted_ret|].
  apply accounted_bind.
  { destruct (bool_decide _); [apply accounted_ret|apply accounted_print]. }
  intros _. apply accounted_bind; [apply accounted_lift|]. intros job_links.
  apply accounted_bind; [apply accounted_print|]. intros _.
  apply accounted_bind; [apply accounted_lift|]. intros next_url.
  apply accounted_bind; [apply accounted_job_loop|]. intros st2.
  apply accounted_bind; [apply accounted_pause|]. intros _.
  apply accounted_ret.
Qed.

Lemma accounted_crawl_loop mx mj :
  forall fuel url st, FetchInfo.accounted (FetchInfo.crawl_loop fuel mx mj url st).
Proof.
  induction fuel as [|fuel IH]; intros url st; cbn [FetchInfo.crawl_loop];
    (destruct (negb (otruthy url)); [apply accounted_ret|]);
    (destruct (negb (_ <? _)); [apply accounted_ret|]).
  - apply accounted_ret.
  - apply accounted_bind; [apply accounted_listing_body|].
    intros [[why|next] st']; [apply accounted_ret|apply IH].
Qed.

















(** C2. For an identifier already in the registry, a merge overwrites the
    canonical URL of its entry with the newly observed one and leaves each
    non-empty provenance field as it is; and no merge, no registration of the
    unseen identifiers of a page, and no run of the crawl loop changes a
    non-empty provenance field of any entry. *)
Theorem merge_overwrites_url_keeps_provenance (cid : pystr)
    (d : FetchInfo.dict) (i : FetchInfo.info) :
  FetchInfo.dict_get cid d = Some i ->
  (forall u job_url listing_url,
     exists i',
       FetchInfo.dict_get cid (FetchInfo.merge cid u job_url listing_url d)
       = Some i'
       /\ FetchInfo.company_url i' = u
       /\ FetchInfo.kept i i')
  /\ (forall cid' u job_url listing_url,
        FetchInfo.provenance_kept d
          (FetchInfo.merge cid' u job_url listing_url d))
  /\ (forall ids job_url listing_url,
        FetchInfo.provenance_kept d
          (FetchInfo.register (FetchInfo.new_ids ids d) job_url listing_url d))
  /\ (forall fuel mx mj url st w why st' w',
        FetchInfo.company_infos st = d ->
        FetchInfo.crawl_loop fuel mx mj url st w = (Ok (why, st'), w') ->
        exists i',
          FetchInfo.dict_get cid (FetchInfo.company_infos st') = Some i'
          /\ FetchInfo.kept i i').
Proof.
  intros Hget. split; [|split; [|split]].
  - intros u job_url listing_url.
    destruct (merge_keeps cid u job_url listing_url d cid i Hget)
      as (i' & Hget' & Hkept).
    exists i'. split; [exact Hget'|]. split; [|exact Hkept].
    rewrite (merge_get_present _ _ _ _ _ _ Hget) in Hget'.
    injection Hget' as <-. reflexivity.
  - intros. apply merge_keeps.
  - intros. apply register_new_keeps.
  - intros fuel mx mj url st w why st' w' <- Hrun.
    apply crawl_loop_spec in Hrun as (evs & _ & _ & _ & Hst).
    destruct (Hst why st' eq_refl) as [(_ & _ & _ & Hprov & _) _].
    apply Hprov. exact Hget.
Qed.

(** C10. Every identifier [extract_cjlist_ids_from_html] returns is a
    non-empty string of decimal digits; so is every key of the registry the
    crawl builds, which is also the [company_id] of its entry, and so is the
    [company_id] of every record the crawl returns. *)
Theorem company_ids_are_digit_strings :
  (forall html cid,
     cid ∈ FetchInfo.extract_cjlist_ids_from_html html -> FetchInfo.is_id cid)
  /\ (forall start mx mj w why st' w',
        FetchInfo.crawl_run start mx mj w = (Ok (why, st'), w') ->
        FetchInfo.keyed_by_ids (FetchInfo.company_infos st'))
  /\ (forall start mx mj w infos w',
        FetchInfo.crawl_baitoru_company_ids start mx mj w = (Ok infos, w') ->
        Forall (fun i => FetchInfo.is_id (FetchInfo.company_id i)) infos).
Proof.
  assert (Hrun : forall start mx mj w why st' w',
            FetchInfo.crawl_run start mx mj w = (Ok (why, st'), w') ->
            FetchInfo.keyed_by_ids (FetchInfo.company_infos st')).
  { intros start mx mj w why st' w' Hrun. unfold FetchInfo.crawl_run in Hrun.
    apply crawl_loop_spec in Hrun as (evs & _ & _ & _ & Hst).
    destruct (Hst why st' eq_refl) as [(_ & _ & _ & _ & Hkeyed) _].
    apply Hkeyed. constructor. }
  split; [exact extracted_ids_are_ids|]. split; [exact Hrun|].
  intros start mx mj w infos w' Hcrawl.
  unfold FetchInfo.crawl_baitoru_company_ids in Hcrawl.
  apply bind_inv in Hcrawl as [([why st'] & w1 & Hr & Hret) | (e & _ & [=])].
  mstep. injection Hret as <- <-.
  apply Hrun in Hr. unfold FetchInfo.keyed_by_ids in Hr.
  unfold FetchInfo.values. cbn [snd]. clear -Hr.
  induction Hr as [|[k i] d [Hid Hc] _ IH]; [constructor|].
  cbn. constructor; [|exact IH]. cbn in Hid, Hc. rewrite Hc. exact Hid.
Qed.

End CrawlFacts.

(** ** The profile scraper *)

(** C3. On an address that begins with the prefecture name 神奈川県 the
    function does not return that name: the catch-all [..県] takes the two
    characters before 県, so the result is 奈川県. *)
Theorem extract_prefecture_kanagawa :
  Scraper.extract_prefecture (Some Scraper.KANAGAWA_ADDRESS)
  = Some [22856; 24029; 30476]%N
  /\ Scraper.extract_prefecture (Some Scraper.KANAGAWA_ADDRESS)
     <> Some Scraper.KANAGAWA_KEN.
Proof. split; [vm_compute; reflexivity|vm_compute; discriminate]. Qed.

Lemma run_lit3 {R} x y z a b c rest caps
    (k : pystr -> list pystr -> option R) :
  Re.run (Re.lit [x; y; z]) (a :: b :: c :: rest) caps k
  = if ((x =? a) && (y =? b) && (z =? c))%N then k rest caps else None.
Proof.
  cbn [Re.run Re.lit].
  destruct (x =? a)%N, (y =? b)%N, (z =? c)%N; reflexivity.
Qed.

(** What does hold: an address that begins with two characters and 県 gives
    those three characters, and one that begins with 北海道, 東京都, 京都府 or
    大阪府 gives that name. *)
Lemma extract_prefecture_two_before_ken a b rest :
  Re.dot a = true -> Re.dot b = true ->
  Scraper.extract_prefecture (Some (a :: b :: Scraper.KEN :: rest))
  = Some [a; b; Scraper.KEN].
Proof.
  intros Ha Hb. unfold Scraper.extract_prefecture.
  cbn [otruthy truthy negb default from_option]. unfold id.
  cbn [Re.search]. unfold Re.match_here, Scraper.PREF_PATTERN.
  unfold Scraper.HOKKAIDO, Scraper.TOKYO_TO, Scraper.KYOTO_FU, Scraper.OSAKA_FU.
  cbn [Re.run]. rewrite !run_lit3.
  change (36947 =? Scraper.KEN)%N with false.
  change (37117 =? Scraper.KEN)%N with false.
  change (24220 =? Scraper.KEN)%N with false.
  rewrite !andb_false_r. rewrite Ha, Hb, N.eqb_refl.
  change (a :: b :: Scraper.KEN :: rest) with ([a; b; Scraper.KEN] ++ rest).
  rewrite take_consumed. reflexivity.
Qed.

Lemma extract_prefecture_exact name rest :
  name ∈ [Scraper.HOKKAIDO; Scraper.TOKYO_TO; Scraper.KYOTO_FU; Scraper.OSAKA_FU] ->
  Scraper.extract_prefecture (Some (name ++ rest)) = Some name.
Proof.
  rewrite !elem_of_cons, elem_of_nil.
  intros [-> | [-> | [-> | [-> | []]]]];
    unfold Scraper.extract_prefecture, Scraper.HOKKAIDO, Scraper.TOKYO_TO,
      Scraper.KYOTO_FU, Scraper.OSAKA_FU;
    cbn [app otruthy truthy negb default from_option]; unfold id;
    cbn [Re.search]; unfold Re.match_here, Scraper.PREF_PATTERN;
    unfold Scraper.HOKKAIDO, Scraper.TOKYO_TO, Scraper.KYOTO_FU, Scraper.OSAKA_FU;
    cbn [Re.run]; rewrite !run_lit3;
    match goal with
    | |- context [take _ (?x :: ?y :: ?z :: rest)] =>
        change (x :: y :: z :: rest) with ([x; y; z] ++ rest)
    end;
    rewrite take_consumed; vm_compute; reflexivity.
Qed.

(** The catch-all also answers for text that names no prefecture: 都道府県
    gives 道府県. *)
Example extract_prefecture_not_a_name :
  Scraper.extract_prefecture (Some [37117; 36947; 24220; 30476]%N)
  = Some [36947; 24220; 30476]%N.
Proof. vm_compute. reflexivity. Qed.

Lemma extract_prefecture_absent :
  Scraper.extract_prefecture None = None
  /\ Scraper.extract_prefecture (Some []) = None.
Proof. split; reflexivity. Qed.


(** ** The CSV file read back *)




Lemma csv_read_from_in_line L r b b' c s :
  Csv.read_from L r b (c :: s) = Csv.read_from L r b' (c :: s).
Proof. reflexivity. Qed.
















(** A row whose cells hold a comma, a quote, a line break and a CR: the
    writer quotes the four cells and doubles the quote, and the reader gives
    the row back. *)
Example csv_quotes_and_line_breaks :
  Csv.writerow [py "a,b"; [34; 120]%N; [121; 13; 10; 122]%N; [13]%N; py "plain"; []]
  = [34; 97; 44; 98; 34; 44; 34; 34; 34; 120; 34; 44; 34; 121; 13; 10; 122;
     34; 44; 34; 13; 34; 44; 112; 108; 97; 105; 110; 44; 13; 10]%N
  /\ Csv.reader_rows Csv.FIELD_SIZE_LIMIT
       (Csv.writerow
          [py "a,b"; [34; 120]%N; [121; 13; 10; 122]%N; [13]%N; py "plain"; []])
     = inr [[py "a,b"; [34; 120]%N; [121; 13; 10; 122]%N; [13]%N; py "plain"; []]].
Proof. split; vm_compute; reflexivity. Qed.

(** The reader refuses a field that is longer than its limit. *)
Example csv_field_limit :
  Csv.reader_rows 3 (Csv.writerow [py "abc"]) = inr [[py "abc"]]
  /\ Csv.reader_rows 3 (Csv.writerow [py "abcd"]) = inl Csv.FieldLargerThanLimit.
Proof. split; vm_compute; reflexivity. Qed.

(** ** Concrete runs *)

(** The hypotheses of C4 hold on a network that times out twice: the third
    GET is answered, three GETs are made and the sleeps sum to 3 + 6. *)
Lemma fetch_html_succeeds_after_k_failures_witness :
  (exists w',
     @FetchInfo.fetch_html Run.two_timeouts Run.listing_url []
     = (Ok (Some (py "L")), w')
     /\ gets w' = 3%nat /\ slept w' - slept [] = 3 * sum_upto 2)
  /\ (exists w',
        @Scraper.fetch_html Run.two_timeouts Run.listing_url []
        = (Ok (py "L"), w')
        /\ gets w' = 3%nat /\ slept w' - slept [] = 3 * sum_upto 2).
Proof.
  apply (@fetch_html_succeeds_after_k_failures Run.two_timeouts
           Run.listing_url (Run.ok "L") 2 []).
  - lia.
  - intros [|[|j]] Hj; [exists Timeout; reflexivity
                       |exists Timeout; reflexivity|lia].
  - reflexivity.
  - reflexivity.
Defined.

(** C1 as stated fails: answered 404 each time, the profile [fetch_html]
    makes three GETs and sleeps 3 and 6 seconds before it raises. *)
Lemma profile_fetch_retries_on_404 :
  exists w',
    @Scraper.fetch_html Run.always_404 Run.listing_url []
    = (Raise (ExRequest (HTTPError 404)), w')
    /\ gets w' = 3%nat /\ slept w' = 9.
Proof.
  exists (@Scraper.fetch_html Run.always_404 Run.listing_url []).2.
  split; [vm_compute; reflexivity|]. split; vm_compute; reflexivity.
Defined.

(** C6 as stated fails: when no request connects, the profile [fetch_html]
    raises the last exception to its caller. *)
Lemma profile_fetch_raises_when_down :
  exists w',
    @Scraper.fetch_html Run.always_down Run.listing_url []
    = (Raise (ExRequest ConnectionError), w').
Proof.
  exists (@Scraper.fetch_html Run.always_down Run.listing_url []).2.
  vm_compute. reflexivity.
Defined.


(** C5 as stated fails: a listing row whose link is [file:///job1/] yields
    that URL, which has no host at all. *)
Lemma job_link_without_host :
  exists parsed,
    @FetchInfo.extract_job_links_from_listing_html UrllibModel.cpython
      Run.parser (py "H") Run.listing_url
    = Ok (∅ ∪ {[ py "file:///job1/" ]})
    /\ @urlparse UrllibModel.cpython (py "file:///job1/") = Ok parsed
    /\ netloc parsed = []
    /\ netloc parsed <> FetchInfo.BASE_DOMAIN.
Proof.
  exists {| scheme := py "file"; netloc := []; path := py "/job1/";
            params := []; query := []; fragment := [] |}.
  split; [vm_compute; reflexivity|].
  split; [vm_compute; reflexivity|]. split; [reflexivity|discriminate].
Defined.

Lemma job_links_scoped_pinned_filtered_witness :
  exists ul li a parsed,
    ul ∈ Soup.descendants (Run.parse (py "L")) /\ Soup.is_ul01 ul = true
    /\ li ∈ Soup.descendants ul /\ Soup.is_li01 li = true
    /\ Soup.find_a_href li = Some a
    /\ a ∈ Soup.descendants li /\ Soup.is_a_href a = true
    /\ @urljoin UrllibModel.cpython Run.listing_url (Soup.href a) = Ok Run.job_url
    /\ @urlparse UrllibModel.cpython Run.job_url = Ok parsed
    /\ (netloc parsed = [] \/ netloc parsed = FetchInfo.BASE_DOMAIN)
    /\ is_Some (Re.search FetchInfo.JOB_DETAIL_RE (path parsed)).
Proof.
  apply (@job_links_scoped_pinned_filtered UrllibModel.cpython Run.parser
           (py "L") Run.listing_url (∅ ∪ {[ Run.job_url ]}) Run.job_url).
  - vm_compute. reflexivity.
  - apply elem_of_union. right. apply elem_of_singleton. reflexivity.
Defined.



Lemma merge_overwrites_url_keeps_provenance_witness :
  exists i',
    FetchInfo.dict_get (py "111")
      (FetchInfo.merge (py "111") (py "https://www.baitoru.com/CJLIST111/")
         (py "https://www.baitoru.com/kanto/job999/") Run.listing_url
         Run.registry_111)
    = Some i'
    /\ FetchInfo.company_url i' = py "https://www.baitoru.com/CJLIST111/"
    /\ FetchInfo.kept Run.entry_111 i'.
Proof.
  apply (@merge_overwrites_url_keeps_provenance Run.site UrllibModel.cpython
           Run.parser (py "111") Run.registry_111 Run.entry_111 eq_refl).
Defined.

(** The scenario of a seed page with two employer links and one job link,
    whose job page links to a third employer: three entries, one listing
    page, one job page, and the loop left for want of a next page. *)
Example crawl_of_the_site :
  let run := @FetchInfo.crawl_run Run.site UrllibModel.cpython Run.parser
               Run.listing_url 3 50 [] in
  exists st,
    run.1 = Ok (FetchInfo.NoNextPage, st)
    /\ List.map fst (FetchInfo.company_infos st) = [py "222"; py "111"; py "333"]
    /\ FetchInfo.listing_pages run.2 = [Run.listing_url]
    /\ FetchInfo.job_pages run.2 = [Run.job_url].
Proof.
  cbv zeta.
  exists (match (@FetchInfo.crawl_run Run.site UrllibModel.cpython Run.parser
                   Run.listing_url 3 50 []).1 with
          | Ok (_, st) => st
          | Raise _ => FetchInfo.initial_state
          end).
  split; [vm_compute; reflexivity|].
  split; [vm_compute; reflexivity|]. split; vm_compute; reflexivity.
Qed.

(** * Further properties of the code *)

(** ** Employer links: what the pattern finds *)

(** Greedy [cls*] over a run of the class that ends before a character
    outside it leaves exactly that rest to a continuation that accepts it. *)
Lemma star_longest {R} cls (k : pystr -> option R) x :
  forall ds rest,
    Forall (fun c => cls c = true) ds ->
    k rest = Some x ->
    match rest with c :: _ => cls c = false | [] => True end ->
    Re.star cls (ds ++ rest) k = Some x.
Proof.
  induction ds as [|d ds IH]; intros rest Hds Hk Hrest.
  - simpl. destruct rest as [|c t]; [exact Hk|]. simpl. rewrite Hrest. exact Hk.
  - apply Forall_cons in Hds as [Hd Hds]. simpl. rewrite Hd.
    rewrite (IH rest Hds Hk Hrest). reflexivity.
Qed.

(** The match of [CJLIST_RE] at the start of [/cjlist{digits}/...], in any
    letter case. *)
Lemma cjlist_match_here p ds rest :
  Forall2 (fun x c => Re.icase x c = true) (py "/cjlist") p ->
  FetchInfo.is_id ds ->
  Re.match_here FetchInfo.CJLIST_RE (p ++ ds ++ 47%N :: rest)
  = Some {| Re.group0 := p ++ ds ++ [47%N]; Re.groups := [ds] |}.
Proof.
  intros Hp [Hne Hds].
  change (py "/cjlist") with [47; 99; 106; 108; 105; 115; 116]%N in Hp.
  repeat (apply Forall2_cons_inv_l in Hp as (? & ? & ? & Hp & ->)).
  apply Forall2_nil_inv_l in Hp as ->.
  destruct ds as [|d ds]; [contradiction|].
  apply Forall_cons in Hds as [Hd Hds].
  unfold Re.match_here, FetchInfo.CJLIST_RE.
  change (py "/cjlist") with [47; 99; 106; 108; 105; 115; 116]%N.
  change (py "/") with [47%N].
  cbn [Re.lit_i Re.run app].
  repeat match goal with H : Re.icase _ _ = true |- _ => rewrite H; clear H end.
  rewrite Hd.
  assert (E1 : take (length (d :: ds ++ 47%N :: rest) - length (47%N :: rest))
                 (d :: ds ++ 47%N :: rest) = d :: ds)
    by exact (take_consumed (d :: ds) (47%N :: rest)).
  assert (E2 : take (length (x :: x1 :: x0 :: x2 :: x3 :: x4 :: x5 :: d
                               :: ds ++ 47%N :: rest) - length rest)
                 (x :: x1 :: x0 :: x2 :: x3 :: x4 :: x5 :: d :: ds ++ 47%N :: rest)
               = x :: x1 :: x0 :: x2 :: x3 :: x4 :: x5 :: d :: ds ++ [47%N]).
  { replace (x :: x1 :: x0 :: x2 :: x3 :: x4 :: x5 :: d :: ds ++ 47%N :: rest)
      with ((x :: x1 :: x0 :: x2 :: x3 :: x4 :: x5 :: d :: ds ++ [47%N]) ++ rest)
      by (cbn [app]; rewrite <- app_assoc; reflexivity).
    apply take_consumed. }
  apply star_longest; [exact Hds| |reflexivity].
  cbn [Re.run]. replace (Re.icase 47 47)%N with true by reflexivity.
  f_equal. f_equal; [exact E2|f_equal; exact E1].
Qed.

Lemma search_here r s m :
  Re.match_here r s = Some m -> Re.search r s = Some m.
Proof. intros Hm. destruct s; simpl; rewrite Hm; reflexivity. Qed.

Lemma cjlist_id_at_start p ds rest :
  Forall2 (fun x c => Re.icase x c = true) (py "/cjlist") p ->
  FetchInfo.is_id ds ->
  FetchInfo.cjlist_id (p ++ ds ++ 47%N :: rest) = Some ds.
Proof.
  intros Hp Hds. unfold FetchInfo.cjlist_id.
  rewrite (search_here _ _ _ (cjlist_match_here p ds rest Hp Hds)). reflexivity.
Qed.

Lemma cjlist_prefix_lower :
  Forall2 (fun x c => Re.icase x c = true) (py "/cjlist") (py "/cjlist").
Proof. repeat constructor. Qed.

(** X1. The canonical URL of an identifier leads back to the identifier:
    [CJLIST_RE] finds in [https://www.baitoru.com/cjlist{cid}/] exactly the
    digits it was built from. *)
Theorem cjlist_url_round_trip (cid : pystr) :
  FetchInfo.is_id cid ->
  FetchInfo.cjlist_id (FetchInfo.cjlist_url cid) = Some cid.
Proof.
  intros Hid. unfold FetchInfo.cjlist_url, FetchInfo.cjlist_id.
  rewrite (app_assoc (py "https://") FetchInfo.BASE_DOMAIN).
  rewrite cjlist_search_origin by (unfold FetchInfo.site_origins; left).
  change (py "/") with [47%N]. cbn [app].
  apply (cjlist_id_at_start _ _ []); [apply cjlist_prefix_lower|exact Hid].
Qed.

Lemma cjlist_url_round_trip_witness :
  FetchInfo.is_id (py "25189")
  /\ FetchInfo.cjlist_id (FetchInfo.cjlist_url (py "25189")) = Some (py "25189").
Proof.
  assert (Hid : FetchInfo.is_id (py "25189")).
  { split; [discriminate|]. repeat constructor. }
  split; [exact Hid|]. apply (cjlist_url_round_trip _ Hid).
Defined.

Section MoreExtractFacts.
Context `{Urllib} `{HtmlParser}.

(** X2. Every employer link is found: an [a[href]] whose href is
    [/cjlist{digits}/...], with the letters in any case, site-relative or
    behind the scheme and host of the site, contributes its digits to the
    identifiers of the page. *)
Theorem employer_link_is_extracted (html : pystr) (a : Soup.node)
    (o p ds rest : pystr) :
  a ∈ Soup.find_all_a_href (lxml html) ->
  o = [] \/ o ∈ FetchInfo.site_origins ->
  Forall2 (fun x c => Re.icase x c = true) (py "/cjlist") p ->
  FetchInfo.is_id ds ->
  Soup.href a = o ++ p ++ ds ++ py "/" ++ rest ->
  ds ∈ FetchInfo.extract_cjlist_ids_from_html html.
Proof.
  intros Ha Ho Hp Hds Hhref.
  unfold FetchInfo.extract_cjlist_ids_from_html. cbn zeta.
  rewrite elem_of_list_to_set, list_elem_of_omap.
  exists a. split; [exact Ha|].
  unfold FetchInfo.href_id. rewrite Hhref.
  assert (Hid : FetchInfo.cjlist_id (o ++ p ++ ds ++ py "/" ++ rest) = Some ds).
  { change (py "/" ++ rest) with (47%N :: rest).
    destruct Ho as [-> | Ho].
    - apply cjlist_id_at_start; assumption.
    - unfold FetchInfo.cjlist_id. rewrite cjlist_search_origin by exact Ho.
      apply cjlist_id_at_start; assumption. }
  rewrite Hid. reflexivity.
Qed.

End MoreExtractFacts.

Lemma employer_link_is_extracted_witness :
  py "111"
  ∈ @FetchInfo.extract_cjlist_ids_from_html UrllibModel.cpython Run.parser (py "L").
Proof.
  apply (@employer_link_is_extracted UrllibModel.cpython Run.parser (py "L")
           (Run.elt "a" [("href"%string, py "/cjlist111/")] [Run.txt (py "A")])
           [] (py "/cjlist") (py "111") []).
  - vm_compute. left.
  - left. reflexivity.
  - repeat constructor.
  - split; [discriminate|]. repeat constructor.
  - reflexivity.
Defined.

(** ** The prefecture: the leftmost window *)

Lemma prefecture_likeb_spec a b c :
  Scraper.prefecture_likeb a b c = true <-> Scraper.prefecture_like [a; b; c].
Proof.
  unfold Scraper.prefecture_likeb, Scraper.prefecture_like, Re.dot,
    Scraper.HOKKAIDO, Scraper.TOKYO_TO, Scraper.KYOTO_FU, Scraper.OSAKA_FU.
  rewrite !orb_true_iff, !andb_true_iff, !N.eqb_eq, !negb_true_iff, !N.eqb_neq,
    !elem_of_cons, elem_of_nil.
  split.
  - intros [[[[H | H] | H] | H] | H].
    + destruct H as [[<- <-] <-]. left. auto.
    + destruct H as [[<- <-] <-]. left. auto.
    + destruct H as [[<- <-] <-]. left. auto 6.
    + destruct H as [[<- <-] <-]. left. auto 6.
    + destruct H as [[Ha Hb] <-]. right. exists a, b. auto.
  - intros [[H | [H | [H | [H | []]]]] | (a' & b' & H & Ha & Hb)].
    + injection H as -> -> ->. auto 8.
    + injection H as -> -> ->. auto 8.
    + injection H as -> -> ->. auto 8.
    + injection H as -> -> ->. auto 8.
    + injection H as -> -> ->. right. auto.
Qed.

Lemma pref_match_here_3 a b c rest :
  Re.match_here Scraper.PREF_PATTERN (a :: b :: c :: rest)
  = if Scraper.prefecture_likeb a b c
    then Some {| Re.group0 := [a; b; c]; Re.groups := [[a; b; c]] |}
    else None.
Proof.
  unfold Re.match_here, Scraper.PREF_PATTERN, Scraper.prefecture_likeb.
  unfold Scraper.HOKKAIDO, Scraper.TOKYO_TO, Scraper.KYOTO_FU, Scraper.OSAKA_FU.
  cbn [Re.run]. rewrite !run_lit3.
  assert (E : take (length (a :: b :: c :: rest) - length rest) (a :: b :: c :: rest)
              = [a; b; c]) by exact (take_consumed [a; b; c] rest).
  rewrite E. cbn [app].
  destruct ((21271 =? a) && (28023 =? b) && (36947 =? c))%N; [reflexivity|].
  destruct ((26481 =? a) && (20140 =? b) && (37117 =? c))%N; [reflexivity|].
  destruct ((20140 =? a) && (37117 =? b) && (24220 =? c))%N; [reflexivity|].
  destruct ((22823 =? a) && (38442 =? b) && (24220 =? c))%N; [reflexivity|].
  cbn [orb].
  destruct (Re.dot a); [|reflexivity]. destruct (Re.dot b); [|reflexivity].
  destruct (Scraper.KEN =? c)%N; reflexivity.
Qed.

Lemma pref_match_here_short s :
  (length s < 3)%nat -> Re.match_here Scraper.PREF_PATTERN s = None.
Proof.
  intros Hlen. unfold Re.match_here, Scraper.PREF_PATTERN.
  unfold Scraper.HOKKAIDO, Scraper.TOKYO_TO, Scraper.KYOTO_FU, Scraper.OSAKA_FU.
  destruct s as [|a [|b [|c rest]]]; cbn [Re.run Re.lit].
  - reflexivity.
  - destruct (21271 =? a)%N, (26481 =? a)%N, (20140 =? a)%N, (22823 =? a)%N,
      (Re.dot a); reflexivity.
  - destruct (21271 =? a)%N, (26481 =? a)%N, (20140 =? a)%N, (22823 =? a)%N,
      (Re.dot a), (28023 =? b)%N, (20140 =? b)%N, (37117 =? b)%N, (38442 =? b)%N,
      (Re.dot b); reflexivity.
  - simpl in Hlen. lia.
Qed.

Lemma prefecture_like_length p : Scraper.prefecture_like p -> length p = 3%nat.
Proof.
  intros [H | (a & b & -> & _)]; [|reflexivity].
  rewrite !elem_of_cons, elem_of_nil in H.
  destruct H as [-> | [-> | [-> | [-> | []]]]]; reflexivity.
Qed.

(** The search of [PREF_PATTERN]: the leftmost window of three characters
    that looks like a prefecture. *)
Lemma pref_search s :
  match Re.search Scraper.PREF_PATTERN s with
  | Some m =>
      Re.group1 m = Re.group0 m
      /\ exists before after,
           s = before ++ Re.group0 m ++ after /\ Scraper.prefecture_like (Re.group0 m)
           /\ forall before' p' after',
                s = before' ++ p' ++ after' -> Scraper.prefecture_like p' ->
                (length before <= length before')%nat
  | None => forall before p after, s = before ++ p ++ after -> ~ Scraper.prefecture_like p
  end.
Proof.
  induction s as [|a s IH].
  - cbn [Re.search]. rewrite pref_match_here_short by (simpl; lia).
    intros before p after Heq Hp. apply prefecture_like_length in Hp.
    apply (f_equal length) in Heq. rewrite !length_app in Heq. simpl in Heq. lia.
  - cbn [Re.search].
    destruct (Re.match_here Scraper.PREF_PATTERN (a :: s)) as [m|] eqn:Hm.
    + destruct s as [|b [|c rest]];
        try (rewrite pref_match_here_short in Hm by (simpl; lia); discriminate).
      rewrite pref_match_here_3 in Hm.
      destruct (Scraper.prefecture_likeb a b c) eqn:Hlike; [|discriminate].
      injection Hm as <-. cbn [Re.group0 Re.group1 Re.groups List.nth].
      split; [reflexivity|]. exists [], rest. split; [reflexivity|].
      split; [apply prefecture_likeb_spec; exact Hlike|].
      intros. simpl. lia.
    + assert (Hno : forall p after, a :: s = p ++ after -> ~ Scraper.prefecture_like p).
      { intros p after Heq Hp. pose proof (prefecture_like_length _ Hp) as Hlen.
        destruct p as [|x [|y [|z [|? ?]]]]; try discriminate Hlen.
        cbn [app] in Heq. injection Heq as <- ->.
        rewrite pref_match_here_3 in Hm.
        apply prefecture_likeb_spec in Hp. rewrite Hp in Hm. discriminate. }
      destruct (Re.search Scraper.PREF_PATTERN s) as [m|].
      * destruct IH as (Hg & before & after & -> & Hp & Hleft).
        split; [exact Hg|]. exists (a :: before), after.
        split; [reflexivity|]. split; [exact Hp|].
        intros [|x before'] p' after' Heq Hp'.
        -- exfalso. exact (Hno p' after' Heq Hp').
        -- cbn [app] in Heq. injection Heq as <- Heq.
           simpl. apply le_n_S. exact (Hleft before' p' after' Heq Hp').
      * intros [|x before] p after Heq Hp.
        -- exact (Hno p after Heq Hp).
        -- cbn [app] in Heq. injection Heq as <- Heq. exact (IH before p after Heq Hp).
Qed.

(** X3. What [extract_prefecture] returns for an address is the leftmost
    window of three characters that is 北海道, 東京都, 京都府 or 大阪府, or two
    characters other than a line feed followed by 県; it is [None] exactly
    when the address has no such window.  A result is never longer than
    three characters. *)
Theorem extract_prefecture_leftmost_window (address : pystr) :
  match Scraper.extract_prefecture (Some address) with
  | Some p =>
      length p = 3%nat
      /\ exists before after,
           address = before ++ p ++ after /\ Scraper.prefecture_like p
           /\ forall before' p' after',
                address = before' ++ p' ++ after' -> Scraper.prefecture_like p' ->
                (length before <= length before')%nat
  | None =>
      forall before p after, address = before ++ p ++ after -> ~ Scraper.prefecture_like p
  end.
Proof.
  unfold Scraper.extract_prefecture.
  destruct address as [|a s].
  - cbn. intros before p after Heq Hp. apply prefecture_like_length in Hp.
    apply (f_equal length) in Heq. rewrite !length_app in Heq. simpl in Heq. lia.
  - cbn [otruthy truthy negb default from_option]. unfold id.
    pose proof (pref_search (a :: s)) as Hs.
    destruct (Re.search Scraper.PREF_PATTERN (a :: s)) as [m|]; [|exact Hs].
    destruct Hs as (-> & before & after & Heq & Hp & Hleft).
    split; [apply prefecture_like_length; exact Hp|]. eauto.
Qed.

(** ** The fetchers at their edges *)

Section MoreFetchFacts.
Context `{Network}.

Lemma scraper_fetch_outcome url mx :
  forall (n : nat) (i : Z) last w,
    exists r w',
      Scraper.fetch_html_from url mx n i last w = (r, w')
      /\ (gets w <= gets w' <= gets w + n)%nat
      /\ match r with
         | Ok body =>
             exists resp, (gets w < gets w')%nat
                          /\ http (gets w' - 1)%nat url = Responded resp
                          /\ raise_for_status resp = None /\ body = text resp
         | Raise exc =>
             gets w' = (gets w + n)%nat
             /\ match n with
                | O => w' = w
                       /\ exc = match last with
                                | Some e => ExRequest e
                                | None => TypeError
                                end
                | S _ => exists e, attempt_error (http (gets w' - 1)%nat url) = Some e
                                   /\ exc = ExRequest e
                end
         end.
Proof.
  induction n as [|n IH]; intros i last w.
  - simpl. destruct last; mstep; do 2 eexists; (split; [reflexivity|]);
      (split; [lia|]); (split; [lia|]); auto.
  - set (after := fun e : RequestException =>
                    if i <? mx - 1
                    then EvSleep (Scraper.BASE_BACKOFF_SEC * (i + 1))
                           :: EvPrint (WarnRetry e (i + 1) mx) :: EvGet url :: w
                    else EvGet url :: w).
    assert (Hg1 : forall e, gets (after e) = S (gets w)).
    { intros e. unfold after. destruct (i <? mx - 1);
        rewrite ?gets_other, gets_get by reflexivity; reflexivity. }
    assert (Hfailed : forall e,
              attempt_error (http (gets w) url) = Some e ->
              Scraper.fetch_html_from url mx (S n) i last w
              = Scraper.fetch_html_from url mx n (i + 1) (Some e) (after e)).
    { intros e He. simpl. mstep. unfold after.
      destruct (http (gets w) url) as [r|e0]; simpl in He.
      - rewrite He. destruct (i <? mx - 1); reflexivity.
      - injection He as ->. destruct (i <? mx - 1); reflexivity. }
    destruct (attempt_error (http (gets w) url)) as [e|] eqn:He.
    + rewrite (Hfailed e eq_refl).
      destruct (IH (i + 1) (Some e) (after e)) as (r & w' & Hrun & Hg & Hr).
      rewrite Hg1 in Hg. exists r, w'. split; [exact Hrun|]. split; [lia|].
      destruct r as [body|exc].
      * destruct Hr as (resp & Hlt & Hresp & Hst & ->). rewrite Hg1 in Hlt.
        exists resp. split; [lia|auto].
      * destruct Hr as [Hgn Hr]. rewrite Hg1 in Hgn. split; [lia|].
        destruct n as [|n].
        -- destruct Hr as [-> ->]. exists e. split; [|reflexivity].
           rewrite Hg1. replace (S (gets w) - 1)%nat with (gets w) by lia. exact He.
        -- exact Hr.
    + destruct (http (gets w) url) as [resp|e0] eqn:Ho; [|discriminate He].
      simpl in He. exists (Ok (text resp)), (EvGet url :: w).
      split; [simpl; mstep; rewrite Ho, He; reflexivity|].
      rewrite gets_get. split; [lia|]. exists resp. split; [lia|].
      replace (S (gets w) - 1)%nat with (gets w) by lia. auto.
Qed.

(** X4. The profile [fetch_html] with [max_retries] attempts
    always ends after at most [max_retries] GETs.  It returns the [text] of a
    response on which [raise_for_status] did not raise, or it raises: with no
    attempt to make ([max_retries] zero or negative) a [TypeError], from
    [raise last_exc] with [last_exc] still [None], without any request; and
    otherwise, after exactly [max_retries] GETs, the exception of the last
    attempt. *)
Theorem fetch_html_retries_outcome (url : pystr) (max_retries : Z) (w : World) :
  exists r w',
    Scraper.fetch_html_retries url max_retries w = (r, w')
    /\ (gets w <= gets w' <= gets w + Z.to_nat max_retries)%nat
    /\ match r with
       | Ok body =>
           exists resp, (gets w < gets w')%nat
                        /\ http (gets w' - 1)%nat url = Responded resp
                        /\ raise_for_status resp = None /\ body = text resp
       | Raise TypeError => max_retries <= 0 /\ w' = w
       | Raise (ExRequest e) =>
           0 < max_retries
           /\ gets w' = (gets w + Z.to_nat max_retries)%nat
           /\ attempt_error (http (gets w' - 1)%nat url) = Some e
       | Raise ValueError => False
       | Raise ParserRejectedMarkup => False
       end.
Proof.
  unfold Scraper.fetch_html_retries.
  destruct (scraper_fetch_outcome url max_retries (Z.to_nat max_retries) 0 None w)
    as (r & w' & Hrun & Hg & Hr).
  exists r, w'. split; [exact Hrun|]. split; [exact Hg|].
  destruct r as [body|exc]; [exact Hr|].
  destruct Hr as [Hgn Hr].
  destruct (Z.to_nat max_retries) as [|n] eqn:Hn.
  - destruct Hr as [-> ->]. split; [lia|reflexivity].
  - destruct Hr as (e & He & ->). split; [lia|]. split; [exact Hgn|exact He].
Qed.

Lemma slept_cons e w : slept (e :: w) = slept_of e + slept w.
Proof. reflexivity. Qed.

Lemma fetch_info_all_fail_slept url :
  forall (n : nat) (i : Z) last w,
    (forall j, (j < n)%nat -> exists e, http (gets w + j)%nat url = Failed e) ->
    exists w',
      FetchInfo.fetch_html_from url n i last w = (Ok None, w')
      /\ gets w' = (gets w + n)%nat
      /\ slept w' = slept w + FetchInfo.BASE_BACKOFF_SEC * (Z.of_nat n * i + sum_upto n).
Proof.
  induction n as [|n IH]; intros i last w Hfail.
  - simpl. mstep. eexists. split; [reflexivity|].
    rewrite gets_other by reflexivity. unfold FetchInfo.BASE_BACKOFF_SEC.
    rewrite slept_cons. cbn [slept_of sum_upto Z.of_nat]. split; lia.
  - destruct (Hfail 0%nat) as [e He]; [lia|]. rewrite Nat.add_0_r in He.
    simpl. mstep. rewrite He.
    destruct (IH (i + 1) (Some e)
      (EvSleep (FetchInfo.BASE_BACKOFF_SEC * (i + 1))
         :: EvPrint (WarnError e url (i + 1)) :: EvGet url :: w))
      as (w' & Hrun & Hg & Hs).
    + intros j Hj. rewrite !gets_other, gets_get by reflexivity.
      destruct (Hfail (S j)) as [e' He']; [lia|]. exists e'.
      rewrite <- He'. f_equal. lia.
    + exists w'. split; [exact Hrun|].
      rewrite !gets_other, gets_get in Hg by reflexivity.
      split; [lia|]. rewrite Hs. unfold FetchInfo.BASE_BACKOFF_SEC.
      rewrite !slept_cons. cbn [slept_of].
      change (sum_upto (S n)) with (sum_upto n + Z.of_nat (S n)). lia.
Qed.

Lemma scraper_all_fail_slept url mx :
  forall (n : nat) (i : Z) last w,
    i + Z.of_nat n = mx ->
    (forall j, (j < n)%nat ->
       is_Some (attempt_error (http (gets w + j)%nat url))) ->
    exists e w',
      Scraper.fetch_html_from url mx n i last w = (Raise e, w')
      /\ gets w' = (gets w + n)%nat
      /\ slept w'
         = slept w + Scraper.BASE_BACKOFF_SEC
                     * (Z.of_nat (pred n) * i + sum_upto (pred n)).
Proof.
  induction n as [|n IH]; intros i last w Hi Hfail.
  - simpl. unfold Scraper.BASE_BACKOFF_SEC.
    destruct last; mstep; do 2 eexists; (split; [reflexivity|]);
      cbn [sum_upto pred Z.of_nat]; split; lia.
  - destruct (Hfail 0%nat) as [e He]; [lia|]. rewrite Nat.add_0_r in He.
    set (w1 := (if i <? mx - 1
                then EvSleep (Scraper.BASE_BACKOFF_SEC * (i + 1))
                       :: EvPrint (WarnRetry e (i + 1) mx) :: EvGet url :: w
                else EvGet url :: w)).
    assert (Hg1 : gets w1 = S (gets w)).
    { unfold w1. destruct (i <? mx - 1);
        rewrite ?gets_other, gets_get by reflexivity; reflexivity. }
    assert (Hs1 : slept w1
                  = slept w + (if i <? mx - 1
                               then Scraper.BASE_BACKOFF_SEC * (i + 1) else 0)).
    { unfold w1. destruct (i <? mx - 1); rewrite !slept_cons; cbn [slept_of]; lia. }
    destruct (IH (i + 1) (Some e) w1) as (e' & w' & Hrun & Hg & Hs).
    { lia. }
    { intros j Hj. rewrite Hg1.
      replace (S (gets w) + j)%nat with (gets w + S j)%nat by lia.
      apply Hfail. lia. }
    exists e', w'.
    assert (Hstep : Scraper.fetch_html_from url mx (S n) i last w
                    = Scraper.fetch_html_from url mx n (i + 1) (Some e) w1).
    { simpl. mstep. unfold w1.
      destruct (http (gets w) url) as [r|e0]; simpl in He.
      - rewrite He. destruct (i <? mx - 1); reflexivity.
      - injection He as ->. destruct (i <? mx - 1); reflexivity. }
    rewrite Hstep. split; [exact Hrun|]. split; [lia|].
    rewrite Hs, Hs1. unfold Scraper.BASE_BACKOFF_SEC.
    destruct n as [|n].
    + replace (i <? mx - 1) with false by (symmetry; apply Z.ltb_ge; lia).
      cbn [pred sum_upto]. lia.
    + replace (i <? mx - 1) with true by (symmetry; apply Z.ltb_lt; lia).
      cbn [pred]. change (sum_upto (S n)) with (sum_upto n + Z.of_nat (S n)). lia.
Qed.

(** X5. When every attempt fails, the listing/job [fetch_html] has
    slept 3 + 6 + 9 = 18 seconds when it gives up: it sleeps after the last
    attempt too.  The profile [fetch_html] with [max_retries] attempts sleeps
    only between attempts, 3 * (1 + ... + (max_retries - 1)) seconds in all,
    so 9 seconds for the three attempts of the default. *)
Theorem backoff_on_exhaustion (url : pystr) (max_retries : Z) (w : World) :
  0 < max_retries ->
  (forall j, (j < 3)%nat -> exists e, http (gets w + j)%nat url = Failed e) ->
  (forall j, (j < Z.to_nat max_retries)%nat ->
     is_Some (attempt_error (http (gets w + j)%nat url))) ->
  (exists w', FetchInfo.fetch_html url w = (Ok None, w')
              /\ gets w' = (gets w + 3)%nat /\ slept w' = slept w + 18)
  /\ (exists e w',
        Scraper.fetch_html_retries url max_retries w = (Raise e, w')
        /\ gets w' = (gets w + Z.to_nat max_retries)%nat
        /\ slept w' = slept w + 3 * sum_upto (Z.to_nat max_retries - 1)).
Proof.
  intros Hmx Hdown Hfail. split.
  - destruct (fetch_info_all_fail_slept url 3 0 None w Hdown) as (w' & Hrun & Hg & Hs).
    exists w'. split; [exact Hrun|]. split; [exact Hg|]. rewrite Hs. reflexivity.
  - destruct (scraper_all_fail_slept url max_retries (Z.to_nat max_retries) 0 None w)
      as (e & w' & Hrun & Hg & Hs); [lia|exact Hfail|].
    exists e, w'. split; [exact Hrun|]. split; [exact Hg|]. rewrite Hs.
    unfold Scraper.BASE_BACKOFF_SEC.
    replace (Init.Nat.pred (Z.to_nat max_retries)) with (Z.to_nat max_retries - 1)%nat
      by lia.
    lia.
Qed.

End MoreFetchFacts.

Lemma backoff_on_exhaustion_witness :
  (exists w', @FetchInfo.fetch_html Run.always_down Run.listing_url [] = (Ok None, w')
              /\ gets w' = 3%nat /\ slept w' = 18)
  /\ (exists e w',
        @Scraper.fetch_html_retries Run.always_down Run.listing_url 3 [] = (Raise e, w')
        /\ gets w' = 3%nat /\ slept w' = 9).
Proof.
  apply (@backoff_on_exhaustion Run.always_down Run.listing_url 3 []).
  - lia.
  - intros j _. exists ConnectionError. reflexivity.
  - intros j _. exists ConnectionError. reflexivity.
Defined.

(** ** The fetchers on any network *)

Section FetchOutcome.
Context `{Network}.

(** The listing/job fetcher on any network: [k] attempts raise and are
    retried, then a response ends the loop, or the attempts run out. *)
Lemma fetch_info_outcome url :
  forall (n : nat) (i : Z) last w,
    exists (k : nat) o w',
      FetchInfo.fetch_html_from url n i last w = (Ok o, w')
      /\ (k <= n)%nat
      /\ (forall j, (j < k)%nat -> exists e, http (gets w + j)%nat url = Failed e)
      /\ slept w' = slept w + FetchInfo.BASE_BACKOFF_SEC * (Z.of_nat k * i + sum_upto k)
      /\ ((k = n /\ o = None
           /\ exists last' w1,
                w' = EvPrint (ErrorFailed url last') :: w1
                /\ gets w1 = (gets w + n)%nat
                /\ match n with
                   | O => last' = last
                   | S m => exists e, http (gets w + m)%nat url = Failed e
                                      /\ last' = Some e
                   end)
          \/ (exists r w1,
                (k < n)%nat /\ http (gets w + k)%nat url = Responded r
                /\ gets w1 = (gets w + k)%nat
                /\ ((status_code r = 200 /\ o = Some (text_apparent r)
                     /\ w' = EvGet url :: w1)
                    \/ (status_code r <> 200 /\ o = None
                        /\ w' = EvPrint (WarnStatus (status_code r) url)
                                  :: EvGet url :: w1)))).
Proof.
  induction n as [|n IH]; intros i last w.
  - exists 0%nat, None, (EvPrint (ErrorFailed url last) :: w).
    split; [reflexivity|]. split; [lia|]. split; [intros; lia|].
    split; [rewrite slept_cons; cbn [slept_of sum_upto Z.of_nat]; lia|].
    left. split; [reflexivity|]. split; [reflexivity|].
    exists last, w. split; [reflexivity|]. split; [lia|reflexivity].
  - cbn [FetchInfo.fetch_html_from]. mstep.
    destruct (http (gets w) url) as [r|e] eqn:Ho.
    + exists 0%nat. rewrite Nat.add_0_r.
      destruct (status_code r =? 200) eqn:Est; cbn [fst snd].
      * apply Z.eqb_eq in Est. do 2 eexists. split; [reflexivity|].
        split; [lia|]. split; [intros; lia|].
        split; [rewrite slept_cons; cbn [slept_of sum_upto Z.of_nat]; lia|].
        right. exists r, w. split; [lia|]. split; [exact Ho|].
        split; [lia|]. left. auto.
      * apply Z.eqb_neq in Est. do 2 eexists. split; [reflexivity|].
        split; [lia|]. split; [intros; lia|].
        split; [rewrite !slept_cons; cbn [slept_of sum_upto Z.of_nat]; lia|].
        right. exists r, w. split; [lia|]. split; [exact Ho|].
        split; [lia|]. right. auto.
    + cbn [fst snd].
      destruct (IH (i + 1) (Some e)
        (EvSleep (FetchInfo.BASE_BACKOFF_SEC * (i + 1))
           :: EvPrint (WarnError e url (i + 1)) :: EvGet url :: w))
        as (k & o & w' & Hrun & Hk & Hfail & Hs & Hend).
      rewrite !gets_other, gets_get in Hfail, Hend by reflexivity.
      rewrite !slept_cons in Hs. cbn [slept_of] in Hs.
      exists (S k), o, w'. split; [exact Hrun|]. split; [lia|].
      split.
      { intros [|j] Hj; [rewrite Nat.add_0_r; eauto|].
        destruct (Hfail j) as [e' He']; [lia|]. exists e'.
        rewrite <- He'. f_equal. lia. }
      split.
      { rewrite Hs. unfold FetchInfo.BASE_BACKOFF_SEC.
        change (sum_upto (S k)) with (sum_upto k + Z.of_nat (S k)). lia. }
      destruct Hend as [(-> & -> & last' & w1 & -> & Hg & Hlast)
                       |(r & w1 & Hlt & Hr & Hg & Hcase)].
      * left. split; [reflexivity|]. split; [reflexivity|].
        exists last', w1. split; [reflexivity|]. split; [lia|].
        destruct n as [|m].
        -- exists e. rewrite Nat.add_0_r. auto.
        -- destruct Hlast as (e' & He' & ->). exists e'. split; [|reflexivity].
           rewrite <- He'. f_equal. lia.
      * right. exists r, w1. split; [lia|].
        split; [rewrite <- Hr; f_equal; lia|]. split; [lia|exact Hcase].
Qed.

(** The profile fetcher on any network: an attempt fails when the GET raises
    or the status is 4xx or 5xx; [k] attempts fail, each but the last of all
    followed by its backoff sleep. *)
Lemma scraper_fetch_attempts url mx :
  forall (n : nat) (i : Z) last w,
    i + Z.of_nat n = mx ->
    exists (k : nat) r w',
      Scraper.fetch_html_from url mx n i last w = (r, w')
      /\ (k <= n)%nat
      /\ (forall j, (j < k)%nat ->
            is_Some (attempt_error (http (gets w + j)%nat url)))
      /\ ((k = n /\ gets w' = (gets w + n)%nat
           /\ slept w' = slept w + Scraper.BASE_BACKOFF_SEC
                                   * (Z.of_nat (pred n) * i + sum_upto (pred n))
           /\ match n with
              | O => r = Raise match last with
                               | Some e => ExRequest e
                               | None => TypeError
                               end
              | S m => exists e, attempt_error (http (gets w + m)%nat url) = Some e
                                 /\ r = Raise (ExRequest e)
              end)
          \/ (exists resp,
                (k < n)%nat /\ http (gets w + k)%nat url = Responded resp
                /\ raise_for_status resp = None
                /\ r = Ok (text resp)
                /\ w' <> w /\ gets w' = (gets w + k + 1)%nat
                /\ slept w' = slept w + Scraper.BASE_BACKOFF_SEC
                                        * (Z.of_nat k * i + sum_upto k))).
Proof.
  induction n as [|n IH]; intros i last w Hi.
  - exists 0%nat. cbn [Scraper.fetch_html_from]. unfold Scraper.BASE_BACKOFF_SEC.
    destruct last; mstep; do 2 eexists; (split; [reflexivity|]);
      (split; [lia|]); (split; [intros; lia|]); left;
      (split; [reflexivity|]); (split; [lia|]);
      (split; [cbn [pred sum_upto Z.of_nat]; lia|reflexivity]).
  - set (w1 := fun e : RequestException =>
                 if i <? mx - 1
                 then EvSleep (Scraper.BASE_BACKOFF_SEC * (i + 1))
                        :: EvPrint (WarnRetry e (i + 1) mx) :: EvGet url :: w
                 else EvGet url :: w).
    assert (Hg1 : forall e, gets (w1 e) = S (gets w)).
    { intros e. unfold w1. destruct (i <? mx - 1);
        rewrite ?gets_other, gets_get by reflexivity; reflexivity. }
    assert (Hs1 : forall e, slept (w1 e)
                  = slept w + (if i <? mx - 1
                               then Scraper.BASE_BACKOFF_SEC * (i + 1) else 0)).
    { intros e. unfold w1.
      destruct (i <? mx - 1); rewrite !slept_cons; cbn [slept_of]; lia. }
    assert (Hfailed : forall e,
              attempt_error (http (gets w) url) = Some e ->
              Scraper.fetch_html_from url mx (S n) i last w
              = Scraper.fetch_html_from url mx n (i + 1) (Some e) (w1 e)).
    { intros e He. simpl. mstep. unfold w1.
      destruct (http (gets w) url) as [r|e0]; simpl in He.
      - rewrite He. destruct (i <? mx - 1); reflexivity.
      - injection He as ->. destruct (i <? mx - 1); reflexivity. }
    destruct (attempt_error (http (gets w) url)) as [e|] eqn:He.
    + rewrite (Hfailed e eq_refl).
      destruct (IH (i + 1) (Some e) (w1 e)) as (k & r & w' & Hrun & Hk & Hfail & Hend);
        [lia|].
      rewrite Hg1 in Hfail, Hend. rewrite Hs1 in Hend.
      exists (S k), r, w'. split; [exact Hrun|]. split; [lia|].
      split.
      { intros [|j] Hj; [rewrite Nat.add_0_r, He; eauto|].
        replace (gets w + S j)%nat with (S (gets w) + j)%nat by lia.
        apply Hfail. lia. }
      destruct Hend as [(-> & Hg & Hs & Hlast)|(resp & Hlt & Hr & Hst & -> & Hne & Hg & Hs)].
      * left. split; [reflexivity|]. split; [lia|]. split.
        { rewrite Hs. unfold Scraper.BASE_BACKOFF_SEC. destruct n as [|n].
          - replace (i <? mx - 1) with false by (symmetry; apply Z.ltb_ge; lia).
            cbn [pred sum_upto Z.of_nat]. lia.
          - replace (i <? mx - 1) with true by (symmetry; apply Z.ltb_lt; lia).
            cbn [pred]. change (sum_upto (S n)) with (sum_upto n + Z.of_nat (S n)).
            lia. }
        destruct n as [|m].
        -- cbn in Hlast. subst r. exists e. rewrite Nat.add_0_r. auto.
        -- destruct Hlast as (e' & He' & ->). exists e'. split; [|reflexivity].
           rewrite <- He'. do 2 f_equal. lia.
      * right. exists resp. split; [lia|].
        split; [rewrite <- Hr; f_equal; lia|]. split; [exact Hst|].
        split; [reflexivity|]. split.
        { intros E. rewrite E in Hg. lia. }
        split; [lia|].
        rewrite Hs. unfold Scraper.BASE_BACKOFF_SEC.
        replace (i <? mx - 1) with true by (symmetry; apply Z.ltb_lt; lia).
        change (sum_upto (S k)) with (sum_upto k + Z.of_nat (S k)). lia.
    + destruct (http (gets w) url) as [resp|e0] eqn:Ho; [|discriminate He].
      simpl in He. exists 0%nat, (Ok (text resp)), (EvGet url :: w).
      split; [simpl; mstep; rewrite Ho, He; reflexivity|].
      split; [lia|]. split; [intros; lia|]. right. exists resp.
      split; [lia|]. rewrite Nat.add_0_r. split; [exact Ho|]. split; [exact He|].
      split; [reflexivity|]. split.
      { intros E. apply (f_equal (@length event)) in E. simpl in E. lia. }
      rewrite gets_get, slept_cons. cbn [slept_of sum_upto Z.of_nat].
      split; lia.
Qed.

Lemma attempt_error_cases o :
  is_Some (attempt_error o)
  <-> (exists e, o = Failed e)
      \/ (exists resp, o = Responded resp /\ 400 <= status_code resp < 600).
Proof.
  destruct o as [resp|e]; cbn [attempt_error]; unfold raise_for_status.
  - destruct ((400 <=? status_code resp) && (status_code resp <? 600)) eqn:E.
    + apply andb_true_iff in E as [E1 E2].
      apply Z.leb_le in E1. apply Z.ltb_lt in E2.
      split; [intros _; right; exists resp; split; [reflexivity|lia]|eauto].
    + split; [intros [? [=]]|].
      intros [[e [=]]|(resp' & [= <-] & Hst)].
      apply andb_false_iff in E as [E|E];
        [apply Z.leb_gt in E|apply Z.ltb_ge in E]; lia.
  - split; [eauto|]. intros _. eauto.
Qed.

Lemma raise_for_status_none resp :
  raise_for_status resp = None <-> ~ 400 <= status_code resp < 600.
Proof.
  unfold raise_for_status.
  destruct ((400 <=? status_code resp) && (status_code resp <? 600)) eqn:E.
  - apply andb_true_iff in E as [E1 E2].
    apply Z.leb_le in E1. apply Z.ltb_lt in E2. split; [discriminate|lia].
  - split; [|reflexivity]. intros _.
    apply andb_false_iff in E as [E|E];
      [apply Z.leb_gt in E|apply Z.ltb_ge in E]; lia.
Qed.

(** C1, amended. On every network, the listing/job [fetch_html] retries
    only an attempt whose GET raised: [k] such attempts, each followed by its
    backoff sleep, and then either the attempts have run out ([k = 3]) or a
    response ends the fetch at once, with no further GET and no sleep, with
    the body when the status is 200 and with [None] and a warning otherwise;
    so at most 3 GETs are made.  The profile [fetch_html] also retries an
    attempt whose response has a 4xx or 5xx status, which [raise_for_status]
    raises inside the [try] block: [k] attempts fail in one of the two ways,
    each but the third followed by its backoff sleep, and then either the
    third has failed and its exception is raised, or a response with another
    status is returned at once.  In particular, when the first attempt is
    answered: a status other than 200 ends the listing/job fetch with one GET
    and no sleep; a 4xx or 5xx status makes the profile fetch sleep 3 seconds
    and go on with the second attempt; any other status makes it return the
    text at once. *)
Theorem fetch_html_on_status url w :
  (exists (k : nat) o w',
     FetchInfo.fetch_html url w = (Ok o, w')
     /\ (k <= 3)%nat
     /\ (forall j, (j < k)%nat -> exists e, http (gets w + j)%nat url = Failed e)
     /\ slept w' - slept w = FetchInfo.BASE_BACKOFF_SEC * sum_upto k
     /\ ((k = 3%nat /\ o = None /\ gets w' = (gets w + 3)%nat)
         \/ (exists r w1,
               (k < 3)%nat /\ http (gets w + k)%nat url = Responded r
               /\ gets w' = (gets w + k + 1)%nat
               /\ ((status_code r = 200 /\ o = Some (text_apparent r))
                   \/ (status_code r <> 200 /\ o = None
                       /\ w' = EvPrint (WarnStatus (status_code r) url)
                                 :: EvGet url :: w1)))))
  /\ (exists (k : nat) res w',
        Scraper.fetch_html url w = (res, w')
        /\ (k <= 3)%nat
        /\ (forall j, (j < k)%nat ->
              (exists e, http (gets w + j)%nat url = Failed e)
              \/ (exists resp, http (gets w + j)%nat url = Responded resp
                               /\ 400 <= status_code resp < 600))
        /\ slept w' - slept w
           = Scraper.BASE_BACKOFF_SEC * sum_upto (Nat.min k 2)
        /\ ((k = 3%nat /\ gets w' = (gets w + 3)%nat
             /\ exists e, attempt_error (http (gets w + 2)%nat url) = Some e
                          /\ res = Raise (ExRequest e))
            \/ (exists resp,
                  (k < 3)%nat /\ http (gets w + k)%nat url = Responded resp
                  /\ ~ 400 <= status_code resp < 600
                  /\ res = Ok (text resp)
                  /\ gets w' = (gets w + k + 1)%nat)))
  /\ (forall r,
        http (gets w) url = Responded r ->
        (status_code r <> 200 ->
           FetchInfo.fetch_html url w
           = (Ok None, EvPrint (WarnStatus (status_code r) url) :: EvGet url :: w))
        /\ (400 <= status_code r < 600 ->
              Scraper.fetch_html url w
              = Scraper.fetch_html_from url 3 2 1 (Some (HTTPError (status_code r)))
                  (EvSleep 3 :: EvPrint (WarnRetry (HTTPError (status_code r)) 1 3)
                     :: EvGet url :: w))
        /\ (~ 400 <= status_code r < 600 ->
              Scraper.fetch_html url w = (Ok (text r), EvGet url :: w))).
Proof.
  split; [|split].
  - destruct (fetch_info_outcome url (Z.to_nat FetchInfo.MAX_RETRIES) 0 None w)
      as (k & o & w' & Hrun & Hk & Hfail & Hs & Hend).
    change (Z.to_nat FetchInfo.MAX_RETRIES) with 3%nat in *.
    exists k, o, w'. split; [exact Hrun|]. split; [exact Hk|].
    split; [exact Hfail|]. split; [rewrite Hs; lia|].
    destruct Hend as [(-> & -> & last' & w1 & -> & Hg & _)
                     |(r & w1 & Hlt & Hr & Hg & Hcase)].
    + left. split; [reflexivity|]. split; [reflexivity|].
      rewrite gets_other by reflexivity. exact Hg.
    + right. exists r, w1. split; [exact Hlt|]. split; [exact Hr|].
      destruct Hcase as [(Hst & -> & ->)|(Hst & -> & ->)].
      * rewrite gets_get. split; [lia|]. left. auto.
      * rewrite gets_other, gets_get by reflexivity. split; [lia|]. right. auto.
  - destruct (scraper_fetch_attempts url Scraper.MAX_RETRIES
                (Z.to_nat Scraper.MAX_RETRIES) 0 None w eq_refl)
      as (k & res & w' & Hrun & Hk & Hfail & Hend).
    change (Z.to_nat Scraper.MAX_RETRIES) with 3%nat in *.
    exists k, res, w'. split; [exact Hrun|]. split; [exact Hk|].
    split; [intros j Hj; apply attempt_error_cases, Hfail, Hj|].
    destruct Hend as [(-> & Hg & Hs & e & He & ->)
                     |(resp & Hlt & Hr & Hst & -> & _ & Hg & Hs)].
    + split; [rewrite Hs; cbn; lia|]. left. split; [reflexivity|].
      split; [exact Hg|]. exists e. auto.
    + split; [rewrite Hs; replace (Nat.min k 2) with k by lia; lia|].
      right. exists resp. split; [exact Hlt|]. split; [exact Hr|].
      split; [apply raise_for_status_none; exact Hst|]. auto.
  - intros r Ho. split; [|split].
    + intros Hst. unfold FetchInfo.fetch_html. simpl. mstep. rewrite Ho.
      destruct (status_code r =? 200) eqn:E; [apply Z.eqb_eq in E; contradiction|].
      reflexivity.
    + intros Hst. unfold Scraper.fetch_html, Scraper.fetch_html_retries.
      change (Z.to_nat Scraper.MAX_RETRIES) with 3%nat.
      cbn [Scraper.fetch_html_from]. mstep. rewrite Ho.
      unfold raise_for_status.
      replace ((400 <=? status_code r) && (status_code r <? 600)) with true
        by (symmetry; apply andb_true_iff; split; [apply Z.leb_le|apply Z.ltb_lt]; lia).
      reflexivity.
    + intros Hst. unfold Scraper.fetch_html, Scraper.fetch_html_retries.
      change (Z.to_nat Scraper.MAX_RETRIES) with 3%nat.
      cbn [Scraper.fetch_html_from]. mstep. rewrite Ho.
      apply raise_for_status_none in Hst. rewrite Hst. reflexivity.
Qed.

(** C6, amended. The listing/job [fetch_html] never raises, whatever the
    network does: it returns [None] when all three attempts fail at the
    transport level, after printing the last exception, and when a status
    other than 200 is seen, after printing the status and without a further
    GET; it returns the body when the status is 200; and it returns [None] in
    no other case.  The profile [fetch_html] does not return a failure value:
    when all three attempts fail (the GET raises, or the status is 4xx or
    5xx) it raises the exception of the last attempt to its caller, it raises
    in no other case, and what it returns is the text of a response that
    passed [raise_for_status]. *)
Theorem fetch_html_on_exhaustion url w :
  (exists o w',
     FetchInfo.fetch_html url w = (Ok o, w')
     /\ ((forall j, (j < 3)%nat -> exists e, http (gets w + j)%nat url = Failed e) ->
         exists e w1,
           http (gets w + 2)%nat url = Failed e
           /\ o = None
           /\ w' = EvPrint (ErrorFailed url (Some e)) :: w1
           /\ gets w1 = (gets w + 3)%nat)
     /\ (forall (k : nat) r,
           (k < 3)%nat ->
           (forall j, (j < k)%nat -> exists e, http (gets w + j)%nat url = Failed e) ->
           http (gets w + k)%nat url = Responded r ->
           gets w' = (gets w + k + 1)%nat
           /\ (status_code r <> 200 ->
               o = None
               /\ exists w1, w' = EvPrint (WarnStatus (status_code r) url)
                                    :: EvGet url :: w1)
           /\ (status_code r = 200 -> o = Some (text_apparent r)))
     /\ (o = None ->
         (forall j, (j < 3)%nat -> exists e, http (gets w + j)%nat url = Failed e)
         \/ exists (k : nat) r,
              (k < 3)%nat /\ http (gets w + k)%nat url = Responded r
              /\ status_code r <> 200))
  /\ (exists res w',
        Scraper.fetch_html url w = (res, w')
        /\ ((forall j, (j < 3)%nat ->
               is_Some (attempt_error (http (gets w + j)%nat url))) ->
            exists e,
              attempt_error (http (gets w + 2)%nat url) = Some e
              /\ res = Raise (ExRequest e)
              /\ gets w' = (gets w + 3)%nat)
        /\ (forall e, res = Raise e ->
              (forall j, (j < 3)%nat ->
                 is_Some (attempt_error (http (gets w + j)%nat url)))
              /\ exists exc, e = ExRequest exc)
        /\ (forall body, res = Ok body ->
              exists (k : nat) resp,
                (k < 3)%nat /\ http (gets w + k)%nat url = Responded resp
                /\ raise_for_status resp = None /\ body = text resp)).
Proof.
  split.
  - destruct (fetch_info_outcome url (Z.to_nat FetchInfo.MAX_RETRIES) 0 None w)
      as (k & o & w' & Hrun & Hk & Hfail & Hs & Hend).
    change (Z.to_nat FetchInfo.MAX_RETRIES) with 3%nat in *.
    exists o, w'. split; [exact Hrun|].
    assert (Hsame : forall (k' : nat) r,
              (k' < 3)%nat ->
              (forall j, (j < k')%nat -> exists e, http (gets w + j)%nat url = Failed e) ->
              http (gets w + k')%nat url = Responded r ->
              k = k' /\ exists w1,
                gets w1 = (gets w + k)%nat
                /\ ((status_code r = 200 /\ o = Some (text_apparent r)
                     /\ w' = EvGet url :: w1)
                    \/ (status_code r <> 200 /\ o = None
                        /\ w' = EvPrint (WarnStatus (status_code r) url)
                                  :: EvGet url :: w1))).
    { intros k' r Hk' Hfail' Hr.
      assert (Hkk : k = k').
      { destruct (Nat.lt_trichotomy k k') as [Hlt|[Heq|Hgt]]; [|exact Heq|].
        - destruct Hend as [(-> & _)|(r0 & w1 & _ & Hr0 & _)]; [lia|].
          destruct (Hfail' k Hlt) as [e He]. congruence.
        - destruct (Hfail k' Hgt) as [e He]. congruence. }
      split; [exact Hkk|]. subst k'.
      destruct Hend as [(-> & _)|(r0 & w1 & _ & Hr0 & Hg & Hcase)]; [lia|].
      rewrite Hr in Hr0. injection Hr0 as <-. exists w1. auto. }
    split; [|split].
    + intros Hall.
      destruct Hend as [(-> & -> & last' & w1 & -> & Hg & e & He & ->)
                       |(r & w1 & Hlt & Hr & _)].
      * exists e, w1. auto.
      * destruct (Hall k Hlt) as [e He]. congruence.
    + intros k' r Hk' Hfail' Hr.
      destruct (Hsame k' r Hk' Hfail' Hr) as (<- & w1 & Hg & Hcase).
      destruct Hcase as [(Hst & -> & ->)|(Hst & -> & ->)].
      * rewrite gets_get. split; [lia|]. split; [contradiction|reflexivity].
      * rewrite gets_other, gets_get by reflexivity. split; [lia|].
        split; [intros _; split; [reflexivity|exists w1; reflexivity]|contradiction].
    + intros ->.
      destruct Hend as [(-> & _)|(r & w1 & Hlt & Hr & _ & Hcase)].
      * left. exact Hfail.
      * right. exists k, r. split; [exact Hlt|]. split; [exact Hr|].
        destruct Hcase as [(_ & [=] & _)|(Hst & _)]. exact Hst.
  - destruct (scraper_fetch_attempts url Scraper.MAX_RETRIES
                (Z.to_nat Scraper.MAX_RETRIES) 0 None w eq_refl)
      as (k & res & w' & Hrun & Hk & Hfail & Hend).
    change (Z.to_nat Scraper.MAX_RETRIES) with 3%nat in *.
    exists res, w'. split; [exact Hrun|]. split; [|split].
    + intros Hall.
      destruct Hend as [(-> & Hg & _ & e & He & ->)|(resp & Hlt & Hr & Hst & _)].
      * exists e. auto.
      * destruct (Hall k Hlt) as [e He]. rewrite Hr in He. cbn in He. congruence.
    + intros e ->.
      destruct Hend as [(-> & _ & _ & exc & _ & [= ->])|(resp & _ & _ & _ & [=] & _)].
      split; [exact Hfail|]. eauto.
    + intros body ->.
      destruct Hend as [(_ & _ & _ & e & _ & [=])
                       |(resp & Hlt & Hr & Hst & [= ->] & _)].
      exists k, resp. auto.
Qed.

End FetchOutcome.

(** On a server that answers 404 to every request, the listing/job fetch
    ends after one GET, and the profile fetch goes on with its second
    attempt after a sleep of 3 seconds. *)
Lemma fetch_html_on_status_witness :
  @FetchInfo.fetch_html Run.always_404 Run.listing_url []
  = (Ok None, [EvPrint (WarnStatus 404 Run.listing_url); EvGet Run.listing_url])
  /\ @Scraper.fetch_html Run.always_404 Run.listing_url []
     = @Scraper.fetch_html_from Run.always_404 Run.listing_url 3 2 1
         (Some (HTTPError 404))
         [EvSleep 3; EvPrint (WarnRetry (HTTPError 404) 1 3);
          EvGet Run.listing_url].
Proof.
  destruct (@fetch_html_on_status Run.always_404 Run.listing_url [])
    as (_ & _ & Hfirst).
  destruct (Hfirst Run.not_found eq_refl) as (Hinfo & Hprofile & _).
  split.
  - apply Hinfo. discriminate.
  - apply Hprofile. cbn. lia.
Defined.

(** On a network that is down, the listing/job fetch returns [None] after
    three GETs and the profile fetch raises. *)
Lemma fetch_html_on_exhaustion_witness :
  (exists e w1,
     (@FetchInfo.fetch_html Run.always_down Run.listing_url []).1 = Ok None
     /\ (@FetchInfo.fetch_html Run.always_down Run.listing_url []).2
        = EvPrint (ErrorFailed Run.listing_url (Some e)) :: w1
     /\ gets w1 = 3%nat)
  /\ (@Scraper.fetch_html Run.always_down Run.listing_url []).1
     = Raise (ExRequest ConnectionError).
Proof.
  destruct (@fetch_html_on_exhaustion Run.always_down Run.listing_url [])
    as [(o & w' & Hrun & Hdown & _) (res & w2 & Hrun2 & Hdown2 & _)].
  split.
  - destruct Hdown as (e & w1 & _ & -> & -> & Hg);
      [intros j _; exists ConnectionError; reflexivity|].
    exists e, w1. rewrite Hrun. auto.
  - destruct Hdown2 as (e & He & -> & _);
      [intros j _; exists ConnectionError; reflexivity|].
    rewrite Hrun2. injection He as <-. reflexivity.
Defined.

(** ** The registry of a run: one entry per employer, with its sources *)

Lemma dict_get_none_keys k d :
  FetchInfo.dict_get k d = None <-> k ∉ List.map fst d.
Proof.
  induction d as [|[k' v'] d IH]; simpl.
  - split; [intros _ Hin; inversion Hin|reflexivity].
  - rewrite not_elem_of_cons. destruct (pystr_eqb k' k) eqn:E.
    + apply pystr_eqb_true in E as ->. split; [discriminate|intros [Hne _]; congruence].
    + apply pystr_eqb_false in E. rewrite IH. split; [auto|intros [_ Hin]; exact Hin].
Qed.

Lemma dict_set_keys k v d :
  List.map fst (FetchInfo.dict_set k v d)
  = match FetchInfo.dict_get k d with
    | Some _ => List.map fst d
    | None => List.map fst d ++ [k]
    end.
Proof.
  induction d as [|[k' v'] d IH]; simpl; [reflexivity|].
  destruct (pystr_eqb k' k) eqn:E; simpl.
  - apply pystr_eqb_true in E as ->. reflexivity.
  - rewrite IH. destruct (FetchInfo.dict_get k d); reflexivity.
Qed.

Lemma dict_get_elem k i d :
  FetchInfo.dict_get k d = Some i -> (k, i) ∈ d.
Proof.
  induction d as [|[k' v'] d IH]; simpl; [discriminate|].
  destruct (pystr_eqb k' k) eqn:E.
  - apply pystr_eqb_true in E as ->. intros [= ->]. left.
  - intros Hget. right. auto.
Qed.

Lemma dict_set_forall (P : pystr * FetchInfo.info -> Prop) k v d :
  P (k, v) -> Forall P d -> Forall P (FetchInfo.dict_set k v d).
Proof.
  intros Hv. induction d as [|[k' v'] d IH]; intros Hd; simpl.
  - constructor; [exact Hv|constructor].
  - apply Forall_cons in Hd as [Hhd Htl].
    destruct (pystr_eqb k' k); constructor; auto.
Qed.

Section SourcedFacts.
Context `{Network} `{Urllib} `{HtmlParser}.

Lemma sourced_set L J k v d :
  FetchInfo.company_id v = k ->
  truthy (FetchInfo.source_listing_url v) = true ->
  FetchInfo.source_listing_url v ∈ L ->
  FetchInfo.source_job_url v = [] \/ FetchInfo.source_job_url v ∈ J ->
  FetchInfo.url_names_id v ->
  FetchInfo.sourced L J d -> FetchInfo.sourced L J (FetchInfo.dict_set k v d).
Proof.
  intros Hid Ht Hl Hj Hu [Hnd Hall]. split.
  - rewrite dict_set_keys.
    destruct (FetchInfo.dict_get k d) eqn:Hget; [exact Hnd|].
    apply NoDup_app. split; [exact Hnd|]. split; [|apply NoDup_singleton].
    intros x Hx Hx'. apply list_elem_of_singleton in Hx' as ->.
    apply dict_get_none_keys in Hget. contradiction.
  - apply dict_set_forall; [|exact Hall]. cbn. auto.
Qed.

Lemma sourced_mono L J L' J' d :
  L ⊆ L' -> J ⊆ J' -> FetchInfo.sourced L J d -> FetchInfo.sourced L' J' d.
Proof.
  intros HL HJ [Hnd Hall]. split; [exact Hnd|].
  eapply Forall_impl; [exact Hall|].
  intros kv (Hid & Ht & Hl & Hj & Hu).
  split; [exact Hid|]. split; [exact Ht|]. split; [apply HL; exact Hl|].
  split; [|exact Hu]. destruct Hj as [Hj | Hj]; [left; exact Hj|right; apply HJ; exact Hj].
Qed.

Lemma sourced_register L J cids job_url listing_url :
  truthy listing_url = true -> listing_url ∈ L ->
  job_url = [] \/ job_url ∈ J ->
  forall d, FetchInfo.sourced L J d ->
            FetchInfo.sourced L J (FetchInfo.register cids job_url listing_url d).
Proof.
  intros Ht Hl Hj. unfold FetchInfo.register.
  induction cids as [|c cids IH]; intros d Hd; [exact Hd|].
  simpl. apply IH. apply sourced_set; auto. left. reflexivity.
Qed.

Lemma sourced_merge L J cid u job_url listing_url parsed d :
  urlparse u = Ok parsed -> FetchInfo.cjlist_id (path parsed) = Some cid ->
  truthy listing_url = true -> listing_url ∈ L ->
  job_url = [] \/ job_url ∈ J ->
  FetchInfo.sourced L J d ->
  FetchInfo.sourced L J (FetchInfo.merge cid u job_url listing_url d).
Proof.
  intros Hparse Hcid Ht Hl Hj Hd.
  assert (Hstep : forall i d1,
            FetchInfo.sourced L J d1 ->
            FetchInfo.company_id i = cid ->
            (truthy (FetchInfo.source_listing_url i) = true ->
             FetchInfo.source_listing_url i ∈ L) ->
            (FetchInfo.source_job_url i = [] \/ FetchInfo.source_job_url i ∈ J) ->
            FetchInfo.sourced L J
              (FetchInfo.dict_set cid
                 (let i1 := {| FetchInfo.company_id := FetchInfo.company_id i;
                               FetchInfo.company_url := u;
                               FetchInfo.source_job_url := FetchInfo.source_job_url i;
                               FetchInfo.source_listing_url :=
                                 FetchInfo.source_listing_url i |} in
                  let i2 := if truthy (FetchInfo.source_job_url i1) then i1
                            else {| FetchInfo.company_id := FetchInfo.company_id i1;
                                    FetchInfo.company_url := FetchInfo.company_url i1;
                                    FetchInfo.source_job_url := job_url;
                                    FetchInfo.source_listing_url :=
                                      FetchInfo.source_listing_url i1 |} in
                  if truthy (FetchInfo.source_listing_url i2) then i2
                  else {| FetchInfo.company_id := FetchInfo.company_id i2;
                          FetchInfo.company_url := FetchInfo.company_url i2;
                          FetchInfo.source_job_url := FetchInfo.source_job_url i2;
                          FetchInfo.source_listing_url := listing_url |}) d1)).
  { intros i d1 Hd1 Hi Hli Hji. cbn zeta.
    cbn [FetchInfo.source_job_url FetchInfo.source_listing_url
         FetchInfo.company_id FetchInfo.company_url].
    assert (Hname : forall j l,
              FetchInfo.url_names_id
                {| FetchInfo.company_id := FetchInfo.company_id i;
                   FetchInfo.company_url := u;
                   FetchInfo.source_job_url := j;
                   FetchInfo.source_listing_url := l |}).
    { intros j l. right. exists parsed. cbn. rewrite Hi. auto. }
    destruct (truthy (FetchInfo.source_job_url i)) eqn:Etj;
      cbn [FetchInfo.source_job_url FetchInfo.source_listing_url
           FetchInfo.company_id FetchInfo.company_url];
      destruct (truthy (FetchInfo.source_listing_url i)) eqn:Etl;
      cbn [FetchInfo.source_job_url FetchInfo.source_listing_url
           FetchInfo.company_id FetchInfo.company_url];
      apply sourced_set; cbn; auto. }
  unfold FetchInfo.merge.
  destruct (FetchInfo.dict_get cid d) as [i|] eqn:Hget.
  - rewrite Hget. destruct Hd as [Hnd Hall].
    pose proof (dict_get_elem _ _ _ Hget) as Hin.
    rewrite Forall_forall in Hall. destruct (Hall _ Hin) as (Hi & Hti & Hli & Hji & _).
    cbn in Hi, Hti, Hli, Hji.
    apply Hstep; [split; [exact Hnd|apply Forall_forall; exact Hall]|auto..].
  - rewrite dict_get_set_eq. apply Hstep; cbn; auto.
    apply sourced_set; cbn; auto. right. exists parsed. cbn. auto.
Qed.

(** One iteration of the job loop keeps the registry sourced. *)
Lemma job_body_sourced mj cur u st w c st' w' :
  FetchInfo.job_body mj cur u st w = (Ok (c, st'), w') ->
  truthy cur = true -> cur ∈ FetchInfo.visited_listing_urls st ->
  FetchInfo.sourced_state st -> FetchInfo.sourced_state st'.
Proof.
  unfold FetchInfo.job_body, FetchInfo.sourced_state. intros Hrun Hcur Hin Hst.
  destruct (Z.of_nat (size (FetchInfo.visited_job_urls st)) >=? mj).
  { mstep. injection Hrun as <- <- <-. exact Hst. }
  destruct (bool_decide (u ∈ FetchInfo.visited_job_urls st)).
  { mstep. injection Hrun as <- <- <-. exact Hst. }
  apply bind_inv in Hrun as [([] & w1 & _ & Hrun) | (e & _ & [=])].
  apply bind_inv in Hrun as [(o & w2 & _ & Hrun) | (e & _ & [=])].
  assert (Hst1 : FetchInfo.sourced (FetchInfo.visited_listing_urls st)
                   (FetchInfo.visited_job_urls st ∪ {[u]})
                   (FetchInfo.company_infos st)).
  { eapply sourced_mono; [reflexivity| |exact Hst]. apply union_subseteq_l. }
  destruct o as [job_html|].
  2:{ mstep. injection Hrun as <- <- <-. exact Hst1. }
  destruct (truthy job_html); cbn [negb] in Hrun.
  2:{ mstep. injection Hrun as <- <- <-. exact Hst1. }
  apply bind_inv in Hrun as [([] & w3 & _ & Hrun) | (e & _ & [=])].
  apply bind_inv in Hrun as [(company_url & w4 & _ & Hrun) | (e & _ & [=])].
  apply bind_inv in Hrun as [(d2 & w5 & Hd2 & Hrun) | (e & _ & [=])].
  mstep. injection Hrun as <- <- <-. cbn.
  assert (Hu : u = [] \/ u ∈ FetchInfo.visited_job_urls st ∪ {[u]}).
  { right. apply elem_of_union. right. apply elem_of_singleton. reflexivity. }
  set (d1 := FetchInfo.register _ u cur (FetchInfo.company_infos st)) in *.
  assert (Hd1 : FetchInfo.sourced (FetchInfo.visited_listing_urls st)
                  (FetchInfo.visited_job_urls st ∪ {[u]}) d1).
  { apply sourced_register; assumption. }
  destruct (otruthy company_url).
  - destruct (urlparse (default [] company_url)) as [parsed|e] eqn:Hparse;
      [|discriminate Hd2].
    destruct (FetchInfo.cjlist_id (path parsed)) as [cid|] eqn:Hcid;
      injection Hd2 as <- <-; [|exact Hd1].
    eapply sourced_merge; eassumption.
  - injection Hd2 as <- <-. exact Hd1.
Qed.

Lemma job_loop_sourced mj cur jobs :
  forall st w st' w',
    FetchInfo.job_loop mj cur jobs st w = (Ok st', w') ->
    truthy cur = true -> cur ∈ FetchInfo.visited_listing_urls st ->
    FetchInfo.sourced_state st ->
    FetchInfo.sourced_state st'
    /\ FetchInfo.visited_listing_urls st' = FetchInfo.visited_listing_urls st.
Proof.
  induction jobs as [|u jobs IH]; intros st w st' w' Hrun Hcur Hin Hst;
    cbn [FetchInfo.job_loop] in Hrun.
  - mstep. injection Hrun as <- <-. auto.
  - apply bind_inv in Hrun as [([c st1] & w1 & Hbody & Hrun) | (e & _ & [=])].
    pose proof (job_body_sourced _ _ _ _ _ _ _ _ Hbody Hcur Hin Hst) as Hst1.
    apply job_body_spec in Hbody as (evs & _ & _ & _ & Hstep).
    destruct (Hstep c st1 eq_refl) as (Hvl & _).
    destruct c.
    + destruct (IH _ _ _ _ Hrun Hcur) as [Hst' Hvl']; [rewrite Hvl; exact Hin|exact Hst1|].
      split; [exact Hst'|congruence].
    + mstep. injection Hrun as <- <-. auto.
Qed.

Lemma listing_body_sourced mj url st w x st' w' :
  FetchInfo.listing_body mj url st w = (Ok (x, st'), w') ->
  truthy url = true ->
  FetchInfo.sourced_state st -> FetchInfo.sourced_state st'.
Proof.
  unfold FetchInfo.listing_body. intros Hrun Hurl Hst.
  destruct (bool_decide (url ∈ FetchInfo.visited_listing_urls st)).
  { mstep. injection Hrun as <- <- <-. exact Hst. }
  apply bind_inv in Hrun as [([] & w1 & _ & Hrun) | (e & _ & [=])].
  apply bind_inv in Hrun as [(o & w2 & _ & Hrun) | (e & _ & [=])].
  assert (Hst1 : FetchInfo.sourced (FetchInfo.visited_listing_urls st ∪ {[url]})
                   (FetchInfo.visited_job_urls st) (FetchInfo.company_infos st)).
  { eapply sourced_mono; [|reflexivity|exact Hst]. apply union_subseteq_l. }
  destruct o as [html|].
  2:{ mstep. injection Hrun as <- <- <-. exact Hst1. }
  destruct (truthy html); cbn [negb] in Hrun.
  2:{ mstep. injection Hrun as <- <- <-. exact Hst1. }
  apply bind_inv in Hrun as [([] & w3 & _ & Hrun) | (e & _ & [=])].
  apply bind_inv in Hrun as [(job_links & w4 & _ & Hrun) | (e & _ & [=])].
  apply bind_inv in Hrun as [([] & w5 & _ & Hrun) | (e & _ & [=])].
  apply bind_inv in Hrun as [(next_url & w6 & _ & Hrun) | (e & _ & [=])].
  apply bind_inv in Hrun as [(st2 & w7 & Hloop & Hrun) | (e & _ & [=])].
  mstep. injection Hrun as <- <- <-.
  assert (Hin : url ∈ FetchInfo.visited_listing_urls st ∪ {[url]}).
  { apply elem_of_union. right. apply elem_of_singleton. reflexivity. }
  apply job_loop_sourced in Hloop as [Hst2 _]; [exact Hst2|exact Hurl|exact Hin|].
  unfold FetchInfo.sourced_state. cbn.
  apply sourced_register; auto.
Qed.

Lemma crawl_loop_sourced mx mj :
  forall fuel url st w why st' w',
    FetchInfo.crawl_loop fuel mx mj url st w = (Ok (why, st'), w') ->
    FetchInfo.sourced_state st -> FetchInfo.sourced_state st'.
Proof.
  induction fuel as [|fuel IH]; intros url st w why st' w' Hrun Hst;
    cbn [FetchInfo.crawl_loop] in Hrun;
    (destruct (otruthy url) eqn:Hurl; cbn [negb] in Hrun;
     [|mstep; injection Hrun as <- <- <-; exact Hst]);
    (destruct (FetchInfo.listing_count st <? mx); cbn [negb] in Hrun;
     [|mstep; injection Hrun as <- <- <-; exact Hst]).
  - mstep. injection Hrun as <- <- <-. exact Hst.
  - destruct url as [url|]; [|discriminate]. cbn [default otruthy] in Hrun, Hurl.
    apply bind_inv in Hrun as [([x st1] & w1 & Hbody & Hrun) | (e & _ & [=])].
    apply listing_body_sourced in Hbody; [|exact Hurl|exact Hst].
    destruct x as [why1|next].
    + mstep. injection Hrun as <- <- <-. exact Hbody.
    + eapply IH; eassumption.
Qed.

(** The registry of a run, with the pages of its trace. *)
Lemma crawl_run_sourced start mx mj w why st' w' :
  FetchInfo.crawl_run start mx mj w = (Ok (why, st'), w') ->
  exists evs,
    w' = evs ++ w
    /\ FetchInfo.sourced (list_to_set (FetchInfo.listing_pages evs))
         (list_to_set (FetchInfo.job_pages evs)) (FetchInfo.company_infos st').
Proof.
  intros Hrun. unfold FetchInfo.crawl_run in Hrun.
  pose proof (crawl_loop_sourced _ _ _ _ _ _ _ _ _ Hrun) as Hs.
  apply crawl_loop_spec in Hrun as (evs & -> & _ & _ & Hst).
  destruct (Hst why st' eq_refl) as [(_ & Hvl & Hvj & _) _].
  exists evs. split; [reflexivity|].
  eapply sourced_mono; [| |apply Hs].
  - intros x Hx. apply elem_of_list_to_set. apply Hvl in Hx as [Hx | Hx]; [|exact Hx].
    cbn in Hx. set_solver.
  - intros x Hx. apply elem_of_list_to_set. apply Hvj in Hx as [Hx | Hx]; [|exact Hx].
    cbn in Hx. set_solver.
  - split; [constructor|constructor].
Qed.

Lemma crawl_records start mx mj w infos w' :
  FetchInfo.crawl_baitoru_company_ids start mx mj w = (Ok infos, w') ->
  exists why st',
    FetchInfo.crawl_run start mx mj w = (Ok (why, st'), w')
    /\ infos = FetchInfo.values (FetchInfo.company_infos st').
Proof.
  intros Hcrawl. unfold FetchInfo.crawl_baitoru_company_ids in Hcrawl.
  apply bind_inv in Hcrawl as [([why st'] & w1 & Hr & Hret) | (e & _ & [=])].
  mstep. injection Hret as <- <-. eauto.
Qed.

(** X6. The records a crawl returns have distinct identifiers: one
    record per employer, however many pages showed its link. *)
Theorem crawl_records_distinct (start : pystr) (mx mj : Z) (w w' : World)
    (infos : list FetchInfo.info) :
  FetchInfo.crawl_baitoru_company_ids start mx mj w = (Ok infos, w') ->
  NoDup (List.map FetchInfo.company_id infos).
Proof.
  intros Hcrawl. apply crawl_records in Hcrawl as (why & st' & Hrun & ->).
  apply crawl_run_sourced in Hrun as (evs & _ & Hnd & Hall).
  unfold FetchInfo.values. rewrite List.map_map.
  erewrite (map_ext_Forall _ fst); [exact Hnd|].
  eapply Forall_impl; [exact Hall|]. intros kv (Hid & _). exact Hid.
Qed.

(** X7. Every record a crawl returns names pages of this run as its
    sources: its [source_listing_url] is not empty and is a listing page the
    run visited, and its [source_job_url] is empty or a job page the run
    visited. *)
Theorem crawl_records_sources (start : pystr) (mx mj : Z) (w w' : World)
    (infos : list FetchInfo.info) :
  FetchInfo.crawl_baitoru_company_ids start mx mj w = (Ok infos, w') ->
  exists evs,
    w' = evs ++ w
    /\ forall i, i ∈ infos ->
         FetchInfo.source_listing_url i <> []
         /\ FetchInfo.source_listing_url i ∈ FetchInfo.listing_pages evs
         /\ (FetchInfo.source_job_url i = []
             \/ FetchInfo.source_job_url i ∈ FetchInfo.job_pages evs).
Proof.
  intros Hcrawl. apply crawl_records in Hcrawl as (why & st' & Hrun & ->).
  apply crawl_run_sourced in Hrun as (evs & -> & _ & Hall).
  exists evs. split; [reflexivity|]. intros i Hi.
  unfold FetchInfo.values in Hi. apply list_elem_of_fmap in Hi as ([k i'] & -> & Hin).
  rewrite Forall_forall in Hall. destruct (Hall _ Hin) as (_ & Ht & Hl & Hj & _).
  cbn in *. split; [intros E; rewrite E in Ht; discriminate|].
  split; [apply elem_of_list_to_set in Hl; exact Hl|].
  destruct Hj as [Hj | Hj]; [left; exact Hj|right].
  apply elem_of_list_to_set in Hj. exact Hj.
Qed.

(** X8. The URL of every record a crawl returns names the employer of
    the record: it is the canonical URL built from [company_id], or it is a
    URL whose path, as [urlparse] gives it, holds [/cjlist{company_id}/]. *)
Theorem crawl_records_url_names_id (start : pystr) (mx mj : Z) (w w' : World)
    (infos : list FetchInfo.info) :
  FetchInfo.crawl_baitoru_company_ids start mx mj w = (Ok infos, w') ->
  forall i, i ∈ infos ->
    FetchInfo.company_url i = FetchInfo.cjlist_url (FetchInfo.company_id i)
    \/ exists parsed,
         urlparse (FetchInfo.company_url i) = Ok parsed
         /\ FetchInfo.cjlist_id (path parsed) = Some (FetchInfo.company_id i).
Proof.
  intros Hcrawl i Hi. apply crawl_records in Hcrawl as (why & st' & Hrun & ->).
  apply crawl_run_sourced in Hrun as (evs & _ & _ & Hall).
  unfold FetchInfo.values in Hi. apply list_elem_of_fmap in Hi as ([k i'] & -> & Hin).
  rewrite Forall_forall in Hall. destruct (Hall _ Hin) as (_ & _ & _ & _ & Hu).
  exact Hu.
Qed.

End SourcedFacts.

Lemma crawl_records_distinct_witness :
  NoDup (List.map FetchInfo.company_id Run.site_records).
Proof.
  apply (@crawl_records_distinct Run.site UrllibModel.cpython Run.parser
           Run.listing_url 3 50 [] Run.site_crawl.2 Run.site_records).
  vm_compute. reflexivity.
Defined.

Lemma crawl_records_sources_witness :
  exists evs,
    Run.site_crawl.2 = evs ++ []
    /\ forall i, i ∈ Run.site_records ->
         FetchInfo.source_listing_url i <> []
         /\ FetchInfo.source_listing_url i ∈ FetchInfo.listing_pages evs
         /\ (FetchInfo.source_job_url i = []
             \/ FetchInfo.source_job_url i ∈ FetchInfo.job_pages evs).
Proof.
  apply (@crawl_records_sources Run.site UrllibModel.cpython Run.parser
           Run.listing_url 3 50 [] Run.site_crawl.2 Run.site_records).
  vm_compute. reflexivity.
Defined.

Lemma crawl_records_url_names_id_witness :
  Forall
    (fun i =>
       FetchInfo.company_url i = FetchInfo.cjlist_url (FetchInfo.company_id i)
       \/ exists parsed,
            @urlparse UrllibModel.cpython (FetchInfo.company_url i) = Ok parsed
            /\ FetchInfo.cjlist_id (path parsed) = Some (FetchInfo.company_id i))
    Run.site_records.
Proof.
  apply Forall_forall.
  apply (@crawl_records_url_names_id Run.site UrllibModel.cpython Run.parser
           Run.listing_url 3 50 [] Run.site_crawl.2 Run.site_records).
  vm_compute. reflexivity.
Defined.

(** ** Merging twice *)

Lemma dict_set_set k v v' d :
  FetchInfo.dict_set k v (FetchInfo.dict_set k v' d) = FetchInfo.dict_set k v d.
Proof.
  induction d as [|[k0 v0] d IH]; simpl.
  - rewrite (proj2 (pystr_eqb_true k k) eq_refl). reflexivity.
  - destruct (pystr_eqb k0 k) eqn:E; simpl.
    + rewrite (proj2 (pystr_eqb_true k k) eq_refl). reflexivity.
    + rewrite E, IH. reflexivity.
Qed.

Lemma merge_closed_form cid u job_url listing_url d :
  FetchInfo.merge cid u job_url listing_url d
  = FetchInfo.dict_set cid
      (FetchInfo.merged u job_url listing_url
         (default {| FetchInfo.company_id := cid;
                     FetchInfo.company_url := u;
                     FetchInfo.source_job_url := job_url;
                     FetchInfo.source_listing_url := listing_url |}
            (FetchInfo.dict_get cid d)))
      d.
Proof.
  assert (Hfin : forall i d1,
            FetchInfo.dict_set cid
              (let i1 := {| FetchInfo.company_id := FetchInfo.company_id i;
                            FetchInfo.company_url := u;
                            FetchInfo.source_job_url := FetchInfo.source_job_url i;
                            FetchInfo.source_listing_url :=
                              FetchInfo.source_listing_url i |} in
               let i2 := if truthy (FetchInfo.source_job_url i1) then i1
                         else {| FetchInfo.company_id := FetchInfo.company_id i1;
                                 FetchInfo.company_url := FetchInfo.company_url i1;
                                 FetchInfo.source_job_url := job_url;
                                 FetchInfo.source_listing_url :=
                                   FetchInfo.source_listing_url i1 |} in
               if truthy (FetchInfo.source_listing_url i2) then i2
               else {| FetchInfo.company_id := FetchInfo.company_id i2;
                       FetchInfo.company_url := FetchInfo.company_url i2;
                       FetchInfo.source_job_url := FetchInfo.source_job_url i2;
                       FetchInfo.source_listing_url := listing_url |}) d1
            = FetchInfo.dict_set cid (FetchInfo.merged u job_url listing_url i) d1).
  { intros i d1. f_equal. unfold FetchInfo.merged. cbn zeta.
    cbn [FetchInfo.source_job_url FetchInfo.source_listing_url
         FetchInfo.company_id FetchInfo.company_url].
    destruct (truthy (FetchInfo.source_job_url i));
      cbn [FetchInfo.source_job_url FetchInfo.source_listing_url
           FetchInfo.company_id FetchInfo.company_url];
      destruct (truthy (FetchInfo.source_listing_url i)); reflexivity. }
  unfold FetchInfo.merge.
  destruct (FetchInfo.dict_get cid d) as [i|] eqn:Hget.
  - rewrite Hget. apply Hfin.
  - rewrite dict_get_set_eq, Hfin, dict_set_set. reflexivity.
Qed.

Lemma merged_merged u job_url listing_url i :
  FetchInfo.merged u job_url listing_url
    (FetchInfo.merged u job_url listing_url i)
  = FetchInfo.merged u job_url listing_url i.
Proof.
  unfold FetchInfo.merged. cbn. f_equal.
  - destruct (truthy (FetchInfo.source_job_url i)) eqn:E; [rewrite E; reflexivity|].
    destruct (truthy job_url); reflexivity.
  - destruct (truthy (FetchInfo.source_listing_url i)) eqn:E; [rewrite E; reflexivity|].
    destruct (truthy listing_url); reflexivity.
Qed.

(** X9. Merging the same observation twice is merging it once: the
    second [setdefault] finds the entry of the first, and the three updates
    write what is there already. *)
Theorem merge_idempotent (cid u job_url listing_url : pystr) (d : FetchInfo.dict) :
  FetchInfo.merge cid u job_url listing_url
    (FetchInfo.merge cid u job_url listing_url d)
  = FetchInfo.merge cid u job_url listing_url d.
Proof.
  rewrite (merge_closed_form cid u job_url listing_url d).
  rewrite merge_closed_form, dict_get_set_eq. cbn [default from_option].
  unfold id. rewrite merged_merged. apply dict_set_set.
Qed.

(** ** Where the pages of a run come from *)

Section ReachFacts.
Context `{Network} `{Urllib} `{HtmlParser}.

Lemma shows_ret {A} P (a : A) : FetchInfo.shows P (mret a).
Proof.
  intros w r w' Hrun. mstep. injection Hrun as <- <-. exists []. split; [reflexivity|constructor].
Qed.

Lemma shows_print P m :
  FetchInfo.job_page_of (EvPrint m) = None -> FetchInfo.shows P (print m).
Proof.
  intros Hm w r w' Hrun. unfold print, emit in Hrun. injection Hrun as <- <-.
  exists [EvPrint m]. split; [reflexivity|].
  unfold FetchInfo.job_pages. cbn [omap list_omap]. rewrite Hm. constructor.
Qed.

Lemma shows_print_job (P : pystr -> Prop) u :
  P u -> FetchInfo.shows P (print (InfoJobPage u)).
Proof.
  intros Hu w r w' Hrun. unfold print, emit in Hrun. injection Hrun as <- <-.
  exists [EvPrint (InfoJobPage u)]. split; [reflexivity|].
  constructor; [exact Hu|constructor].
Qed.

Lemma shows_pause P : FetchInfo.shows P pause.
Proof.
  intros w r w' Hrun. unfold pause, emit in Hrun. injection Hrun as <- <-.
  exists [EvPause]. split; [reflexivity|constructor].
Qed.

Lemma shows_lift {A} P (x : res A) : FetchInfo.shows P (lift x).
Proof.
  intros w r w' Hrun. unfold lift in Hrun. injection Hrun as <- <-.
  exists []. split; [reflexivity|constructor].
Qed.

Lemma shows_fetch P url : FetchInfo.shows P (FetchInfo.fetch_html url).
Proof.
  intros w r w' Hrun.
  destruct (fetch_html_quiet url w) as (o & evs & Hf & _ & Hj).
  rewrite Hf in Hrun. injection Hrun as <- <-.
  exists evs. split; [reflexivity|]. rewrite Hj. constructor.
Qed.

Lemma shows_bind {A B} P (m : M A) (k : A -> M B) :
  FetchInfo.shows P m ->
  (forall a w w1, m w = (Ok a, w1) -> FetchInfo.shows P (k a)) ->
  FetchInfo.shows P (m ≫= k).
Proof.
  intros Hm Hk w r w' Hrun.
  apply bind_inv in Hrun as [(a & w1 & Hrun1 & Hrun2) | (e & Hrun1 & ->)].
  - pose proof (Hk a w w1 Hrun1) as Hka.
    apply Hm in Hrun1 as (evs1 & -> & Hq1).
    apply Hka in Hrun2 as (evs2 & -> & Hq2).
    exists (evs2 ++ evs1). rewrite <- app_assoc. split; [reflexivity|].
    rewrite job_pages_app. apply Forall_app. auto.
  - apply Hm in Hrun1 as (evs1 & -> & Hq1). eauto.
Qed.

Lemma shows_job_body (P : pystr -> Prop) mj cur u st :
  P u -> FetchInfo.shows P (FetchInfo.job_body mj cur u st).
Proof.
  intros Hu. unfold FetchInfo.job_body.
  destruct (_ >=? _).
  { apply shows_bind; [apply shows_print; reflexivity|]. intros. apply shows_ret. }
  destruct (bool_decide _); [apply shows_ret|].
  apply shows_bind; [apply shows_print_job; exact Hu|]. intros _ _ _ _.
  apply shows_bind; [apply shows_fetch|]. intros [job_html|] _ _ _; [|apply shows_ret].
  destruct (negb (truthy job_html)); [apply shows_ret|].
  apply shows_bind.
  { destruct (bool_decide _); [apply shows_ret|apply shows_print; reflexivity]. }
  intros _ _ _ _. apply shows_bind; [apply shows_lift|]. intros company_url _ _ _.
  apply shows_bind.
  { destruct (otruthy company_url); [|apply shows_ret].
    apply shows_bind; [apply shows_lift|]. intros parsed _ _ _.
    destruct (FetchInfo.cjlist_id (path parsed)); apply shows_ret. }
  intros d2 _ _ _. apply shows_bind; [apply shows_pause|]. intros. apply shows_ret.
Qed.

Lemma shows_job_loop (P : pystr -> Prop) mj cur jobs :
  Forall P jobs -> forall st, FetchInfo.shows P (FetchInfo.job_loop mj cur jobs st).
Proof.
  induction jobs as [|u jobs IH]; intros Hjobs st; cbn [FetchInfo.job_loop].
  - apply shows_ret.
  - apply Forall_cons in Hjobs as [Hu Hjobs].
    apply shows_bind; [apply shows_job_body; exact Hu|].
    intros [[] st'] _ _ _; [apply IH; exact Hjobs|apply shows_ret].
Qed.

(** The job pages of one iteration of the crawl are job links of its listing
    page, which the iteration has shown. *)
Lemma listing_body_jobs mj url st w r w' :
  FetchInfo.listing_body mj url st w = (r, w') ->
  exists evs,
    w' = evs ++ w
    /\ forall j, j ∈ FetchInfo.job_pages evs ->
         url ∈ FetchInfo.listing_pages evs /\ FetchInfo.job_link_of url j.
Proof.
  unfold FetchInfo.listing_body. intros Hrun.
  destruct (bool_decide (url ∈ FetchInfo.visited_listing_urls st)).
  { mstep. injection Hrun as <- <-. exists [EvPrint (InfoAlreadyVisited url)].
    split; [reflexivity|]. intros j Hj. inversion Hj. }
  apply bind_inv in Hrun as [([] & w1 & Hp & Hrun) | (e & Hp & _)];
    [|discriminate Hp].
  unfold print, emit in Hp. injection Hp as <-.
  assert (Hrest : forall k : option pystr -> M ((FetchInfo.loop_exit + option pystr)
                                                * FetchInfo.crawl_state),
            (forall o w0 w2, FetchInfo.fetch_html url w0 = (Ok o, w2) ->
                             FetchInfo.shows (FetchInfo.job_link_of url) (k o)) ->
            FetchInfo.shows (FetchInfo.job_link_of url)
              (FetchInfo.fetch_html url ≫= k)).
  { intros k Hk. apply shows_bind; [apply shows_fetch|exact Hk]. }
  eapply Hrest in Hrun as (evs & -> & Hall).
  - exists (evs ++ [EvPrint (InfoListingPage (FetchInfo.listing_count st + 1) url)]).
    rewrite <- app_assoc. split; [reflexivity|]. intros j Hj.
    rewrite listing_pages_app, job_pages_app in *. split.
    + apply elem_of_app. right. left.
    + rewrite Forall_forall in Hall. apply Hall.
      apply elem_of_app in Hj as [Hj | Hj]; [exact Hj|inversion Hj].
  - intros [html|] w0 w2 Hf; [|apply shows_ret].
    destruct (negb (truthy html)); [apply shows_ret|].
    apply shows_bind.
    { destruct (bool_decide _); [apply shows_ret|apply shows_print; reflexivity]. }
    intros _ _ _ _. apply shows_bind; [apply shows_lift|]. intros links w3 w4 Hl.
    unfold lift in Hl. injection Hl as Hl _.
    apply shows_bind; [apply shows_print; reflexivity|]. intros _ _ _ _.
    apply shows_bind; [apply shows_lift|]. intros next _ _ _.
    apply shows_bind.
    { apply shows_job_loop. apply Forall_forall. intros j Hj.
      exists html, links, w0, w2. split; [exact Hf|]. split; [exact Hl|].
      apply elem_of_elements. exact Hj. }
    intros st2 _ _ _. apply shows_bind; [apply shows_pause|]. intros. apply shows_ret.
Qed.

Lemma crawl_loop_reach mx mj :
  forall fuel url st w r w',
    FetchInfo.crawl_loop fuel mx mj url st w = (r, w') ->
    exists evs,
      w' = evs ++ w
      /\ (forall u, u ∈ FetchInfo.listing_pages evs ->
            url = Some u
            \/ exists prev, prev ∈ FetchInfo.listing_pages evs
                            /\ FetchInfo.next_page_of prev u)
      /\ (forall j, j ∈ FetchInfo.job_pages evs ->
            exists l, l ∈ FetchInfo.listing_pages evs /\ FetchInfo.job_link_of l j).
Proof.
  assert (Hnil : forall (url : option pystr) (w : World),
            exists evs : World,
              w = evs ++ w
              /\ (forall u, u ∈ FetchInfo.listing_pages evs ->
                    url = Some u
                    \/ exists prev, prev ∈ FetchInfo.listing_pages evs
                                    /\ FetchInfo.next_page_of prev u)
              /\ (forall j, j ∈ FetchInfo.job_pages evs ->
                    exists l, l ∈ FetchInfo.listing_pages evs
                              /\ FetchInfo.job_link_of l j)).
  { intros url w. exists []. split; [reflexivity|].
    split; intros x Hx; inversion Hx. }
  induction fuel as [|fuel IH]; intros url st w r w' Hrun;
    cbn [FetchInfo.crawl_loop] in Hrun;
    (destruct (otruthy url) eqn:Hurl; cbn [negb] in Hrun;
     [|mstep; injection Hrun as <- <-; apply Hnil]);
    (destruct (FetchInfo.listing_count st <? mx); cbn [negb] in Hrun;
     [|mstep; injection Hrun as <- <-; apply Hnil]).
  - mstep. injection Hrun as <- <-. apply Hnil.
  - destruct url as [url|]; [|discriminate]. cbn [default] in Hrun.
    assert (Hone : forall r1 w1,
              FetchInfo.listing_body mj url st w = (r1, w1) ->
              exists evs1,
                w1 = evs1 ++ w
                /\ (forall u, u ∈ FetchInfo.listing_pages evs1 -> u = url)
                /\ (forall j, j ∈ FetchInfo.job_pages evs1 ->
                      url ∈ FetchInfo.listing_pages evs1
                      /\ FetchInfo.job_link_of url j)
                /\ forall next st1, r1 = Ok (inr next, st1) ->
                     FetchInfo.listing_pages evs1 = [url]
                     /\ exists html w2 w3,
                          FetchInfo.fetch_html url w2 = (Ok (Some html), w3)
                          /\ FetchInfo.find_next_page_url html url = Ok next).
    { intros r1 w1 Hbody. pose proof Hbody as Hbody'.
      apply listing_body_spec in Hbody as (evs1 & -> & Hl1 & _ & Hst1).
      apply listing_body_jobs in Hbody' as (evs1' & Heq & Hj1).
      apply app_inv_tail in Heq as <-.
      exists evs1. split; [reflexivity|]. split; [|split; [exact Hj1|]].
      - intros u Hu. destruct Hl1 as [Hl1 | [Hl1 _]]; rewrite Hl1 in Hu.
        + inversion Hu.
        + apply list_elem_of_singleton in Hu. exact Hu.
      - intros next st1 ->. destruct (Hst1 _ _ eq_refl) as [_ Hx]. exact Hx. }
    assert (Hlast : forall evs1,
              (forall u, u ∈ FetchInfo.listing_pages evs1 -> u = url) ->
              (forall j, j ∈ FetchInfo.job_pages evs1 ->
                 url ∈ FetchInfo.listing_pages evs1 /\ FetchInfo.job_link_of url j) ->
              (forall u, u ∈ FetchInfo.listing_pages evs1 ->
                 Some url = Some u
                 \/ exists prev, prev ∈ FetchInfo.listing_pages evs1
                                 /\ FetchInfo.next_page_of prev u)
              /\ (forall j, j ∈ FetchInfo.job_pages evs1 ->
                    exists l, l ∈ FetchInfo.listing_pages evs1
                              /\ FetchInfo.job_link_of l j)).
    { intros evs1 Hl Hj. split.
      - intros u Hu. left. rewrite (Hl u Hu). reflexivity.
      - intros j Hin. exists url. apply Hj. exact Hin. }
    apply bind_inv in Hrun as [([x st1] & w1 & Hbody & Hrun) | (e & Hbody & ->)];
      apply Hone in Hbody as (evs1 & -> & Hl1 & Hj1 & Hnext).
    2:{ exists evs1. split; [reflexivity|]. apply Hlast; assumption. }
    destruct x as [why|next].
    { mstep. injection Hrun as <- <-. exists evs1. split; [reflexivity|].
      apply Hlast; assumption. }
    destruct (Hnext next st1 eq_refl) as (Hpages & html & w2 & w3 & Hf & Hfind).
    apply IH in Hrun as (evs2 & -> & Hl2 & Hj2).
    exists (evs2 ++ evs1). rewrite <- app_assoc. split; [reflexivity|].
    split.
    + intros u Hu. rewrite listing_pages_app in *.
      apply elem_of_app in Hu as [Hu | Hu].
      * right. destruct (Hl2 u Hu) as [-> | (prev & Hprev & Hnp)].
        -- exists url. split.
           ++ apply elem_of_app. right. rewrite Hpages. left.
           ++ exists html, w2, w3. auto.
        -- exists prev. split; [apply elem_of_app; left; exact Hprev|exact Hnp].
      * left. rewrite (Hl1 u Hu). reflexivity.
    + intros j Hj. rewrite job_pages_app in Hj. rewrite listing_pages_app.
      apply elem_of_app in Hj as [Hj | Hj].
      * destruct (Hj2 j Hj) as (l & Hl & Hjl). exists l.
        split; [apply elem_of_app; left; exact Hl|exact Hjl].
      * exists url. destruct (Hj1 j Hj) as [Hl Hjl].
        split; [apply elem_of_app; right; exact Hl|exact Hjl].
Qed.

(** X10. A crawl only requests pages it was led to: every GET of a run
    is for the seed URL, for the next-page link of a listing page the run
    visited, or for a job link extracted from a listing page the run
    visited. *)
Theorem crawl_requests_are_led (start : pystr) (mx mj : Z) (w : World) :
  exists r evs,
    FetchInfo.crawl_run start mx mj w = (r, evs ++ w)
    /\ forall u, u ∈ FetchInfo.got evs ->
         u = start
         \/ (exists prev, prev ∈ FetchInfo.listing_pages evs
                          /\ FetchInfo.next_page_of prev u)
         \/ (exists l, l ∈ FetchInfo.listing_pages evs
                       /\ FetchInfo.job_link_of l u).
Proof.
  destruct (FetchInfo.crawl_run start mx mj w) as [r w'] eqn:Hrun.
  unfold FetchInfo.crawl_run in Hrun. pose proof Hrun as Hrun'.
  apply crawl_loop_reach in Hrun as (evs & -> & Hl & Hj).
  exists r, evs. split; [reflexivity|]. intros u Hu.
  destruct (accounted_crawl_loop mx mj _ _ _ _ _ _ Hrun') as (evs' & Heq & Hacc & _).
  apply app_inv_tail in Heq as <-.
  destruct (Hacc u Hu) as [Hin | Hin].
  - destruct (Hl u Hin) as [[= ->] | Hprev]; [left; reflexivity|right; left; exact Hprev].
  - right. right. apply Hj. exact Hin.
Qed.

End ReachFacts.

(** ** The next-page link *)

Section NextFacts.
Context `{Urllib} `{HtmlParser}.

Lemma find_a_spec f soup a :
  FetchInfo.find_a f soup = Some a ->
  a ∈ Soup.descendants soup /\ Soup.name_is (py "a") a = true /\ f a = true.
Proof.
  unfold FetchInfo.find_a. intros Hh.
  assert (Hin : a ∈ List.filter (fun a => Soup.name_is (py "a") a && f a)
                      (Soup.descendants soup)).
  { destruct (List.filter _ _) as [|x l]; [discriminate|]. injection Hh as ->. left. }
  rewrite list_elem_of_In, filter_In, <- list_elem_of_In, andb_true_iff in Hin.
  tauto.
Qed.

Lemma find_a_none f soup :
  FetchInfo.find_a f soup = None ->
  forall a, a ∈ Soup.descendants soup -> Soup.name_is (py "a") a = true ->
            f a = false.
Proof.
  unfold FetchInfo.find_a. intros Hh a Hin Hname.
  destruct (f a) eqn:Hf; [|reflexivity]. exfalso.
  assert (Hx : a ∈ List.filter (fun a => Soup.name_is (py "a") a && f a)
                     (Soup.descendants soup)).
  { rewrite list_elem_of_In, filter_In, <- list_elem_of_In, Hname, Hf. auto. }
  destruct (List.filter _ _) as [|x l]; [inversion Hx|discriminate].
Qed.

Lemma next_by_text_sound soup base u :
  forall texts,
    (forall t, t ∈ texts -> t ∈ FetchInfo.candidates) ->
    FetchInfo.next_by_text soup base texts = Ok (Some u) ->
    exists a,
      a ∈ Soup.descendants soup /\ Soup.name_is (py "a") a = true
      /\ FetchInfo.marks_next a
      /\ FetchInfo.is_valid_href (Soup.href a) = true
      /\ urljoin base (Soup.href a) = Ok u.
Proof.
  induction texts as [|t texts IH]; intros Hsub Hrun; simpl in Hrun; [discriminate|].
  assert (Hrest : forall t', t' ∈ texts -> t' ∈ FetchInfo.candidates).
  { intros t' Ht'. apply Hsub. right. exact Ht'. }
  destruct (FetchInfo.find_a (Soup.string_contains t) soup) as [a|] eqn:Hfind;
    [|auto].
  destruct (FetchInfo.is_valid_href (FetchInfo.href_or_empty a)) eqn:Hvalid;
    [|auto].
  apply find_a_spec in Hfind as (Hin & Hname & Hstr).
  exists a. split; [exact Hin|]. split; [exact Hname|].
  split; [right; exists t; split; [apply Hsub; left|exact Hstr]|].
  split; [exact Hvalid|].
  destruct (urljoin base (Soup.href a)) as [x|e]; [|discriminate].
  cbn in Hrun. injection Hrun as ->. reflexivity.
Qed.

Lemma next_by_text_none soup base :
  forall texts,
    (forall a t, a ∈ Soup.descendants soup -> Soup.name_is (py "a") a = true ->
                 t ∈ texts -> Soup.string_contains t a = true ->
                 FetchInfo.is_valid_href (Soup.href a) = false) ->
    FetchInfo.next_by_text soup base texts = Ok None.
Proof.
  induction texts as [|t texts IH]; intros Hall; simpl; [reflexivity|].
  assert (Hrest : FetchInfo.next_by_text soup base texts = Ok None).
  { apply IH. intros a t' Hin Hname Ht'. apply Hall; [exact Hin|exact Hname|].
    right. exact Ht'. }
  destruct (FetchInfo.find_a (Soup.string_contains t) soup) as [a|] eqn:Hfind;
    [|exact Hrest].
  apply find_a_spec in Hfind as (Hin & Hname & Hstr).
  change (FetchInfo.href_or_empty a) with (Soup.href a).
  rewrite (Hall a t Hin Hname (list_elem_of_here _ _) Hstr). exact Hrest.
Qed.

(** X11. The next-page URL comes from an [<a>] tag of the page that has
    [rel=next] or whose string holds one of the five texts, and whose href is
    not empty and does not start with [javascript:] once it is stripped and
    lowered; the URL is that href joined to the base.  When every such anchor
    of the page has an empty or a [javascript:] href, the result is [None]. *)
Theorem find_next_page_url_from_valid_anchor (html base_url : pystr) :
  (forall u,
     FetchInfo.find_next_page_url html base_url = Ok (Some u) ->
     exists a,
       a ∈ Soup.descendants (lxml html) /\ Soup.name_is (py "a") a = true
       /\ FetchInfo.marks_next a
       /\ Soup.href a <> []
       /\ starts_with (py "javascript:")
            (lower (FetchInfo.strip (Soup.href a))) = false
       /\ urljoin base_url (Soup.href a) = Ok u)
  /\ ((forall a, a ∈ Soup.descendants (lxml html) ->
                 Soup.name_is (py "a") a = true -> FetchInfo.marks_next a ->
                 FetchInfo.is_valid_href (Soup.href a) = false) ->
      FetchInfo.find_next_page_url html base_url = Ok None).
Proof.
  assert (Hvalid : forall a, FetchInfo.is_valid_href (Soup.href a) = true ->
            Soup.href a <> []
            /\ starts_with (py "javascript:")
                 (lower (FetchInfo.strip (Soup.href a))) = false).
  { intros a. unfold FetchInfo.is_valid_href.
    rewrite andb_true_iff, negb_true_iff. intros [Ht Hjs].
    split; [intros E; rewrite E in Ht; discriminate|exact Hjs]. }
  split.
  - intros u Hrun.
    assert (Hex : exists a,
              a ∈ Soup.descendants (lxml html) /\ Soup.name_is (py "a") a = true
              /\ FetchInfo.marks_next a
              /\ FetchInfo.is_valid_href (Soup.href a) = true
              /\ urljoin base_url (Soup.href a) = Ok u).
    { unfold FetchInfo.find_next_page_url in Hrun. cbn zeta in Hrun.
      destruct (FetchInfo.find_a (Soup.has_token (py "rel") (py "next")) (lxml html))
        as [a|] eqn:Hfind.
      - destruct (FetchInfo.is_valid_href (FetchInfo.href_or_empty a)) eqn:Hv.
        + apply find_a_spec in Hfind as (Hin & Hname & Hrel).
          exists a. split; [exact Hin|]. split; [exact Hname|].
          split; [left; exact Hrel|]. split; [exact Hv|].
          destruct (urljoin base_url (Soup.href a)) as [x|e]; [|discriminate].
          cbn in Hrun. injection Hrun as ->. reflexivity.
        + eapply next_by_text_sound; [|exact Hrun]. auto.
      - eapply next_by_text_sound; [|exact Hrun]. auto. }
    destruct Hex as (a & Hin & Hname & Hmark & Hv & Hjoin).
    exists a. destruct (Hvalid a Hv). auto 8.
  - intros Hall. unfold FetchInfo.find_next_page_url. cbn zeta.
    assert (Htext : FetchInfo.next_by_text (lxml html) base_url FetchInfo.candidates
                    = Ok None).
    { apply next_by_text_none. intros a t Hin Hname Ht Hstr.
      apply Hall; [exact Hin|exact Hname|]. right. exists t. auto. }
    destruct (FetchInfo.find_a (Soup.has_token (py "rel") (py "next")) (lxml html))
      as [a|] eqn:Hfind; [|exact Htext].
    apply find_a_spec in Hfind as (Hin & Hname & Hrel).
    change (FetchInfo.href_or_empty a) with (Soup.href a).
    rewrite (Hall a Hin Hname (or_introl Hrel)). exact Htext.
Qed.

End NextFacts.

(** A [rel=next] link that runs a script is passed over for the link with
    the text 次へ. *)
Example find_next_page_url_skips_script :
  @FetchInfo.find_next_page_url UrllibModel.cpython Run.next_parser []
    Run.listing_url
  = Ok (Some (py "https://www.baitoru.com/kanto/jlist/page2/")).
Proof. vm_compute. reflexivity. Qed.

(** ** The canonical URLs, sorted *)

Lemma insert_by_key_perm {A} (kx : Z * A) l :
  Builtins.insert_by_key kx l ≡ₚ kx :: l.
Proof.
  induction l as [|ky l IH]; simpl; [reflexivity|].
  destruct (kx.1 <=? ky.1); [reflexivity|].
  rewrite IH. apply Permutation_swap.
Qed.

Lemma sort_perm {A} (l : list (Z * A)) :
  List.fold_right Builtins.insert_by_key [] l ≡ₚ l.
Proof.
  induction l as [|kx l IH]; simpl; [reflexivity|].
  rewrite insert_by_key_perm, IH. reflexivity.
Qed.

Lemma insert_by_key_sorted {A} (kx : Z * A) l :
  FetchInfo.ascending (List.map fst l) ->
  FetchInfo.ascending (List.map fst (Builtins.insert_by_key kx l)).
Proof.
  induction l as [|ky l IH]; simpl.
  - intros _. split; [constructor|exact I].
  - intros [Hky Hl]. destruct (kx.1 <=? ky.1) eqn:E.
    + apply Z.leb_le in E. cbn. split; [|split; assumption].
      constructor; [exact E|]. eapply Forall_impl; [exact Hky|].
      intros kz Hz. cbn in *. lia.
    + apply Z.leb_gt in E. cbn. split; [|apply IH; exact Hl].
      rewrite insert_by_key_perm. cbn. constructor; [lia|exact Hky].
Qed.

Lemma sort_sorted {A} (l : list (Z * A)) :
  FetchInfo.ascending (List.map fst (List.fold_right Builtins.insert_by_key [] l)).
Proof.
  induction l as [|kx l IH]; simpl; [exact I|].
  apply insert_by_key_sorted. exact IH.
Qed.

(** The sort is stable: the items of one key keep their order. *)
Lemma insert_by_key_stable {A} (kx : Z * A) z l :
  List.filter (fun p => p.1 =? z) (Builtins.insert_by_key kx l)
  = List.filter (fun p => p.1 =? z) (kx :: l).
Proof.
  induction l as [|ky l IH]; simpl; [reflexivity|].
  destruct (kx.1 <=? ky.1) eqn:E; [reflexivity|].
  apply Z.leb_gt in E. simpl. simpl in IH. rewrite IH.
  destruct (kx.1 =? z) eqn:Ex; [|reflexivity].
  apply Z.eqb_eq in Ex. replace (ky.1 =? z) with false; [reflexivity|].
  symmetry. apply Z.eqb_neq. lia.
Qed.

Lemma sort_stable {A} z (l : list (Z * A)) :
  List.filter (fun p => p.1 =? z) (List.fold_right Builtins.insert_by_key [] l)
  = List.filter (fun p => p.1 =? z) l.
Proof.
  induction l as [|kx l IH]; simpl; [reflexivity|].
  rewrite insert_by_key_stable. simpl. rewrite IH. reflexivity.
Qed.

Lemma decorate_ok {A} (key : A -> res Z) l :
  forall dl, Builtins.decorate key l = Ok dl ->
             List.map snd dl = l /\ Forall (fun p => key p.2 = Ok p.1) dl.
Proof.
  induction l as [|x l IH]; intros dl Hd; simpl in Hd.
  - injection Hd as <-. split; [reflexivity|constructor].
  - destruct (key x) as [k|e] eqn:Hk; [|discriminate]. cbn in Hd.
    destruct (Builtins.decorate key l) as [rest|e]; [|discriminate]. cbn in Hd.
    injection Hd as <-. destruct (IH rest eq_refl) as [Hm Hall].
    split; [cbn; rewrite Hm; reflexivity|]. constructor; [exact Hk|exact Hall].
Qed.

Lemma decorate_raise {A} (key : A -> res Z) l e :
  Builtins.decorate key l = Raise e -> exists x, x ∈ l /\ key x = Raise e.
Proof.
  induction l as [|x l IH]; intros Hd; simpl in Hd; [discriminate|].
  destruct (key x) as [k|e'] eqn:Hk.
  - cbn in Hd. destruct (Builtins.decorate key l) as [rest|e'']; [discriminate|].
    cbn in Hd. injection Hd as ->. destruct (IH eq_refl) as (y & Hy & Hky).
    exists y. split; [right; exact Hy|exact Hky].
  - cbn in Hd. injection Hd as ->. exists x. split; [left|exact Hk].
Qed.

Lemma decorate_total {A} (key : A -> res Z) l :
  Forall (fun x => exists z, key x = Ok z) l ->
  exists dl, Builtins.decorate key l = Ok dl.
Proof.
  induction 1 as [|x l [z Hz] _ [dl IH]]; simpl; [eauto|].
  rewrite Hz. cbn. rewrite IH. cbn. eauto.
Qed.

Lemma int_raises_value_error s e : Builtins.int s = Raise e -> e = ValueError.
Proof.
  unfold Builtins.int. cbn zeta.
  destruct (match Builtins.skip_spaces (Builtins.to_ascii s) with
            | [] => (1, Builtins.skip_spaces (Builtins.to_ascii s))
            | c :: t => _
            end) as [sign s2].
  destruct (starts_with [95%N] s2); [intros [= <-]; reflexivity|].
  destruct (Builtins.scan false s2 []) as [[digits rest]|]; [|intros [= <-]; reflexivity].
  destruct (_ <? _)%nat; [intros [= <-]; reflexivity|].
  destruct (bool_decide _); [intros [= <-]; reflexivity|].
  destruct (truthy _); [intros [= <-]; reflexivity|discriminate].
Qed.

(** X12. The URLs [build_company_urls_from_infos] returns are the
    canonical URLs of the records it is given, each record once, in the
    FetchInfo.ascending order of the integer value of their identifiers; records whose
    identifiers have the same value (as 7 and 007 do) stay in the order they
    came in.  The only exception it raises is the [ValueError] of [int] on
    the identifier of one of the records. *)
Theorem build_company_urls_sorted (company_infos : list FetchInfo.info) :
  match FetchInfo.build_company_urls_from_infos company_infos with
  | Ok urls =>
      exists infos keys,
        urls = List.map (fun i => FetchInfo.cjlist_url (FetchInfo.company_id i)) infos
        /\ infos ≡ₚ company_infos
        /\ Forall2 (fun i k => Builtins.int (FetchInfo.company_id i) = Ok k)
             infos keys
        /\ FetchInfo.ascending keys
        /\ forall z, List.filter (fun i => bool_decide (FetchInfo.id_key i = Some z)) infos
                     = List.filter (fun i => bool_decide (FetchInfo.id_key i = Some z))
                         company_infos
  | Raise e =>
      e = ValueError
      /\ exists i, i ∈ company_infos
                   /\ Builtins.int (FetchInfo.company_id i) = Raise ValueError
  end.
Proof.
  unfold FetchInfo.build_company_urls_from_infos, Builtins.sorted.
  destruct (Builtins.decorate (fun x => Builtins.int (FetchInfo.company_id x))
              company_infos) as [dl|e] eqn:Hd; cbn.
  - apply decorate_ok in Hd as [Hmap Hkeys].
    set (sl := List.fold_right Builtins.insert_by_key [] dl).
    assert (Hperm : sl ≡ₚ dl) by apply sort_perm.
    assert (Hint : Forall (fun p => Builtins.int (FetchInfo.company_id p.2) = Ok p.1) sl)
      by (rewrite Hperm; exact Hkeys).
    assert (Hkey : forall l : list (Z * FetchInfo.info),
              Forall (fun p => Builtins.int (FetchInfo.company_id p.2) = Ok p.1) l ->
              Forall (fun p => FetchInfo.id_key p.2 = Some p.1) l).
    { intros l Hl. eapply Forall_impl; [exact Hl|].
      intros p Hp. unfold FetchInfo.id_key. cbn in Hp. rewrite Hp. reflexivity. }
    exists (List.map snd sl), (List.map fst sl). split; [reflexivity|].
    split; [rewrite <- Hmap; apply Permutation_map; exact Hperm|].
    split; [|split; [apply sort_sorted|]].
    + clear -Hint. induction Hint as [|p l Hp _ IH]; cbn; constructor; assumption.
    + intros z. rewrite <- Hmap.
      assert (Hf : forall l : list (Z * FetchInfo.info),
                Forall (fun p => FetchInfo.id_key p.2 = Some p.1) l ->
                List.filter (fun i => bool_decide (FetchInfo.id_key i = Some z)) (List.map snd l)
                = List.map snd (List.filter (fun p => p.1 =? z) l)).
      { induction 1 as [|p l Hp _ IH]; cbn; [reflexivity|].
        rewrite Hp. destruct (p.1 =? z) eqn:E.
        - apply Z.eqb_eq in E. subst z.
          rewrite bool_decide_eq_true_2 by reflexivity. cbn. rewrite IH. reflexivity.
        - apply Z.eqb_neq in E.
          rewrite bool_decide_eq_false_2 by congruence. exact IH. }
      rewrite (Hf sl (Hkey _ Hint)), (Hf dl (Hkey _ Hkeys)). unfold sl.
      rewrite sort_stable. reflexivity.
  - apply decorate_raise in Hd as (i & Hi & Hint).
    pose proof (int_raises_value_error _ _ Hint) as ->. eauto.
Qed.

(** ** [int] on identifiers *)

Lemma digit_cases c :
  Re.digit c = true ->
  (exists lo, lo ∈ Re.decimal_runs /\ (lo <= c <= lo + 9)%N)
  \/ (120782 <= c <= 120831)%N.
Proof.
  unfold Re.digit. rewrite orb_true_iff, existsb_exists.
  intros [(lo & Hlo & Hr) | Hr]; unfold Re.in_range in Hr;
    apply andb_true_iff in Hr as [H1 H2];
    apply N.leb_le in H1; apply N.leb_le in H2.
  - left. exists lo. rewrite list_elem_of_In. auto.
  - right. auto.
Qed.

Lemma decimal_runs_low lo :
  lo ∈ Re.decimal_runs -> lo = 48%N \/ (1632 <= lo)%N.
Proof.
  intros Hlo.
  assert (Hall : forallb (fun lo => (lo =? 48) || (1632 <=? lo))%N Re.decimal_runs
                 = true) by (vm_compute; reflexivity).
  rewrite forallb_forall in Hall. apply list_elem_of_In in Hlo.
  apply Hall in Hlo. apply orb_true_iff in Hlo as [E | E].
  - left. apply N.eqb_eq. exact E.
  - right. apply N.leb_le. exact E.
Qed.

Lemma digit_ascii c :
  Re.digit c = true -> (c < 127)%N -> Re.ascii_digit c = true.
Proof.
  intros Hd Hc. unfold Re.ascii_digit, Re.in_range.
  apply digit_cases in Hd as [(lo & Hlo & Hr) | Hr]; [|lia].
  destruct (decimal_runs_low lo Hlo) as [-> | Hge]; [|lia].
  apply andb_true_iff. split; apply N.leb_le; lia.
Qed.

Lemma space_points c :
  Soup.isspace c = true ->
  (c <= 160)%N \/ c = 5760%N \/ (8192 <= c <= 8287)%N \/ c = 12288%N.
Proof.
  unfold Soup.isspace, Re.in_range.
  rewrite !orb_true_iff, !andb_true_iff, !N.eqb_eq, !N.leb_le. lia.
Qed.

Lemma decimal_runs_no_space lo :
  lo ∈ List.tl Re.decimal_runs ->
  (160 < lo)%N /\ ((lo + 9 < 5760)%N \/ (5760 < lo)%N)
  /\ ((lo + 9 < 8192)%N \/ (8287 < lo)%N)
  /\ ((lo + 9 < 12288)%N \/ (12288 < lo)%N).
Proof.
  intros Hlo.
  assert (Hall : forallb (fun lo => (160 <? lo)
                                    && ((lo + 9 <? 5760) || (5760 <? lo))
                                    && ((lo + 9 <? 8192) || (8287 <? lo))
                                    && ((lo + 9 <? 12288) || (12288 <? lo)))%N
                   (List.tl Re.decimal_runs) = true) by (vm_compute; reflexivity).
  rewrite forallb_forall in Hall. apply list_elem_of_In in Hlo.
  apply Hall in Hlo.
  rewrite !andb_true_iff, !orb_true_iff, !N.ltb_lt in Hlo. tauto.
Qed.

Lemma digit_not_space c :
  Re.digit c = true -> (127 <= c)%N -> Soup.isspace c = false.
Proof.
  intros Hd Hc. destruct (Soup.isspace c) eqn:Hs; [|reflexivity]. exfalso.
  apply space_points in Hs.
  apply digit_cases in Hd as [(lo & Hlo & Hr) | Hr]; [|lia].
  unfold Re.decimal_runs in Hlo. apply elem_of_cons in Hlo as [-> | Hlo]; [lia|].
  pose proof (decimal_runs_no_space lo Hlo) as Hno. lia.
Qed.

Lemma digit_decimal_value c :
  Re.digit c = true ->
  exists d, Builtins.decimal_value c = Some d /\ (d <= 9)%N.
Proof.
  intros Hd. unfold Builtins.decimal_value.
  destruct (List.find _ Re.decimal_runs) as [lo|] eqn:Hfind.
  - apply find_some in Hfind as [_ Hr]. unfold Re.in_range in Hr.
    apply andb_true_iff in Hr as [H1 H2].
    apply N.leb_le in H1. apply N.leb_le in H2.
    exists (c - lo)%N. split; [reflexivity|lia].
  - unfold Re.digit in Hd. apply orb_true_iff in Hd as [Hd | Hd].
    + apply existsb_exists in Hd as (lo & Hlo & Hr).
      rewrite (find_none _ _ Hfind lo Hlo) in Hr. discriminate.
    + rewrite Hd. exists ((c - 120782) mod 10)%N. split; [reflexivity|].
      pose proof (N.mod_lt (c - 120782) 10). lia.
Qed.

Lemma to_ascii_digits s :
  Forall (fun c => Re.digit c = true) s ->
  Forall (fun c => Re.ascii_digit c = true) (Builtins.to_ascii s)
  /\ length (Builtins.to_ascii s) = length s.
Proof.
  induction 1 as [|c s Hc _ [IH1 IH2]]; simpl; [split; [constructor|reflexivity]|].
  destruct (c <? 127)%N eqn:E.
  - apply N.ltb_lt in E. split; [|simpl; congruence].
    constructor; [apply digit_ascii; assumption|exact IH1].
  - apply N.ltb_ge in E. rewrite (digit_not_space c Hc E).
    destruct (digit_decimal_value c Hc) as (d & -> & Hd).
    split; [|simpl; congruence]. constructor; [|exact IH1].
    unfold Re.ascii_digit, Re.in_range. apply andb_true_iff.
    split; apply N.leb_le; lia.
Qed.

Lemma scan_digits s :
  Forall (fun c => Re.ascii_digit c = true) s ->
  forall acc, exists ds,
    Builtins.scan false s acc = Some (acc ++ ds, []) /\ length ds = length s
    /\ Forall (fun d => 0 <= d) ds.
Proof.
  induction 1 as [|c s Hc _ IH]; intros acc; simpl.
  - exists []. rewrite app_nil_r. auto.
  - rewrite Hc. destruct (IH (acc ++ [Z.of_N c - 48])) as (ds & Hscan & Hlen & Hpos).
    exists ((Z.of_N c - 48) :: ds). rewrite Hscan, <- app_assoc.
    split; [reflexivity|]. split; [simpl; congruence|].
    constructor; [|exact Hpos].
    unfold Re.ascii_digit, Re.in_range in Hc. apply andb_true_iff in Hc as [H1 _].
    apply N.leb_le in H1. lia.
Qed.

Lemma decimal_nonneg ds :
  Forall (fun d => 0 <= d) ds -> 0 <= Builtins.decimal ds.
Proof.
  unfold Builtins.decimal.
  assert (Hgen : forall a, 0 <= a -> Forall (fun d => 0 <= d) ds ->
                           0 <= List.fold_left (fun a d => 10 * a + d) ds a).
  { induction ds as [|d ds IH]; intros a Ha Hds; simpl; [exact Ha|].
    apply Forall_cons in Hds as [Hd Hds]. apply IH; [lia|exact Hds]. }
  apply Hgen. lia.
Qed.

(** [int] on an identifier: its value when it has at most 4300 digits, a
    [ValueError] when it has more. *)
Lemma int_of_id cid :
  FetchInfo.is_id cid ->
  if (Builtins.max_str_digits <? length cid)%nat
  then Builtins.int cid = Raise ValueError
  else exists z, Builtins.int cid = Ok z /\ 0 <= z.
Proof.
  intros [Hne Hdig].
  destruct (to_ascii_digits cid Hdig) as [Hascii Hlen].
  unfold Builtins.int. cbn zeta.
  destruct (Builtins.to_ascii cid) as [|c t] eqn:Hto.
  { destruct cid; [contradiction|discriminate Hlen]. }
  pose proof Hascii as Hall. apply Forall_cons in Hascii as [Hc Ht].
  assert (Hrange : (48 <= c <= 57)%N).
  { unfold Re.ascii_digit, Re.in_range in Hc. apply andb_true_iff in Hc as [H1 H2].
    apply N.leb_le in H1. apply N.leb_le in H2. lia. }
  assert (Hsp : Builtins.c_isspace c = false).
  { unfold Builtins.c_isspace, Re.in_range.
    rewrite orb_false_iff, andb_false_iff, N.eqb_neq, !N.leb_gt. lia. }
  cbn [Builtins.skip_spaces]. rewrite Hsp.
  replace (c =? 43)%N with false by (symmetry; apply N.eqb_neq; lia).
  replace (c =? 45)%N with false by (symmetry; apply N.eqb_neq; lia).
  cbn [starts_with].
  replace (95 =? c)%N with false by (symmetry; apply N.eqb_neq; lia).
  cbn [andb].
  destruct (scan_digits (c :: t) Hall []) as (ds & Hscan & Hds & Hpos).
  assert (Hlen' : length ds = length cid)
    by (etransitivity; [exact Hds|exact Hlen]).
  rewrite Hscan. cbn [app]. rewrite Hlen'.
  destruct (Builtins.max_str_digits <? length cid)%nat; [reflexivity|].
  rewrite bool_decide_eq_false_2 by (intros ->; discriminate Hds).
  cbn [Builtins.skip_spaces truthy].
  exists (1 * Builtins.decimal ds). split; [reflexivity|].
  pose proof (decimal_nonneg ds Hpos). lia.
Qed.

(** X13. For records whose identifiers are strings of decimal digits, as
    the records of a crawl are, [build_company_urls_from_infos] returns one
    URL per record when every identifier has at most 4300 digits, the limit
    of [int] on decimal literals, and raises [ValueError] when an identifier
    is longer. *)
Theorem build_company_urls_of_ids (company_infos : list FetchInfo.info) :
  Forall (fun i => FetchInfo.is_id (FetchInfo.company_id i)) company_infos ->
  if forallb (fun i => (length (FetchInfo.company_id i) <=? 4300)%nat) company_infos
  then exists urls,
         FetchInfo.build_company_urls_from_infos company_infos = Ok urls
         /\ length urls = length company_infos
  else FetchInfo.build_company_urls_from_infos company_infos = Raise ValueError.
Proof.
  intros Hids. unfold FetchInfo.build_company_urls_from_infos, Builtins.sorted.
  destruct (forallb _ company_infos) eqn:Hall.
  - rewrite forallb_forall in Hall.
    destruct (decorate_total (fun x => Builtins.int (FetchInfo.company_id x))
                company_infos) as [dl Hd].
    { rewrite Forall_forall in Hids |- *. intros i Hi.
      pose proof (int_of_id _ (Hids i Hi)) as Hint.
      apply list_elem_of_In in Hi. apply Hall in Hi. apply Nat.leb_le in Hi.
      replace (Builtins.max_str_digits <? length (FetchInfo.company_id i))%nat
        with false in Hint
        by (symmetry; apply Nat.ltb_ge; exact Hi).
      destruct Hint as (z & Hz & _). eauto. }
    rewrite Hd. cbn. eexists. split; [reflexivity|].
    rewrite !length_map. rewrite (Permutation_length (sort_perm dl)).
    apply decorate_ok in Hd as [Hmap _]. rewrite <- Hmap, length_map. reflexivity.
  - destruct (Builtins.decorate _ company_infos) as [dl|e] eqn:Hd; cbn.
    + exfalso. apply decorate_ok in Hd as [Hmap Hkeys].
      apply not_true_iff_false in Hall. apply Hall. apply forallb_forall.
      intros i Hi. rewrite <- Hmap in Hi. apply in_map_iff in Hi as (p & <- & Hp).
      apply list_elem_of_In in Hp.
      pose proof (proj1 (Forall_forall _ _) Hkeys p Hp) as Hk. cbn in Hk.
      assert (Hin : p.2 ∈ company_infos).
      { rewrite <- Hmap. apply list_elem_of_fmap. exists p. auto. }
      pose proof (int_of_id _ (proj1 (Forall_forall _ _) Hids _ Hin)) as Hint.
      destruct (Builtins.max_str_digits <? length (FetchInfo.company_id p.2))%nat
        eqn:E; [rewrite Hk in Hint; discriminate|].
      apply Nat.ltb_ge in E. apply Nat.leb_le. exact E.
    + apply decorate_raise in Hd as (i & _ & Hint).
      rewrite (int_raises_value_error _ _ Hint). reflexivity.
Qed.

Lemma build_company_urls_of_ids_witness :
  exists urls,
    FetchInfo.build_company_urls_from_infos [Run.entry_111] = Ok urls
    /\ length urls = 1%nat.
Proof.
  apply (build_company_urls_of_ids [Run.entry_111]).
  constructor; [|constructor]. split; [discriminate|].
  constructor; [reflexivity|]. constructor; [reflexivity|].
  constructor; [reflexivity|constructor].
Defined.

(** ** Stripped text *)

Lemma lstrip_head s :
  match FetchInfo.lstrip s with [] => True | c :: _ => Soup.isspace c = false end.
Proof.
  induction s as [|c t IH]; simpl; [exact I|].
  destruct (Soup.isspace c) eqn:E; [exact IH|exact E].
Qed.

Lemma lstrip_id s :
  match s with [] => True | c :: _ => Soup.isspace c = false end ->
  FetchInfo.lstrip s = s.
Proof. destruct s as [|c t]; simpl; [reflexivity|]. intros ->. reflexivity. Qed.

Lemma lstrip_is_suffix s : exists ws, s = ws ++ FetchInfo.lstrip s.
Proof.
  induction s as [|c t [ws IH]]; simpl; [exists []; reflexivity|].
  destruct (Soup.isspace c).
  - exists (c :: ws). simpl. rewrite <- IH. reflexivity.
  - exists []. reflexivity.
Qed.

Lemma strip_trimmed s : Scraper.trimmed (FetchInfo.strip s).
Proof.
  unfold FetchInfo.strip, Scraper.trimmed.
  set (t := FetchInfo.lstrip s). set (u := FetchInfo.lstrip (rev t)).
  rewrite rev_involutive. split; [|apply lstrip_head].
  destruct (lstrip_is_suffix (rev t)) as [ws Hws]. fold u in Hws.
  destruct (rev u) as [|c r] eqn:Hr; [exact I|].
  assert (Hu : u = rev r ++ [c]).
  { rewrite <- (rev_involutive u), Hr. reflexivity. }
  assert (Ht : t = c :: r ++ rev ws).
  { rewrite <- (rev_involutive t), Hws, Hu, !rev_app_distr, rev_involutive.
    reflexivity. }
  pose proof (lstrip_head s) as Hh. fold t in Hh. rewrite Ht in Hh. exact Hh.
Qed.

Lemma trimmed_strip s : Scraper.trimmed s -> FetchInfo.strip s = s.
Proof.
  intros [Hh Hl]. unfold FetchInfo.strip.
  rewrite (lstrip_id s Hh), (lstrip_id (rev s) Hl). apply rev_involutive.
Qed.

Lemma strip_strip s : FetchInfo.strip (FetchInfo.strip s) = FetchInfo.strip s.
Proof. apply trimmed_strip, strip_trimmed. Qed.

Lemma join_trimmed sep l :
  Forall (fun p => p <> [] /\ Scraper.trimmed p) l ->
  Scraper.trimmed (UrllibModel.join sep l) /\ (l <> [] -> UrllibModel.join sep l <> []).
Proof.
  induction 1 as [|p l [Hne [Hh Hl]] Hall [IHt IHn]].
  - split; [split; exact I|congruence].
  - destruct l as [|q l].
    + simpl. split; [split; assumption|auto].
    + change (UrllibModel.join sep (p :: q :: l))
        with (p ++ sep ++ UrllibModel.join sep (q :: l)).
      set (J := UrllibModel.join sep (q :: l)) in *.
      assert (HJ : J <> []) by (apply IHn; discriminate).
      split; [|destruct p; [contradiction|discriminate]].
      split.
      * destruct p as [|c t]; [contradiction|exact Hh].
      * rewrite !rev_app_distr. destruct IHt as [_ IHl].
        destruct (rev J) as [|c r] eqn:Hr; [|exact IHl].
        exfalso. apply HJ. rewrite <- (rev_involutive J), Hr. reflexivity.
Qed.

Lemma get_text_strip_trimmed sep n :
  Scraper.trimmed (Scraper.get_text_strip sep n).
Proof.
  unfold Scraper.get_text_strip, Scraper.stripped_strings.
  apply join_trimmed. apply Forall_forall. intros p Hp.
  rewrite list_elem_of_In, filter_In, in_map_iff in Hp.
  destruct Hp as [(s & <- & _) Ht].
  split; [intros E; rewrite E in Ht; discriminate|apply strip_trimmed].
Qed.

(** X14. A value [get_value_by_label] returns has no whitespace at
    either end, and without [prefer_link] it is never the empty string: a
    field with no text is [None].  With [prefer_link] the value can be empty,
    when the href of the link is nothing but whitespace. *)
Theorem get_value_by_label_stripped (soup : Soup.node) (label : pystr)
    (prefer_link : bool) (v : pystr) :
  Scraper.get_value_by_label soup label prefer_link = Some v ->
  FetchInfo.strip v = v /\ (prefer_link = false -> v <> []).
Proof.
  unfold Scraper.get_value_by_label.
  destruct (head _) as [span|]; [|discriminate].
  destruct (Soup.find_parent _ span) as [dt|]; [|discriminate].
  destruct (Soup.find_next_sibling _ dt) as [dd|]; [|discriminate].
  cbn zeta.
  assert (Htext : forall v,
            (if truthy (Scraper.get_text_strip (py " ") dd)
             then Some (Scraper.get_text_strip (py " ") dd) else None) = Some v ->
            FetchInfo.strip v = v /\ v <> []).
  { intros v'. destruct (truthy _) eqn:Ht; [|discriminate].
    intros [= <-]. split; [apply trimmed_strip, get_text_strip_trimmed|].
    intros E. rewrite E in Ht. discriminate. }
  destruct prefer_link.
  - intros Hv. split; [|discriminate].
    destruct (Soup.find_a_href dd) as [a|]; [|apply Htext; exact Hv].
    destruct (truthy (Soup.href a)); [|apply Htext; exact Hv].
    injection Hv as <-. apply strip_strip.
  - intros Hv. destruct (Htext v Hv). auto.
Qed.

Lemma get_value_by_label_stripped_witness :
  FetchInfo.strip Run.CHIBA_ADDRESS = Run.CHIBA_ADDRESS
  /\ (false = false -> Run.CHIBA_ADDRESS <> []).
Proof.
  apply (get_value_by_label_stripped Run.profile_doc Scraper.LABEL_ADDRESS false
           Run.CHIBA_ADDRESS).
  vm_compute. reflexivity.
Defined.

(** ** Where a labelled value is read *)

(** Every place of the traversal is a way up inside the tree. *)
Lemma places_from_chain root n :
  forall above after p,
    Soup.chain root n after above ->
    p ∈ Soup.places_from above n after ->
    Soup.chain root (Soup.at_node p) (Soup.next_siblings p) (Soup.parents p).
Proof.
  induction n as [nm attrs cs IH | s] using node_forall_ind;
    intros above after p Hchain Hp.
  - cbn [Soup.places_from] in Hp. apply elem_of_cons in Hp as [-> | Hp];
      [exact Hchain|].
    set (n := Soup.Tag nm attrs cs) in *.
    assert (Hgen : forall before rest,
              cs = before ++ rest ->
              p ∈ (fix children (cs : list Soup.node) : list Soup.place :=
                     match cs with
                     | [] => []
                     | c :: rest =>
                         Soup.places_from ((n, after) :: above) c rest
                         ++ children rest
                     end) rest ->
              Soup.chain root (Soup.at_node p) (Soup.next_siblings p)
                (Soup.parents p)).
    { intros before rest. revert before.
      induction rest as [|c rest IHrest]; intros before Hcs Hin.
      - inversion Hin.
      - apply elem_of_app in Hin as [Hin | Hin].
        + rewrite Forall_forall in IH.
          apply (IH c) with (above := (n, after) :: above) (after := rest);
            [rewrite Hcs; apply elem_of_app; right; left| |exact Hin].
          cbn [Soup.chain]. split; [|exact Hchain].
          exists before. exact Hcs.
        + apply (IHrest (before ++ [c])); [|exact Hin].
          rewrite <- app_assoc. exact Hcs. }
    apply (Hgen [] cs); [reflexivity|exact Hp].
  - cbn [Soup.places_from] in Hp. apply list_elem_of_singleton in Hp as ->.
    exact Hchain.
Qed.

Lemma places_chain soup p :
  p ∈ Soup.places soup ->
  Soup.chain soup (Soup.at_node p) (Soup.next_siblings p) (Soup.parents p).
Proof.
  unfold Soup.places. intros Hp.
  apply (places_from_chain soup soup [] []); [split; reflexivity|].
  destruct (Soup.places_from [] soup []) as [|x l]; [inversion Hp|].
  right. exact Hp.
Qed.

Lemma linked_child child after parent :
  Soup.linked child after parent -> child ∈ Soup.descendants parent.
Proof.
  intros [before Hc]. destruct parent as [nm attrs cs|s]; simpl in Hc.
  - apply descendants_tag. exists child. split; [|left; reflexivity].
    rewrite Hc. apply elem_of_app. right. left.
  - destruct before; discriminate.
Qed.

Lemma chain_in_root root :
  forall above n after,
    Soup.chain root n after above -> n = root \/ n ∈ Soup.descendants root.
Proof.
  induction above as [|[parent pafter] up IH]; intros n after Hchain.
  - left. apply Hchain.
  - destruct Hchain as [Hl Hup]. right. apply linked_child in Hl.
    destruct (IH _ _ Hup) as [<- | Hin]; [exact Hl|].
    eapply descendants_trans; eassumption.
Qed.

Lemma find_parent_in_chain root nm :
  forall above n after q,
    Soup.chain root n after above ->
    Soup.find_parent_in nm above = Some q ->
    Soup.chain root (Soup.at_node q) (Soup.next_siblings q) (Soup.parents q)
    /\ Soup.name_is nm (Soup.at_node q) = true
    /\ n ∈ Soup.descendants (Soup.at_node q).
Proof.
  induction above as [|[parent pafter] up IH]; intros n after q Hchain Hfind;
    simpl in Hfind; [discriminate|].
  destruct Hchain as [Hl Hup]. pose proof (linked_child _ _ _ Hl) as Hin.
  destruct (Soup.name_is nm parent) eqn:Hname.
  - injection Hfind as <-. cbn. auto.
  - destruct (IH _ _ _ Hup Hfind) as (Hq & Hnm & Hp).
    split; [exact Hq|]. split; [exact Hnm|].
    eapply descendants_trans; eassumption.
Qed.

Lemma find_split {A} (f : A -> bool) l x :
  List.find f l = Some x ->
  exists l1 l2, l = l1 ++ x :: l2 /\ f x = true
                /\ Forall (fun y => f y = false) l1.
Proof.
  induction l as [|y l IH]; simpl; [discriminate|].
  destruct (f y) eqn:Hy.
  - intros [= ->]. exists [], l. auto.
  - intros Hfind. destruct (IH Hfind) as (l1 & l2 & -> & Hx & Hl1).
    exists (y :: l1), l2. split; [reflexivity|]. split; [exact Hx|].
    constructor; assumption.
Qed.

(** X15. The value [get_value_by_label] returns is read from a [<dd>]
    that follows, among the children of one tag of the page, a [<dt>] which
    has below it a [<span>] whose string holds the label, with no other
    [<dd>] between the two; the value is the text of that [<dd>], its strings
    stripped and joined by blanks, or with [prefer_link] the stripped href
    of its first link. *)
Theorem get_value_by_label_place (soup : Soup.node) (label : pystr)
    (prefer_link : bool) (v : pystr) :
  Scraper.get_value_by_label soup label prefer_link = Some v ->
  exists span dt dd parent before between after,
    (parent = soup \/ parent ∈ Soup.descendants soup)
    /\ Soup.contents parent = before ++ dt :: between ++ dd :: after
    /\ Soup.name_is (py "dt") dt = true
    /\ Soup.name_is (py "dd") dd = true
    /\ Forall (fun n => Soup.name_is (py "dd") n = false) between
    /\ span ∈ Soup.descendants dt
    /\ Soup.name_is (py "span") span = true
    /\ Soup.string_contains label span = true
    /\ (v = Scraper.get_text_strip (py " ") dd
        \/ (prefer_link = true
            /\ exists a, Soup.find_a_href dd = Some a
                         /\ Soup.href a <> []
                         /\ v = FetchInfo.strip (Soup.href a))).
Proof.
  unfold Scraper.get_value_by_label.
  destruct (head _) as [span|] eqn:Hspan; [|discriminate].
  destruct (Soup.find_parent _ span) as [dt|] eqn:Hdt; [|discriminate].
  destruct (Soup.find_next_sibling _ dt) as [dd|] eqn:Hdd; [|discriminate].
  cbn zeta. intros Hv.
  assert (Hin : span ∈ List.filter
                  (fun p => Soup.name_is (py "span") (Soup.at_node p)
                            && Soup.string_contains label (Soup.at_node p))
                  (Soup.places soup)).
  { destruct (List.filter _ _) as [|x l]; [discriminate|].
    injection Hspan as ->. left. }
  rewrite list_elem_of_In, filter_In, <- list_elem_of_In, andb_true_iff in Hin.
  destruct Hin as [Hplace [Hname Hstr]].
  apply places_chain in Hplace.
  unfold Soup.find_parent in Hdt.
  destruct (find_parent_in_chain _ _ _ _ _ _ Hplace Hdt) as (Hchain & Hdtname & Hbelow).
  unfold Soup.find_next_sibling in Hdd.
  apply find_split in Hdd as (between & after & Hsib & Hddname & Hbetween).
  destruct (Soup.parents dt) as [|[parent pafter] up] eqn:Hup.
  { cbn in Hchain. destruct Hchain as [_ Hnil]. rewrite Hnil in Hsib.
    destruct between; discriminate. }
  cbn in Hchain. destruct Hchain as [[before Hlinked] Hparent].
  exists (Soup.at_node span), (Soup.at_node dt), dd, parent, before, between, after.
  split; [apply (chain_in_root _ _ _ _ Hparent)|].
  split; [rewrite Hlinked, Hsib; reflexivity|].
  split; [exact Hdtname|]. split; [exact Hddname|]. split; [exact Hbetween|].
  split; [exact Hbelow|]. split; [exact Hname|]. split; [exact Hstr|].
  assert (Htext : (if truthy (Scraper.get_text_strip (py " ") dd)
                   then Some (Scraper.get_text_strip (py " ") dd) else None)
                  = Some v ->
                  v = Scraper.get_text_strip (py " ") dd).
  { destruct (truthy _); [intros [= <-]; reflexivity|discriminate]. }
  destruct prefer_link; [|left; apply Htext; exact Hv].
  destruct (Soup.find_a_href dd) as [a|]; [|left; apply Htext; exact Hv].
  destruct (truthy (Soup.href a)) eqn:Hhref; [|left; apply Htext; exact Hv].
  injection Hv as <-. right. split; [reflexivity|]. exists a.
  split; [reflexivity|]. split; [|reflexivity].
  intros E. rewrite E in Hhref. discriminate.
Qed.

Lemma get_value_by_label_place_witness :
  exists span dt dd parent before between after,
    (parent = Run.profile_doc \/ parent ∈ Soup.descendants Run.profile_doc)
    /\ Soup.contents parent = before ++ dt :: between ++ dd :: after
    /\ Soup.name_is (py "dt") dt = true
    /\ Soup.name_is (py "dd") dd = true
    /\ Forall (fun n => Soup.name_is (py "dd") n = false) between
    /\ span ∈ Soup.descendants dt
    /\ Soup.name_is (py "span") span = true
    /\ Soup.string_contains (py "URL") span = true
    /\ (py "https://acme.example/" = Scraper.get_text_strip (py " ") dd
        \/ (true = true
            /\ exists a, Soup.find_a_href dd = Some a
                         /\ Soup.href a <> []
                         /\ py "https://acme.example/"
                            = FetchInfo.strip (Soup.href a))).
Proof.
  apply (get_value_by_label_place Run.profile_doc (py "URL") true
           (py "https://acme.example/")).
  vm_compute. reflexivity.
Defined.

(** With [prefer_link], a link whose href is blank gives the empty string,
    not [None] and not the text of the [<dd>]. *)
Example get_value_by_label_blank_link :
  Scraper.get_value_by_label Run.blank_link_doc (py "URL") true = Some []
  /\ Scraper.get_value_by_label Run.blank_link_doc (py "URL") false
     = Some (py "home").
Proof. split; vm_compute; reflexivity. Qed.

(** ** The analytics data of a profile page *)

Section MoreReFacts.
Context {R : Type}.

Lemma run_chr_eq_inv c s caps (k : pystr -> list pystr -> option R) x :
  Re.run (Re.Chr (N.eqb c)) s caps k = Some x ->
  exists s', s = c :: s' /\ k s' caps = Some x.
Proof.
  simpl. destruct s as [|d t]; [discriminate|].
  destruct (c =? d)%N eqn:E; [|discriminate].
  apply N.eqb_eq in E as <-. eauto.
Qed.

Lemma run_lit_inv p :
  forall s caps (k : pystr -> list pystr -> option R) x,
    Re.run (Re.lit p) s caps k = Some x ->
    exists s', s = p ++ s' /\ k s' caps = Some x.
Proof.
  induction p as [|c p IH]; intros s caps k x Hrun.
  - simpl in Hrun. eauto.
  - cbn [Re.lit] in Hrun. rewrite run_cat in Hrun.
    apply run_chr_eq_inv in Hrun as (s1 & -> & Hrun).
    apply IH in Hrun as (s2 & -> & Hk). eauto.
Qed.

Lemma run_many_inv cls s caps (k : pystr -> list pystr -> option R) x :
  Re.run (Scraper.many cls) s caps k = Some x ->
  exists ws rest, s = ws ++ rest /\ Forall (fun c => cls c = true) ws
                  /\ k rest caps = Some x.
Proof.
  unfold Scraper.many. cbn [Re.run].
  destruct s as [|c t].
  - intros Hk. exists [], []. auto.
  - destruct (cls c) eqn:Hc.
    + destruct (Re.star cls t (fun s' => k s' caps)) as [y|] eqn:Hstar.
      * intros [= ->]. apply star_inv in Hstar as (ds & rest & -> & Hds & Hk).
        exists (c :: ds), rest. auto.
      * intros Hk. exists [], (c :: t). auto.
    + intros Hk. exists [], (c :: t). auto.
Qed.

Lemma run_group_many_inv cls s caps (k : pystr -> list pystr -> option R) x :
  Re.run (Re.Group (Scraper.many cls)) s caps k = Some x ->
  exists g rest, s = g ++ rest /\ Forall (fun c => cls c = true) g
                 /\ k rest (caps ++ [g]) = Some x.
Proof.
  cbn [Re.run]. intros Hrun.
  apply run_many_inv in Hrun as (ws & rest & -> & Hws & Hk).
  rewrite take_consumed in Hk. eauto.
Qed.

End MoreReFacts.

Lemma search_inv r s m :
  Re.search r s = Some m ->
  exists before t, s = before ++ t /\ Re.match_here r t = Some m.
Proof.
  induction s as [|c t IH]; simpl.
  - destruct (Re.match_here r []) as [m'|] eqn:Hm; [|discriminate].
    intros [= ->]. exists [], []. auto.
  - destruct (Re.match_here r (c :: t)) as [m'|] eqn:Hm.
    + intros [= ->]. exists [], (c :: t). auto.
    + intros Hs. destruct (IH Hs) as (before & t' & -> & Hm').
      exists (c :: before), t'. auto.
Qed.

(** What the pattern of [prop61] matches, and what its group holds. *)
Lemma prop61_match s m :
  Re.match_here Scraper.PROP61_RE s = Some m ->
  exists ws1 ws2 raw after,
    s = ([Scraper.QUOTE] ++ py "prop61" ++ [Scraper.QUOTE]) ++ ws1 ++ 58%N :: ws2
        ++ Scraper.QUOTE :: raw ++ Scraper.QUOTE :: after
    /\ Forall (fun c => Soup.isspace c = true) ws1
    /\ Forall (fun c => Soup.isspace c = true) ws2
    /\ (Scraper.QUOTE ∉ raw)
    /\ Re.group1 m = raw.
Proof.
  unfold Re.match_here, Scraper.PROP61_RE. intros Hm.
  rewrite run_cat in Hm. apply run_lit_inv in Hm as (s1 & -> & Hm).
  rewrite run_cat in Hm. apply run_many_inv in Hm as (ws1 & s2 & -> & Hws1 & Hm).
  rewrite run_cat in Hm. apply run_chr_eq_inv in Hm as (s3 & -> & Hm).
  rewrite run_cat in Hm. apply run_many_inv in Hm as (ws2 & s4 & -> & Hws2 & Hm).
  rewrite run_cat in Hm. apply run_chr_eq_inv in Hm as (s5 & -> & Hm).
  rewrite run_cat in Hm. apply run_group_many_inv in Hm as (raw & s6 & -> & Hraw & Hm).
  apply run_chr_eq_inv in Hm as (after & -> & Hm).
  injection Hm as <-. exists ws1, ws2, raw, after.
  split; [reflexivity|]. split; [exact Hws1|]. split; [exact Hws2|].
  split; [|reflexivity].
  intros Hin. rewrite Forall_forall in Hraw. apply Hraw in Hin.
  rewrite N.eqb_refl in Hin. discriminate.
Qed.

Lemma analytics_from_spec scripts :
  (forall k v, (k, v) ∈ Scraper.analytics_from scripts ->
     k = Scraper.PROP61
     /\ exists script before ws1 ws2 raw after,
          script ∈ scripts
          /\ contains Scraper.VAR_ANALYTICS_DATA (Soup.get_text script) = true
          /\ Soup.get_text script
             = before ++ ([Scraper.QUOTE] ++ py "prop61" ++ [Scraper.QUOTE])
               ++ ws1 ++ 58%N :: ws2 ++ Scraper.QUOTE :: raw
               ++ Scraper.QUOTE :: after
          /\ Forall (fun c => Soup.isspace c = true) ws1
          /\ Forall (fun c => Soup.isspace c = true) ws2
          /\ (Scraper.QUOTE ∉ raw)
          /\ v = FetchInfo.strip raw)
  /\ (length (Scraper.analytics_from scripts) <= 1)%nat
  /\ ((forall script, script ∈ scripts ->
         contains Scraper.VAR_ANALYTICS_DATA (Soup.get_text script) = false) ->
      Scraper.analytics_from scripts = []).
Proof.
  induction scripts as [|script rest (IH1 & IH2 & IH3)].
  - split; [intros k v Hin; inversion Hin|]. split; [simpl; lia|reflexivity].
  - assert (Hskip : Scraper.analytics_from rest = Scraper.analytics_from rest ->
              (forall k v, (k, v) ∈ Scraper.analytics_from rest ->
                 k = Scraper.PROP61
                 /\ exists script0 before ws1 ws2 raw after,
                      script0 ∈ script :: rest
                      /\ contains Scraper.VAR_ANALYTICS_DATA (Soup.get_text script0)
                         = true
                      /\ Soup.get_text script0
                         = before ++ ([Scraper.QUOTE] ++ py "prop61" ++ [Scraper.QUOTE])
                           ++ ws1 ++ 58%N :: ws2 ++ Scraper.QUOTE :: raw
                           ++ Scraper.QUOTE :: after
                      /\ Forall (fun c => Soup.isspace c = true) ws1
                      /\ Forall (fun c => Soup.isspace c = true) ws2
                      /\ (Scraper.QUOTE ∉ raw)
                      /\ v = FetchInfo.strip raw)).
    { intros _ k v Hin. destruct (IH1 k v Hin)
        as (Hk & s0 & before & ws1 & ws2 & raw & after & Hs0 & Hrest).
      split; [exact Hk|]. exists s0, before, ws1, ws2, raw, after.
      split; [right; exact Hs0|exact Hrest]. }
    cbn [Scraper.analytics_from]. cbn zeta.
    destruct (truthy (Soup.get_text script)) eqn:Ht; cbn [negb].
    2:{ split; [apply Hskip; reflexivity|]. split; [exact IH2|].
        intros Hall. apply IH3. intros s0 Hs0. apply Hall. right. exact Hs0. }
    destruct (contains Scraper.VAR_ANALYTICS_DATA (Soup.get_text script)) eqn:Hc;
      cbn [negb].
    2:{ split; [apply Hskip; reflexivity|]. split; [exact IH2|].
        intros Hall. apply IH3. intros s0 Hs0. apply Hall. right. exact Hs0. }
    split; [|split].
    + intros k v Hin.
      destruct (Re.search Scraper.PROP61_RE (Soup.get_text script)) as [m|] eqn:Hs;
        [|inversion Hin].
      apply list_elem_of_singleton in Hin. injection Hin as -> ->.
      split; [reflexivity|].
      apply search_inv in Hs as (before & t & Htext & Hm).
      apply prop61_match in Hm as (ws1 & ws2 & raw & after & -> & H1 & H2 & Hq & Hg).
      exists script, before, ws1, ws2, raw, after.
      split; [left|]. split; [exact Hc|]. split; [exact Htext|].
      rewrite Hg. auto.
    + destruct (Re.search _ _); simpl; lia.
    + intros Hall. rewrite (Hall script) in Hc by left. discriminate.
Qed.

(** X16. The analytics dict of a page has at most the one key
    [prop61].  Its value is read from a [<script>] of the page whose text
    holds [var analyticsData]: it is the stripped text between the double
    quotes that follow the quoted key [prop61], a colon, and optional
    whitespace, and it holds no double quote.  A page with no such script
    gives the empty dict. *)
Theorem parse_analytics_data_shape (soup : Soup.node) :
  (forall k v, (k, v) ∈ Scraper.parse_analytics_data_from_head soup ->
     k = Scraper.PROP61
     /\ exists script before ws1 ws2 raw after,
          script ∈ Soup.descendants soup
          /\ Soup.name_is (py "script") script = true
          /\ contains Scraper.VAR_ANALYTICS_DATA (Soup.get_text script) = true
          /\ Soup.get_text script
             = before ++ ([Scraper.QUOTE] ++ py "prop61" ++ [Scraper.QUOTE])
               ++ ws1 ++ 58%N :: ws2 ++ Scraper.QUOTE :: raw
               ++ Scraper.QUOTE :: after
          /\ Forall (fun c => Soup.isspace c = true) ws1
          /\ Forall (fun c => Soup.isspace c = true) ws2
          /\ (Scraper.QUOTE ∉ raw)
          /\ v = FetchInfo.strip raw)
  /\ (length (Scraper.parse_analytics_data_from_head soup) <= 1)%nat
  /\ ((forall script, script ∈ Soup.descendants soup ->
         Soup.name_is (py "script") script = true ->
         contains Scraper.VAR_ANALYTICS_DATA (Soup.get_text script) = false) ->
      Scraper.parse_analytics_data_from_head soup = []).
Proof.
  unfold Scraper.parse_analytics_data_from_head.
  destruct (analytics_from_spec
              (List.filter (Soup.name_is (py "script")) (Soup.descendants soup)))
    as (H1 & H2 & H3).
  split; [|split; [exact H2|]].
  - intros k v Hin. destruct (H1 k v Hin)
      as (Hk & script & before & ws1 & ws2 & raw & after & Hs & Hrest).
    split; [exact Hk|]. exists script, before, ws1, ws2, raw, after.
    rewrite list_elem_of_In, filter_In, <- list_elem_of_In in Hs.
    destruct Hs as [Hs Hname]. auto.
  - intros Hall. apply H3. intros script Hs.
    rewrite list_elem_of_In, filter_In, <- list_elem_of_In in Hs.
    destruct Hs as [Hs Hname]. auto.
Qed.

(** The analytics data of the profile page at hand: the key with the title
    of the page. *)
Example parse_analytics_data_of_profile :
  Scraper.parse_analytics_data_from_head Run.profile_doc
  = [(Scraper.PROP61, py "ACME" ++ Scraper.JOBS_SUFFIX)].
Proof. vm_compute. reflexivity. Qed.

(** ** The rows of the profile scraper *)

Section ScrapeFacts.
Context `{Network} `{Scraper.HtmlDotParser} `{Scraper.Soupsieve} `{Clock}.

Lemma fields_nodup : NoDup Scraper.FIELDS.
Proof. apply (proj1 (bool_decide_eq_true _)). vm_compute. reflexivity. Qed.

(** X17. When the page can be fetched and the parser accepts it,
    [scrape_company_page] returns a row that holds each of the 15 fields of
    the export exactly once, with the URL it was given under 取得URL, the
    value of 所在地 under 住所, the prefecture extracted from that value, and
    [None] under 電話番号, 業種, 法人番号 and 売上, so that these four columns of
    the CSV file are always empty.  It leaves no event but those of the
    fetch.  It raises what the fetch raises, and, when the page was fetched
    and the parser rejects it, what the parser raises; it raises nothing
    else. *)
Theorem scrape_company_page_row (url : pystr) (w : World) :
  match Scraper.fetch_html url w with
  | (Ok html, w1) =>
      match Scraper.html_parser html with
      | Ok soup =>
          exists row,
            Scraper.scrape_company_page url w = (Ok row, w1)
            /\ List.map fst row ≡ₚ Scraper.FIELDS
            /\ Scraper.row_get Scraper.KEY_URL row = Some (Scraper.PyStr url)
            /\ (exists address,
                  address = Scraper.get_value_by_label soup Scraper.LABEL_ADDRESS false
                  /\ Scraper.row_get Scraper.KEY_ADDRESS row
                     = Some (Scraper.of_option address)
                  /\ Scraper.row_get Scraper.KEY_PREFECTURE row
                     = Some (Scraper.of_option (Scraper.extract_prefecture address)))
            /\ Forall (fun key => Scraper.row_get key row = Some Scraper.PyNone
                                  /\ Scraper.safe_value row key = [])
                 [Scraper.KEY_PHONE; Scraper.KEY_INDUSTRY;
                  Scraper.KEY_CORPORATE_NUMBER; Scraper.KEY_SALES]
      | Raise e => Scraper.scrape_company_page url w = (Raise e, w1)
      end
  | (Raise e, w1) => Scraper.scrape_company_page url w = (Raise e, w1)
  end.
Proof.
  unfold Scraper.scrape_company_page. unfold now. mstep.
  destruct (Scraper.fetch_html url w) as [[html|e] w1]; [|reflexivity].
  destruct (Scraper.html_parser html) as [soup|e]; [|reflexivity].
  eexists. split; [reflexivity|].
  split.
  { cbn [List.map fst]. apply NoDup_Permutation.
    - apply (proj1 (bool_decide_eq_true _)). vm_compute. reflexivity.
    - apply fields_nodup.
    - intros x. split; intros Hx.
      + repeat (apply elem_of_cons in Hx as [-> | Hx];
                [apply (proj1 (bool_decide_eq_true _)); vm_compute; reflexivity|]).
        inversion Hx.
      + unfold Scraper.FIELDS in Hx.
        repeat (apply elem_of_cons in Hx as [-> | Hx];
                [apply (proj1 (bool_decide_eq_true _)); vm_compute; reflexivity|]).
        inversion Hx. }
  split; [reflexivity|]. split.
  { eexists. split; [reflexivity|]. split; reflexivity. }
  repeat (constructor; [split; reflexivity|]). constructor.
Qed.

End ScrapeFacts.

(** ** A batch of profile pages *)

Section BatchFacts.
Context `{Network} `{Scraper.HtmlDotParser} `{Scraper.Soupsieve} `{Clock}.

Lemma gets_app evs w : gets (evs ++ w) = (gets evs + gets w)%nat.
Proof. unfold gets. rewrite List.filter_app, length_app. reflexivity. Qed.

Lemma pauses_app evs w :
  Scraper.pauses (evs ++ w) = (Scraper.pauses evs + Scraper.pauses w)%nat.
Proof. unfold Scraper.pauses. rewrite List.filter_app, length_app. reflexivity. Qed.

Lemma failures_app evs w :
  Scraper.failures (evs ++ w) = Scraper.failures evs ++ Scraper.failures w.
Proof. apply omap_app. Qed.

Lemma quiet_app evs1 evs2 :
  Scraper.quiet evs1 -> Scraper.quiet evs2 -> Scraper.quiet (evs2 ++ evs1).
Proof. intros H1' H2'. apply Forall_app. auto. Qed.

Lemma quiet_pauses evs : Scraper.quiet evs -> Scraper.pauses evs = 0%nat.
Proof.
  unfold Scraper.pauses. induction 1 as [|e evs (Hp & _ & _) _ IH]; [reflexivity|].
  simpl. rewrite Hp. exact IH.
Qed.

Lemma quiet_failures evs : Scraper.quiet evs -> Scraper.failures evs = [].
Proof.
  unfold Scraper.failures. induction 1 as [|e evs (_ & Hf & _) _ IH]; [reflexivity|].
  cbn [omap list_omap]. rewrite Hf. exact IH.
Qed.

Lemma quiet_no_write evs :
  Scraper.quiet evs -> Forall (fun e => Scraper.is_write e = false) evs.
Proof.
  intros Hq. eapply Forall_impl; [exact Hq|]. intros e (_ & _ & Hw). exact Hw.
Qed.

Lemma quiet_no_report evs u e :
  Scraper.quiet evs -> EvPrint (ErrorScrape u e) ∉ evs.
Proof.
  intros Hq Hin. apply (proj1 (Forall_forall _ _) Hq) in Hin as (_ & Hf & _).
  discriminate Hf.
Qed.

(** The trace of a profile fetch: at most [n] GETs, and nothing a batch
    counts. *)
Lemma scraper_fetch_quiet url mx :
  forall (n : nat) (i : Z) last w,
    exists r evs,
      Scraper.fetch_html_from url mx n i last w = (r, evs ++ w)
      /\ Scraper.quiet evs /\ (gets evs <= n)%nat
      /\ Forall (eq url) (FetchInfo.got evs)
      /\ length (FetchInfo.got evs) = gets evs.
Proof.
  induction n as [|n IH]; intros i last w.
  - simpl. destruct last; mstep;
      [exists (Raise (ExRequest r)), []|exists (Raise TypeError), []];
      (split; [reflexivity|]); (split; [constructor|]);
      (split; [reflexivity|]); (split; [constructor|reflexivity]).
  - simpl. mstep.
    assert (Hretry : forall e,
              exists r evs,
                (if i <? mx - 1
                 then Scraper.fetch_html_from url mx n (i + 1) (Some e)
                        (EvSleep (Scraper.BASE_BACKOFF_SEC * (i + 1))
                           :: EvPrint (WarnRetry e (i + 1) mx) :: EvGet url :: w)
                 else Scraper.fetch_html_from url mx n (i + 1) (Some e)
                        (EvGet url :: w))
                = (r, evs ++ w)
                /\ Scraper.quiet evs /\ (gets evs <= S n)%nat
                /\ Forall (eq url) (FetchInfo.got evs)
                /\ length (FetchInfo.got evs) = gets evs).
    { intros e. destruct (i <? mx - 1).
      - destruct (IH (i + 1) (Some e)
                    (EvSleep (Scraper.BASE_BACKOFF_SEC * (i + 1))
                       :: EvPrint (WarnRetry e (i + 1) mx) :: EvGet url :: w))
          as (r & evs & Hrun & Hq & Hg & Hall & Hlen).
        exists r, (evs ++ [EvSleep (Scraper.BASE_BACKOFF_SEC * (i + 1));
                           EvPrint (WarnRetry e (i + 1) mx); EvGet url]).
        rewrite <- app_assoc. split; [exact Hrun|]. split.
        + apply quiet_app; [|exact Hq]. repeat constructor.
        + rewrite gets_app, got_app, length_app. split; [cbn; lia|].
          split; [apply Forall_app; split; [exact Hall|repeat constructor]|].
          rewrite Hlen. reflexivity.
      - destruct (IH (i + 1) (Some e) (EvGet url :: w))
          as (r & evs & Hrun & Hq & Hg & Hall & Hlen).
        exists r, (evs ++ [EvGet url]). rewrite <- app_assoc.
        split; [exact Hrun|]. split.
        + apply quiet_app; [|exact Hq]. repeat constructor.
        + rewrite gets_app, got_app, length_app. split; [cbn; lia|].
          split; [apply Forall_app; split; [exact Hall|repeat constructor]|].
          rewrite Hlen. reflexivity. }
    destruct (http (gets w) url) as [resp|e].
    + destruct (raise_for_status resp) as [e|].
      * destruct (Hretry e) as (r & evs & Hrun & Hrest). exists r, evs.
        split; [|exact Hrest]. rewrite <- Hrun. destruct (i <? mx - 1); reflexivity.
      * exists (Ok (text resp)), [EvGet url]. split; [reflexivity|].
        split; [repeat constructor|]. split; [unfold gets; simpl; lia|].
        split; [repeat constructor|reflexivity].
    + destruct (Hretry e) as (r & evs & Hrun & Hrest). exists r, evs.
      split; [|exact Hrest]. rewrite <- Hrun. destruct (i <? mx - 1); reflexivity.
Qed.

(** One page: a row for the URL, or the exception of the fetch or of the
    parser. *)
Lemma scrape_company_page_quiet url w :
  exists r evs,
    Scraper.scrape_company_page url w = (r, evs ++ w)
    /\ Scraper.quiet evs /\ (gets evs <= 3)%nat
    /\ (forall row, r = Ok row -> Scraper.row_url row = Some url)
    /\ forall u, (length (List.filter (pystr_eqb u) (FetchInfo.got evs))
                  <= if pystr_eqb u url then 3 else 0)%nat.
Proof.
  destruct (scraper_fetch_quiet url Scraper.MAX_RETRIES
              (Z.to_nat Scraper.MAX_RETRIES) 0 None w)
    as (r & evs & Hrun & Hq & Hg & Hall & Hlen).
  fold (Scraper.fetch_html_retries url Scraper.MAX_RETRIES w) in Hrun.
  fold (Scraper.fetch_html url w) in Hrun.
  assert (Hfor : forall u, (length (List.filter (pystr_eqb u) (FetchInfo.got evs))
                            <= if pystr_eqb u url then 3 else 0)%nat).
  { intros u. rewrite (requests_for u url _ Hall), Hlen.
    destruct (pystr_eqb u url); [exact Hg|lia]. }
  unfold Scraper.scrape_company_page, now. mstep. rewrite Hrun.
  destruct r as [html|e].
  - destruct (Scraper.html_parser html) as [soup|e].
    + eexists _, evs. split; [reflexivity|]. split; [exact Hq|].
      split; [exact Hg|]. split; [|exact Hfor]. intros row [= <-]. reflexivity.
    + exists (Raise e), evs. split; [reflexivity|]. split; [exact Hq|].
      split; [exact Hg|]. split; [discriminate|exact Hfor].
  - exists (Raise e), evs. split; [reflexivity|]. split; [exact Hq|].
    split; [exact Hg|]. split; [discriminate|exact Hfor].
Qed.

(** On a server that answers every request for [url] in the same way, the
    page gives a row exactly when the answer passes [raise_for_status] and
    the parser accepts its text. *)
Lemma scrape_company_page_steady url w :
  (forall n, http n url = http 0%nat url) ->
  match (Scraper.scrape_company_page url w).1 with
  | Ok _ => Scraper.fetchable url = true
  | Raise _ => Scraper.fetchable url = false
  end.
Proof.
  intros Hsteady.
  destruct (scraper_fetch_outcome url Scraper.MAX_RETRIES
              (Z.to_nat Scraper.MAX_RETRIES) 0 None w) as (r & w' & Hrun & Hg & Hr).
  fold (Scraper.fetch_html_retries url Scraper.MAX_RETRIES w) in Hrun.
  fold (Scraper.fetch_html url w) in Hrun.
  unfold Scraper.scrape_company_page, now. mstep. rewrite Hrun.
  unfold Scraper.fetchable.
  destruct r as [html|exc].
  - destruct Hr as (resp & _ & Hresp & Hst & ->).
    rewrite Hsteady in Hresp. rewrite Hresp, Hst.
    destruct (Scraper.html_parser (text resp)); reflexivity.
  - destruct Hr as (_ & e & He & _). rewrite Hsteady in He.
    cbn [fst]. destruct (http 0%nat url) as [resp|e0]; [|reflexivity].
    cbn [attempt_error] in He. rewrite He. reflexivity.
Qed.

Lemma scrape_many_from_spec urls :
  forall results w,
    exists rows evs,
      Scraper.scrape_many_from urls results w = (Ok (results ++ rows), evs ++ w)
      /\ Scraper.pauses evs = length urls
      /\ omap Scraper.row_url rows `sublist_of` urls
      /\ length (omap Scraper.row_url rows) = length rows
      /\ (length rows + length (Scraper.failures evs))%nat = length urls
      /\ (gets evs <= 3 * length urls)%nat
      /\ Forall (fun e => Scraper.is_write e = false) evs
      /\ (forall row, row ∈ rows ->
            exists u evs0 w1,
              u ∈ urls
              /\ Scraper.scrape_company_page u (evs0 ++ w) = (Ok row, w1))
      /\ (forall u e, EvPrint (ErrorScrape u e) ∈ evs ->
            u ∈ urls
            /\ exists evs0 w1,
                 Scraper.scrape_company_page u (evs0 ++ w) = (Raise e, w1))
      /\ (Scraper.steady urls ->
          omap Scraper.row_url rows = List.filter Scraper.fetchable urls
          /\ rev (Scraper.failures evs)
             = List.filter (fun u => negb (Scraper.fetchable u)) urls)
      /\ (forall u,
            (length (List.filter (pystr_eqb u) (FetchInfo.got evs))
             <= 3 * length (List.filter (pystr_eqb u) urls))%nat).
Proof.
  induction urls as [|url urls IH]; intros results w.
  - exists [], []. cbn [Scraper.scrape_many_from]. mstep. rewrite app_nil_r.
    split; [reflexivity|]. split; [reflexivity|]. split; [constructor|].
    split; [reflexivity|]. split; [reflexivity|].
    split; [unfold gets; simpl; lia|]. split; [constructor|].
    split; [intros row Hrow; inversion Hrow|].
    split; [intros u e Hin; inversion Hin|].
    split; [intros _; split; reflexivity|]. intros u. cbn. lia.
  - cbn [Scraper.scrape_many_from].
    destruct (scrape_company_page_quiet url (EvPrint (InfoScraping url) :: w))
      as (r & evs1 & Hpage & Hq & Hg & Hrow & Hfor).
    pose proof (scrape_company_page_steady url (EvPrint (InfoScraping url) :: w))
      as Hfetchable.
    rewrite Hpage in Hfetchable. cbn [fst] in Hfetchable.
    assert (Hsteady_tl : Scraper.steady (url :: urls) -> Scraper.steady urls).
    { intros Hs u n Hu. apply Hs. right. exact Hu. }
    assert (Hsteady_hd : Scraper.steady (url :: urls) ->
                         forall n, http n url = http 0%nat url).
    { intros Hs n. apply Hs. left. }
    unfold Scraper.try_finally, Scraper.try_except. mstep. rewrite Hpage.
    destruct r as [row|e]; cbn [fst snd].
    + destruct (IH (results ++ [row])
                  (EvPause :: evs1 ++ EvPrint (InfoScraping url) :: w))
        as (rows & evs & Hrun & Hp & Hsub & Hlen & Hcount & Hgets & Hw
            & Hrows & Hfails & Hexact & Hper).
      exists (row :: rows),
             (evs ++ EvPause :: evs1 ++ [EvPrint (InfoScraping url)]).
      rewrite <- !app_assoc in *. cbn [app] in *. rewrite <- app_assoc.
      split; [exact Hrun|].
      rewrite pauses_app, failures_app, gets_app.
      change (EvPause :: evs1 ++ [EvPrint (InfoScraping url)])
        with ([EvPause] ++ evs1 ++ [EvPrint (InfoScraping url)]).
      rewrite !pauses_app, !failures_app, !gets_app.
      rewrite (quiet_pauses _ Hq), (quiet_failures _ Hq).
      cbn [omap list_omap]. rewrite (Hrow row eq_refl).
      split; [cbn; lia|]. split; [apply sublist_skip; exact Hsub|].
      split; [cbn; lia|]. split; [cbn; rewrite app_nil_r; lia|].
      split; [cbn; lia|].
      split.
      { apply Forall_app. split; [exact Hw|].
        constructor; [reflexivity|]. apply Forall_app.
        split; [apply quiet_no_write; exact Hq|repeat constructor]. }
      split.
      { intros row' Hin. apply elem_of_cons in Hin as [-> | Hin].
        - exists url, [EvPrint (InfoScraping url)], (evs1 ++ EvPrint (InfoScraping url) :: w).
          split; [left|exact Hpage].
        - destruct (Hrows row' Hin) as (u & evs0 & w1 & Hu & Hscrape).
          exists u, (evs0 ++ EvPause :: evs1 ++ [EvPrint (InfoScraping url)]), w1.
          split; [right; exact Hu|].
          rewrite <- ?app_assoc; cbn [app]; rewrite <- ?app_assoc; exact Hscrape. }
      split.
      { intros u e Hin. apply elem_of_app in Hin as [Hin | Hin].
        - destruct (Hfails u e Hin) as (Hu & evs0 & w1 & Hscrape).
          split; [right; exact Hu|].
          exists (evs0 ++ EvPause :: evs1 ++ [EvPrint (InfoScraping url)]), w1.
          rewrite <- ?app_assoc; cbn [app]; rewrite <- ?app_assoc; exact Hscrape.
        - exfalso. apply elem_of_app in Hin as [Hin | Hin];
            [apply list_elem_of_singleton in Hin; discriminate Hin|].
          apply elem_of_app in Hin as [Hin | Hin].
          + exact (quiet_no_report _ _ _ Hq Hin).
          + apply list_elem_of_singleton in Hin. discriminate Hin. }
      split.
      { intros Hs. destruct (Hexact (Hsteady_tl Hs)) as [Hrows_eq Hfails_eq].
        specialize (Hfetchable (Hsteady_hd Hs)).
        cbn [List.filter]. rewrite Hfetchable. cbn [negb].
        split; [f_equal; exact Hrows_eq|].
        cbn [app Scraper.failures omap list_omap Scraper.failed_of].
        rewrite ?app_nil_r. exact Hfails_eq. }
      intros u. specialize (Hper u). specialize (Hfor u).
      rewrite !got_app, !List.filter_app, !length_app.
      change (FetchInfo.got [EvPause]) with (@nil pystr).
      change (FetchInfo.got [EvPrint (InfoScraping url)]) with (@nil pystr).
      cbn [List.filter length].
      destruct (pystr_eqb u url); cbn [length]; lia.
    + destruct (IH results
                  (EvPause :: EvPrint (ErrorScrape url e)
                     :: evs1 ++ EvPrint (InfoScraping url) :: w))
        as (rows & evs & Hrun & Hp & Hsub & Hlen & Hcount & Hgets & Hw
            & Hrows & Hfails & Hexact & Hper).
      exists rows,
             (evs ++ EvPause :: EvPrint (ErrorScrape url e)
                :: evs1 ++ [EvPrint (InfoScraping url)]).
      rewrite <- !app_assoc in *. cbn [app] in *. rewrite <- app_assoc.
      split; [exact Hrun|].
      rewrite pauses_app, failures_app, gets_app.
      change (EvPause :: EvPrint (ErrorScrape url e)
                :: evs1 ++ [EvPrint (InfoScraping url)])
        with ([EvPause; EvPrint (ErrorScrape url e)]
                ++ evs1 ++ [EvPrint (InfoScraping url)]).
      rewrite !pauses_app, !failures_app, !gets_app.
      rewrite (quiet_pauses _ Hq), (quiet_failures _ Hq).
      split; [cbn; lia|]. split; [apply sublist_cons; exact Hsub|].
      split; [exact Hlen|]. split; [rewrite !length_app; cbn; lia|].
      split; [cbn; lia|].
      split.
      { apply Forall_app. split; [exact Hw|].
        constructor; [reflexivity|]. constructor; [reflexivity|]. apply Forall_app.
        split; [apply quiet_no_write; exact Hq|repeat constructor]. }
      split.
      { intros row' Hin.
        destruct (Hrows row' Hin) as (u & evs0 & w1 & Hu & Hscrape).
        exists u, (evs0 ++ [EvPause; EvPrint (ErrorScrape url e)]
                     ++ evs1 ++ [EvPrint (InfoScraping url)]), w1.
        split; [right; exact Hu|].
        rewrite <- ?app_assoc; cbn [app]; rewrite <- ?app_assoc; exact Hscrape. }
      split.
      { intros u e' Hin. apply elem_of_app in Hin as [Hin | Hin].
        - destruct (Hfails u e' Hin) as (Hu & evs0 & w1 & Hscrape).
          split; [right; exact Hu|].
          exists (evs0 ++ [EvPause; EvPrint (ErrorScrape url e)]
                    ++ evs1 ++ [EvPrint (InfoScraping url)]), w1.
          rewrite <- ?app_assoc; cbn [app]; rewrite <- ?app_assoc; exact Hscrape.
        - apply elem_of_cons in Hin as [Hin | Hin]; [discriminate Hin|].
          apply elem_of_cons in Hin as [Hin | Hin].
          + injection Hin as -> ->. split; [left|].
            exists [EvPrint (InfoScraping url)],
                   (evs1 ++ EvPrint (InfoScraping url) :: w).
            exact Hpage.
          + exfalso. apply elem_of_app in Hin as [Hin | Hin].
            * exact (quiet_no_report _ _ _ Hq Hin).
            * apply list_elem_of_singleton in Hin. discriminate Hin. }
      split.
      { intros Hs. destruct (Hexact (Hsteady_tl Hs)) as [Hrows_eq Hfails_eq].
        specialize (Hfetchable (Hsteady_hd Hs)).
        cbn [List.filter]. rewrite Hfetchable. cbn [negb].
        split; [exact Hrows_eq|].
        cbn [app Scraper.failures omap list_omap Scraper.failed_of].
        rewrite ?app_nil_r. rewrite rev_app_distr. cbn [rev app].
        f_equal. exact Hfails_eq. }
      intros u. specialize (Hper u). specialize (Hfor u).
      rewrite !got_app, !List.filter_app, !length_app.
      change (FetchInfo.got [EvPause; EvPrint (ErrorScrape url e)])
        with (@nil pystr).
      change (FetchInfo.got [EvPrint (InfoScraping url)]) with (@nil pystr).
      cbn [List.filter length].
      destruct (pystr_eqb u url); cbn [length]; lia.
Qed.

(** X18. [scrape_many_company_pages] never raises for a failed page: it
    returns the rows of the pages that could be scraped, in the order of the
    URLs, reports each other URL as failed, and goes on.  Every row it returns
    is the row [scrape_company_page] gave for one of the URLs during the run,
    and every report is for a URL whose scrape raised the exception reported.
    On a server that answers each of the URLs the same way at every request,
    the rows are those of exactly the URLs whose answer passes
    [raise_for_status] and whose text the parser accepts, and the reports
    those of exactly the other URLs, both in the order of the URLs.  It pauses
    exactly once per URL, whether the page failed or not, and makes at most
    three GETs per URL: the GETs for a URL are at most three times its
    occurrences in the list. *)
Theorem scrape_many_continues_after_failures (urls : list pystr) (w : World) :
  exists rows evs,
    Scraper.scrape_many_company_pages urls w = (Ok rows, evs ++ w)
    /\ Scraper.pauses evs = length urls
    /\ omap Scraper.row_url rows `sublist_of` urls
    /\ length (omap Scraper.row_url rows) = length rows
    /\ (length rows + length (Scraper.failures evs))%nat = length urls
    /\ (gets evs <= 3 * length urls)%nat
    /\ (forall row, row ∈ rows ->
          exists u evs0 w1,
            u ∈ urls
            /\ Scraper.scrape_company_page u (evs0 ++ w) = (Ok row, w1))
    /\ (forall u e, EvPrint (ErrorScrape u e) ∈ evs ->
          u ∈ urls
          /\ exists evs0 w1,
               Scraper.scrape_company_page u (evs0 ++ w) = (Raise e, w1))
    /\ (Scraper.steady urls ->
        omap Scraper.row_url rows = List.filter Scraper.fetchable urls
        /\ rev (Scraper.failures evs)
           = List.filter (fun u => negb (Scraper.fetchable u)) urls)
    /\ (forall u,
          (length (List.filter (pystr_eqb u) (FetchInfo.got evs))
           <= 3 * length (List.filter (pystr_eqb u) urls))%nat).
Proof.
  destruct (scrape_many_from_spec urls [] w)
    as (rows & evs & Hrun & Hp & Hsub & Hlen & Hcount & Hgets & _
        & Hrows & Hfails & Hexact & Hper).
  exists rows, evs. auto 12.
Qed.


End BatchFacts.

(** The batch of the profile page and of a page the server does not have:
    one row, with the name cut from the analytics data, the prefecture of the
    address and the link of the home page; the other URL is reported, and
    each of the two is followed by a pause. *)
Example scrape_of_the_profile_site :
  let run := @Scraper.scrape_many_company_pages Run.profile_site
               Run.profile_parser Run.select_first_tag Run.clock
               [Run.profile_url; Run.listing_url] [] in
  exists row,
    run.1 = Ok [row]
    /\ Scraper.safe_value row Scraper.KEY_NAME = py "ACME"
    /\ Scraper.safe_value row Scraper.KEY_ADDRESS = Run.CHIBA_ADDRESS
    /\ Scraper.safe_value row Scraper.KEY_PREFECTURE = [21315; 33865; 30476]%N
    /\ Scraper.safe_value row Scraper.KEY_HP = py "https://acme.example/"
    /\ Scraper.failures run.2 = [Run.listing_url]
    /\ Scraper.pauses run.2 = 2%nat.
Proof.
  cbv zeta.
  exists (match (@Scraper.scrape_many_company_pages Run.profile_site
                   Run.profile_parser Run.select_first_tag Run.clock
                   [Run.profile_url; Run.listing_url] []).1 with
          | Ok (row :: _) => row
          | _ => []
          end).
  repeat split; vm_compute; reflexivity.
Qed.

(** A batch of three URLs on a server that answers each request the same
    way: the first page is markup the parser rejects, the second is the
    profile page, the third is not found.  The batch goes on after each
    failure: one row, for the second URL, and the two other URLs reported in
    their order. *)
Lemma scrape_many_continues_after_failures_witness :
  exists rows evs,
    @Scraper.scrape_many_company_pages Run.mixed_site Run.strict_parser
      Run.select_first_tag Run.clock
      [Run.broken_url; Run.profile_url; Run.listing_url] []
    = (Ok rows, evs ++ [])
    /\ omap Scraper.row_url rows = [Run.profile_url]
    /\ rev (Scraper.failures evs) = [Run.broken_url; Run.listing_url].
Proof.
  destruct (@scrape_many_continues_after_failures Run.mixed_site
              Run.strict_parser Run.select_first_tag Run.clock
              [Run.broken_url; Run.profile_url; Run.listing_url] [])
    as (rows & evs & Hrun & _ & _ & _ & _ & _ & _ & _ & Hsteady & _).
  exists rows, evs. split; [exact Hrun|].
  destruct Hsteady as [Hrows Hfails]; [intros u n _; reflexivity|].
  rewrite Hrows, Hfails. split; vm_compute; reflexivity.
Defined.

(** The exceptions reported for the two URLs: the one of the parser, and the
    status 404 after three attempts. *)
Example scrape_reports_rejected_markup :
  (@Scraper.scrape_company_page Run.mixed_site Run.strict_parser
     Run.select_first_tag Run.clock Run.broken_url []).1
  = Raise ParserRejectedMarkup
  /\ (@Scraper.scrape_company_page Run.mixed_site Run.strict_parser
        Run.select_first_tag Run.clock Run.listing_url []).1
     = Raise (ExRequest (HTTPError 404)).
Proof. split; vm_compute; reflexivity. Qed.

(** ** The name of the employer *)

Section NameFacts.
Context `{Network} `{Scraper.HtmlDotParser} `{Scraper.Soupsieve} `{Clock}.

Lemma first_text_spec soup selectors :
  match Scraper.first_text soup selectors with
  | Some text =>
      text <> [] /\ FetchInfo.strip text = text
      /\ exists selector el,
           selector ∈ selectors
           /\ Scraper.select_one soup selector = Ok (Some el)
           /\ text = Scraper.get_text_strip [] el
  | None =>
      forall selector, selector ∈ selectors ->
        match Scraper.select_one soup selector with
        | Ok (Some el) => Scraper.get_text_strip [] el = []
        | Ok None => True
        | Raise _ => True
        end
  end.
Proof.
  induction selectors as [|selector rest IH]; cbn [Scraper.first_text].
  - intros selector Hin. inversion Hin.
  - assert (Hskip :
      match Scraper.select_one soup selector with
      | Ok (Some el) => Scraper.get_text_strip [] el = []
      | Ok None => True
      | Raise _ => True
      end ->
      match Scraper.first_text soup rest with
      | Some text =>
          text <> [] /\ FetchInfo.strip text = text
          /\ exists selector0 el,
               selector0 ∈ selector :: rest
               /\ Scraper.select_one soup selector0 = Ok (Some el)
               /\ text = Scraper.get_text_strip [] el
      | None =>
          forall selector0, selector0 ∈ selector :: rest ->
            match Scraper.select_one soup selector0 with
            | Ok (Some el) => Scraper.get_text_strip [] el = []
            | Ok None => True
            | Raise _ => True
            end
      end).
    { intros Hhere. destruct (Scraper.first_text soup rest) as [text|].
      - destruct IH as (Hne & Hstrip & sel & el & Hin & Hsel & Htext).
        split; [exact Hne|]. split; [exact Hstrip|]. exists sel, el.
        split; [right; exact Hin|auto].
      - intros sel Hin. apply elem_of_cons in Hin as [-> | Hin]; [exact Hhere|].
        apply IH. exact Hin. }
    destruct (Scraper.select_one soup selector) as [[el|]|e] eqn:Hsel;
      [|apply Hskip; exact I..].
    cbn zeta. destruct (truthy (Scraper.get_text_strip [] el)) eqn:Ht.
    + split; [intros E; rewrite E in Ht; discriminate|].
      split; [apply trimmed_strip, get_text_strip_trimmed|].
      exists selector, el. split; [left|auto].
    + apply Hskip. destruct (Scraper.get_text_strip [] el); [reflexivity|discriminate].
Qed.

(** X20. [safe_get_text_from_selectors] returns the text of the
    element one of the selectors finds: a text that is not empty and has no
    whitespace at either end.  It returns [None] exactly when every selector
    raises, finds nothing, or finds an element with no text; a selector that
    raises does not keep the later ones from being tried. *)
Theorem safe_get_text_from_selectors_spec (soup : Soup.node)
    (selectors : list pystr) :
  match Scraper.safe_get_text_from_selectors soup selectors with
  | Some text =>
      text <> [] /\ FetchInfo.strip text = text
      /\ exists selector el,
           selector ∈ selectors
           /\ Scraper.select_one soup selector = Ok (Some el)
           /\ text = Scraper.get_text_strip [] el
  | None =>
      forall selector, selector ∈ selectors ->
        match Scraper.select_one soup selector with
        | Ok (Some el) => Scraper.get_text_strip [] el = []
        | Ok None => True
        | Raise _ => True
        end
  end.
Proof.
  unfold Scraper.safe_get_text_from_selectors.
  destruct selectors as [|selector rest].
  - intros selector Hin. inversion Hin.
  - apply first_text_spec.
Qed.

Lemma replace_suffix_at_end name :
  12398%N ∉ name ->
  Builtins.replace_from Scraper.JOBS_SUFFIX [] 0 (name ++ Scraper.JOBS_SUFFIX) = name.
Proof.
  induction name as [|c name IH]; intros Hc.
  - vm_compute. reflexivity.
  - apply not_elem_of_cons in Hc as [Hne Hc].
    cbn [app Builtins.replace_from]. unfold Scraper.JOBS_SUFFIX at 1.
    cbn [starts_with].
    replace (12398 =? c)%N with false by (symmetry; apply N.eqb_neq; congruence).
    cbn [andb]. rewrite (IH Hc). reflexivity.
Qed.

(** X21. When the page is fetched and parsed, and the analytics data gives
    [prop61] as a name followed by のバイト/アルバイト/パートの求人情報, and the name
    has no の in it, the row holds the name alone under 名称; the heading of
    the page is not consulted. *)
Theorem company_name_without_suffix (url html name : pystr)
    (soup : Soup.node) (w w1 : World) :
  Scraper.fetch_html url w = (Ok html, w1) ->
  Scraper.html_parser html = Ok soup ->
  Soup.get Scraper.PROP61 (Scraper.parse_analytics_data_from_head soup)
  = Some (name ++ Scraper.JOBS_SUFFIX) ->
  12398%N ∉ name ->
  exists row,
    Scraper.scrape_company_page url w = (Ok row, w1)
    /\ Scraper.row_get Scraper.KEY_NAME row = Some (Scraper.PyStr name).
Proof.
  intros Hfetch Hsoup Hprop Hno. unfold Scraper.scrape_company_page, now. mstep.
  rewrite Hfetch, Hsoup. eexists. split; [reflexivity|].
  cbn [Scraper.row_get]. 
  replace (pystr_eqb Scraper.KEY_TIME Scraper.KEY_NAME) with false by reflexivity.
  replace (pystr_eqb Scraper.KEY_URL Scraper.KEY_NAME) with false by reflexivity.
  replace (pystr_eqb Scraper.KEY_NAME Scraper.KEY_NAME) with true by reflexivity.
  rewrite Hprop. cbn [default from_option]. unfold id.
  replace (otruthy (Some (name ++ Scraper.JOBS_SUFFIX))) with true
    by (destruct name; reflexivity).
  unfold Builtins.replace. unfold Scraper.JOBS_SUFFIX at 2.
  fold Scraper.JOBS_SUFFIX. rewrite replace_suffix_at_end by exact Hno.
  reflexivity.
Qed.

End NameFacts.

Lemma company_name_without_suffix_witness :
  exists row,
    @Scraper.scrape_company_page Run.profile_site Run.profile_parser
      Run.select_first_tag Run.clock Run.profile_url []
    = (Ok row, [EvGet Run.profile_url])
    /\ Scraper.row_get Scraper.KEY_NAME row = Some (Scraper.PyStr (py "ACME")).
Proof.
  apply (@company_name_without_suffix Run.profile_site Run.profile_parser
           Run.select_first_tag Run.clock Run.profile_url (py "P") (py "ACME")
           Run.profile_doc [] [EvGet Run.profile_url]).
  - vm_compute. reflexivity.
  - reflexivity.
  - vm_compute. reflexivity.
  - apply (proj1 (bool_decide_eq_true _)). vm_compute. reflexivity.
Defined.

(** The heading is the name of a page without analytics data. *)
Example safe_get_text_of_heading :
  @Scraper.safe_get_text_from_selectors Run.select_first_tag Run.profile_doc
    (Scraper.selectors_for (py "name") Scraper.SELECTORS)
  = Some (py "ACME Inc").
Proof. vm_compute. reflexivity. Qed.

(** ** Job links: none is dropped *)

Section JobLinkFacts.
Context `{Urllib} `{HtmlParser}.

Lemma job_links_from_complete base_url rows :
  forall links,
    match FetchInfo.job_links_from base_url rows links with
    | Ok result =>
        links ⊆ result
        /\ forall li a abs_url parsed,
             li ∈ rows -> Soup.find_a_href li = Some a ->
             urljoin base_url (Soup.href a) = Ok abs_url ->
             urlparse abs_url = Ok parsed ->
             netloc parsed = [] \/ netloc parsed = FetchInfo.BASE_DOMAIN ->
             is_Some (Re.search FetchInfo.JOB_DETAIL_RE (path parsed)) ->
             abs_url ∈ result
    | Raise e =>
        exists li a,
          li ∈ rows /\ Soup.find_a_href li = Some a
          /\ (urljoin base_url (Soup.href a) = Raise e
              \/ exists abs_url, urljoin base_url (Soup.href a) = Ok abs_url
                                 /\ urlparse abs_url = Raise e)
    end.
Proof.
  induction rows as [|li rows IH]; intros links; cbn [FetchInfo.job_links_from].
  - split; [reflexivity|]. intros li a abs_url parsed Hin. inversion Hin.
  - assert (Hnext : forall links',
              links ⊆ links' ->
              (forall a abs_url parsed,
                 Soup.find_a_href li = Some a ->
                 urljoin base_url (Soup.href a) = Ok abs_url ->
                 urlparse abs_url = Ok parsed ->
                 netloc parsed = [] \/ netloc parsed = FetchInfo.BASE_DOMAIN ->
                 is_Some (Re.search FetchInfo.JOB_DETAIL_RE (path parsed)) ->
                 abs_url ∈ links') ->
              match FetchInfo.job_links_from base_url rows links' with
              | Ok result =>
                  links ⊆ result
                  /\ forall li0 a abs_url parsed,
                       li0 ∈ li :: rows -> Soup.find_a_href li0 = Some a ->
                       urljoin base_url (Soup.href a) = Ok abs_url ->
                       urlparse abs_url = Ok parsed ->
                       netloc parsed = [] \/ netloc parsed = FetchInfo.BASE_DOMAIN ->
                       is_Some (Re.search FetchInfo.JOB_DETAIL_RE (path parsed)) ->
                       abs_url ∈ result
              | Raise e =>
                  exists li0 a,
                    li0 ∈ li :: rows /\ Soup.find_a_href li0 = Some a
                    /\ (urljoin base_url (Soup.href a) = Raise e
                        \/ exists abs_url,
                             urljoin base_url (Soup.href a) = Ok abs_url
                             /\ urlparse abs_url = Raise e)
              end).
    { intros links' Hsub Hhere. specialize (IH links').
      destruct (FetchInfo.job_links_from base_url rows links') as [result|e].
      - destruct IH as [Hsub' Hall]. split; [set_solver|].
        intros li0 a abs_url parsed Hin Hfind Hjoin Hparse Hnet Hre.
        apply elem_of_cons in Hin as [-> | Hin].
        + apply Hsub'. eapply Hhere; eassumption.
        + eapply Hall; eassumption.
      - destruct IH as (li0 & a & Hin & Hrest). exists li0, a.
        split; [right; exact Hin|exact Hrest]. }
    destruct (Soup.find_a_href li) as [a|] eqn:Hfind.
    2:{ apply Hnext; [reflexivity|]. intros a abs_url parsed [=]. }
    destruct (urljoin base_url (Soup.href a)) as [abs_url|e] eqn:Hjoin; cbn.
    2:{ exists li, a. split; [left|]. split; [first [exact Hfind|reflexivity]|left; first [exact Hjoin|reflexivity]]. }
    destruct (urlparse abs_url) as [parsed|e] eqn:Hparse; cbn.
    2:{ exists li, a. split; [left|]. split; [first [exact Hfind|reflexivity]|].
        right. exists abs_url. auto. }
    destruct (truthy (netloc parsed)
              && negb (pystr_eqb (netloc parsed) FetchInfo.BASE_DOMAIN)) eqn:Hnet.
    { apply Hnext; [reflexivity|].
      intros a' abs' parsed' [= <-] Hj Hp Hn _.
      rewrite Hjoin in Hj. injection Hj as <-.
      rewrite Hparse in Hp. injection Hp as <-.
      apply andb_true_iff in Hnet as [Ht Hne]. apply negb_true_iff in Hne.
      apply pystr_eqb_false in Hne.
      destruct Hn as [Hn | Hn]; [rewrite Hn in Ht; discriminate|contradiction]. }
    destruct (negb (bool_decide (is_Some (Re.search FetchInfo.JOB_DETAIL_RE
                                            (path parsed))))) eqn:Hre.
    { apply Hnext; [reflexivity|].
      intros a' abs' parsed' [= <-] Hj Hp _ Hs.
      rewrite Hjoin in Hj. injection Hj as <-.
      rewrite Hparse in Hp. injection Hp as <-.
      apply negb_true_iff, bool_decide_eq_false in Hre. contradiction. }
    apply Hnext; [set_solver|].
    intros a' abs' parsed' [= <-] Hj _ _ _.
    rewrite Hjoin in Hj. injection Hj as <-. set_solver.
Qed.

(** X22. No job link of a listing page is dropped: when
    [extract_job_links_from_listing_html] returns, its result holds the
    resolved URL of the first link of every [ul.ul01 li.li01] row whose
    network location is empty or the site host and whose path matches
    [JOB_DETAIL_RE].  When it raises, the exception is the one [urljoin] or
    [urlparse] raised on the first link of a row. *)
Theorem job_links_complete (html base_url : pystr) :
  match FetchInfo.extract_job_links_from_listing_html html base_url with
  | Ok links =>
      forall li a abs_url parsed,
        li ∈ Soup.select_rows (lxml html) -> Soup.find_a_href li = Some a ->
        urljoin base_url (Soup.href a) = Ok abs_url ->
        urlparse abs_url = Ok parsed ->
        netloc parsed = [] \/ netloc parsed = FetchInfo.BASE_DOMAIN ->
        is_Some (Re.search FetchInfo.JOB_DETAIL_RE (path parsed)) ->
        abs_url ∈ links
  | Raise e =>
      exists li a,
        li ∈ Soup.select_rows (lxml html) /\ Soup.find_a_href li = Some a
        /\ (urljoin base_url (Soup.href a) = Raise e
            \/ exists abs_url, urljoin base_url (Soup.href a) = Ok abs_url
                               /\ urlparse abs_url = Raise e)
  end.
Proof.
  unfold FetchInfo.extract_job_links_from_listing_html. cbn zeta.
  pose proof (job_links_from_complete base_url (Soup.select_rows (lxml html)) ∅)
    as Hc.
  destruct (FetchInfo.job_links_from _ _ _) as [links|e]; [|exact Hc].
  apply Hc.
Qed.

End JobLinkFacts.

(** ** The CSV file of the crawl *)

Section MainFacts.
Context `{Network} `{Urllib} `{HtmlParser} `{Clock}.

(** X23. The run of the crawl script writes one file,
    [company_urls.csv]: the header of five columns and one row of five cells
    per record, with the identifier in the first cell and the same time of
    collection in the fourth; the identifiers of the rows are distinct
    strings of digits.  When the crawl raises, no file is written. *)
Theorem main_writes_company_urls (w : World) :
  match FetchInfo.crawl_baitoru_company_ids FetchInfo.START_URL 3 50 w with
  | (Ok infos, w1) =>
      exists rows collected_at,
        FetchInfo.main w
        = (Ok tt,
           EvPrint (ResultSaved (length infos) FetchInfo.OUT_PATH)
             :: EvWriteCsv FetchInfo.OUT_PATH (FetchInfo.CSV_HEADER :: rows)
             :: EvPrint (ResultCollected (length infos)) :: w1)
        /\ length rows = length infos
        /\ Forall (fun cells => length cells = length FetchInfo.CSV_HEADER
                                /\ cells !! 3%nat = Some collected_at) rows
        /\ List.map (fun cells => List.nth 0 cells []) rows
           = List.map FetchInfo.company_id infos
        /\ NoDup (List.map FetchInfo.company_id infos)
        /\ Forall (fun i => FetchInfo.is_id (FetchInfo.company_id i)) infos
  | (Raise e, w1) => FetchInfo.main w = (Raise e, w1)
  end.
Proof.
  unfold FetchInfo.main, now. mstep.
  destruct (FetchInfo.crawl_baitoru_company_ids FetchInfo.START_URL 3 50 w)
    as [[infos|e] w1] eqn:Hcrawl; [|reflexivity].
  exists (List.map (FetchInfo.csv_row (isoformat_now
                                         (EvPrint (ResultCollected (length infos))
                                            :: w1))) infos),
         (isoformat_now (EvPrint (ResultCollected (length infos)) :: w1)).
  split; [reflexivity|]. split; [apply length_map|].
  split; [apply Forall_map, Forall_forall; intros i _; split; reflexivity|].
  split; [rewrite List.map_map; reflexivity|].
  apply crawl_records in Hcrawl as (why & st' & Hrun & ->).
  pose proof Hrun as Hrun'.
  apply crawl_run_sourced in Hrun as (evs & _ & Hnd & Hall).
  unfold FetchInfo.crawl_run in Hrun'.
  apply crawl_loop_spec in Hrun' as (evs' & _ & _ & _ & Hst).
  destruct (Hst why st' eq_refl) as [(_ & _ & _ & _ & Hkeyed) _].
  specialize (Hkeyed ltac:(constructor)). unfold FetchInfo.keyed_by_ids in Hkeyed.
  unfold FetchInfo.values. rewrite List.map_map. split.
  - erewrite (map_ext_Forall _ fst); [exact Hnd|].
    eapply Forall_impl; [exact Hall|]. intros kv (Hid & _). exact Hid.
  - apply Forall_map. eapply Forall_impl; [exact Hkeyed|].
    intros kv [Hid Hc]. cbn. rewrite Hc. exact Hid.
Qed.

End MainFacts.

(** ** The employer link of a job page *)

Lemma head_filter_split {A} (f : A -> bool) l :
  match head (List.filter f l) with
  | Some a =>
      exists before after,
        l = before ++ a :: after /\ f a = true
        /\ Forall (fun x => f x = false) before
  | None => Forall (fun x => f x = false) l
  end.
Proof.
  induction l as [|x l IH]; simpl; [constructor|].
  destruct (f x) eqn:Hx.
  - simpl. exists [], l. auto.
  - destruct (head (List.filter f l)) as [a|].
    + destruct IH as (before & after & -> & Ha & Hb).
      exists (x :: before), after. split; [reflexivity|]. split; [exact Ha|].
      constructor; assumption.
    + constructor; assumption.
Qed.

(** *** The URL model: texts without [?] and [#] *)

Lemma bare_nil : UrllibModel.bare [].
Proof. constructor. Qed.

Lemma bare_app a b : UrllibModel.bare (a ++ b) <-> UrllibModel.bare a /\ UrllibModel.bare b.
Proof. apply Forall_app. Qed.

Lemma bare_filter f s : UrllibModel.bare s -> UrllibModel.bare (List.filter f s).
Proof.
  induction 1 as [|c s Hc _ IH]; cbn [List.filter]; [constructor|].
  destruct (f c); [constructor; assumption|exact IH].
Qed.

Lemma bare_lstrip_c0 s : UrllibModel.bare s -> UrllibModel.bare (UrllibModel.lstrip_c0 s).
Proof.
  induction 1 as [|c s Hc Hs IH]; cbn [UrllibModel.lstrip_c0]; [constructor|].
  destruct (UrllibModel.c0_or_space c); [exact IH|constructor; assumption].
Qed.

Lemma bare_rev s : UrllibModel.bare s -> UrllibModel.bare (rev s).
Proof. intros Hs. apply Forall_rev. exact Hs. Qed.

Lemma bare_strip_c0 s : UrllibModel.bare s -> UrllibModel.bare (UrllibModel.strip_c0 s).
Proof.
  intros Hs. unfold UrllibModel.strip_c0.
  apply bare_rev, bare_lstrip_c0, bare_rev, bare_lstrip_c0, Hs.
Qed.

Lemma bare_remove_unsafe s : UrllibModel.bare s -> UrllibModel.bare (UrllibModel.remove_unsafe s).
Proof. apply bare_filter. Qed.

Lemma bare_scheme_chars s : forallb UrllibModel.scheme_char s = true -> UrllibModel.bare (lower s).
Proof.
  induction s as [|c s IH]; cbn [forallb lower List.map]; [constructor|].
  intros Hs. apply andb_true_iff in Hs as [Hc Hs]. constructor; [|apply IH, Hs].
  unfold UrllibModel.mark, ascii_lower. unfold UrllibModel.scheme_char, Re.in_range in Hc.
  destruct ((65 <=? c) && (c <=? 90))%N eqn:Hup.
  - apply andb_true_iff in Hup as [H1 H2].
    apply N.leb_le in H1. apply N.leb_le in H2.
    apply orb_false_iff. split; apply N.eqb_neq; lia.
  - apply orb_false_iff. split; apply N.eqb_neq; intros ->; discriminate Hc.
Qed.

(** The parts of a text split at the first [c]: the first has no [c], and
    both keep what holds of every character. *)
Lemma split1_spec (P : pychar -> Prop) c s a b :
  UrllibModel.split1 c s = (a, b) ->
  (c ∉ a) /\ (Forall P s -> Forall P a /\ Forall P b).
Proof.
  revert a b. induction s as [|d s IH]; intros a b; cbn [UrllibModel.split1].
  - intros [= <- <-]. split; [apply not_elem_of_nil|auto].
  - destruct (d =? c)%N eqn:Hd.
    + intros [= <- <-]. split; [apply not_elem_of_nil|].
      intros Hs. apply Forall_cons in Hs as [_ Hs]. split; [constructor|exact Hs].
    + destruct (UrllibModel.split1 c s) as [a' b'] eqn:Hsplit.
      intros [= <- <-]. destruct (IH a' b' eq_refl) as [Hno Hkeep].
      apply N.eqb_neq in Hd. split.
      * apply not_elem_of_cons. split; [congruence|exact Hno].
      * intros Hs. apply Forall_cons in Hs as [Hd' Hs].
        destruct (Hkeep Hs). split; [constructor; assumption|assumption].
Qed.

Lemma mem_false c s : UrllibModel.mem c s = false -> c ∉ s.
Proof.
  unfold UrllibModel.mem. induction s as [|d s IH]; cbn [existsb];
    [intros _; apply not_elem_of_nil|].
  intros Hm. apply orb_false_iff in Hm as [Hd Hm]. apply N.eqb_neq in Hd.
  apply not_elem_of_cons. split; [exact Hd|apply IH, Hm].
Qed.

Lemma mem_bare s :
  UrllibModel.mem 63%N s = false -> UrllibModel.mem 35%N s = false -> UrllibModel.bare s.
Proof.
  intros Hq Hf. apply mem_false in Hq, Hf. apply Forall_forall. intros c Hc.
  unfold UrllibModel.mark. apply orb_false_iff.
  split; apply N.eqb_neq; intros ->; contradiction.
Qed.

Lemma not_in_bare s : 63%N ∉ s -> 35%N ∉ s -> UrllibModel.bare s.
Proof.
  intros Hq Hf. apply Forall_forall. intros c Hc. unfold UrllibModel.mark.
  apply orb_false_iff. split; apply N.eqb_neq; intros ->; contradiction.
Qed.

Lemma bare_not_in s : UrllibModel.bare s -> (63%N ∉ s) /\ (35%N ∉ s).
Proof.
  intros Hs. split; intros Hin;
    apply (proj1 (Forall_forall _ _) Hs) in Hin; discriminate Hin.
Qed.

Lemma bare_mem s c : UrllibModel.bare s -> UrllibModel.mark c = true -> UrllibModel.mem c s = false.
Proof.
  unfold UrllibModel.mem. induction 1 as [|d s Hd _ IH]; intros Hc; [reflexivity|].
  cbn [existsb]. rewrite (IH Hc), orb_false_r. apply N.eqb_neq. intros ->.
  congruence.
Qed.

(** The netloc ends before any [?] or [#]; the rest is the end of the
    text. *)
Lemma splitnetloc_spec s a b :
  UrllibModel.splitnetloc s = (a, b) ->
  UrllibModel.bare a /\ (forall P : pychar -> Prop, Forall P s -> Forall P b).
Proof.
  revert a b. induction s as [|c s IH]; intros a b; cbn [UrllibModel.splitnetloc].
  - intros [= <- <-]. split; [constructor|auto].
  - destruct ((c =? 47) || (c =? 63) || (c =? 35))%N eqn:Hc.
    + intros [= <- <-]. split; [constructor|auto].
    + destruct (UrllibModel.splitnetloc s) as [a' b'] eqn:Hsplit.
      intros [= <- <-]. destruct (IH a' b' eq_refl) as [Ha Hb].
      apply orb_false_iff in Hc as [Hc Hf]. apply orb_false_iff in Hc as [_ Hq].
      split.
      * constructor; [unfold UrllibModel.mark; rewrite Hq, Hf; reflexivity|exact Ha].
      * intros P Hs. apply Forall_cons in Hs as [_ Hs]. apply Hb, Hs.
Qed.

Lemma split_from_spec (P : pychar -> Prop) c s :
  forall cur, Forall P cur -> Forall P s ->
              Forall (Forall P) (UrllibModel.split_from c cur s).
Proof.
  induction s as [|d s IH]; intros cur Hcur Hs; cbn [UrllibModel.split_from].
  - constructor; [apply Forall_rev, Hcur|constructor].
  - apply Forall_cons in Hs as [Hd Hs]. destruct (d =? c)%N.
    + constructor; [apply Forall_rev, Hcur|apply IH; [constructor|exact Hs]].
    + apply IH; [constructor; assumption|exact Hs].
Qed.

Lemma split_spec (P : pychar -> Prop) c s :
  Forall P s -> Forall (Forall P) (UrllibModel.split c s).
Proof. intros Hs. apply split_from_spec; [constructor|exact Hs]. Qed.

Lemma join_spec (P : pychar -> Prop) sep parts :
  Forall P sep -> Forall (Forall P) parts -> Forall P (UrllibModel.join sep parts).
Proof.
  intros Hsep. induction 1 as [|x parts Hx Hparts IH]; [constructor|].
  cbn [UrllibModel.join]. destruct parts as [|y parts]; [exact Hx|].
  apply Forall_app. split; [exact Hx|]. apply Forall_app. split; [exact Hsep|exact IH].
Qed.

Lemma Forall_removelast {A} (P : A -> Prop) l : Forall P l -> Forall P (removelast l).
Proof.
  induction 1 as [|x l Hx Hl IH]; [constructor|]. cbn [removelast].
  destruct l; [constructor|]. constructor; assumption.
Qed.

Lemma Forall_last {A} (P : A -> Prop) l d : P d -> Forall P l -> P (List.last l d).
Proof.
  intros Hd. induction 1 as [|x l Hx Hl IH]; [exact Hd|]. cbn [List.last].
  destruct l; [exact Hx|exact IH].
Qed.

Lemma resolve_spec (P : pystr -> Prop) segments :
  forall resolved, Forall P segments -> Forall P resolved ->
                   Forall P (UrllibModel.resolve segments resolved).
Proof.
  induction segments as [|seg segments IH]; intros resolved Hs Hr;
    cbn [UrllibModel.resolve]; [exact Hr|].
  apply Forall_cons in Hs as [Hseg Hs].
  destruct (pystr_eqb seg (py "..")); [apply IH; [exact Hs|apply Forall_removelast, Hr]|].
  destruct (pystr_eqb seg (py ".")); [apply IH; assumption|].
  apply IH; [exact Hs|]. apply Forall_app. split; [exact Hr|constructor; [exact Hseg|constructor]].
Qed.

Lemma drop_inner_empties_spec (P : pystr -> Prop) segments :
  P [] -> Forall P segments -> Forall P (UrllibModel.drop_inner_empties segments).
Proof.
  intros Hnil Hs. unfold UrllibModel.drop_inner_empties.
  destruct segments as [|a [|b rest]]; [exact Hs|exact Hs|].
  apply Forall_cons in Hs as [Ha Hs]. constructor; [exact Ha|].
  apply Forall_app. split.
  - clear Ha. generalize (Forall_removelast _ _ Hs). generalize (removelast (b :: rest)).
    intros l Hl. induction Hl as [|x l Hx _ IH]; cbn [List.filter]; [constructor|].
    destruct (truthy x); [constructor; assumption|exact IH].
  - constructor; [apply Forall_last; assumption|constructor].
Qed.

Lemma bare_take n s : UrllibModel.bare s -> UrllibModel.bare (take n s).
Proof. apply Forall_take. Qed.

Lemma splitparams_spec url a b :
  UrllibModel.splitparams url = (a, b) -> UrllibModel.bare url -> UrllibModel.bare a /\ UrllibModel.bare b.
Proof.
  unfold UrllibModel.splitparams. intros Hsplit Hurl.
  destruct (UrllibModel.mem (UrllibModel.chr "/") url).
  - assert (Hlast : UrllibModel.bare (List.last (UrllibModel.split (UrllibModel.chr "/") url) [])).
    { apply (Forall_last UrllibModel.bare); [constructor|]. apply split_spec. exact Hurl. }
    cbv zeta in Hsplit.
    destruct (UrllibModel.mem (UrllibModel.chr ";") _).
    + destruct (UrllibModel.split1 (UrllibModel.chr ";") _) as [a' b'] eqn:Hs1.
      injection Hsplit as <- <-.
      destruct (split1_spec (fun c => UrllibModel.mark c = false) _ _ _ _ Hs1) as [_ Hkeep].
      destruct (Hkeep Hlast) as [Ha Hb].
      split; [apply bare_app; split; [apply bare_take, Hurl|exact Ha]|exact Hb].
    + injection Hsplit as <- <-. split; [exact Hurl|constructor].
  - destruct (split1_spec (fun c => UrllibModel.mark c = false) _ _ _ _ Hsplit) as [_ Hkeep].
    apply Hkeep, Hurl.
Qed.

Lemma Ok_inj {A} (a b : A) : @Ok A a = Ok b -> a = b.
Proof. intros [= ->]. reflexivity. Qed.

Section ModelFacts.
Variable netloc_valid : pystr -> bool.

(** What [urlsplit] gives: a netloc and a path without [?] and [#], a scheme
    without them when the default is, and neither query nor fragment for a
    text that has none of the two characters. *)
Lemma urlsplit_spec url0 scheme0 sch net pth qry frg :
  UrllibModel.urlsplit netloc_valid url0 scheme0 = Ok (sch, net, pth, qry, frg) ->
  UrllibModel.bare scheme0 ->
  UrllibModel.bare sch /\ UrllibModel.bare net /\ UrllibModel.bare pth /\ (UrllibModel.bare url0 -> qry = [] /\ frg = []).
Proof.
  unfold UrllibModel.urlsplit. cbv zeta. intros Hsplit Hs0.
  set (url := UrllibModel.remove_unsafe (UrllibModel.lstrip_c0 url0)) in *.
  set (dflt := UrllibModel.remove_unsafe (UrllibModel.strip_c0 scheme0)) in *.
  assert (Hdflt : UrllibModel.bare dflt) by apply bare_remove_unsafe, bare_strip_c0, Hs0.
  assert (Hurl : UrllibModel.bare url0 -> UrllibModel.bare url).
  { intros Hu. apply bare_remove_unsafe, bare_lstrip_c0, Hu. }
  destruct (match url with
            | [] => (dflt, url)
            | c :: _ =>
                if UrllibModel.mem (UrllibModel.chr ":") url && UrllibModel.ascii_alpha c
                then let '(pre, post) := UrllibModel.split1 (UrllibModel.chr ":") url in
                     if forallb UrllibModel.scheme_char pre then (lower pre, post)
                     else (dflt, url)
                else (dflt, url)
            end) as [sch1 url1] eqn:Hsch.
  assert (H1 : UrllibModel.bare sch1 /\ (UrllibModel.bare url0 -> UrllibModel.bare url1)).
  { destruct url as [|c t] eqn:Eurl; [injection Hsch as <- <-; auto|].
    destruct (_ && _); [|injection Hsch as <- <-; auto].
    destruct (UrllibModel.split1 _ (c :: t)) as [pre post] eqn:Hs1.
    destruct (forallb UrllibModel.scheme_char pre) eqn:Hpre;
      injection Hsch as <- <-; [|auto].
    split; [apply bare_scheme_chars, Hpre|]. intros Hu.
    destruct (split1_spec (fun c => UrllibModel.mark c = false) _ _ _ _ Hs1) as [_ Hkeep].
    apply Hkeep, Hurl, Hu. }
  destruct H1 as [Hsch1 Hurl1].
  destruct (if starts_with (py "//") url1
            then UrllibModel.splitnetloc (drop 2 url1) else ([], url1))
    as [net1 url2] eqn:Hnet.
  assert (H2 : UrllibModel.bare net1 /\ (UrllibModel.bare url0 -> UrllibModel.bare url2)).
  { destruct (starts_with (py "//") url1).
    - destruct (splitnetloc_spec _ _ _ Hnet) as [Hn Hrest].
      split; [exact Hn|]. intros Hu. apply Hrest. apply Forall_drop, Hurl1, Hu.
    - injection Hnet as <- <-. split; [constructor|exact Hurl1]. }
  destruct H2 as [Hnet1 Hurl2].
  destruct (_ || _); [discriminate Hsplit|].
  destruct (_ && _ && _); [discriminate Hsplit|].
  destruct (if UrllibModel.mem (UrllibModel.chr "#") url2
            then UrllibModel.split1 (UrllibModel.chr "#") url2 else (url2, []))
    as [url3 frg1] eqn:Hfrg.
  assert (H3 : (35%N ∉ url3) /\ (UrllibModel.bare url0 -> UrllibModel.bare url3 /\ frg1 = [])).
  { destruct (UrllibModel.mem (UrllibModel.chr "#") url2) eqn:Hm.
    - destruct (split1_spec (fun c => UrllibModel.mark c = false) _ _ _ _ Hfrg) as [Hno Hkeep].
      split; [exact Hno|]. intros Hu.
      rewrite (bare_mem url2 (UrllibModel.chr "#") (Hurl2 Hu) eq_refl) in Hm.
      discriminate Hm.
    - injection Hfrg as <- <-. split; [apply mem_false, Hm|]. auto. }
  destruct H3 as [Hno3 Hurl3].
  destruct (if UrllibModel.mem (UrllibModel.chr "?") url3
            then UrllibModel.split1 (UrllibModel.chr "?") url3 else (url3, []))
    as [url4 qry1] eqn:Hqry.
  assert (H4 : UrllibModel.bare url4 /\ (UrllibModel.bare url0 -> qry1 = [])).
  { destruct (UrllibModel.mem (UrllibModel.chr "?") url3) eqn:Hm.
    - destruct (split1_spec (fun c => c <> 35%N) _ _ _ _ Hqry) as [Hno Hkeep].
      split.
      + apply not_in_bare; [exact Hno|].
        assert (Hall : Forall (fun c => c <> 35%N) url3).
        { apply Forall_forall. intros c Hc ->. contradiction. }
        destruct (Hkeep Hall) as [Ha _]. intros Hin.
        apply (proj1 (Forall_forall _ _) Ha) in Hin. contradiction.
      + intros Hu. destruct (Hurl3 Hu) as [Hb _].
        rewrite (bare_mem url3 (UrllibModel.chr "?") Hb eq_refl) in Hm.
        discriminate Hm.
    - injection Hqry as <- <-. split; [|auto].
      apply not_in_bare; [apply mem_false, Hm|exact Hno3]. }
  destruct H4 as [Hurl4 Hqry1].
  destruct (_ && _ && _); [discriminate Hsplit|].
  injection Hsplit as <- <- <- <- <-.
  split; [exact Hsch1|]. split; [exact Hnet1|]. split; [exact Hurl4|].
  intros Hu. split; [apply Hqry1, Hu|apply (Hurl3 Hu)].
Qed.

Lemma urlparse_with_spec url scheme0 p :
  UrllibModel.urlparse_with netloc_valid url scheme0 = Ok p ->
  UrllibModel.bare scheme0 ->
  UrllibModel.bare (scheme p) /\ UrllibModel.bare (netloc p) /\ UrllibModel.bare (path p) /\ UrllibModel.bare (params p)
  /\ (UrllibModel.bare url -> query p = [] /\ fragment p = []).
Proof.
  unfold UrllibModel.urlparse_with, mbind, res_bind.
  destruct (UrllibModel.urlsplit netloc_valid url scheme0)
    as [[[[[sch net] pth] qry] frg]|e] eqn:Hsplit; [|discriminate].
  intros Hparse Hs0.
  destruct (urlsplit_spec _ _ _ _ _ _ _ Hsplit Hs0) as (Hsch & Hnet & Hpth & Hq).
  destruct (if UrllibModel.is_in sch UrllibModel.uses_params
               && UrllibModel.mem (UrllibModel.chr ";") pth
            then UrllibModel.splitparams pth else (pth, [])) as [pth' prm] eqn:Hprm.
  injection Hparse as <-. cbn [scheme netloc path params query fragment].
  assert (Hp : UrllibModel.bare pth' /\ UrllibModel.bare prm).
  { destruct (_ && _).
    - apply (splitparams_spec _ _ _ Hprm Hpth).
    - injection Hprm as <- <-. split; [exact Hpth|constructor]. }
  destruct Hp. auto 6.
Qed.

Lemma bare_py_ascii (s : pystr) :
  forallb (fun c => negb (UrllibModel.mark c)) s = true -> UrllibModel.bare s.
Proof.
  induction s as [|c s IH]; cbn [forallb]; [constructor|].
  intros Hs. apply andb_true_iff in Hs as [Hc Hs]. apply negb_true_iff in Hc.
  constructor; [exact Hc|apply IH, Hs].
Qed.

Lemma urlunparse_spec sch net pth prm :
  UrllibModel.bare sch -> UrllibModel.bare net -> UrllibModel.bare pth -> UrllibModel.bare prm ->
  UrllibModel.bare (UrllibModel.urlunparse
          {| scheme := sch; netloc := net; path := pth; params := prm;
             query := []; fragment := [] |}).
Proof.
  intros Hsch Hnet Hpth Hprm.
  unfold UrllibModel.urlunparse, UrllibModel.urlunsplit.
  unfold scheme, netloc, path, params, query, fragment. cbv zeta.
  change (truthy []) with false. cbv iota.
  assert (Hurl : UrllibModel.bare (if truthy prm then pth ++ py ";" ++ prm else pth)).
  { destruct (truthy prm); [|exact Hpth].
    apply bare_app. split; [exact Hpth|]. apply bare_app.
    split; [apply bare_py_ascii; reflexivity|exact Hprm]. }
  set (url := if truthy prm then _ else _) in *.
  assert (Hurl2 : UrllibModel.bare (if truthy net
                           || truthy sch
                              && UrllibModel.is_in sch UrllibModel.uses_netloc
                              && negb (starts_with (py "//") url)
                        then py "//" ++ net
                             ++ (if truthy url && negb (starts_with (py "/") url)
                                 then py "/" ++ url else url)
                        else url)).
  { destruct (_ || _); [|exact Hurl].
    apply bare_app. split; [apply bare_py_ascii; reflexivity|].
    apply bare_app. split; [exact Hnet|].
    destruct (_ && _); [|exact Hurl].
    apply bare_app. split; [apply bare_py_ascii; reflexivity|exact Hurl]. }
  destruct (truthy sch); [|exact Hurl2].
  apply bare_app. split; [exact Hsch|]. apply bare_app.
  split; [apply bare_py_ascii; reflexivity|exact Hurl2].
Qed.

Lemma urlunparse_parsed u :
  UrllibModel.bare (scheme u) -> UrllibModel.bare (netloc u) -> UrllibModel.bare (path u) -> UrllibModel.bare (params u) ->
  query u = [] -> fragment u = [] ->
  UrllibModel.bare (UrllibModel.urlunparse u).
Proof.
  destruct u as [sch net pth prm qry frg]. unfold scheme, netloc, path, params, query, fragment.
  intros Hsch Hnet Hpth Hprm -> ->. apply urlunparse_spec; assumption.
Qed.

(** [urljoin] of two texts without [?] and [#] has neither. *)
Lemma urljoin_bare base url r :
  UrllibModel.urljoin netloc_valid base url = Ok r ->
  UrllibModel.bare base -> UrllibModel.bare url -> UrllibModel.bare r.
Proof.
  unfold UrllibModel.urljoin, mbind, res_bind. intros Hjoin Hbase Hurl.
  destruct (negb (truthy base)); [apply Ok_inj in Hjoin as <-; exact Hurl|].
  destruct (negb (truthy url)); [apply Ok_inj in Hjoin as <-; exact Hbase|].
  destruct (UrllibModel.urlparse_with netloc_valid base []) as [b|e] eqn:Hb;
    [|discriminate Hjoin].
  destruct (urlparse_with_spec _ _ _ Hb bare_nil)
    as (Hbs & Hbn & Hbp & Hbprm & Hbq).
  destruct (Hbq Hbase) as [Hbq1 Hbf1].
  destruct (UrllibModel.urlparse_with netloc_valid url (scheme b)) as [u|e] eqn:Hu;
    [|discriminate Hjoin].
  destruct (urlparse_with_spec _ _ _ Hu Hbs)
    as (Hus & Hun & Hup & Huprm & Huq).
  destruct (Huq Hurl) as [Huq1 Huf1].
  destruct (_ || _); [apply Ok_inj in Hjoin as <-; exact Hurl|].
  destruct (_ && _).
  { apply Ok_inj in Hjoin as <-. apply urlunparse_parsed; assumption. }
  assert (Hnet' : UrllibModel.bare (if UrllibModel.is_in (scheme u) UrllibModel.uses_netloc
                        then netloc b else netloc u))
    by (destruct (UrllibModel.is_in _ _); assumption).
  cbv zeta in Hjoin. rewrite Huq1, Huf1, Hbq1 in Hjoin.
  change (if truthy [] then [] else []) with (@nil pychar) in Hjoin.
  destruct (negb (truthy (path u)) && negb (truthy (params u))).
  { apply Ok_inj in Hjoin as <-. apply urlunparse_spec; assumption. }
  apply Ok_inj in Hjoin as <-.
  apply urlunparse_spec; try assumption.
  set (joined := UrllibModel.join _ _).
  assert (Hjoined : UrllibModel.bare joined).
  { unfold joined. apply join_spec; [apply bare_py_ascii; reflexivity|].
    set (segments := if starts_with (py "/") (path u) then _ else _).
    assert (Hseg : Forall UrllibModel.bare segments).
    { unfold segments. destruct (starts_with _ _); [apply split_spec, Hup|].
      apply (drop_inner_empties_spec UrllibModel.bare); [constructor|].
      apply Forall_app. split; [|apply split_spec, Hup].
      destruct (truthy _); [apply Forall_removelast|]; apply split_spec, Hbp. }
    destruct (_ || _).
    - apply Forall_app. split; [|repeat constructor].
      apply (resolve_spec UrllibModel.bare); [exact Hseg|constructor].
    - apply (resolve_spec UrllibModel.bare); [exact Hseg|constructor]. }
  destruct (truthy joined); [exact Hjoined|apply bare_py_ascii; reflexivity].
Qed.

End ModelFacts.

(** The employer URL of a job page has neither query nor fragment. *)
Lemma company_url_bare `{HtmlParser} html job_url company_url :
  @FetchInfo.extract_company_url_from_job_html UrllibModel.cpython _ html job_url
  = Ok (Some company_url) ->
  UrllibModel.bare company_url.
Proof.
  unfold FetchInfo.extract_company_url_from_job_html, mbind, res_bind. cbv zeta.
  destruct (head _) as [a|]; [|discriminate].
  destruct (urljoin job_url (Soup.href a)) as [abs_url|e]; [|discriminate].
  destruct (urlparse abs_url) as [parsed|e] eqn:Hparse; [|discriminate].
  destruct (urljoin _ (path parsed)) as [u|e] eqn:Hjoin; [|discriminate].
  intros [= <-].
  destruct (urlparse_with_spec _ _ _ _ Hparse bare_nil) as (Hs & Hn & Hp & _).
  apply (urljoin_bare _ _ _ _ Hjoin); [|exact Hp].
  apply bare_app. split; [exact Hs|]. apply bare_app.
  split; [apply bare_py_ascii; reflexivity|exact Hn].
Qed.

Section CompanyUrlFacts.
Context `{Urllib} `{HtmlParser}.

(** X24. [extract_company_url_from_job_html] looks at one tag only: the
    first [a[href]] of the page, in document order, whose string holds
    この会社の情報をもっと見る.  With no such tag it returns [None] and calls
    nothing that can raise.  Otherwise the result is [urljoin] of the scheme
    and network location with the path of the resolved href; an exception is
    one of the three calls of the URL library on that link.  With the
    [urljoin] and [urlparse] of CPython the URL it returns has neither [?]
    nor [#] in it, whatever the link and the URL of the job page are: the
    query and the fragment of the link are dropped. *)
Theorem company_url_from_first_link (html job_url : pystr) :
  let wanted a :=
    Soup.is_a_href a && Soup.string_contains FetchInfo.MORE_ABOUT_COMPANY a in
  (forall company_url,
     @FetchInfo.extract_company_url_from_job_html UrllibModel.cpython _
       html job_url = Ok (Some company_url) ->
     (63%N ∉ company_url) /\ (35%N ∉ company_url))
  /\
  match head (List.filter wanted (Soup.descendants (lxml html))) with
  | None =>
      Forall (fun a => wanted a = false) (Soup.descendants (lxml html))
      /\ FetchInfo.extract_company_url_from_job_html html job_url = Ok None
  | Some a =>
      (exists before after,
         Soup.descendants (lxml html) = before ++ a :: after
         /\ wanted a = true /\ Forall (fun x => wanted x = false) before)
      /\ match FetchInfo.extract_company_url_from_job_html html job_url with
         | Ok result =>
             exists abs_url parsed company_url,
               urljoin job_url (Soup.href a) = Ok abs_url
               /\ urlparse abs_url = Ok parsed
               /\ urljoin (scheme parsed ++ py "://" ++ netloc parsed)
                    (path parsed) = Ok company_url
               /\ result = Some company_url
         | Raise e =>
             urljoin job_url (Soup.href a) = Raise e
             \/ exists abs_url,
                  urljoin job_url (Soup.href a) = Ok abs_url
                  /\ (urlparse abs_url = Raise e
                      \/ exists parsed,
                           urlparse abs_url = Ok parsed
                           /\ urljoin (scheme parsed ++ py "://" ++ netloc parsed)
                                (path parsed) = Raise e)
         end
  end.
Proof.
  cbv zeta. split.
  { intros company_url Hrun. apply bare_not_in.
    exact (company_url_bare _ _ _ Hrun). }
  unfold FetchInfo.extract_company_url_from_job_html. cbn zeta.
  pose proof (head_filter_split
                (fun a => Soup.is_a_href a
                          && Soup.string_contains FetchInfo.MORE_ABOUT_COMPANY a)
                (Soup.descendants (lxml html))) as Hsplit.
  destruct (head (List.filter _ (Soup.descendants (lxml html)))) as [a|];
    [|split; [exact Hsplit|reflexivity]].
  split; [exact Hsplit|].
  destruct (urljoin job_url (Soup.href a)) as [abs_url|e] eqn:Hjoin; cbn;
    [|left; reflexivity].
  destruct (urlparse abs_url) as [parsed|e] eqn:Hparse; cbn.
  2:{ right. exists abs_url. split; [reflexivity|]. left. exact Hparse. }
  destruct (urljoin (scheme parsed ++ py "://" ++ netloc parsed) (path parsed))
    as [company_url|e] eqn:Hcu; cbn.
  - exists abs_url, parsed, company_url. auto.
  - right. exists abs_url. split; [reflexivity|]. right. exists parsed. auto.
Qed.

End CompanyUrlFacts.

(** The employer link of the job page at hand, with its fragment dropped. *)
Example company_url_of_the_job_page :
  @FetchInfo.extract_company_url_from_job_html UrllibModel.cpython Run.parser
    (py "J") Run.job_url
  = Ok (Some (py "https://www.baitoru.com/cjlist333/")).
Proof. vm_compute. reflexivity. Qed.

(** Identifiers that differ as strings and agree as integers stay in the
    order they came in; 10 sorts after 9. *)
Example build_company_urls_of_mixed_ids :
  FetchInfo.build_company_urls_from_infos
    (List.map (fun cid => {| FetchInfo.company_id := py cid;
                             FetchInfo.company_url := [];
                             FetchInfo.source_job_url := [];
                             FetchInfo.source_listing_url := [] |})
       ["10"; "9"; "007"; "7"]%string)
  = Ok (List.map (fun cid => FetchInfo.cjlist_url (py cid))
          ["007"; "7"; "9"; "10"]%string).
Proof. vm_compute. reflexivity. Qed.
